(** * Interactive Session & Element-Mapping Engine

    A shallow embedding of [server/src/services/interactiveTestBuilder.ts]
    (class [InteractiveTestBuilder], with its Code Synthesizer) and of the
    session routes of the router, followed by the properties of the engine
    that the specification states about it and by further properties of
    the engine, the routes and the generated code.

    Conventions of the embedding.
    - A JavaScript string is a [string]: a sequence of code units below 256.
      [trim] and [toLowerCase] are the ECMAScript functions on that range.
      Outside it [toLowerCase] can lengthen a string (U+0130 becomes two
      code units); no property below relies on its keeping the length.
    - A number that counts ([version]) is the integer it holds; [++] is
      the addition of the double-precision numbers ([Js.increment]), exact
      on the safe integers.
    - [Date.now()] / [new Date()] is an explicit argument [now] (milliseconds);
      the clock is read once per call of a public operation, and an event
      of the page carries the time at which its listener runs.
    - A JavaScript [Map] is an insertion-ordered association list with
      unique keys ([JsMap]); iteration order is insertion order.
    - Objects that the program shares by reference (element descriptors,
      page object models) live in a store and are named by their location;
      a mutation of an object is a write to the store.
    - The browser and the file system are an oracle ([Env]): what
      Playwright, the DOM and [fs] answer during one call is an input of
      that call. The [framenavigated] events that [page.click],
      [page.fill] and [page.goto] raise are part of their answer: the
      listener of the session's page runs for each of them while the call
      is pending. The calls on one session are issued one after the other;
      an event or an overlay message that no call raised comes between
      two calls.
    - [RegExp] and [URL] are built-ins ([Builtins]); the engine is stated
      for any implementation of them that agrees with the modelled
      fragments ([faithful]).
    - A rejected promise / thrown exception is the [Throw] result. *)

From Stdlib Require Import String Ascii List ZArith Bool Lia PeanoNat DecimalString.
From Stdlib Require Import Permutation DecimalZ DecimalPos.
Import ListNotations.
Open Scope string_scope.
Open Scope nat_scope.

(** ** JavaScript values *)

Module Js.

(** Outcome of an operation that may throw. *)
Inductive result (A : Type) : Type :=
| Ok (a : A)
| Throw (message : string).
Arguments Ok {A} a.
Arguments Throw {A} message.

(** Truthiness of a string: the empty string is falsy. *)
Definition truthy (s : string) : bool :=
  match s with
  | EmptyString => false
  | String _ _ => true
  end.

(** Truthiness of a [string | null]. *)
Definition truthy_opt (o : option string) : bool :=
  match o with
  | Some s => truthy s
  | None => false
  end.

(** [a || b] on values of type [string | null]. *)
Definition or_else (a b : option string) : option string :=
  if truthy_opt a then a else b.

(** [a || b] where [b] is a string: the usual defaulting idiom. *)
Definition or_default (a : option string) (b : string) : string :=
  match a with
  | Some s => if truthy s then s else b
  | None => b
  end.

(** White space of [String.prototype.trim] among the code units below 256:
    TAB, LF, VT, FF, CR, SPACE and NO-BREAK SPACE. *)
Definition isWhiteSpace (c : ascii) : bool :=
  let n := nat_of_ascii c in
  ((9 <=? n) && (n <=? 13)) || (n =? 32) || (n =? 160).

Fixpoint trimStart (s : string) : string :=
  match s with
  | EmptyString => EmptyString
  | String c s' => if isWhiteSpace c then trimStart s' else s
  end.

Fixpoint trimEnd (s : string) : string :=
  match s with
  | EmptyString => EmptyString
  | String c s' =>
      match trimEnd s' with
      | EmptyString => if isWhiteSpace c then EmptyString else String c EmptyString
      | r => String c r
      end
  end.

Definition trim (s : string) : string := trimEnd (trimStart s).

(** [toLowerCase] on one code unit below 256: A-Z, and the Latin-1 capitals
    U+00C0..U+00DE except the multiplication sign U+00D7. *)
Definition lowerChar (c : ascii) : ascii :=
  let n := nat_of_ascii c in
  if ((65 <=? n) && (n <=? 90))
     || ((192 <=? n) && (n <=? 222) && negb (n =? 215))
  then ascii_of_nat (n + 32)
  else c.

Fixpoint toLowerCase (s : string) : string :=
  match s with
  | EmptyString => EmptyString
  | String c s' => String (lowerChar c) (toLowerCase s')
  end.

(** [toUpperCase] on one code unit: a-z, and the Latin-1 small letters
    U+00E0..U+00FE except the division sign U+00F7. The three code units
    whose capital lies outside the range are left as they are. *)
Definition upperChar (c : ascii) : ascii :=
  let n := nat_of_ascii c in
  if ((97 <=? n) && (n <=? 122))
     || ((224 <=? n) && (n <=? 254) && negb (n =? 247))
  then ascii_of_nat (n - 32)
  else c.

(** [s.substring(0, n)]. *)
Fixpoint take (n : nat) (s : string) : string :=
  match n, s with
  | O, _ => EmptyString
  | _, EmptyString => EmptyString
  | S n', String c s' => String c (take n' s')
  end.

(** The one-character string made of a double quote. *)
Definition dq : string := String (ascii_of_nat 34) EmptyString.

(** A [string | null] interpolated in a template literal. *)
Definition interpolate (o : option string) : string :=
  match o with
  | Some s => s
  | None => "null"
  end.

(** Decimal rendering of an integer inside a template literal. *)
Definition ofZ (z : Z) : string := NilZero.string_of_int (Z.to_int z).

Definition ofNat (n : nat) : string := ofZ (Z.of_nat n).

(** Every code unit of the string satisfies [f]. *)
Fixpoint every (f : ascii -> bool) (s : string) : bool :=
  match s with
  | EmptyString => true
  | String c s' => f c && every f s'
  end.

(** [c] is matched by the character class [[a-z0-9]]. *)
Definition isLowerAlnum (c : ascii) : bool :=
  let n := nat_of_ascii c in
  ((97 <=? n) && (n <=? 122)) || ((48 <=? n) && (n <=? 57)).

(** [c] is matched by [\d]. *)
Definition isDigit (c : ascii) : bool :=
  let n := nat_of_ascii c in
  (48 <=? n) && (n <=? 57).

(** [s.replace(/[^a-z0-9]/g, '_')]. *)
Fixpoint replaceNonAlnum (s : string) : string :=
  match s with
  | EmptyString => EmptyString
  | String c s' =>
      String (if isLowerAlnum c then c else "_"%char) (replaceNonAlnum s')
  end.

(** [s.replace(/_+/g, '_')]: every maximal run of underscores becomes one. *)
Fixpoint collapseUnderscores (s : string) : string :=
  match s with
  | EmptyString => EmptyString
  | String c s' =>
      if Ascii.eqb c "_"%char then
        match s' with
        | String c' _ =>
            if Ascii.eqb c' "_"%char then collapseUnderscores s'
            else String c (collapseUnderscores s')
        | EmptyString => String c EmptyString
        end
      else String c (collapseUnderscores s')
  end.

Definition dropLeadingUnderscore (s : string) : string :=
  match s with
  | String c s' => if Ascii.eqb c "_"%char then s' else s
  | EmptyString => EmptyString
  end.

Fixpoint dropTrailingUnderscore (s : string) : string :=
  match s with
  | EmptyString => EmptyString
  | String c EmptyString => if Ascii.eqb c "_"%char then EmptyString else s
  | String c s' => String c (dropTrailingUnderscore s')
  end.

(** [s.replace(/^_|_$/g, '')]: the scan removes an underscore at index 0,
    and, further right, an underscore that is the last code unit. *)
Definition stripEdgeUnderscores (s : string) : string :=
  dropTrailingUnderscore (dropLeadingUnderscore s).

(** *** Numbers

    An integer-valued number is the integer it holds. A number has 53
    significant bits: every integer below [2^53] in magnitude is a number,
    and the result of an operation that is not a number is rounded to the
    nearest one, to the one with the even significand in a tie. *)

(** [Number.isSafeInteger(z)]. *)
Definition isSafeInteger (z : Z) : bool := (Z.abs z <? 2 ^ 53)%Z.

(** The number nearest to the integer [z]. *)
Definition roundToNumber (z : Z) : Z :=
  let a := Z.abs z in
  if (a <? 2 ^ 53)%Z then z
  else
    let ulp := (2 ^ (Z.log2 a - 52))%Z in
    let low := (a / ulp * ulp)%Z in
    let rest := (a - low)%Z in
    let magnitude :=
      if (2 * rest <? ulp)%Z then low
      else if (ulp <? 2 * rest)%Z then (low + ulp)%Z
      else if Z.even (a / ulp) then low
      else (low + ulp)%Z in
    (Z.sgn z * magnitude)%Z.

(** [n + 1] on an integer-valued number, the value [n++] stores. *)
Definition increment (n : Z) : Z := roundToNumber (n + 1).

End Js.

Import Js.

(** ** Insertion-ordered maps (the JavaScript [Map]) *)

Module JsMap.

Section WithValue.
Context {V : Type}.

Definition t := list (string * V).

Definition empty : t := [].

Fixpoint get (m : t) (k : string) : option V :=
  match m with
  | [] => None
  | (k', v) :: m' => if String.eqb k' k then Some v else get m' k
  end.

Definition has (m : t) (k : string) : bool :=
  match get m k with
  | Some _ => true
  | None => false
  end.

(** [m.set(k, v)]: an existing key keeps its position, a new key goes
    last. *)
Fixpoint set (m : t) (k : string) (v : V) : t :=
  match m with
  | [] => [(k, v)]
  | (k', v') :: m' =>
      if String.eqb k' k then (k', v) :: m' else (k', v') :: set m' k v
  end.

(** [m.delete(k)]; keys are unique, so at most one entry goes. *)
Fixpoint delete (m : t) (k : string) : t :=
  match m with
  | [] => []
  | (k', v') :: m' =>
      if String.eqb k' k then delete m' k else (k', v') :: delete m' k
  end.

Definition keys (m : t) : list string := map fst m.

Definition values (m : t) : list V := map snd m.

End WithValue.

Arguments t V : clear implicits.

End JsMap.

(** ** Object store *)

Module Store.

Section WithObject.
Context {A : Type}.

Definition t := list A.

Definition read (s : t) (l : nat) : option A := nth_error s l.

Fixpoint write (s : t) (l : nat) (a : A) : t :=
  match s, l with
  | [], _ => []
  | _ :: s', O => a :: s'
  | x :: s', S l' => x :: write s' l' a
  end.

(** A new object gets the next free location. *)
Definition alloc (s : t) (a : A) : nat * t :=
  (List.length s, (s ++ [a])%list).

End WithObject.

Arguments t A : clear implicits.

End Store.

(** ** The live document *)

Module Dom.

(** One element of the rendered page, as the in-page script reads it:
    [tagName] (upper case for HTML elements), the attribute list in
    document order, [textContent], the size of [getBoundingClientRect()]
    in layout units, and the inline [style.display] / [style.visibility]. *)
Record HTMLElement : Type := {
  tagName : string;
  attributes : list (string * string);
  textContent : string;
  rectWidth : Z;
  rectHeight : Z;
  styleDisplay : string;
  styleVisibility : string
}.

(** [el.getAttribute(name)]: [null] when the attribute is absent. *)
Fixpoint lookupAttribute (attrs : list (string * string)) (name : string)
  : option string :=
  match attrs with
  | [] => None
  | (n, v) :: attrs' =>
      if String.eqb n name then Some v else lookupAttribute attrs' name
  end.

Definition getAttribute (el : HTMLElement) (name : string) : option string :=
  lookupAttribute (attributes el) name.

Definition hasAttribute (el : HTMLElement) (name : string) : bool :=
  match getAttribute el name with
  | Some _ => true
  | None => false
  end.

(** [el.id] reflects the [id] attribute; it is [''] when there is none. *)
Definition id (el : HTMLElement) : string :=
  match getAttribute el "id" with
  | Some v => v
  | None => EmptyString
  end.

(** The document: its elements in tree order. The position of an element
    in the list is its node identity. *)
Definition Document := list HTMLElement.

End Dom.

(** ** Data model *)

(** [ElementMapping['type']]. *)
Inductive ElementType : Type :=
| TButton | TInput | TLink | TText | TDropdown | TCheckbox | TRadio | TOther.

Definition ElementType_to_string (t : ElementType) : string :=
  match t with
  | TButton => "button"
  | TInput => "input"
  | TLink => "link"
  | TText => "text"
  | TDropdown => "dropdown"
  | TCheckbox => "checkbox"
  | TRadio => "radio"
  | TOther => "other"
  end.

Module ElementMapping.

Record t : Type := {
  id : string;
  name : string;
  selector : string;
  alternativeSelectors : list string;
  type : ElementType;
  attributes : list (string * string);
  text : option string;
  screenshot : option string;
  lastVerified : Z;
  isStable : bool
}.

(** [element.selector = s]. *)
Definition set_selector (s : string) (e : t) : t :=
  {| id := id e; name := name e; selector := s;
     alternativeSelectors := alternativeSelectors e; type := type e;
     attributes := attributes e; text := text e; screenshot := screenshot e;
     lastVerified := lastVerified e; isStable := isStable e |}.

(** [element.lastVerified = d]. *)
Definition set_lastVerified (d : Z) (e : t) : t :=
  {| id := id e; name := name e; selector := selector e;
     alternativeSelectors := alternativeSelectors e; type := type e;
     attributes := attributes e; text := text e; screenshot := screenshot e;
     lastVerified := d; isStable := isStable e |}.

(** [element.isStable = b]. *)
Definition set_isStable (b : bool) (e : t) : t :=
  {| id := id e; name := name e; selector := selector e;
     alternativeSelectors := alternativeSelectors e; type := type e;
     attributes := attributes e; text := text e; screenshot := screenshot e;
     lastVerified := lastVerified e; isStable := b |}.

End ElementMapping.

Module PageObjectModel.

(** [elements] holds the locations of the element descriptors. *)
Record t : Type := {
  id : string;
  name : string;
  url : string;
  urlPattern : option string;
  elements : list nat;
  lastUpdated : Z;
  version : Z;
  screenshots : string * string
}.

Definition set_elements (els : list nat) (p : t) : t :=
  {| id := id p; name := name p; url := url p; urlPattern := urlPattern p;
     elements := els; lastUpdated := lastUpdated p; version := version p;
     screenshots := screenshots p |}.

Definition set_lastUpdated (d : Z) (p : t) : t :=
  {| id := id p; name := name p; url := url p; urlPattern := urlPattern p;
     elements := elements p; lastUpdated := d; version := version p;
     screenshots := screenshots p |}.

(** [pom.version++], on the number [version] holds. *)
Definition incr_version (p : t) : t :=
  {| id := id p; name := name p; url := url p; urlPattern := urlPattern p;
     elements := elements p; lastUpdated := lastUpdated p;
     version := increment (version p); screenshots := screenshots p |}.

End PageObjectModel.

Inductive Action : Type :=
| AClick | AFill | ASelect | ACheck | AUncheck | AHover | ANavigate | AWait
| AAssert.

Inductive AssertionType : Type :=
| AsVisible | AsText | AsValue | AsCount | AsUrl | AsTitle.

Module TestStep.

Record t : Type := {
  id : string;
  action : Action;
  elementId : option string;
  elementName : option string;
  selector : option string;
  value : option string;
  assertion : option (AssertionType * string);
  screenshot : option string;
  timestamp : Z
}.

End TestStep.

Module Session.

(** The browser, context and page handles of the source are the [Env]
    oracle handed to each operation; [currentPageObject] is the location
    of the model in the store (a reference, not a copy), and
    [elementMappings] maps an element id to the location of its
    descriptor. *)
Record t : Type := {
  id : string;
  currentUrl : string;
  currentPageObject : option nat;
  recordedSteps : list TestStep.t;
  elementMappings : JsMap.t nat;
  isRecording : bool;
  traceFile : option string
}.

Definition set_currentUrl (u : string) (s : t) : t :=
  {| id := id s; currentUrl := u;
     currentPageObject := currentPageObject s;
     recordedSteps := recordedSteps s; elementMappings := elementMappings s;
     isRecording := isRecording s; traceFile := traceFile s |}.

Definition set_currentPageObject (p : option nat) (s : t) : t :=
  {| id := id s; currentUrl := currentUrl s;
     currentPageObject := p;
     recordedSteps := recordedSteps s; elementMappings := elementMappings s;
     isRecording := isRecording s; traceFile := traceFile s |}.

Definition set_isRecording (b : bool) (s : t) : t :=
  {| id := id s; currentUrl := currentUrl s;
     currentPageObject := currentPageObject s;
     recordedSteps := recordedSteps s; elementMappings := elementMappings s;
     isRecording := b; traceFile := traceFile s |}.

Definition set_recordedSteps (steps : list TestStep.t) (s : t) : t :=
  {| id := id s; currentUrl := currentUrl s;
     currentPageObject := currentPageObject s;
     recordedSteps := steps; elementMappings := elementMappings s;
     isRecording := isRecording s; traceFile := traceFile s |}.

Definition set_traceFile (f : option string) (s : t) : t :=
  {| id := id s; currentUrl := currentUrl s;
     currentPageObject := currentPageObject s;
     recordedSteps := recordedSteps s; elementMappings := elementMappings s;
     isRecording := isRecording s; traceFile := f |}.

Definition set_elementMappings (m : JsMap.t nat) (s : t) : t :=
  {| id := id s; currentUrl := currentUrl s;
     currentPageObject := currentPageObject s;
     recordedSteps := recordedSteps s; elementMappings := m;
     isRecording := isRecording s; traceFile := traceFile s |}.

End Session.

(** ** The browser and the file system, as seen during one call *)

(** Answer of a selector lookup ([page.$], [document.querySelector]). *)
Inductive Probe : Type :=
| Found (el : Dom.HTMLElement)
| Missing
| Crashed.

Record Env : Type := {
  (** the live document read by [page.evaluate]; [None] when the
      evaluation is rejected *)
  document : option Dom.Document;
  (** [await page.$(selector)] *)
  locate : string -> Probe;
  (** [document.querySelector(selector)] inside [page.evaluate] *)
  querySelector : string -> Probe;
  (** [document.querySelectorAll('.' + cls).length]; [None] when the
      selector is rejected *)
  classCount : string -> option nat;
  (** [await page.click(selector)] resolves *)
  click : string -> bool;
  (** the [framenavigated] events raised while [page.click(selector)] is
      pending, in order: the value of [page.url()] and the time at each *)
  clickNavigations : string -> list (string * Z);
  (** [await page.fill(selector, value)] resolves *)
  fill : string -> string -> bool;
  (** the [framenavigated] events raised while [page.fill(selector, value)]
      is pending *)
  fillNavigations : string -> string -> list (string * Z);
  (** [await page.goto(url, ...)] resolves *)
  goto : string -> bool;
  (** the [framenavigated] events raised while [page.goto(url, ...)] is
      pending *)
  gotoNavigations : string -> list (string * Z);
  (** [await page.title()] *)
  title : string;
  (** the overlay injection resolves *)
  overlayOk : bool;
  (** [fs.mkdir] and [page.screenshot] resolve *)
  screenshotOk : bool;
  (** [context.tracing.stop] resolves *)
  tracingStopOk : bool;
  (** [page.close], [context.close] and [browser.close] resolve *)
  closeOk : bool;
  (** [fs.mkdir] and [fs.writeFile] in the repository path resolve *)
  fsOk : bool
}.

(** ** Element Extractor and Selector Resolver *)

Module Extractor.

Import Dom.

(** [generateBestSelector], the in-page helper of [extractAllElements]. *)
Definition generateBestSelector (el : HTMLElement) : string :=
  if truthy (Dom.id el) then "#" ++ Dom.id el
  else
    let dataTestId :=
      or_else (getAttribute el "data-testid")
        (or_else (getAttribute el "data-test") (getAttribute el "data-cy")) in
    if truthy_opt dataTestId
    then "[data-testid=" ++ dq ++ interpolate dataTestId ++ dq ++ "]"
    else if truthy_opt (getAttribute el "name")
    then "[name=" ++ dq ++ interpolate (getAttribute el "name") ++ dq ++ "]"
    else
      let text := trim (textContent el) in
      if truthy text && (String.length text <? 30)
         && (String.eqb (tagName el) "BUTTON" || String.eqb (tagName el) "A")
      then "text=" ++ dq ++ text ++ dq
      else toLowerCase (tagName el).

(** [detectType], the in-page helper of [extractAllElements]. *)
Definition detectType (el : HTMLElement) : ElementType :=
  let tag := toLowerCase (tagName el) in
  let type := getAttribute el "type" in
  let typeIs (s : string) : bool :=
    match type with
    | Some v => String.eqb v s
    | None => false
    end in
  if String.eqb tag "button" then TButton
  else if String.eqb tag "a" then TLink
  else if String.eqb tag "input"
          && (typeIs "text" || typeIs "email" || typeIs "password")
  then TInput
  else if String.eqb tag "input" && typeIs "checkbox" then TCheckbox
  else if String.eqb tag "input" && typeIs "radio" then TRadio
  else if String.eqb tag "select" then TDropdown
  else if String.eqb tag "textarea" then TInput
  else TOther.

(** [getAttributes]: later attributes of the same name overwrite the value
    of the first one, which keeps its place among the object's keys. *)
Definition getAttributes (el : HTMLElement) : list (string * string) :=
  fold_left (fun attrs a => JsMap.set attrs (fst a) (snd a))
    (attributes el) JsMap.empty.

(** The fixed list of selectors of interactive elements. *)
Inductive InteractiveSelector : Type :=
| SelButton | SelAnchorHref | SelInputNotHidden | SelTextarea | SelSelect
| SelRoleButton | SelOnclick.

Definition selectors : list InteractiveSelector :=
  [SelButton; SelAnchorHref; SelInputNotHidden; SelTextarea; SelSelect;
   SelRoleButton; SelOnclick].

Definition selectorText (s : InteractiveSelector) : string :=
  match s with
  | SelButton => "button"
  | SelAnchorHref => "a[href]"
  | SelInputNotHidden => "input:not([type=" ++ dq ++ "hidden" ++ dq ++ "])"
  | SelTextarea => "textarea"
  | SelSelect => "select"
  | SelRoleButton => "[role=" ++ dq ++ "button" ++ dq ++ "]"
  | SelOnclick => "[onclick]"
  end.

(** CSS matching of the seven selectors on an HTML element. Type selectors
    compare the local name; the value of [type] is compared without regard
    to ASCII case, the value of [role] exactly. *)
Definition matches (s : InteractiveSelector) (el : HTMLElement) : bool :=
  let tag := toLowerCase (tagName el) in
  match s with
  | SelButton => String.eqb tag "button"
  | SelAnchorHref => String.eqb tag "a" && hasAttribute el "href"
  | SelInputNotHidden =>
      String.eqb tag "input"
      && negb match getAttribute el "type" with
              | Some v => String.eqb (toLowerCase v) "hidden"
              | None => false
              end
  | SelTextarea => String.eqb tag "textarea"
  | SelSelect => String.eqb tag "select"
  | SelRoleButton =>
      match getAttribute el "role" with
      | Some v => String.eqb v "button"
      | None => false
      end
  | SelOnclick => hasAttribute el "onclick"
  end.

(** The plain record pushed for one retained node. *)
Record RawElement : Type := {
  rawSelector : string;
  rawType : ElementType;
  rawText : string;
  rawAttributes : list (string * string)
}.

(** Body of the inner [forEach]: [processed] is the set of node
    identities already seen, [elements] the records pushed so far. *)
Definition visit (acc : list nat * list RawElement)
  (node : nat * HTMLElement) : list nat * list RawElement :=
  let '(processed, elements) := acc in
  let '(ident, el) := node in
  if existsb (Nat.eqb ident) processed then acc
  else
    let processed' := (processed ++ [ident])%list in
    if (rectWidth el =? 0)%Z || (rectHeight el =? 0)%Z
    then (processed', elements)
    else if String.eqb (styleDisplay el) "none"
            || String.eqb (styleVisibility el) "hidden"
    then (processed', elements)
    else
      (processed',
       (elements ++
        [{| rawSelector := generateBestSelector el;
            rawType := detectType el;
            rawText :=
              (let t := trim (textContent el) in
               if truthy t then t else EmptyString);
            rawAttributes := getAttributes el |}])%list).

(** The document's elements with their node identity. *)
Definition indexed (doc : Document) : list (nat * HTMLElement) :=
  combine (seq 0 (List.length doc)) doc.

(** [document.querySelectorAll(selector)]: the matching nodes in tree
    order. *)
Definition querySelectorAll (doc : Document) (s : InteractiveSelector)
  : list (nat * HTMLElement) :=
  filter (fun node => matches s (snd node)) (indexed doc).

(** The function evaluated in the page. *)
Definition extractRaw (doc : Document) : list RawElement :=
  snd (fold_left
         (fun acc s => fold_left visit (querySelectorAll doc s) acc)
         selectors ([], [])).

(** [generateElementName(text, type)]. *)
Definition generateElementName (text : string) (type : ElementType)
  : string :=
  let baseText :=
    stripEdgeUnderscores
      (collapseUnderscores (replaceNonAlnum (toLowerCase (take 30 text)))) in
  if truthy baseText then baseText
  else ElementType_to_string type ++ "_element".

(** The [.then] continuation: raw records become element descriptors. *)
Definition toElementMapping (now : Z) (index : nat) (el : RawElement)
  : ElementMapping.t :=
  {| ElementMapping.id := "element-" ++ ofZ now ++ "-" ++ ofNat index;
     ElementMapping.name := generateElementName (rawText el) (rawType el);
     ElementMapping.selector := rawSelector el;
     ElementMapping.alternativeSelectors := [];
     ElementMapping.type := rawType el;
     ElementMapping.attributes := rawAttributes el;
     ElementMapping.text := Some (rawText el);
     ElementMapping.screenshot := None;
     ElementMapping.lastVerified := now;
     ElementMapping.isStable := true |}.

Fixpoint mapWithIndex {A B : Type} (f : nat -> A -> B) (i : nat)
  (l : list A) : list B :=
  match l with
  | [] => []
  | a :: l' => f i a :: mapWithIndex f (S i) l'
  end.

Definition extractFrom (doc : Document) (now : Z) : list ElementMapping.t :=
  mapWithIndex (toElementMapping now) 0 (extractRaw doc).

(** [extractAllElements(page)]. *)
Definition extractAllElements (env : Env) (now : Z)
  : result (list ElementMapping.t) :=
  match document env with
  | Some doc => Ok (extractFrom doc now)
  | None => Throw "page.evaluate: Execution context was destroyed"
  end.

(** [detectElementType(tagName, type)]. *)
Definition detectElementType (tagName type : string) : ElementType :=
  if String.eqb tagName "button" then TButton
  else if String.eqb tagName "a" then TLink
  else if String.eqb tagName "select" then TDropdown
  else if String.eqb tagName "textarea" then TInput
  else if String.eqb tagName "input" && String.eqb type "checkbox"
  then TCheckbox
  else if String.eqb tagName "input" && String.eqb type "radio"
  then TRadio
  else if String.eqb tagName "input"
          && existsb (String.eqb type)
               ["text"; "email"; "password"; "number"; "tel"; "url"]
  then TInput
  else TOther.

(** White space that separates the tokens of a [class] attribute. *)
Definition isTokenSeparator (c : ascii) : bool :=
  let n := nat_of_ascii c in
  (n =? 9) || (n =? 10) || (n =? 12) || (n =? 13) || (n =? 32).

Fixpoint tokens (s : string) (current : string) : list string :=
  match s with
  | EmptyString => if truthy current then [current] else []
  | String c s' =>
      if isTokenSeparator c
      then (if truthy current then [current] else []) ++ tokens s' EmptyString
      else tokens s' (current ++ String c EmptyString)
  end%list.

Fixpoint dedup (seen : list string) (l : list string) : list string :=
  match l with
  | [] => []
  | x :: l' =>
      if existsb (String.eqb x) seen then dedup seen l'
      else x :: dedup (x :: seen) l'
  end.

(** [Array.from(el.classList)]. *)
Definition classList (el : HTMLElement) : list string :=
  match getAttribute el "class" with
  | Some v => dedup [] (tokens v EmptyString)
  | None => []
  end.

(** The [forEach] over the classes: a class that occurs once in the
    document contributes [.cls]. *)
Fixpoint uniqueClassSelectors (env : Env) (classes : list string)
  : result (list string) :=
  match classes with
  | [] => Ok []
  | cls :: rest =>
      match classCount env cls with
      | None => Throw "SyntaxError: not a valid selector"
      | Some n =>
          match uniqueClassSelectors env rest with
          | Ok l => Ok (if n =? 1 then ("." ++ cls) :: l else l)
          | Throw m => Throw m
          end
      end
  end.

(** [generateAlternativeSelectors(page, primarySelector)]. *)
Definition generateAlternativeSelectors (env : Env) (primarySelector : string)
  : result (list string) :=
  match querySelector env primarySelector with
  | Crashed => Throw "SyntaxError: not a valid selector"
  | Missing => Ok []
  | Found el =>
      let text := trim (textContent el) in
      let byText :=
        if truthy text && (String.length text <? 30)
        then ["text=" ++ dq ++ text ++ dq] else [] in
      let ariaLabel := getAttribute el "aria-label" in
      let byAria :=
        if truthy_opt ariaLabel
        then ["[aria-label=" ++ dq ++ interpolate ariaLabel ++ dq ++ "]"]
        else [] in
      let role := getAttribute el "role" in
      let byRole :=
        if truthy_opt role
        then ["[role=" ++ dq ++ interpolate role ++ dq ++ "]"] else [] in
      match uniqueClassSelectors env (classList el) with
      | Throw m => Throw m
      | Ok byClass =>
          Ok (firstn 3 (byText ++ byAria ++ byClass ++ byRole)%list)
      end
  end.

End Extractor.

(** ** Regular expressions and URLs (the part of the built-ins the store uses) *)

Module RegExp.

(** The patterns of the store are path names in which [/\d+] stands for a
    numeric segment. The fragment modelled here covers path names made of
    ordinary characters, [.], the class [\d], and the postfix operators
    [+], [*] and [?] applied to one of those. A pattern that uses any
    other construct (groups, brackets, alternation, anchors, braces, other
    escapes, a quantifier on a quantifier) is outside the fragment. *)
Inductive atom : Type :=
| Lit (c : ascii)
| Digit
| AnyChar.

Inductive quantifier : Type :=
| One | Plus | Star | Opt.

Definition t := list (atom * quantifier).

Inductive parsed : Type :=
| Compiled (r : t)
| SyntaxError
| Unsupported.

Definition isQuantifierChar (c : ascii) : bool :=
  Ascii.eqb c "+"%char || Ascii.eqb c "*"%char || Ascii.eqb c "?"%char.

Definition quantifierOf (c : ascii) : quantifier :=
  if Ascii.eqb c "+"%char then Plus
  else if Ascii.eqb c "*"%char then Star
  else Opt.

(** Syntax characters other than [.], [\] and the three postfix operators. *)
Definition isOtherSyntaxChar (c : ascii) : bool :=
  existsb (Ascii.eqb c)
    ["("%char; ")"%char; "["%char; "]"%char; "{"%char; "}"%char;
     "|"%char; "^"%char; "$"%char].

(** [parseFrom s pending quantified]: [pending] is the atom read last,
    still waiting for its postfix operator; [quantified] tells that the
    previous character was a postfix operator. *)
Fixpoint parseFrom (s : string) (pending : option atom) (quantified : bool)
  : parsed :=
  let emit (q : quantifier) (rest : parsed) : parsed :=
    match pending, rest with
    | Some a, Compiled r => Compiled ((a, q) :: r)
    | _, _ => rest
    end in
  match s with
  | EmptyString => emit One (Compiled [])
  | String c s' =>
      if Ascii.eqb c "\"%char then
        match s' with
        | EmptyString => SyntaxError
        | String d s'' =>
            if Ascii.eqb d "d"%char
            then emit One (parseFrom s'' (Some Digit) false)
            else Unsupported
        end
      else if isQuantifierChar c then
        match pending with
        | Some _ => emit (quantifierOf c) (parseFrom s' None true)
        | None => if quantified then Unsupported else SyntaxError
        end
      else if isOtherSyntaxChar c then Unsupported
      else
        emit One
          (parseFrom s'
             (Some (if Ascii.eqb c "."%char then AnyChar else Lit c)) false)
  end.

(** [new RegExp(pattern)]. *)
Definition compile (pattern : string) : parsed :=
  parseFrom pattern None false.

Definition accepts (a : atom) (c : ascii) : bool :=
  match a with
  | Lit c' => Ascii.eqb c' c
  | Digit => isDigit c
  | AnyChar => negb ((nat_of_ascii c =? 10) || (nat_of_ascii c =? 13))
  end.

(** Zero or more characters accepted by [a], then the continuation [k]. *)
Fixpoint matchStar (a : atom) (k : string -> bool) (s : string) : bool :=
  k s
  || match s with
     | String c s' => accepts a c && matchStar a k s'
     | EmptyString => false
     end.

(** Some prefix of the string matches the whole pattern. *)
Fixpoint matchHere (r : t) : string -> bool :=
  match r with
  | [] => fun _ => true
  | (a, q) :: r' =>
      let k := matchHere r' in
      match q with
      | One =>
          fun s =>
            match s with
            | String c s' => accepts a c && k s'
            | EmptyString => false
            end
      | Opt =>
          fun s =>
            k s
            || match s with
               | String c s' => accepts a c && k s'
               | EmptyString => false
               end
      | Star => matchStar a k
      | Plus =>
          fun s =>
            match s with
            | String c s' => accepts a c && matchStar a k s'
            | EmptyString => false
            end
      end
  end.

(** The pattern matches somewhere in the string (no anchoring). *)
Fixpoint search (r : t) (s : string) : bool :=
  matchHere r s
  || match s with
     | String _ s' => search r s'
     | EmptyString => false
     end.

(** [new RegExp(pattern).test(s)]: [None] when the pattern is outside the
    modelled fragment, [Some (Throw _)] when the constructor throws. *)
Definition test (pattern s : string) : option (result bool) :=
  match compile pattern with
  | Compiled r => Some (Ok (search r s))
  | SyntaxError => Some (Throw "SyntaxError: Invalid regular expression")
  | Unsupported => None
  end.

End RegExp.

Module Url.

(** The URLs modelled are serialized [http] and [https] URLs: a host made
    of labels of lower-case letters, with an optional port, a path of
    unreserved and sub-delimiter characters without dot segments, and an
    optional query or fragment. On those the parser changes nothing and
    [pathname] is the path, or [/] when the path is empty. *)
Fixpoint stripPrefix (prefix s : string) : option string :=
  match prefix, s with
  | EmptyString, _ => Some s
  | String a prefix', String b s' =>
      if Ascii.eqb a b then stripPrefix prefix' s' else None
  | String _ _, EmptyString => None
  end.

Fixpoint takeWhile (f : ascii -> bool) (s : string) : string :=
  match s with
  | EmptyString => EmptyString
  | String c s' => if f c then String c (takeWhile f s') else EmptyString
  end.

Fixpoint dropWhile (f : ascii -> bool) (s : string) : string :=
  match s with
  | EmptyString => EmptyString
  | String c s' => if f c then dropWhile f s' else s
  end.

Definition isAsciiLetter (c : ascii) : bool :=
  let n := nat_of_ascii c in
  ((97 <=? n) && (n <=? 122)) || ((65 <=? n) && (n <=? 90)).

Definition isLowerLetter (c : ascii) : bool :=
  let n := nat_of_ascii c in
  (97 <=? n) && (n <=? 122).

Definition isPathChar (c : ascii) : bool :=
  isAsciiLetter c || isDigit c
  || existsb (Ascii.eqb c)
       ["/"%char; "-"%char; "."%char; "_"%char; "~"%char; "!"%char;
        "$"%char; "&"%char; "'"%char; "("%char; ")"%char; "*"%char;
        "+"%char; ","%char; ";"%char; "="%char; ":"%char; "@"%char].

Definition isPathEnd (c : ascii) : bool :=
  Ascii.eqb c "?"%char || Ascii.eqb c "#"%char.

(** [s.split(sep)] for a one-character separator; [current] is the piece
    being read. *)
Fixpoint split (sep : ascii) (s : string) (current : string) : list string :=
  match s with
  | EmptyString => [current]
  | String c s' =>
      if Ascii.eqb c sep then current :: split sep s' EmptyString
      else split sep s' (current ++ String c EmptyString)
  end.

Definition isDotSegment (seg : string) : bool :=
  String.eqb seg "." || String.eqb seg "..".

(** A host is a sequence of labels of lower-case letters separated by
    dots; a port has one to four digits. *)
Definition validAuthority (a : string) : bool :=
  let host := takeWhile (fun c => negb (Ascii.eqb c ":"%char)) a in
  let rest := dropWhile (fun c => negb (Ascii.eqb c ":"%char)) a in
  forallb (fun label => truthy label && every isLowerLetter label)
    (split "."%char host EmptyString)
  && match rest with
     | EmptyString => true
     | String _ port =>
         truthy port && every isDigit port && (String.length port <=? 4)
     end.

(** [new URL(url).pathname] on the modelled URLs; [None] elsewhere. *)
Definition pathname (url : string) : option string :=
  let afterScheme :=
    match stripPrefix "https://" url with
    | Some rest => Some rest
    | None => stripPrefix "http://" url
    end in
  match afterScheme with
  | None => None
  | Some rest =>
      let notPathStart c := negb (Ascii.eqb c "/"%char || isPathEnd c) in
      let authority := takeWhile notPathStart rest in
      let fromPath := dropWhile notPathStart rest in
      let path := takeWhile (fun c => negb (isPathEnd c)) fromPath in
      if validAuthority authority && every isPathChar path
         && negb (existsb isDotSegment (split "/"%char path EmptyString))
      then Some (if truthy path then path else "/")
      else None
  end.

End Url.

(** The two built-ins the store relies on. The engine is stated for any
    implementation of them; [faithful] says that an implementation agrees
    with the modelled fragments. *)
Record Builtins : Type := {
  (** [new RegExp(pattern).test(s)] *)
  regexpTest : string -> string -> result bool;
  (** [new URL(url).pathname] *)
  urlPathname : string -> result string
}.

Definition faithful (B : Builtins) : Prop :=
  (forall pattern s r,
      RegExp.test pattern s = Some r -> regexpTest B pattern s = r)
  /\ (forall url p, Url.pathname url = Some p -> urlPathname B url = Ok p).

(** An implementation that rejects whatever is outside the fragments. *)
Definition fragmentBuiltins : Builtins :=
  {| regexpTest := fun pattern s =>
       match RegExp.test pattern s with
       | Some r => r
       | None => Throw "SyntaxError: Invalid regular expression"
       end;
     urlPathname := fun url =>
       match Url.pathname url with
       | Some p => Ok p
       | None => Throw "TypeError: Invalid URL"
       end |}.

(** ** The engine: [class InteractiveTestBuilder] *)

Module Builder.

(** The fields of the class, the two object stores, and the log of the
    events passed to [this.emit] (event name, session id). *)
Record t : Type := {
  sessions : JsMap.t Session.t;
  pageObjectRepository : JsMap.t nat;
  pageObjects : Store.t PageObjectModel.t;
  elementObjects : Store.t ElementMapping.t;
  githubRepoPath : option string;
  emitted : list (string * string)
}.

Definition set_sessions (m : JsMap.t Session.t) (b : t) : t :=
  {| sessions := m; pageObjectRepository := pageObjectRepository b;
     pageObjects := pageObjects b; elementObjects := elementObjects b;
     githubRepoPath := githubRepoPath b; emitted := emitted b |}.

Definition set_pageObjectRepository (m : JsMap.t nat) (b : t) : t :=
  {| sessions := sessions b; pageObjectRepository := m;
     pageObjects := pageObjects b; elementObjects := elementObjects b;
     githubRepoPath := githubRepoPath b; emitted := emitted b |}.

Definition set_pageObjects (s : Store.t PageObjectModel.t) (b : t) : t :=
  {| sessions := sessions b; pageObjectRepository := pageObjectRepository b;
     pageObjects := s; elementObjects := elementObjects b;
     githubRepoPath := githubRepoPath b; emitted := emitted b |}.

Definition set_elementObjects (s : Store.t ElementMapping.t) (b : t) : t :=
  {| sessions := sessions b; pageObjectRepository := pageObjectRepository b;
     pageObjects := pageObjects b; elementObjects := s;
     githubRepoPath := githubRepoPath b; emitted := emitted b |}.

Definition set_emitted (l : list (string * string)) (b : t) : t :=
  {| sessions := sessions b; pageObjectRepository := pageObjectRepository b;
     pageObjects := pageObjects b; elementObjects := elementObjects b;
     githubRepoPath := githubRepoPath b; emitted := l |}.

(** [new InteractiveTestBuilder(githubRepoPath)] with an empty repository. *)
Definition create (path : option string) : t :=
  {| sessions := JsMap.empty; pageObjectRepository := JsMap.empty;
     pageObjects := []; elementObjects := []; githubRepoPath := path;
     emitted := [] |}.

(** *** Methods as state transformers that may throw

    A method that throws keeps the mutations made before the throw. *)
Definition M (A : Type) : Type := t -> result A * t.

Definition ret {A : Type} (a : A) : M A := fun b => (Ok a, b).

Definition throw {A : Type} (message : string) : M A :=
  fun b => (Throw message, b).

Definition bind {A B : Type} (m : M A) (k : A -> M B) : M B :=
  fun b =>
    match m b with
    | (Ok a, b') => k a b'
    | (Throw message, b') => (Throw message, b')
    end.

Declare Scope builder_scope.
Delimit Scope builder_scope with builder.
Notation "x <- m ;; k" := (bind m (fun x => k))
  (at level 61, m at next level, right associativity) : builder_scope.
Notation "m ;; k" := (bind m (fun _ => k))
  (at level 61, right associativity) : builder_scope.
Local Open Scope builder_scope.

(** A synchronous computation that may throw. *)
Definition lift {A : Type} (r : result A) : M A := fun b => (r, b).

(** [await p] for a promise that resolves ([true]) or rejects. *)
Definition await (resolves : bool) (message : string) : M unit :=
  if resolves then ret tt else throw message.

Definition gets {A : Type} (f : t -> A) : M A := fun b => (Ok (f b), b).

Definition modify (f : t -> t) : M unit := fun b => (Ok tt, f b).

(** [this.emit(name, { sessionId, ... })]. *)
Definition emit (name sessionId : string) : M unit :=
  modify (fun b => set_emitted (emitted b ++ [(name, sessionId)])%list b).

(** [this.sessions.get(sessionId)]. *)
Definition getSession (sessionId : string) : M (option Session.t) :=
  gets (fun b => JsMap.get (sessions b) sessionId).

(** The two opening lines of the session methods. *)
Definition requireSession (sessionId : string) : M Session.t :=
  session <- getSession sessionId ;;
  match session with
  | Some s => ret s
  | None => throw "Session not found"
  end.

(** An assignment to a field of the session object. *)
Definition updateSession (sessionId : string) (f : Session.t -> Session.t)
  : M unit :=
  modify (fun b =>
    match JsMap.get (sessions b) sessionId with
    | Some s => set_sessions (JsMap.set (sessions b) sessionId (f s)) b
    | None => b
    end).

(** In-place update of a stored object. *)
Definition modifyObject {A : Type} (s : Store.t A) (l : nat) (f : A -> A)
  : Store.t A :=
  match Store.read s l with
  | Some a => Store.write s l (f a)
  | None => s
  end.

Definition updatePageObject (l : nat)
  (f : PageObjectModel.t -> PageObjectModel.t) : M unit :=
  modify (fun b => set_pageObjects (modifyObject (pageObjects b) l f) b).

Definition updateElement (l : nat) (f : ElementMapping.t -> ElementMapping.t)
  : M unit :=
  modify (fun b => set_elementObjects (modifyObject (elementObjects b) l f) b).

Definition newElement (e : ElementMapping.t) : M nat :=
  fun b =>
    let '(l, s) := Store.alloc (elementObjects b) e in
    (Ok l, set_elementObjects s b).

Definition newPageObject (p : PageObjectModel.t) : M nat :=
  fun b =>
    let '(l, s) := Store.alloc (pageObjects b) p in
    (Ok l, set_pageObjects s b).

(** Reading through a reference; a location that holds no object reads as
    [undefined], and a property access on it throws. *)
Definition typeError {A : Type} : result A :=
  Throw "TypeError: Cannot read properties of undefined".

Definition derefPageObject (l : nat) : M PageObjectModel.t :=
  pom <- gets (fun b => Store.read (pageObjects b) l) ;;
  match pom with
  | Some p => ret p
  | None => lift typeError
  end.

Section Methods.

(** The built-ins, and the Code Synthesizer: a function of the session
    and of its current page object that does not touch the state. *)
Variable B : Builtins.
Variable generateTestCode :
  Session.t -> option PageObjectModel.t -> string.

(** [startRecording(sessionId)]. *)
Definition startRecording (sessionId : string) (now : Z) : M unit :=
  _ <- requireSession sessionId ;;
  updateSession sessionId (Session.set_isRecording true) ;;
  updateSession sessionId (Session.set_recordedSteps []) ;;
  updateSession sessionId
    (Session.set_traceFile
       (Some ("./traces/session-" ++ sessionId ++ "-" ++ ofZ now ++ ".zip"))) ;;
  emit "recordingStarted" sessionId.

(** [stopRecording(sessionId)]. *)
Definition stopRecording (sessionId : string) (env : Env) : M string :=
  session <- requireSession sessionId ;;
  updateSession sessionId (Session.set_isRecording false) ;;
  (if truthy_opt (Session.traceFile session)
   then await (tracingStopOk env) "tracing.stop: rejected"
   else ret tt) ;;
  session <- requireSession sessionId ;;
  pom <- gets (fun b =>
           match Session.currentPageObject session with
           | Some l => Store.read (pageObjects b) l
           | None => None
           end) ;;
  let testCode := generateTestCode session pom in
  emit "recordingStopped" sessionId ;;
  ret testCode.

(** [captureScreenshot(page, type)]. *)
Definition captureScreenshot (env : Env) (now : Z) : M string :=
  await (screenshotOk env) "page.screenshot: rejected" ;;
  ret ("screenshots/screenshot-" ++ ofZ now ++ ".png").

(** [savePageObjectModel(pom)]: the files are written only when a
    repository path is configured; the generated class reads
    [new URL(pom.url).pathname]. *)
Definition savePageObjectModel (l : nat) (env : Env) : M unit :=
  path <- gets githubRepoPath ;;
  if truthy_opt path then
    await (fsOk env) "fs: rejected" ;;
    pom <- derefPageObject l ;;
    _ <- lift (urlPathname B (PageObjectModel.url pom)) ;;
    ret tt
  else ret tt.

(** [findElementIdBySelector(session, selector)]: the entries of
    [elementMappings] in insertion order. *)
Fixpoint findElementIdIn (objects : Store.t ElementMapping.t)
  (entries : JsMap.t nat) (selector : string) : result (option string) :=
  match entries with
  | [] => Ok None
  | (id, l) :: rest =>
      match Store.read objects l with
      | None => typeError
      | Some element =>
          if String.eqb (ElementMapping.selector element) selector
             || existsb (String.eqb selector)
                  (ElementMapping.alternativeSelectors element)
          then Ok (Some id)
          else findElementIdIn objects rest selector
      end
  end.

Definition findElementIdBySelector (sessionId selector : string)
  : M (option string) :=
  session <- requireSession sessionId ;;
  objects <- gets elementObjects ;;
  lift (findElementIdIn objects (Session.elementMappings session) selector).

(** [mapNewElement(session, selector, name)]. The source receives the
    session object; here it is named by its id, which the callers have
    just looked up. *)
Definition mapNewElement (sessionId selector name : string) (env : Env)
  (now : Z) : M ElementMapping.t :=
  _ <- requireSession sessionId ;;
  match locate env selector with
  | Crashed => throw "page.$: rejected"
  | Missing => throw "Element not found"
  | Found el =>
      let tagName := toLowerCase (Dom.tagName el) in
      let type := or_default (Dom.getAttribute el "type") EmptyString in
      let text := trim (Dom.textContent el) in
      let attributes := Extractor.getAttributes el in
      alternatives <- lift (Extractor.generateAlternativeSelectors env selector) ;;
      let mapping :=
        {| ElementMapping.id := "element-" ++ ofZ now;
           ElementMapping.name := name;
           ElementMapping.selector := selector;
           ElementMapping.alternativeSelectors := alternatives;
           ElementMapping.type := Extractor.detectElementType tagName type;
           ElementMapping.attributes := attributes;
           ElementMapping.text := Some text;
           ElementMapping.screenshot := None;
           ElementMapping.lastVerified := now;
           ElementMapping.isStable := true |} in
      l <- newElement mapping ;;
      updateSession sessionId (fun s =>
        Session.set_elementMappings
          (JsMap.set (Session.elementMappings s)
             (ElementMapping.id mapping) l) s) ;;
      session <- requireSession sessionId ;;
      match Session.currentPageObject session with
      | Some p =>
          updatePageObject p (fun pom =>
            PageObjectModel.set_elements
              (PageObjectModel.elements pom ++ [l])%list pom) ;;
          updatePageObject p (PageObjectModel.set_lastUpdated now) ;;
          updatePageObject p PageObjectModel.incr_version ;;
          savePageObjectModel p env
      | None => ret tt
      end ;;
      emit "elementMapped" sessionId ;;
      ret mapping
  end.

(** The [framenavigated] listener installed by [setupPageListeners]. *)
Definition onFrameNavigated (sessionId url : string) (now : Z) : M unit :=
  session <- getSession sessionId ;;
  match session with
  | Some s =>
      if Session.isRecording s then
        let step :=
          {| TestStep.id := "step-" ++ ofZ now;
             TestStep.action := ANavigate;
             TestStep.elementId := None;
             TestStep.elementName := None;
             TestStep.selector := None;
             TestStep.value := Some url;
             TestStep.assertion := None;
             TestStep.screenshot := None;
             TestStep.timestamp := now |} in
        updateSession sessionId (fun s =>
          Session.set_recordedSteps
            (Session.recordedSteps s ++ [step])%list s) ;;
        emit "stepRecorded" sessionId
      else ret tt
  | None => ret tt
  end.

(** The [framenavigated] events raised while a call of the driver is
    pending: the listener runs once for each, in order. *)
Fixpoint framesNavigated (sessionId : string) (events : list (string * Z))
  : M unit :=
  match events with
  | [] => ret tt
  | (url, time) :: rest =>
      onFrameNavigated sessionId url time ;;
      framesNavigated sessionId rest
  end.

(** The common tail of [clickElement] and [fillElement]: map the element
    if needed, build the step, record it if the session is recording. *)
Definition recordAction (sessionId selector : string)
  (elementName : option string) (action : Action) (value : option string)
  (env : Env) (now : Z) : M TestStep.t :=
  found <- findElementIdBySelector sessionId selector ;;
  elementId <-
    (if negb (truthy_opt found) && truthy_opt elementName
     then
       element <- mapNewElement sessionId selector
                    (interpolate elementName) env now ;;
       ret (Some (ElementMapping.id element))
     else ret found) ;;
  shot <- captureScreenshot env now ;;
  let step :=
    {| TestStep.id := "step-" ++ ofZ now;
       TestStep.action := action;
       TestStep.elementId := elementId;
       TestStep.elementName := elementName;
       TestStep.selector := Some selector;
       TestStep.value := value;
       TestStep.assertion := None;
       TestStep.screenshot := Some shot;
       TestStep.timestamp := now |} in
  session <- requireSession sessionId ;;
  (if Session.isRecording session
   then updateSession sessionId (fun s =>
          Session.set_recordedSteps
            (Session.recordedSteps s ++ [step])%list s)
   else ret tt) ;;
  emit "stepRecorded" sessionId ;;
  ret step.

(** [clickElement(sessionId, selector, elementName?)]. *)
Definition clickElement (sessionId selector : string)
  (elementName : option string) (env : Env) (now : Z) : M TestStep.t :=
  _ <- requireSession sessionId ;;
  framesNavigated sessionId (clickNavigations env selector) ;;
  await (click env selector) "page.click: rejected" ;;
  recordAction sessionId selector elementName AClick None env now.

(** [fillElement(sessionId, selector, value, elementName?)]. *)
Definition fillElement (sessionId selector value : string)
  (elementName : option string) (env : Env) (now : Z) : M TestStep.t :=
  _ <- requireSession sessionId ;;
  framesNavigated sessionId (fillNavigations env selector value) ;;
  await (fill env selector value) "page.fill: rejected" ;;
  recordAction sessionId selector elementName AFill (Some value) env now.

(** The body of [verifyElementStability]'s loop over the alternative
    selectors: the first alternative that resolves, unless a lookup
    throws first. *)
Fixpoint firstResolving (env : Env) (alternatives : list string)
  : option string :=
  match alternatives with
  | [] => None
  | altSelector :: rest =>
      match locate env altSelector with
      | Found _ => Some altSelector
      | Missing => firstResolving env rest
      | Crashed => None
      end
  end.

(** [verifyElementStability(sessionId, elementId)]. *)
Definition verifyElementStability (sessionId elementId : string)
  (env : Env) (now : Z) : M bool :=
  session <- requireSession sessionId ;;
  objects <- gets elementObjects ;;
  match JsMap.get (Session.elementMappings session) elementId with
  | None => ret false
  | Some l =>
      match Store.read objects l with
      | None => ret false
      | Some element =>
          match locate env (ElementMapping.selector element) with
          | Found _ => ret true
          | Crashed => ret false
          | Missing =>
              match firstResolving env
                      (ElementMapping.alternativeSelectors element) with
              | Some altSelector =>
                  updateElement l (ElementMapping.set_selector altSelector) ;;
                  updateElement l (ElementMapping.set_lastVerified now) ;;
                  ret true
              | None => ret false
              end
          end
      end
  end.

(** [pathname.replace(/\/\d+/g, '/\\d+')]: [skipping] is set while the
    digits of a replaced segment are consumed. *)
Fixpoint replaceNumericSegments (skipping : bool) (s : string) : string :=
  match s with
  | EmptyString => EmptyString
  | String c s' =>
      if skipping && isDigit c then replaceNumericSegments true s'
      else if Ascii.eqb c "/"%char
              && match s' with
                 | String d _ => isDigit d
                 | EmptyString => false
                 end
      then "/\d+" ++ replaceNumericSegments true s'
      else String c (replaceNumericSegments false s')
  end.

(** [generateUrlPattern(url)]. *)
Definition generateUrlPattern (url : string) : result string :=
  match urlPathname B url with
  | Ok pathname => Ok (replaceNumericSegments false pathname)
  | Throw m => Throw m
  end.

(** [generatePageName(title, url)]. *)
Definition generatePageName (title url : string) : result string :=
  match urlPathname B url with
  | Ok urlPath =>
      let segments :=
        filter truthy (Url.split "/"%char urlPath EmptyString) in
      let pathName :=
        match rev segments with
        | last :: _ => last
        | [] => "home"
        end in
      match pathName with
      | String c rest => Ok (String (upperChar c) rest ++ "Page")
      | EmptyString => Ok "Page"
      end
  | Throw m => Throw m
  end.

(** [findPageObjectByUrl(url)] over the repository's values. *)
Fixpoint findPageObjectIn (objects : Store.t PageObjectModel.t)
  (values : list nat) (url : string) : result (option nat) :=
  match values with
  | [] => Ok None
  | l :: rest =>
      match Store.read objects l with
      | None => typeError
      | Some pom =>
          if String.eqb (PageObjectModel.url pom) url then Ok (Some l)
          else if truthy_opt (PageObjectModel.urlPattern pom) then
            match regexpTest B
                    (interpolate (PageObjectModel.urlPattern pom)) url with
            | Ok true => Ok (Some l)
            | Ok false => findPageObjectIn objects rest url
            | Throw m => Throw m
            end
          else findPageObjectIn objects rest url
      end
  end.

Definition findPageObjectByUrl (url : string) : M (option nat) :=
  fun b =>
    (findPageObjectIn (pageObjects b)
       (JsMap.values (pageObjectRepository b)) url, b).

Fixpoint newElements (elements : list ElementMapping.t) : M (list nat) :=
  match elements with
  | [] => ret []
  | e :: rest =>
      l <- newElement e ;;
      ls <- newElements rest ;;
      ret (l :: ls)
  end.

(** [createPageObjectModel(page, url)]; the result is the location of
    the new object. *)
Definition createPageObjectModel (url : string) (env : Env) (now : Z)
  : M nat :=
  elements <- lift (Extractor.extractAllElements env now) ;;
  name <- lift (generatePageName (title env) url) ;;
  urlPattern <- lift (generateUrlPattern url) ;;
  full <- captureScreenshot env now ;;
  thumbnail <- captureScreenshot env now ;;
  locations <- newElements elements ;;
  newPageObject
    {| PageObjectModel.id := "pom-" ++ ofZ now;
       PageObjectModel.name := name;
       PageObjectModel.url := url;
       PageObjectModel.urlPattern := Some urlPattern;
       PageObjectModel.elements := locations;
       PageObjectModel.lastUpdated := now;
       PageObjectModel.version := 1%Z;
       PageObjectModel.screenshots := (full, thumbnail) |}.

(** [existing.elements.forEach(el => mergedElements.set(el.selector, el))]. *)
Fixpoint addExisting (objects : Store.t ElementMapping.t)
  (elements : list nat) (merged : JsMap.t nat) : result (JsMap.t nat) :=
  match elements with
  | [] => Ok merged
  | l :: rest =>
      match Store.read objects l with
      | None => typeError
      | Some el =>
          addExisting objects rest
            (JsMap.set merged (ElementMapping.selector el) l)
      end
  end.

(** What the merge does to a descriptor it finds again. *)
Definition refresh (now : Z) (e : ElementMapping.t) : ElementMapping.t :=
  ElementMapping.set_isStable true (ElementMapping.set_lastVerified now e).

(** [currentElements.forEach(el => ...)]: a known selector refreshes the
    stored object, a new one enters the map with a new object. *)
Fixpoint mergeCurrent (now : Z) (current : list ElementMapping.t)
  (objects : Store.t ElementMapping.t) (merged : JsMap.t nat)
  : Store.t ElementMapping.t * JsMap.t nat :=
  match current with
  | [] => (objects, merged)
  | el :: rest =>
      match JsMap.get merged (ElementMapping.selector el) with
      | Some l =>
          mergeCurrent now rest (modifyObject objects l (refresh now)) merged
      | None =>
          let '(l, objects') := Store.alloc objects el in
          mergeCurrent now rest objects'
            (JsMap.set merged (ElementMapping.selector el) l)
      end
  end.

(** [updatePageObjectModel(page, existing)]. *)
Definition updatePageObjectModel (existing : nat) (env : Env) (now : Z)
  : M nat :=
  currentElements <- lift (Extractor.extractAllElements env now) ;;
  pom <- derefPageObject existing ;;
  objects <- gets elementObjects ;;
  merged <- lift (addExisting objects (PageObjectModel.elements pom)
                    JsMap.empty) ;;
  let '(objects', merged') :=
    mergeCurrent now currentElements objects merged in
  modify (set_elementObjects objects') ;;
  updatePageObject existing
    (PageObjectModel.set_elements (JsMap.values merged')) ;;
  updatePageObject existing (PageObjectModel.set_lastUpdated now) ;;
  updatePageObject existing PageObjectModel.incr_version ;;
  savePageObjectModel existing env ;;
  ret existing.

(** [pom.elements.forEach(el => session.elementMappings.set(el.id, el))]. *)
Fixpoint mappingsOf (objects : Store.t ElementMapping.t)
  (elements : list nat) (mappings : JsMap.t nat) : result (JsMap.t nat) :=
  match elements with
  | [] => Ok mappings
  | l :: rest =>
      match Store.read objects l with
      | None => typeError
      | Some el =>
          mappingsOf objects rest
            (JsMap.set mappings (ElementMapping.id el) l)
      end
  end.

(** [navigateAndAnalyze(sessionId, url)]. *)
Definition navigateAndAnalyze (sessionId url : string) (env : Env)
  (now : Z) : M nat :=
  _ <- requireSession sessionId ;;
  framesNavigated sessionId (gotoNavigations env url) ;;
  await (goto env url) "page.goto: rejected" ;;
  updateSession sessionId (Session.set_currentUrl url) ;;
  await (overlayOk env) "Failed to inject overlay" ;;
  found <- findPageObjectByUrl url ;;
  pom <-
    match found with
    | None =>
        l <- createPageObjectModel url env now ;;
        created <- derefPageObject l ;;
        modify (fun b =>
          set_pageObjectRepository
            (JsMap.set (pageObjectRepository b)
               (PageObjectModel.id created) l) b) ;;
        ret l
    | Some l => updatePageObjectModel l env now
    end ;;
  updateSession sessionId (Session.set_currentPageObject (Some pom)) ;;
  updateSession sessionId (Session.set_elementMappings JsMap.empty) ;;
  current <- derefPageObject pom ;;
  objects <- gets elementObjects ;;
  mappings <- lift (mappingsOf objects (PageObjectModel.elements current)
                      JsMap.empty) ;;
  updateSession sessionId (Session.set_elementMappings mappings) ;;
  emit "pageAnalyzed" sessionId ;;
  ret pom.

(** [endSession(sessionId)]. *)
Definition endSession (sessionId : string) (env : Env) : M unit :=
  session <- getSession sessionId ;;
  match session with
  | None => ret tt
  | Some s =>
      (if truthy_opt (Session.traceFile s)
       then await (tracingStopOk env) "tracing.stop: rejected"
       else ret tt) ;;
      await (closeOk env) "close: rejected" ;;
      modify (fun b =>
        set_sessions (JsMap.delete (sessions b) sessionId) b) ;;
      emit "sessionEnded" sessionId
  end.

(** [startSession(sessionId, options)]: the browser is launched and the
    session is registered. *)
Definition startSession (sessionId : string) (launches : bool)
  : M Session.t :=
  await launches "chromium.launch: rejected" ;;
  let session :=
    {| Session.id := sessionId;
       Session.currentUrl := EmptyString;
       Session.currentPageObject := None;
       Session.recordedSteps := [];
       Session.elementMappings := JsMap.empty;
       Session.isRecording := false;
       Session.traceFile := None |} in
  modify (fun b =>
    set_sessions (JsMap.set (sessions b) sessionId session) b) ;;
  ret session.

(** The messages the injected overlay posts to [__sendToBackend]. *)
Inductive OverlayMessage : Type :=
| TaElementMapped (selector name : string)
| TaActionRecorded (action : Action) (selector : string)
| TaRecordingStarted
| TaRecordingStopped
| TaOther.

(** The function exposed to the page by [injectOverlay]. *)
Definition sendToBackend (sessionId : string) (message : OverlayMessage)
  (env : Env) (now : Z) : M unit :=
  session <- getSession sessionId ;;
  match session with
  | None => ret tt
  | Some s =>
      match message with
      | TaElementMapped selector name =>
          _ <- mapNewElement sessionId selector name env now ;;
          emit "elementMapped" sessionId
      | TaActionRecorded action selector =>
          if Session.isRecording s then
            let step :=
              {| TestStep.id := "step-" ++ ofZ now;
                 TestStep.action := action;
                 TestStep.elementId := None;
                 TestStep.elementName := None;
                 TestStep.selector := Some selector;
                 TestStep.value := None;
                 TestStep.assertion := None;
                 TestStep.screenshot := None;
                 TestStep.timestamp := now |} in
            updateSession sessionId (fun s =>
              Session.set_recordedSteps
                (Session.recordedSteps s ++ [step])%list s) ;;
            emit "stepRecorded" sessionId
          else ret tt
      | TaRecordingStarted =>
          updateSession sessionId (Session.set_isRecording true)
      | TaRecordingStopped =>
          updateSession sessionId (Session.set_isRecording false)
      | TaOther => ret tt
      end
  end.

(** *** Sequences of actions on one session *)

(** A call of the action API, with the browser it meets and the time. *)
Inductive Command : Type :=
| Click (selector : string) (elementName : option string)
| Fill (selector value : string) (elementName : option string).

Definition Call : Type := Command * Env * Z.

Definition perform (sessionId : string) (call : Call) : M TestStep.t :=
  let '(command, env, now) := call in
  match command with
  | Click selector elementName =>
      clickElement sessionId selector elementName env now
  | Fill selector value elementName =>
      fillElement sessionId selector value elementName env now
  end.

(** The calls are issued one after the other, whatever each returns;
    the outcomes are collected in order. *)
Fixpoint performAll (sessionId : string) (calls : list Call) (b : t)
  : list (result TestStep.t) * t :=
  match calls with
  | [] => ([], b)
  | call :: rest =>
      let '(outcome, b') := perform sessionId call b in
      let '(outcomes, b'') := performAll sessionId rest b' in
      (outcome :: outcomes, b'')
  end.

Definition succeeded {A : Type} (r : result A) : bool :=
  match r with
  | Ok _ => true
  | Throw _ => false
  end.


(** [session.recordedSteps] of a session, the empty list if there is no
    such session. *)
Definition recordedStepsOf (sessionId : string) (b : t)
  : list TestStep.t :=
  match JsMap.get (sessions b) sessionId with
  | Some s => Session.recordedSteps s
  | None => []
  end.

End Methods.

End Builder.

(** ** The session routes *)

Module Routes.

(** What the handler sends: the HTTP status and the JSON body. *)
Record Response : Type := {
  status : nat;
  success : bool;
  message : option string;
  error : option string
}.

(** [router.delete('/sessions/:sessionId', ...)]. *)
Definition deleteSession (sessionId : string) (env : Env) (b : Builder.t)
  : Response * Builder.t :=
  match Builder.endSession sessionId env b with
  | (Ok _, b') =>
      ({| status := 200; success := true;
          message := Some "Session ended"; error := None |}, b')
  | (Throw _, b') =>
      ({| status := 500; success := false;
          message := None; error := Some "Failed to end session" |}, b')
  end.

(** A response of the Not Found class, as the routes that look the
    session up themselves send it. *)
Definition isNotFound (r : Response) : bool :=
  (status r =? 404)
  || match error r with
     | Some e => String.eqb e "Session not found"
     | None => false
     end.

End Routes.

(** ** The other session routes

    The handlers of the router, for request bodies whose fields are
    strings or absent. Each handler answers with the status and the
    [success], [message] and [error] fields of its JSON body. *)

Module SessionRoutes.

Import Routes.

Definition ok (text : option string) : Response :=
  {| status := 200; success := true; message := text; error := None |}.

Definition failure (code : nat) (text : string) : Response :=
  {| status := code; success := false; message := None; error := Some text |}.

(** The [try]/[catch] around a call of the engine. *)
Definition answer {A : Type} (outcome : result A * Builder.t)
  (done : A -> option string) (failed : string) : Response * Builder.t :=
  match outcome with
  | (Ok a, b') => (ok (done a), b')
  | (Throw _, b') => (failure 500 failed, b')
  end.

Section Handlers.

Variable B : Builtins.
Variable generateTestCode :
  Session.t -> option PageObjectModel.t -> string.

(** [router.post('/sessions')]; [suffix] is the random part of the id. *)
Definition createSession (suffix : string) (launches : bool) (now : Z)
  (b : Builder.t) : Response * Builder.t :=
  answer
    (Builder.startSession ("session-" ++ ofZ now ++ "-" ++ suffix) launches b)
    (fun _ => Some "Interactive session started")
    "Failed to start interactive session".

(** [router.post('/sessions/:sessionId/navigate')]; the screenshot taken
    after the analysis can fail the request. *)
Definition navigate (sessionId : string) (url : option string) (env : Env)
  (now : Z) (b : Builder.t) : Response * Builder.t :=
  match url with
  | Some u =>
      if truthy u then
        match Builder.navigateAndAnalyze B sessionId u env now b with
        | (Ok _, b') =>
            match JsMap.get (Builder.sessions b') sessionId with
            | Some _ =>
                if screenshotOk env
                then (ok (Some "Page analyzed successfully"), b')
                else (failure 500 "Failed to navigate and analyze page", b')
            | None => (ok (Some "Page analyzed successfully"), b')
            end
        | (Throw _, b') =>
            (failure 500 "Failed to navigate and analyze page", b')
        end
      else (failure 400 "URL is required", b)
  | None => (failure 400 "URL is required", b)
  end.

(** [router.post('/sessions/:sessionId/record/start')]. *)
Definition recordStart (sessionId : string) (now : Z) (b : Builder.t)
  : Response * Builder.t :=
  answer (Builder.startRecording sessionId now b)
    (fun _ => Some "Recording started") "Failed to start recording".

(** [router.post('/sessions/:sessionId/record/stop')]. *)
Definition recordStop (sessionId : string) (env : Env) (b : Builder.t)
  : Response * Builder.t :=
  answer (Builder.stopRecording generateTestCode sessionId env b)
    (fun _ => Some "Recording stopped and test generated")
    "Failed to stop recording".

(** [router.post('/sessions/:sessionId/actions/click')]. *)
Definition click (sessionId : string) (selector elementName : option string)
  (env : Env) (now : Z) (b : Builder.t) : Response * Builder.t :=
  match selector with
  | Some sel =>
      if truthy sel then
        answer (Builder.clickElement B sessionId sel elementName env now b)
          (fun _ => Some "Element clicked") "Failed to click element"
      else (failure 400 "Selector is required", b)
  | None => (failure 400 "Selector is required", b)
  end.

(** [router.post('/sessions/:sessionId/actions/fill')]: an empty value is
    a value. *)
Definition fill (sessionId : string) (selector value elementName : option string)
  (env : Env) (now : Z) (b : Builder.t) : Response * Builder.t :=
  match selector, value with
  | Some sel, Some v =>
      if truthy sel then
        answer (Builder.fillElement B sessionId sel v elementName env now b)
          (fun _ => Some "Element filled") "Failed to fill element"
      else (failure 400 "Selector and value are required", b)
  | _, _ => (failure 400 "Selector and value are required", b)
  end.

(** [router.post('/sessions/:sessionId/elements/map')]. *)
Definition mapElement (sessionId : string) (selector name : option string)
  (env : Env) (now : Z) (b : Builder.t) : Response * Builder.t :=
  match selector, name with
  | Some sel, Some n =>
      if truthy sel && truthy n then
        match JsMap.get (Builder.sessions b) sessionId with
        | Some _ =>
            answer (Builder.mapNewElement B sessionId sel n env now b)
              (fun _ => Some "Element mapped successfully")
              "Failed to map element"
        | None => (failure 404 "Session not found", b)
        end
      else (failure 400 "Selector and name are required", b)
  | _, _ => (failure 400 "Selector and name are required", b)
  end.

(** [router.post('/sessions/:sessionId/elements/:elementId/verify')]. *)
Definition verify (sessionId elementId : string) (env : Env) (now : Z)
  (b : Builder.t) : Response * Builder.t :=
  answer (Builder.verifyElementStability sessionId elementId env now b)
    (fun isStable : bool =>
       Some (if isStable then "Element is stable"
             else "Element selector needs update"))
    "Failed to verify element".

(** [router.get('/sessions/:sessionId')]. *)
Definition sessionDetails (sessionId : string) (b : Builder.t)
  : Response * Builder.t :=
  match JsMap.get (Builder.sessions b) sessionId with
  | Some _ => (ok None, b)
  | None => (failure 404 "Session not found", b)
  end.

(** A request to one of the routes of a session. *)
Inductive Call : Type :=
| Navigate (url : option string)
| RecordStart
| RecordStop
| Click (selector elementName : option string)
| Fill (selector value elementName : option string)
| MapElement (selector name : option string)
| Verify (elementId : string)
| SessionDetails
| DeleteSession.

Definition route (sessionId : string) (call : Call) (env : Env) (now : Z)
  (b : Builder.t) : Response * Builder.t :=
  match call with
  | Navigate url => navigate sessionId url env now b
  | RecordStart => recordStart sessionId now b
  | RecordStop => recordStop sessionId env b
  | Click selector elementName => click sessionId selector elementName env now b
  | Fill selector value elementName =>
      fill sessionId selector value elementName env now b
  | MapElement selector name => mapElement sessionId selector name env now b
  | Verify elementId => verify sessionId elementId env now b
  | SessionDetails => sessionDetails sessionId b
  | DeleteSession => Routes.deleteSession sessionId env b
  end.

End Handlers.

End SessionRoutes.

(** ** The Code Synthesizer

    [generateTestCode], [generateStepCode], [generatePageObjectClass] and
    the naming helpers. [toPascalCase] capitalises with [Js.upperChar],
    which is [toUpperCase] on every code unit but the three whose capital
    lies outside the range. *)

Module Synthesizer.

(** The line feed of the templates. *)
Definition nl : string := String (ascii_of_nat 10) EmptyString.

Definition Action_to_string (a : Action) : string :=
  match a with
  | AClick => "click"
  | AFill => "fill"
  | ASelect => "select"
  | ACheck => "check"
  | AUncheck => "uncheck"
  | AHover => "hover"
  | ANavigate => "navigate"
  | AWait => "wait"
  | AAssert => "assert"
  end.

Definition AssertionType_to_string (a : AssertionType) : string :=
  match a with
  | AsVisible => "visible"
  | AsText => "text"
  | AsValue => "value"
  | AsCount => "count"
  | AsUrl => "url"
  | AsTitle => "title"
  end.

(** A [string | undefined] interpolated in a template literal. *)
Definition interpolateOptional (o : option string) : string :=
  match o with
  | Some s => s
  | None => "undefined"
  end.

(** [s.replace(/suffix$/, replacement)] for a literal, non-empty suffix. *)
Fixpoint replaceSuffix (suffix replacement s : string) : string :=
  if String.eqb s suffix then replacement
  else
    match s with
    | EmptyString => EmptyString
    | String c s' => String c (replaceSuffix suffix replacement s')
    end.

(** [toCamelCase(str)]. *)
Definition toCamelCase (str : string) : string :=
  match str with
  | EmptyString => EmptyString
  | String c rest =>
      String (lowerChar c) (replaceSuffix "Page" EmptyString rest)
  end.

(** [word.charAt(0).toUpperCase() + word.slice(1)]. *)
Definition capitalize (word : string) : string :=
  match word with
  | EmptyString => EmptyString
  | String c rest => String (upperChar c) rest
  end.

(** [toPascalCase(str)]. *)
Definition toPascalCase (str : string) : string :=
  String.concat EmptyString
    (map capitalize (Url.split "_"%char str EmptyString)).

Definition isUpperLetter (c : ascii) : bool :=
  let n := nat_of_ascii c in
  (65 <=? n) && (n <=? 90).

(** [s.replace(/([a-z])([A-Z])/g, '$1-$2')]: after a match the scan goes
    on behind the capital. *)
Fixpoint hyphenate (s : string) : string :=
  match s with
  | String c ((String d s') as rest) =>
      if Url.isLowerLetter c && isUpperLetter d
      then String c (String "-" (String d (hyphenate s')))
      else String c (hyphenate rest)
  | other => other
  end.

(** [toFileName(className)]. *)
Definition toFileName (className : string) : string :=
  replaceSuffix "page" ".page" (toLowerCase (hyphenate className)).

(** [generateTestName(steps)]. *)
Definition generateTestName (steps : list TestStep.t) : string :=
  "Test with "
  ++ String.concat ", "
       (firstn 3 (map (fun s => Action_to_string (TestStep.action s)) steps)).

(** [generateStepCode(step, pom)]. *)
Definition generateStepCode (step : TestStep.t)
  (pom : option PageObjectModel.t) : string :=
  let elementName := or_default (TestStep.elementName step) "element" in
  let selector := or_default (TestStep.selector step) EmptyString in
  let viaPageObject :=
    match pom with
    | Some p =>
        if truthy_opt (TestStep.elementId step) then Some p else None
    | None => None
    end in
  match TestStep.action step with
  | AClick =>
      match viaPageObject with
      | Some p =>
          "  await " ++ toCamelCase (PageObjectModel.name p) ++ ".click"
          ++ toPascalCase elementName ++ "();"
      | None => "  await page.click('" ++ selector ++ "');"
      end
  | AFill =>
      match viaPageObject with
      | Some p =>
          "  await " ++ toCamelCase (PageObjectModel.name p) ++ ".fill"
          ++ toPascalCase elementName ++ "('"
          ++ interpolateOptional (TestStep.value step) ++ "');"
      | None =>
          "  await page.fill('" ++ selector ++ "', '"
          ++ interpolateOptional (TestStep.value step) ++ "');"
      end
  | ANavigate =>
      "  await page.goto('" ++ interpolateOptional (TestStep.value step)
      ++ "');"
  | AAssert =>
      match TestStep.assertion step with
      | Some (AsVisible, _) =>
          "  await expect(page.locator('" ++ selector ++ "')).toBeVisible();"
      | Some (AsText, expected) =>
          "  await expect(page.locator('" ++ selector ++ "')).toHaveText('"
          ++ expected ++ "');"
      | Some (AsUrl, expected) =>
          "  await expect(page).toHaveURL('" ++ expected ++ "');"
      | Some (other, _) => "  // Assert: " ++ AssertionType_to_string other
      | None => "  // Assertion"
      end
  | other => "  // " ++ Action_to_string other ++ ": " ++ selector
  end.

(** [generateTestCode(session)]; the session's current page object is
    passed as read from the store. *)
Definition generateTestCode (session : Session.t)
  (pom : option PageObjectModel.t) : string :=
  let steps := Session.recordedSteps session in
  let code := "import { test, expect } from '@playwright/test';" ++ nl in
  let code :=
    match pom with
    | Some p =>
        code ++ "import { " ++ PageObjectModel.name p ++ " } from './pages/"
        ++ toFileName (PageObjectModel.name p) ++ "';" ++ nl ++ nl
    | None => code
    end in
  let code :=
    code ++ "test('" ++ generateTestName steps ++ "', async ({ page }) => {"
    ++ nl in
  let code :=
    match pom with
    | Some p =>
        code ++ "  const " ++ toCamelCase (PageObjectModel.name p)
        ++ " = new " ++ PageObjectModel.name p ++ "(page);" ++ nl
        ++ "  await " ++ toCamelCase (PageObjectModel.name p)
        ++ ".navigate();" ++ nl ++ nl
    | None => code
    end in
  let code :=
    fold_left (fun code step => code ++ generateStepCode step pom ++ nl)
      steps code in
  code ++ "});" ++ nl.

(** The methods [generatePageObjectClass] writes for one element. *)
Definition actionMethods (element : ElementMapping.t) : string :=
  let methodName := toCamelCase (ElementMapping.name element) in
  let pascal := toPascalCase (ElementMapping.name element) in
  let typeIs (t : string) : bool :=
    String.eqb (ElementType_to_string (ElementMapping.type element)) t in
  (if typeIs "button" || typeIs "link"
   then "  async click" ++ pascal ++ "(): Promise<void> {" ++ nl
        ++ "    await this." ++ methodName ++ ".click();" ++ nl
        ++ "  }" ++ nl ++ nl
   else EmptyString)
  ++ (if typeIs "input"
      then "  async fill" ++ pascal ++ "(value: string): Promise<void> {" ++ nl
           ++ "    await this." ++ methodName ++ ".fill(value);" ++ nl
           ++ "  }" ++ nl ++ nl
           ++ "  async get" ++ pascal ++ "Value(): Promise<string> {" ++ nl
           ++ "    return await this." ++ methodName ++ ".inputValue();" ++ nl
           ++ "  }" ++ nl ++ nl
      else EmptyString)
  ++ (if typeIs "dropdown"
      then "  async select" ++ pascal ++ "(value: string): Promise<void> {"
           ++ nl
           ++ "    await this." ++ methodName ++ ".selectOption(value);" ++ nl
           ++ "  }" ++ nl ++ nl
      else EmptyString)
  ++ (if typeIs "checkbox" || typeIs "radio"
      then "  async check" ++ pascal ++ "(): Promise<void> {" ++ nl
           ++ "    await this." ++ methodName ++ ".check();" ++ nl
           ++ "  }" ++ nl ++ nl
           ++ "  async uncheck" ++ pascal ++ "(): Promise<void> {" ++ nl
           ++ "    await this." ++ methodName ++ ".uncheck();" ++ nl
           ++ "  }" ++ nl ++ nl
      else EmptyString).

(** [generatePageObjectClass(pom)], over the descriptors of the model's
    elements; [new URL(pom.url)] can throw. *)
Definition generatePageObjectClass (B : Builtins) (pom : PageObjectModel.t)
  (elements : list ElementMapping.t) : result string :=
  let code := "import { Page, Locator } from '@playwright/test';" ++ nl ++ nl in
  let code := code ++ "export class " ++ PageObjectModel.name pom ++ " {" ++ nl in
  let code := code ++ "  private page: Page;" ++ nl ++ nl in
  let code := code ++ "  // Locators" ++ nl in
  let code :=
    fold_left
      (fun code element =>
         code ++ "  private " ++ toCamelCase (ElementMapping.name element)
         ++ ": Locator;" ++ nl)
      elements code in
  let code := code ++ nl ++ "  constructor(page: Page) {" ++ nl in
  let code := code ++ "    this.page = page;" ++ nl ++ nl in
  let code :=
    fold_left
      (fun code element =>
         code ++ "    this." ++ toCamelCase (ElementMapping.name element)
         ++ " = page.locator('" ++ ElementMapping.selector element ++ "');"
         ++ nl)
      elements code in
  let code := code ++ "  }" ++ nl ++ nl in
  let code := code ++ "  async navigate(): Promise<void> {" ++ nl in
  let code :=
    code ++ "    await this.page.goto('" ++ PageObjectModel.url pom ++ "');"
    ++ nl in
  let code := code ++ "  }" ++ nl ++ nl in
  let code :=
    fold_left (fun code element => code ++ actionMethods element)
      elements code in
  let code := code ++ "  // Assertions" ++ nl in
  let code := code ++ "  async isLoaded(): Promise<boolean> {" ++ nl in
  match urlPathname B (PageObjectModel.url pom) with
  | Throw m => Throw m
  | Ok pathname =>
      let code :=
        code ++ "    return await this.page.url().includes('" ++ pathname
        ++ "');" ++ nl in
      let code := code ++ "  }" ++ nl in
      Ok (code ++ "}" ++ nl)
  end.

End Synthesizer.

Import Dom Extractor.

(** ** Vocabulary of the properties *)

(** The selector strings of the resolver. *)
Definition idSelector (id : string) : string := "#" ++ id.

Definition testIdSelector (v : string) : string :=
  "[data-testid=" ++ dq ++ v ++ dq ++ "]".

Definition ariaLabelSelector (v : string) : string :=
  "[aria-label=" ++ dq ++ v ++ dq ++ "]".

Definition nameSelector (v : string) : string :=
  "[name=" ++ dq ++ v ++ dq ++ "]".

Definition textSelector (v : string) : string := "text=" ++ dq ++ v ++ dq.

(** A visible element of the given tag, attributes and text. *)
Definition element (tag : string) (attrs : list (string * string))
  (text : string) : HTMLElement :=
  {| tagName := tag; attributes := attrs; textContent := text;
     rectWidth := 640; rectHeight := 320;
     styleDisplay := EmptyString; styleVisibility := EmptyString |}.

(** [<button data-testid></button>]: the attribute is present, its value
    is empty. *)
Definition emptyTestIdButton : HTMLElement :=
  element "BUTTON" [("data-testid", EmptyString)] EmptyString.

(** [<div role="button" aria-label="Close"></div>], an icon button. *)
Definition closeIcon : HTMLElement :=
  element "DIV" [("role", "button"); ("aria-label", "Close")] EmptyString.

(** [<button id="go">Go</button>]. *)
Definition goButton : HTMLElement := element "BUTTON" [("id", "go")] "Go".

(** [<span data-testid="total" onclick="...">]. *)
Definition totalSpan : HTMLElement :=
  element "SPAN" [("data-testid", "total"); ("onclick", "refresh()")] "12".

(** [<input type="text" placeholder="Email">]. *)
Definition emailInput : HTMLElement :=
  element "INPUT" [("type", "text"); ("placeholder", "Email")] EmptyString.

(** [<div role="button">]: nothing but its tag identifies it. *)
Definition bareDiv : HTMLElement :=
  element "DIV" [("role", "button")] EmptyString.

(** The priority list of the resolver, one candidate per strategy; the
    first candidate that applies wins. *)
Fixpoint firstOf (candidates : list (option string)) (fallback : string)
  : string :=
  match candidates with
  | [] => fallback
  | Some s :: _ => s
  | None :: rest => firstOf rest fallback
  end.

Definition byId (el : HTMLElement) : option string :=
  if truthy (Dom.id el) then Some (idSelector (Dom.id el)) else None.

Definition byTestId (el : HTMLElement) : option string :=
  match getAttribute el "data-testid" with
  | Some v => if truthy v then Some (testIdSelector v) else None
  | None => None
  end.

Definition byName (el : HTMLElement) : option string :=
  match getAttribute el "name" with
  | Some v => if truthy v then Some (nameSelector v) else None
  | None => None
  end.

Definition byShortText (el : HTMLElement) : option string :=
  let text := trim (textContent el) in
  if truthy text && (String.length text <? 30)
     && (String.eqb (tagName el) "BUTTON" || String.eqb (tagName el) "A")
  then Some (textSelector text) else None.

Definition primaryByPriority (el : HTMLElement) : string :=
  firstOf [byId el; byTestId el; byName el; byShortText el]
    (toLowerCase (tagName el)).

(** An environment in which every call of the driver and of the file system
    resolves, over the given document and selector lookup. *)
Definition envOf (doc : Document) (lookup : string -> Probe) : Env :=
  {| document := Some doc;
     locate := lookup;
     querySelector := lookup;
     classCount := fun _ => Some 1;
     click := fun _ => true;
     clickNavigations := fun _ => [];
     fill := fun _ _ => true;
     fillNavigations := fun _ _ => [];
     goto := fun _ => true;
     gotoNavigations := fun url => [(url, 1700%Z)];
     title := "Shop";
     overlayOk := true;
     screenshotOk := true;
     tracingStopOk := true;
     closeOk := true;
     fsOk := true |}.

Definition nothingResolves : string -> Probe := fun _ => Missing.

(** The characters of a generated name. *)
Definition isNameChar (c : ascii) : bool :=
  isLowerAlnum c || Ascii.eqb c "_"%char.

(** [slug]: lower case, every other character an underscore, runs of
    underscores collapsed, no underscore at either end. *)
Definition slug (s : string) : string :=
  stripEdgeUnderscores (collapseUnderscores (replaceNonAlnum (toLowerCase s))).

(** The name derivation in the words of the specification: the first
    non-empty of visible text, placeholder, aria-label, id and name
    attribute, slugified and cut to 30 characters, else the tag. *)
Definition specifiedName (el : HTMLElement) : string :=
  let attribute n := or_default (getAttribute el n) EmptyString in
  let base :=
    firstOf
      (map (fun s => if truthy s then Some s else None)
         [trim (textContent el); attribute "placeholder";
          attribute "aria-label"; Dom.id el; attribute "name"])
      EmptyString in
  let name := take 30 (slug base) in
  if truthy name then name else toLowerCase (tagName el).

(** A raw record describes the element [el]. *)
Definition describes (el : HTMLElement) (r : RawElement) : Prop :=
  rawSelector r = generateBestSelector el
  /\ rawType r = detectType el
  /\ rawText r = trim (textContent el)
  /\ rawAttributes r = getAttributes el.

(** A session [s1] that has mapped one element, a log-in button known by
    its id with two fallback selectors. *)
Definition loginButton : ElementMapping.t :=
  {| ElementMapping.id := "element-1700-0";
     ElementMapping.name := "log_in";
     ElementMapping.selector := "#login";
     ElementMapping.alternativeSelectors := [textSelector "Log in"; ".btn-login"];
     ElementMapping.type := TButton;
     ElementMapping.attributes := [("id", "login"); ("class", "btn-login")];
     ElementMapping.text := Some "Log in";
     ElementMapping.screenshot := None;
     ElementMapping.lastVerified := 1700%Z;
     ElementMapping.isStable := true |}.

Definition authoringSession : Session.t :=
  {| Session.id := "s1";
     Session.currentUrl := "https://shop.example/login";
     Session.currentPageObject := None;
     Session.recordedSteps := [];
     Session.elementMappings := [("element-1700-0", 0)];
     Session.isRecording := false;
     Session.traceFile := None |}.

Definition authoringBuilder : Builder.t :=
  {| Builder.sessions := [("s1", authoringSession)];
     Builder.pageObjectRepository := JsMap.empty;
     Builder.pageObjects := [];
     Builder.elementObjects := [loginButton];
     Builder.githubRepoPath := None;
     Builder.emitted := [] |}.

(** A page on which the button lost its id but kept its text. *)
Definition onlyTextResolves : string -> Probe :=
  fun selector =>
    if String.eqb selector (textSelector "Log in")
    then Found (element "BUTTON" [("class", "btn-login")] "Log in")
    else Missing.

(** The body a successful [DELETE /sessions/:sessionId] answers with. *)
Definition sessionEnded : Routes.Response :=
  {| Routes.status := 200; Routes.success := true;
     Routes.message := Some "Session ended"; Routes.error := None |}.

(** The recorder's view of a session: [isRecording] and [recordedSteps]. *)
Definition recording (sessionId : string) (b : Builder.t)
  : option (bool * list TestStep.t) :=
  match JsMap.get (Builder.sessions b) sessionId with
  | Some s => Some (Session.isRecording s, Session.recordedSteps s)
  | None => None
  end.

Definition isRecordingOf (sessionId : string) (b : Builder.t) : bool :=
  match recording sessionId b with
  | Some (armed, _) => armed
  | None => false
  end.


(** The recorder's view after a computation: the same flag, and [steps]
    appended to the recorded steps. *)
Definition appended (sessionId : string) (steps : list TestStep.t)
  (b b' : Builder.t) : Prop :=
  recording sessionId b'
  = match recording sessionId b with
    | Some (armed, recorded) => Some (armed, (recorded ++ steps)%list)
    | None => None
    end.

(** The effect of a computation on the recorder: [steps] are appended if
    the session is recording, nothing otherwise; the flag stays. *)
Definition records (sessionId : string) (steps : list TestStep.t)
  (b b' : Builder.t) : Prop :=
  appended sessionId (if isRecordingOf sessionId b then steps else []) b b'.

(** The step the [framenavigated] listener records for an event: the URL
    of the page and the time, both read when the event is raised. *)
Definition navigateStep (event : string * Z) : TestStep.t :=
  {| TestStep.id := "step-" ++ ofZ (snd event);
     TestStep.action := ANavigate;
     TestStep.elementId := None;
     TestStep.elementName := None;
     TestStep.selector := None;
     TestStep.value := Some (fst event);
     TestStep.assertion := None;
     TestStep.screenshot := None;
     TestStep.timestamp := snd event |}.






(** A session after the listener has run for the [events]: while it
    records, one [navigate] step each; and the engine after it: one
    [stepRecorded] event emitted for each as well. *)
Definition withNavigations (events : list (string * Z)) (s : Session.t)
  : Session.t :=
  if Session.isRecording s
  then Session.set_recordedSteps
         (Session.recordedSteps s ++ map navigateStep events)%list s
  else s.

Definition navigated (sessionId : string) (events : list (string * Z))
  (b : Builder.t) : Builder.t :=
  match JsMap.get (Builder.sessions b) sessionId with
  | Some s =>
      if Session.isRecording s
      then Builder.set_emitted
             (Builder.emitted b
              ++ repeat ("stepRecorded", sessionId) (List.length events))%list
             (Builder.set_sessions
                (JsMap.set (Builder.sessions b) sessionId
                   (withNavigations events s)) b)
      else b
  | None => b
  end.

(** The engine once [page.goto] has resolved in a visit of [url] by the
    session [s]: the listener has run and the session's URL is set. *)
Definition visiting (sessionId url : string) (env : Env)
  (b : Builder.t) (s : Session.t) : Builder.t :=
  Builder.set_sessions
    (JsMap.set
       (Builder.sessions (navigated sessionId (gotoNavigations env url) b))
       sessionId
       (Session.set_currentUrl url
          (withNavigations (gotoNavigations env url) s)))
    (navigated sessionId (gotoNavigations env url) b).

(** A stand-in for the Code Synthesizer. *)
Definition noCode : Session.t -> option PageObjectModel.t -> string :=
  fun _ _ => "// test".

(** The shop's log-in page: every selector can be clicked and filled but
    [#gone]; [#email] is the e-mail input; a click on [#register] takes the
    page to the registration form. *)
Definition loginPage : Env :=
  {| document := Some [emailInput];
     locate := fun selector =>
       if String.eqb selector "#email" then Found emailInput else Missing;
     querySelector := fun selector =>
       if String.eqb selector "#email" then Found emailInput else Missing;
     classCount := fun _ => Some 1;
     click := fun selector => negb (String.eqb selector "#gone");
     clickNavigations := fun selector =>
       if String.eqb selector "#register"
       then [("https://shop.example/register", 1745%Z)] else [];
     fill := fun _ _ => true;
     fillNavigations := fun _ _ => [];
     goto := fun _ => true;
     gotoNavigations := fun url => [(url, 1805%Z)];
     title := "Log in";
     overlayOk := true;
     screenshotOk := true;
     tracingStopOk := true;
     closeOk := true;
     fsOk := true |}.

(** The actions issued on [s1] before and after a recording: one click
    each. *)
Definition warmUp : list Builder.Call :=
  [(Builder.Click "#login" None, loginPage, 1710%Z)].

Definition coolDown : list Builder.Call :=
  [(Builder.Click "#login" None, loginPage, 1760%Z)].

(** The content of a descriptor: all its fields but the time of its last
    verification. *)
Definition untimed (e : ElementMapping.t) : ElementMapping.t :=
  ElementMapping.set_lastVerified 0%Z e.

(** The content of the [elements] of a page object model: the descriptors
    its locations hold, in order. *)
Definition elementsContent (b : Builder.t) (pom : PageObjectModel.t)
  : list (option ElementMapping.t) :=
  map (fun l => option_map untimed (Store.read (Builder.elementObjects b) l))
    (PageObjectModel.elements pom).

(** The merge map is well formed over a store: its keys are distinct and
    each key is the selector of the descriptor it leads to. *)
Definition wellKeyed (objects : Store.t ElementMapping.t) (m : JsMap.t nat)
  : Prop :=
  NoDup (JsMap.keys m)
  /\ forall k l, In (k, l) m ->
       exists e, Store.read objects l = Some e
                 /\ ElementMapping.selector e = k.

(** The selectors [ks] are keys of the map and lead to stable descriptors. *)
Definition knownStable (objects : Store.t ElementMapping.t) (m : JsMap.t nat)
  (ks : list string) : Prop :=
  forall k, In k ks ->
    exists l e, JsMap.get m k = Some l
                /\ Store.read objects l = Some e
                /\ ElementMapping.isStable e = true.

(** From one store to a later one: every descriptor is still there, under
    the same selector, and stable if it was. *)
Definition evolves (objects objects' : Store.t ElementMapping.t) : Prop :=
  forall l e, Store.read objects l = Some e ->
    exists e', Store.read objects' l = Some e'
               /\ ElementMapping.selector e' = ElementMapping.selector e
               /\ (ElementMapping.isStable e = true ->
                   ElementMapping.isStable e' = true).

(** A page object model of two elements of the log-in page, and the page
    as it is extracted on a later visit: the button again, and the e-mail
    input that is new. *)
Definition passwordField : ElementMapping.t :=
  {| ElementMapping.id := "element-1700-1";
     ElementMapping.name := "password";
     ElementMapping.selector := nameSelector "password";
     ElementMapping.alternativeSelectors := [];
     ElementMapping.type := TInput;
     ElementMapping.attributes := [("name", "password"); ("type", "password")];
     ElementMapping.text := Some EmptyString;
     ElementMapping.screenshot := None;
     ElementMapping.lastVerified := 1700%Z;
     ElementMapping.isStable := false |}.

Definition loginPom : PageObjectModel.t :=
  {| PageObjectModel.id := "pom-1700";
     PageObjectModel.name := "LoginPage";
     PageObjectModel.url := "https://shop.example/login";
     PageObjectModel.urlPattern := Some "/login";
     PageObjectModel.elements := [0; 1];
     PageObjectModel.lastUpdated := 1700%Z;
     PageObjectModel.version := 1%Z;
     PageObjectModel.screenshots := ("screenshots/a.png", "screenshots/b.png") |}.

Definition storeBuilder : Builder.t :=
  {| Builder.sessions := JsMap.empty;
     Builder.pageObjectRepository := [("pom-1700", 0)];
     Builder.pageObjects := [loginPom];
     Builder.elementObjects := [loginButton; passwordField];
     Builder.githubRepoPath := None;
     Builder.emitted := [] |}.

(** The same store when the model was read from the repository files with
    the version [2^53]. *)
Definition importedPom : PageObjectModel.t :=
  {| PageObjectModel.id := "pom-1700";
     PageObjectModel.name := "LoginPage";
     PageObjectModel.url := "https://shop.example/login";
     PageObjectModel.urlPattern := Some "/login";
     PageObjectModel.elements := [0; 1];
     PageObjectModel.lastUpdated := 1700%Z;
     PageObjectModel.version := 9007199254740992%Z;
     PageObjectModel.screenshots := ("screenshots/a.png", "screenshots/b.png") |}.

Definition importedBuilder : Builder.t :=
  {| Builder.sessions := JsMap.empty;
     Builder.pageObjectRepository := [("pom-1700", 0)];
     Builder.pageObjects := [importedPom];
     Builder.elementObjects := [loginButton; passwordField];
     Builder.githubRepoPath := Some "/srv/tests";
     Builder.emitted := [] |}.

Definition laterVisit : Document :=
  [element "BUTTON" [("id", "login")] "Log in";
   element "INPUT" [("type", "password"); ("name", "password")] EmptyString;
   emailInput].

(** Two pages of one family whose path contains a plus sign, and two whose
    path is plain. *)
Definition rockAndRoll42 : string := "https://shop.example/tags/rock+roll/42".

Definition rockAndRoll99 : string := "https://shop.example/tags/rock+roll/99".

Definition item42 : string := "https://shop.example/items/42".

Definition item99 : string := "https://shop.example/items/99".

(** The engine after session [s1] has been started and has navigated to
    [url] for the first time. *)
Definition afterFirstVisit (B : Builtins) (url : string) : Builder.t :=
  snd (Builder.navigateAndAnalyze B "s1" url (envOf [goButton] nothingResolves)
         1700
         (snd (Builder.startSession "s1" true (Builder.create None)))).

(** A path character that is not regular-expression syntax, the dot apart
    (which, as a pattern, matches a dot among others). *)
Definition isPlainPathChar (c : ascii) : bool :=
  Url.isPathChar c
  && negb (existsb (Ascii.eqb c)
             ["$"%char; "("%char; ")"%char; "*"%char; "+"%char]).

(** The atom a plain path character compiles to. *)
Definition atomOf (c : ascii) : RegExp.atom :=
  if Ascii.eqb c "."%char then RegExp.AnyChar else RegExp.Lit c.

(** The compiled form of the pattern of a plain path: one atom per
    character, and [/] followed by [\d+] for a numeric segment. *)
Fixpoint pathAtoms (skipping : bool) (s : string) : RegExp.t :=
  match s with
  | EmptyString => []
  | String c s' =>
      if skipping && isDigit c then pathAtoms true s'
      else if Ascii.eqb c "/"%char
              && match s' with
                 | String d _ => isDigit d
                 | EmptyString => false
                 end
      then (RegExp.Lit "/"%char, RegExp.One)
             :: (RegExp.Digit, RegExp.Plus) :: pathAtoms true s'
      else (atomOf c, RegExp.One) :: pathAtoms false s'
  end.

(** The atom still pending in the parser, once it is emitted. *)
Definition flush (pending : option RegExp.atom) : RegExp.t :=
  match pending with
  | Some a => [(a, RegExp.One)]
  | None => []
  end.

Definition consParsed (l : RegExp.t) (p : RegExp.parsed) : RegExp.parsed :=
  match p with
  | RegExp.Compiled r => RegExp.Compiled (l ++ r)%list
  | other => other
  end.

(** A model that holds two descriptors with the same selector, as the
    extraction of two bare [<button>] elements produces them. *)
Definition bareButtonA : ElementMapping.t :=
  {| ElementMapping.id := "element-1700-0";
     ElementMapping.name := "button_element";
     ElementMapping.selector := "button";
     ElementMapping.alternativeSelectors := [];
     ElementMapping.type := TButton;
     ElementMapping.attributes := [];
     ElementMapping.text := Some EmptyString;
     ElementMapping.screenshot := None;
     ElementMapping.lastVerified := 1700%Z;
     ElementMapping.isStable := true |}.

Definition bareButtonB : ElementMapping.t :=
  {| ElementMapping.id := "element-1700-1";
     ElementMapping.name := "button_element";
     ElementMapping.selector := "button";
     ElementMapping.alternativeSelectors := [];
     ElementMapping.type := TButton;
     ElementMapping.attributes := [("class", "primary")];
     ElementMapping.text := Some EmptyString;
     ElementMapping.screenshot := None;
     ElementMapping.lastVerified := 1700%Z;
     ElementMapping.isStable := true |}.

Definition twoButtonsBuilder : Builder.t :=
  {| Builder.sessions := JsMap.empty;
     Builder.pageObjectRepository := [("pom-1700", 0)];
     Builder.pageObjects := [loginPom];
     Builder.elementObjects := [bareButtonA; bareButtonB];
     Builder.githubRepoPath := None;
     Builder.emitted := [] |}.

(** ** Vocabulary of the further properties *)

(** An element that one of the seven selectors matches. *)
Definition isInteractive (el : HTMLElement) : bool :=
  existsb (fun s => matches s el) selectors.

(** An element with a rendered area and no inline [display: none] or
    [visibility: hidden]. *)
Definition isVisible (el : HTMLElement) : bool :=
  negb ((rectWidth el =? 0)%Z || (rectHeight el =? 0)%Z)
  && negb (String.eqb (styleDisplay el) "none"
           || String.eqb (styleVisibility el) "hidden").

(** The shape of a name with respect to underscores. *)
Definition startsWithUnderscore (s : string) : bool :=
  match s with
  | String c _ => Ascii.eqb c "_"%char
  | EmptyString => false
  end.

Fixpoint endsWithUnderscore (s : string) : bool :=
  match s with
  | EmptyString => false
  | String c EmptyString => Ascii.eqb c "_"%char
  | String _ s' => endsWithUnderscore s'
  end.

Fixpoint hasDoubleUnderscore (s : string) : bool :=
  match s with
  | EmptyString => false
  | String c s' =>
      (Ascii.eqb c "_"%char && startsWithUnderscore s')
      || hasDoubleUnderscore s'
  end.

(** [<input type="checkbox" name="remember">]. *)
Definition rememberCheckbox : HTMLElement :=
  element "INPUT" [("type", "checkbox"); ("name", "remember")] EmptyString.

(** What a descriptor records of the element it was extracted from. *)
Definition snapshot (el : HTMLElement)
  : string * ElementType * option string * list (string * string) :=
  (generateBestSelector el, detectType el, Some (trim (textContent el)),
   getAttributes el).

Definition snapshotOf (d : ElementMapping.t)
  : string * ElementType * option string * list (string * string) :=
  (ElementMapping.selector d, ElementMapping.type d, ElementMapping.text d,
   ElementMapping.attributes d).

Definition rawSnapshot (r : RawElement)
  : string * ElementType * option string * list (string * string) :=
  (rawSelector r, rawType r, Some (rawText r), rawAttributes r).

(** The scan of the document, with the nodes [V] it has met for the first
    time so far: [acc] holds their identities and the records of the
    visible ones. *)
Definition traced (L V : list (nat * HTMLElement))
  (acc : list nat * list RawElement) : Prop :=
  fst acc = map fst V
  /\ map rawSnapshot (snd acc)
     = map (fun n => snapshot (snd n)) (filter (fun n => isVisible (snd n)) V)
  /\ NoDup (map fst V)
  /\ incl V L.


(** *** The engine driven by a sequence of calls *)

(** A call of a method of the engine, the [framenavigated] event of a
    session's page, or a message of its overlay. *)
Inductive Request : Type :=
| StartSession (sessionId : string) (launches : bool)
| NavigateAndAnalyze (sessionId url : string)
| StartRecording (sessionId : string)
| StopRecording (sessionId : string)
| ClickElement (sessionId selector : string) (elementName : option string)
| FillElement (sessionId selector value : string)
    (elementName : option string)
| MapNewElement (sessionId selector name : string)
| VerifyElementStability (sessionId elementId : string)
| EndSession (sessionId : string)
| FrameNavigated (sessionId url : string)
| SendToBackend (sessionId : string) (message : Builder.OverlayMessage).

(** The state a request leaves behind, whether it returns or throws. *)
Definition serve (B : Builtins)
  (generateTestCode : Session.t -> option PageObjectModel.t -> string)
  (request : Request) (env : Env) (now : Z) (b : Builder.t) : Builder.t :=
  match request with
  | StartSession sessionId launches =>
      snd (Builder.startSession sessionId launches b)
  | NavigateAndAnalyze sessionId url =>
      snd (Builder.navigateAndAnalyze B sessionId url env now b)
  | StartRecording sessionId => snd (Builder.startRecording sessionId now b)
  | StopRecording sessionId =>
      snd (Builder.stopRecording generateTestCode sessionId env b)
  | ClickElement sessionId selector elementName =>
      snd (Builder.clickElement B sessionId selector elementName env now b)
  | FillElement sessionId selector value elementName =>
      snd (Builder.fillElement B sessionId selector value elementName env now b)
  | MapNewElement sessionId selector name =>
      snd (Builder.mapNewElement B sessionId selector name env now b)
  | VerifyElementStability sessionId elementId =>
      snd (Builder.verifyElementStability sessionId elementId env now b)
  | EndSession sessionId => snd (Builder.endSession sessionId env b)
  | FrameNavigated sessionId url =>
      snd (Builder.onFrameNavigated sessionId url now b)
  | SendToBackend sessionId message =>
      snd (Builder.sendToBackend B sessionId message env now b)
  end.

(** The requests are served one after the other, each with the page and
    the clock it meets. *)
Fixpoint serveAll (B : Builtins)
  (generateTestCode : Session.t -> option PageObjectModel.t -> string)
  (requests : list (Request * Env * Z)) (b : Builder.t) : Builder.t :=
  match requests with
  | [] => b
  | (request, env, now) :: rest =>
      serveAll B generateTestCode rest
        (serve B generateTestCode request env now b)
  end.

(** [getActiveSessions()]. *)
Definition getActiveSessions (b : Builder.t) : list string :=
  JsMap.keys (Builder.sessions b).

(** [getAllPageObjects()]: the locations of the repository's values. *)
Definition getAllPageObjects (b : Builder.t) : list nat :=
  JsMap.values (Builder.pageObjectRepository b).

(** A computation relates every state to the state it leaves behind. *)
Definition respects (R : Builder.t -> Builder.t -> Prop) {A : Type}
  (m : Builder.M A) : Prop :=
  forall b, R b (snd (m b)).

(** A computation that leaves every state as it is. *)
Definition readOnly {A : Type} (m : Builder.M A) : Prop :=
  forall b, snd (m b) = b.

(** A request that opens or closes a session. *)
Definition opensOrCloses (request : Request) : bool :=
  match request with
  | StartSession _ _ | EndSession _ => true
  | _ => false
  end.

(** The list of active sessions is the same in both states. *)
Definition sameSessions (b b' : Builder.t) : Prop :=
  getActiveSessions b' = getActiveSessions b.

(** A descriptor as the engine creates it: marked stable, with at most
    three alternative selectors. *)
Definition stableBounded (e : ElementMapping.t) : Prop :=
  ElementMapping.isStable e = true
  /\ List.length (ElementMapping.alternativeSelectors e) <= 3.

Definition allStableBounded (b : Builder.t) : Prop :=
  Forall stableBounded (Builder.elementObjects b).

Definition keepsStableBounded (b b' : Builder.t) : Prop :=
  allStableBounded b -> allStableBounded b'.

(** A later state of a page object model: the same id, name, URL, pattern
    and screenshots. *)
Definition laterModel (p p' : PageObjectModel.t) : Prop :=
  PageObjectModel.id p' = PageObjectModel.id p
  /\ PageObjectModel.name p' = PageObjectModel.name p
  /\ PageObjectModel.url p' = PageObjectModel.url p
  /\ PageObjectModel.urlPattern p' = PageObjectModel.urlPattern p
  /\ PageObjectModel.screenshots p' = PageObjectModel.screenshots p.

(** The id [createPageObjectModel] gives the model it creates at [now]. *)
Definition createdId (now : Z) : string := "pom-" ++ ofZ now.

(** The ids of the models a list of requests can create: one per visit. *)
Definition createdIds (requests : list (Request * Env * Z)) : list string :=
  flat_map
    (fun r : Request * Env * Z =>
       match r with
       | (NavigateAndAnalyze _ _, _, now) => [createdId now]
       | _ => []
       end) requests.

(** A later state of the Page Object Store: every model object is a later
    state of itself, and a key of the repository leads to the model it led
    to, unless it is one of [ids], and then it is still a key. *)
Definition laterStore (ids : list string) (b b' : Builder.t) : Prop :=
  (forall l p, Store.read (Builder.pageObjects b) l = Some p ->
     exists p', Store.read (Builder.pageObjects b') l = Some p'
                /\ laterModel p p')
  /\ (forall k l, JsMap.get (Builder.pageObjectRepository b) k = Some l ->
        JsMap.get (Builder.pageObjectRepository b') k = Some l
        \/ (In k ids /\ JsMap.has (Builder.pageObjectRepository b') k = true)).

(** Two sessions that visit two pages in the same millisecond. *)
Definition sameMillisecond : list (Request * Env * Z) :=
  [(StartSession "s1" true, envOf [] nothingResolves, 1690%Z);
   (StartSession "s2" true, envOf [] nothingResolves, 1695%Z);
   (NavigateAndAnalyze "s1" "https://shop.example/cart",
    envOf [goButton] nothingResolves, 1700%Z);
   (NavigateAndAnalyze "s2" "https://shop.example/login",
    envOf [emailInput] nothingResolves, 1700%Z)].

(** The session object [startSession] registers. *)
Definition freshSession (sessionId : string) : Session.t :=
  {| Session.id := sessionId;
     Session.currentUrl := EmptyString;
     Session.currentPageObject := None;
     Session.recordedSteps := [];
     Session.elementMappings := JsMap.empty;
     Session.isRecording := false;
     Session.traceFile := None |}.

(** An environment in which nothing resolves. *)
Definition brokenBrowser : Env :=
  {| document := None; locate := fun _ => Crashed;
     querySelector := fun _ => Crashed; classCount := fun _ => None;
     click := fun _ => false; clickNavigations := fun _ => [];
     fill := fun _ _ => false; fillNavigations := fun _ _ => [];
     goto := fun _ => false; gotoNavigations := fun _ => [];
     title := EmptyString;
     overlayOk := false; screenshotOk := false;
     tracingStopOk := false; closeOk := false; fsOk := false |}.

(** The model [createPageObjectModel] builds for a page visited for the
    first time. *)
Definition firstModel (now : Z) (name url pattern : string)
  (elements : list nat) : PageObjectModel.t :=
  {| PageObjectModel.id := "pom-" ++ ofZ now;
     PageObjectModel.name := name;
     PageObjectModel.url := url;
     PageObjectModel.urlPattern := Some pattern;
     PageObjectModel.elements := elements;
     PageObjectModel.lastUpdated := now;
     PageObjectModel.version := 1%Z;
     PageObjectModel.screenshots :=
       ("screenshots/screenshot-" ++ ofZ now ++ ".png",
        "screenshots/screenshot-" ++ ofZ now ++ ".png") |}.

(** What the lookup by URL reads of a model. *)
Definition lookupKey (p : PageObjectModel.t) : string * option string :=
  (PageObjectModel.url p, PageObjectModel.urlPattern p).

(** The descriptor [mapNewElement] builds for the element [el] that
    [selector] resolves to. *)
Definition mappedElement (selector name : string) (el : HTMLElement)
  (alternatives : list string) (now : Z) : ElementMapping.t :=
  {| ElementMapping.id := "element-" ++ ofZ now;
     ElementMapping.name := name;
     ElementMapping.selector := selector;
     ElementMapping.alternativeSelectors := alternatives;
     ElementMapping.type :=
       detectElementType (toLowerCase (tagName el))
         (or_default (getAttribute el "type") EmptyString);
     ElementMapping.attributes := getAttributes el;
     ElementMapping.text := Some (trim (textContent el));
     ElementMapping.screenshot := None;
     ElementMapping.lastVerified := now;
     ElementMapping.isStable := true |}.

(** What [mapNewElement] does to the current page object: one more
    element, a new update time, the next version. *)
Definition withElement (l : nat) (now : Z) (pom : PageObjectModel.t)
  : PageObjectModel.t :=
  PageObjectModel.incr_version
    (PageObjectModel.set_lastUpdated now
       (PageObjectModel.set_elements
          (PageObjectModel.elements pom ++ [l])%list pom)).

(** A session on the log-in page whose model is [loginPom], in an engine
    that saves its models to a repository; and the log-in page when the
    repository cannot be written. *)
Definition recordingSession : Session.t :=
  {| Session.id := "s1";
     Session.currentUrl := "https://shop.example/login";
     Session.currentPageObject := Some 0;
     Session.recordedSteps := [];
     Session.elementMappings :=
       [("element-1700-0", 0); ("element-1700-1", 1)];
     Session.isRecording := true;
     Session.traceFile := None |}.

Definition savingBuilder : Builder.t :=
  {| Builder.sessions := [("s1", recordingSession)];
     Builder.pageObjectRepository := [("pom-1700", 0)];
     Builder.pageObjects := [loginPom];
     Builder.elementObjects := [loginButton; passwordField];
     Builder.githubRepoPath := Some "/srv/tests";
     Builder.emitted := [] |}.

Definition readOnlyDisk : Env :=
  {| document := document loginPage;
     locate := locate loginPage;
     querySelector := querySelector loginPage;
     classCount := classCount loginPage;
     click := click loginPage;
     clickNavigations := clickNavigations loginPage;
     fill := fill loginPage;
     fillNavigations := fillNavigations loginPage;
     goto := goto loginPage;
     gotoNavigations := gotoNavigations loginPage;
     title := title loginPage;
     overlayOk := true;
     screenshotOk := true;
     tracingStopOk := true;
     closeOk := true;
     fsOk := false |}.

(** The selector a command acts on. *)
Definition selectorOf (command : Builder.Command) : string :=
  match command with
  | Builder.Click selector _ => selector
  | Builder.Fill selector _ _ => selector
  end.

(** The session's element mappings and the descriptors they lead to are
    the same in both states. *)
Definition sameMappings (sessionId : string) (b b' : Builder.t) : Prop :=
  Builder.elementObjects b' = Builder.elementObjects b
  /\ option_map Session.elementMappings
       (JsMap.get (Builder.sessions b') sessionId)
     = option_map Session.elementMappings
         (JsMap.get (Builder.sessions b) sessionId).

(** The selectors of the descriptors at the given locations, in order. *)
Definition selectorsOf (objects : Store.t ElementMapping.t)
  (elements : list nat) : list string :=
  flat_map
    (fun l =>
       match Store.read objects l with
       | Some e => [ElementMapping.selector e]
       | None => []
       end) elements.

(** The request carries the fields its route requires, each with a
    non-empty value where the route tests for one. *)
Definition wellFormed (call : SessionRoutes.Call) : bool :=
  match call with
  | SessionRoutes.Navigate url => truthy_opt url
  | SessionRoutes.Click selector _ => truthy_opt selector
  | SessionRoutes.Fill selector value _ =>
      truthy_opt selector
      && match value with
         | Some _ => true
         | None => false
         end
  | SessionRoutes.MapElement selector name =>
      truthy_opt selector && truthy_opt name
  | _ => true
  end.

(** What each route answers when the session does not exist. *)
Definition withoutSession (call : SessionRoutes.Call) : Routes.Response :=
  match call with
  | SessionRoutes.Navigate _ =>
      SessionRoutes.failure 500 "Failed to navigate and analyze page"
  | SessionRoutes.RecordStart =>
      SessionRoutes.failure 500 "Failed to start recording"
  | SessionRoutes.RecordStop =>
      SessionRoutes.failure 500 "Failed to stop recording"
  | SessionRoutes.Click _ _ =>
      SessionRoutes.failure 500 "Failed to click element"
  | SessionRoutes.Fill _ _ _ =>
      SessionRoutes.failure 500 "Failed to fill element"
  | SessionRoutes.MapElement _ _ =>
      SessionRoutes.failure 404 "Session not found"
  | SessionRoutes.Verify _ =>
      SessionRoutes.failure 500 "Failed to verify element"
  | SessionRoutes.SessionDetails =>
      SessionRoutes.failure 404 "Session not found"
  | SessionRoutes.DeleteSession => SessionRoutes.ok (Some "Session ended")
  end.

(** *** Vocabulary of the generated code *)

(** [needle] occurs in [text]. *)
Definition occurs (needle text : string) : Prop :=
  exists before after, text = before ++ needle ++ after.

Definition endsWith (suffix text : string) : Prop :=
  exists base, text = base ++ suffix.

(** A letter or a digit. *)
Definition isAlnum (c : ascii) : bool := Url.isAsciiLetter c || isDigit c.

Definition notUpperLetter (c : ascii) : bool :=
  negb (Synthesizer.isUpperLetter c).

(** A recorded fill of the e-mail input of the log-in page. *)
Definition fillEmailStep : TestStep.t :=
  {| TestStep.id := "step-1730";
     TestStep.action := AFill;
     TestStep.elementId := Some "element-1730";
     TestStep.elementName := Some "email";
     TestStep.selector := Some "#email";
     TestStep.value := Some "ann";
     TestStep.assertion := None;
     TestStep.screenshot := Some "screenshots/screenshot-1730.png";
     TestStep.timestamp := 1730%Z |}.

(** The engine after the e-mail input was filled while [s1] was recording,
    and the test [stopRecording] then returns. *)
Definition recordedBuilder : Builder.t :=
  snd (Builder.perform fragmentBuiltins "s1"
         (Builder.Fill "#email" "ann" (Some "email"), loginPage, 1730%Z)
         savingBuilder).

Definition emailTest : string :=
  match
    fst (Builder.stopRecording Synthesizer.generateTestCode "s1" loginPage
           recordedBuilder)
  with
  | Ok code => code
  | Throw _ => EmptyString
  end.

(** A recorded click on the log-in button, and the class generated for the
    model of the log-in page. *)
Definition clickLoginStep : TestStep.t :=
  {| TestStep.id := "step-1740";
     TestStep.action := AClick;
     TestStep.elementId := Some "element-1700-0";
     TestStep.elementName := Some "log_in";
     TestStep.selector := Some "#login";
     TestStep.value := None;
     TestStep.assertion := None;
     TestStep.screenshot := None;
     TestStep.timestamp := 1740%Z |}.

Definition loginClass : string :=
  match
    Synthesizer.generatePageObjectClass fragmentBuiltins loginPom
      [loginButton; passwordField]
  with
  | Ok code => code
  | Throw _ => EmptyString
  end.

(** The log-in page when the overlay cannot be injected (the function it
    exposes is already registered on the page). *)
Definition noOverlay : Env :=
  {| document := document loginPage;
     locate := locate loginPage;
     querySelector := querySelector loginPage;
     classCount := classCount loginPage;
     click := click loginPage;
     clickNavigations := clickNavigations loginPage;
     fill := fill loginPage;
     fillNavigations := fillNavigations loginPage;
     goto := goto loginPage;
     gotoNavigations := gotoNavigations loginPage;
     title := title loginPage;
     overlayOk := false;
     screenshotOk := true;
     tracingStopOk := true;
     closeOk := true;
     fsOk := true |}.

(** The step the overlay's [ta-action-recorded] message records. *)
Definition overlayStep (action : Action) (selector : string) (now : Z)
  : TestStep.t :=
  {| TestStep.id := "step-" ++ ofZ now;
     TestStep.action := action;
     TestStep.elementId := None;
     TestStep.elementName := None;
     TestStep.selector := Some selector;
     TestStep.value := None;
     TestStep.assertion := None;
     TestStep.screenshot := None;
     TestStep.timestamp := now |}.




(** *** Vocabulary of the recording window *)






(** Four actions issued while recording: a click, a fill that maps a new
    element, a click that fails, and a click that takes the page to the
    registration form. *)
Definition scenario : list Builder.Call :=
  [(Builder.Click "#login" None, loginPage, 1720%Z);
   (Builder.Fill "#email" "ann@shop.example" (Some "email"), loginPage, 1730%Z);
   (Builder.Click "#gone" None, loginPage, 1740%Z);
   (Builder.Click "#register" None, loginPage, 1744%Z)].

(** * Properties *)

(** ** Maps and stores *)

Section JsMapFacts.
Context {V : Type}.
Implicit Types (m : JsMap.t V) (k : string) (v : V).

Lemma get_set_same m k v : JsMap.get (JsMap.set m k v) k = Some v.
Proof.
  induction m as [|[k' v'] m IH]; simpl.
  - now rewrite String.eqb_refl.
  - destruct (String.eqb k' k) eqn:E; simpl; rewrite E; auto.
Qed.

Lemma get_set_other m k k' v :
  k <> k' -> JsMap.get (JsMap.set m k v) k' = JsMap.get m k'.
Proof.
  intros Hne. induction m as [|[k0 v0] m IH]; simpl.
  - destruct (String.eqb k k') eqn:E; auto.
    apply String.eqb_eq in E. contradiction.
  - destruct (String.eqb k0 k) eqn:E; simpl.
    + apply String.eqb_eq in E. subst k0.
      destruct (String.eqb k k') eqn:E'; auto.
      apply String.eqb_eq in E'. contradiction.
    + now rewrite IH.
Qed.

Lemma get_delete_same m k : JsMap.get (JsMap.delete m k) k = None.
Proof.
  induction m as [|[k' v'] m IH]; simpl; auto.
  destruct (String.eqb k' k) eqn:E; simpl; auto. now rewrite E.
Qed.

Lemma get_In m k v : JsMap.get m k = Some v -> In (k, v) m.
Proof.
  induction m as [|[k' v'] m IH]; simpl; [discriminate|].
  destruct (String.eqb k' k) eqn:E.
  - apply String.eqb_eq in E. intros [= ->]. subst. now left.
  - intros H. right. auto.
Qed.

Lemma get_None_keys m k : JsMap.get m k = None <-> ~ In k (JsMap.keys m).
Proof.
  induction m as [|[k' v'] m IH]; simpl.
  - tauto.
  - destruct (String.eqb k' k) eqn:E.
    + apply String.eqb_eq in E. split; [discriminate|]. intros H. tauto.
    + apply String.eqb_neq in E. rewrite IH. tauto.
Qed.

Lemma set_new m k v :
  JsMap.get m k = None -> JsMap.set m k v = (m ++ [(k, v)])%list.
Proof.
  induction m as [|[k' v'] m IH]; simpl; auto.
  destruct (String.eqb k' k); [discriminate|].
  intros H. now rewrite IH.
Qed.

Lemma keys_set_known m k v v0 :
  JsMap.get m k = Some v0 -> JsMap.keys (JsMap.set m k v) = JsMap.keys m.
Proof.
  induction m as [|[k' v'] m IH]; simpl; [discriminate|].
  destruct (String.eqb k' k) eqn:E; simpl; auto.
  intros H. now rewrite IH.
Qed.

End JsMapFacts.

Section StoreFacts.
Context {A : Type}.
Implicit Types (s : Store.t A) (l : nat) (a : A).

Lemma write_length s l a : List.length (Store.write s l a) = List.length s.
Proof.
  revert l. induction s as [|x s IH]; intros [|l]; simpl; auto.
Qed.

Lemma read_write_same s l a :
  l < List.length s -> Store.read (Store.write s l a) l = Some a.
Proof.
  revert l. induction s as [|x s IH]; intros [|l]; simpl; try lia; auto.
  intros H. apply IH. lia.
Qed.

Lemma read_write_other s l l' a :
  l <> l' -> Store.read (Store.write s l a) l' = Store.read s l'.
Proof.
  revert l l'. induction s as [|x s IH]; intros [|l] [|l']; simpl; auto;
    intros H; try congruence; apply IH; congruence.
Qed.

Lemma read_Some_lt s l a : Store.read s l = Some a -> l < List.length s.
Proof.
  unfold Store.read. intros H. apply nth_error_Some. congruence.
Qed.

Lemma read_alloc_old s l a :
  l < List.length s -> Store.read (s ++ [a])%list l = Store.read s l.
Proof. intros H. unfold Store.read. now rewrite nth_error_app1. Qed.

Lemma read_alloc_new s a :
  Store.read (s ++ [a])%list (List.length s) = Some a.
Proof.
  unfold Store.read. rewrite nth_error_app2 by lia.
  now rewrite Nat.sub_diag.
Qed.

End StoreFacts.

(** ** Numbers *)

(** [++] adds exactly one to a safe integer. *)
Lemma increment_safe (n : Z) :
  isSafeInteger n = true -> increment n = (n + 1)%Z.
Proof.
  unfold isSafeInteger, increment, roundToNumber.
  change (2 ^ 53)%Z with 9007199254740992%Z. intros H.
  apply Z.ltb_lt in H.
  destruct (Z.abs (n + 1) <? 9007199254740992)%Z eqn:E; [reflexivity|].
  apply Z.ltb_ge in E.
  assert (Hn : (n + 1 = 9007199254740992)%Z) by lia.
  rewrite Hn. reflexivity.
Qed.

(** The first integer that [++] leaves as it is. *)
Example increment_saturates :
  increment 9007199254740992 = 9007199254740992%Z
  /\ increment 9007199254740991 = 9007199254740992%Z
  /\ isSafeInteger 9007199254740991 = true
  /\ isSafeInteger 9007199254740992 = false.
Proof. repeat split. Qed.

(** ** Selector Resolver *)

Lemma or_else_falsy (a b : option string) :
  truthy_opt a = false -> or_else a b = b.
Proof. unfold or_else. now intros ->. Qed.

Lemma or_else_truthy (a b : option string) :
  truthy_opt a = true -> or_else a b = a.
Proof. unfold or_else. now intros ->. Qed.

(** C1, on the input that refutes it as stated: a page whose only element
    is a visible button with a [data-testid] attribute that is present but
    empty, and without id. The extraction retains the button, and its
    primary selector is not the [data-testid] selector: the resolver falls
    through to the tag name. *)
Lemma generateBestSelector_empty_testid :
  getAttribute emptyTestIdButton "data-testid" = Some EmptyString
  /\ getAttribute emptyTestIdButton "id" = None
  /\ map ElementMapping.selector (extractFrom [emptyTestIdButton] 1700)
     = [generateBestSelector emptyTestIdButton]
  /\ generateBestSelector emptyTestIdButton = "button"
  /\ generateBestSelector emptyTestIdButton <> testIdSelector EmptyString.
Proof. repeat split; try reflexivity. discriminate. Qed.

(** C1 (amended): an element with a non-empty [id] gets [#<id>]; an element
    without a non-empty [id] and with a non-empty [data-testid] gets the
    [data-testid] attribute selector. *)
Theorem generateBestSelector_id_then_testid (el : HTMLElement) :
  (truthy (Dom.id el) = true ->
   generateBestSelector el = idSelector (Dom.id el))
  /\ (forall v,
        truthy (Dom.id el) = false ->
        getAttribute el "data-testid" = Some v ->
        truthy v = true ->
        generateBestSelector el = testIdSelector v).
Proof.
  unfold generateBestSelector. split.
  - now intros ->.
  - intros v Hid Hattr Hv. rewrite Hid, Hattr.
    rewrite or_else_truthy by exact Hv.
    cbn [truthy_opt]. rewrite Hv. reflexivity.
Qed.

Lemma generateBestSelector_id_then_testid_witness :
  generateBestSelector goButton = "#go"
  /\ generateBestSelector totalSpan = testIdSelector "total".
Proof.
  split.
  - apply (proj1 (generateBestSelector_id_then_testid goButton)).
    reflexivity.
  - apply (proj2 (generateBestSelector_id_then_testid totalSpan) "total");
      reflexivity.
Defined.

(** C7, on the input that refutes it as stated: a page whose only element
    is a visible [<div role="button" aria-label="Close">], without id and
    without test-identification attribute. The extraction retains it, and
    its primary selector is not the [aria-label] selector: the resolver has
    no such strategy and answers the tag name. *)
Lemma generateBestSelector_ignores_aria_label :
  getAttribute closeIcon "aria-label" = Some "Close"
  /\ Dom.id closeIcon = EmptyString
  /\ getAttribute closeIcon "data-testid" = None
  /\ getAttribute closeIcon "data-test" = None
  /\ getAttribute closeIcon "data-cy" = None
  /\ map ElementMapping.selector (extractFrom [closeIcon] 1700)
     = [generateBestSelector closeIcon]
  /\ generateBestSelector closeIcon = "div"
  /\ generateBestSelector closeIcon <> ariaLabelSelector "Close".
Proof. repeat split; try reflexivity. discriminate. Qed.

(** C7 (amended): on an element that carries no non-empty [data-test] or
    [data-cy] attribute, the primary selector is the first that applies of
    (1) [#id]; (2) the [data-testid] attribute selector; (3) the [name]
    attribute selector; (4) the text selector, for a [BUTTON] or [A] whose
    trimmed text is non-empty and shorter than 30; (5) the lower-cased tag
    name. *)
Theorem generateBestSelector_priority (el : HTMLElement) :
  truthy_opt (getAttribute el "data-test") = false ->
  truthy_opt (getAttribute el "data-cy") = false ->
  generateBestSelector el = primaryByPriority el.
Proof.
  intros Htest Hcy.
  unfold generateBestSelector, primaryByPriority, byId, byTestId, byName,
    byShortText.
  destruct (truthy (Dom.id el)) eqn:Hid; cbn [firstOf]; [reflexivity|].
  rewrite (or_else_falsy _ _ Htest).
  assert (Htid :
    truthy_opt (or_else (getAttribute el "data-testid")
                  (getAttribute el "data-cy"))
    = truthy_opt (getAttribute el "data-testid")).
  { unfold or_else.
    destruct (truthy_opt (getAttribute el "data-testid")) eqn:E;
      [exact E | exact Hcy]. }
  rewrite Htid.
  assert (Htail :
    (if truthy_opt (getAttribute el "name")
     then "[name=" ++ dq ++ interpolate (getAttribute el "name") ++ dq ++ "]"
     else
       (let text := trim (textContent el) in
        if truthy text && (String.length text <? 30)
           && (String.eqb (tagName el) "BUTTON"
               || String.eqb (tagName el) "A")
        then "text=" ++ dq ++ text ++ dq
        else toLowerCase (tagName el)))
    = firstOf
        [match getAttribute el "name" with
         | Some v => if truthy v then Some (nameSelector v) else None
         | None => None
         end;
         (let text := trim (textContent el) in
          if truthy text && (String.length text <? 30)
             && (String.eqb (tagName el) "BUTTON"
                 || String.eqb (tagName el) "A")
          then Some (textSelector text) else None)]
        (toLowerCase (tagName el))).
  { destruct (getAttribute el "name") as [n|]; cbn [truthy_opt interpolate];
      [destruct (truthy n)|]; cbn [firstOf]; try reflexivity;
      cbv zeta; destruct (_ && _); reflexivity. }
  destruct (getAttribute el "data-testid") as [v|] eqn:Hv; cbn [truthy_opt].
  - destruct (truthy v) eqn:Tv; cbn [firstOf].
    + rewrite or_else_truthy by exact Tv. reflexivity.
    + exact Htail.
  - cbn [firstOf]. exact Htail.
Qed.

Lemma generateBestSelector_priority_witness :
  generateBestSelector (element "A" [("href", "/cart")] "  View cart ")
  = textSelector "View cart".
Proof.
  rewrite generateBestSelector_priority; reflexivity.
Defined.

(** The value of a [data-test] (or [data-cy]) attribute is emitted inside a
    [data-testid] selector, which names an attribute the element does not
    have. *)
Example generateBestSelector_data_test :
  generateBestSelector (element "DIV" [("data-test", "total")] EmptyString)
  = testIdSelector "total".
Proof. reflexivity. Qed.

(** ** Element Extractor *)

Lemma mapWithIndex_Forall {A B : Type} (P : B -> Prop) (f : nat -> A -> B)
  (l : list A) :
  (forall i a, P (f i a)) -> forall i, Forall P (mapWithIndex f i l).
Proof.
  intros Hf. induction l as [|a l IH]; intros i; simpl; constructor; auto.
Qed.

(** C9: every descriptor returned by the extraction has no alternative
    selector and is marked stable, whatever its primary selector is (the
    bare tag name included); and the extraction does return whenever the
    page evaluates. *)
Theorem extractAllElements_no_alternatives_all_stable
  (env : Env) (now : Z) (doc : Document) :
  document env = Some doc ->
  exists l,
    extractAllElements env now = Ok l
    /\ Forall (fun d =>
                 ElementMapping.alternativeSelectors d = []
                 /\ ElementMapping.isStable d = true) l.
Proof.
  intros Hdoc. exists (extractFrom doc now). split.
  - unfold extractAllElements. now rewrite Hdoc.
  - apply mapWithIndex_Forall. intros i a. split; reflexivity.
Qed.

Lemma extractAllElements_no_alternatives_all_stable_witness :
  exists l,
    extractAllElements (envOf [bareDiv; goButton] nothingResolves) 1700 = Ok l
    /\ Forall (fun d =>
                 ElementMapping.alternativeSelectors d = []
                 /\ ElementMapping.isStable d = true) l.
Proof.
  apply (extractAllElements_no_alternatives_all_stable
           (envOf [bareDiv; goButton] nothingResolves) 1700
           [bareDiv; goButton]).
  reflexivity.
Defined.

(** The descriptor of an element that only its tag identifies: weak
    selector, marked stable, no fallback. *)
Example extract_bare_tag :
  map (fun d => (ElementMapping.selector d, ElementMapping.isStable d,
                 ElementMapping.alternativeSelectors d))
    (extractFrom [bareDiv] 1700)
  = [("div", true, [])].
Proof. reflexivity. Qed.

(** A page with the single element [<button id="go">Go</button>]: one
    descriptor, selector [#go], type button. *)
Example extract_go_button :
  map (fun d => (ElementMapping.selector d, ElementMapping.type d,
                 ElementMapping.name d))
    (extractFrom [goButton] 1700)
  = [("#go", TButton, "go")].
Proof. reflexivity. Qed.

(** *** Generated names *)

Lemma replaceNonAlnum_every (s : string) :
  every isNameChar (replaceNonAlnum s) = true.
Proof.
  induction s as [|c s IH]; simpl; auto. rewrite IH.
  unfold isNameChar at 1. destruct (isLowerAlnum c) eqn:E.
  - now rewrite E.
  - reflexivity.
Qed.

Lemma collapseUnderscores_every (f : ascii -> bool) (s : string) :
  every f s = true -> every f (collapseUnderscores s) = true.
Proof.
  induction s as [|c s IH]; auto.
  cbn [collapseUnderscores every]. intros H.
  apply andb_true_iff in H. destruct H as [Hc Hs].
  destruct (Ascii.eqb c "_"%char).
  - destruct s as [|c' s']; [simpl; now rewrite Hc|].
    destruct (Ascii.eqb c' "_"%char); auto.
    cbn [every]. rewrite Hc. simpl. apply IH, Hs.
  - cbn [every]. rewrite Hc. simpl. auto.
Qed.

Lemma dropLeadingUnderscore_every (f : ascii -> bool) (s : string) :
  every f s = true -> every f (dropLeadingUnderscore s) = true.
Proof.
  destruct s as [|c s]; auto. simpl. intros H.
  apply andb_true_iff in H. destruct H as [Hc Hs].
  destruct (Ascii.eqb c "_"%char); simpl; auto. now rewrite Hc.
Qed.

Lemma dropTrailingUnderscore_every (f : ascii -> bool) (s : string) :
  every f s = true -> every f (dropTrailingUnderscore s) = true.
Proof.
  induction s as [|c s IH]; auto.
  cbn [dropTrailingUnderscore every]. intros H.
  apply andb_true_iff in H. destruct H as [Hc Hs].
  destruct s as [|c' s'].
  - destruct (Ascii.eqb c "_"%char); simpl; auto. now rewrite Hc.
  - cbn [every]. rewrite Hc. simpl. apply IH, Hs.
Qed.

Lemma slug_every (s : string) : every isNameChar (slug s) = true.
Proof.
  unfold slug, stripEdgeUnderscores.
  apply dropTrailingUnderscore_every, dropLeadingUnderscore_every,
    collapseUnderscores_every, replaceNonAlnum_every.
Qed.

(** The shape of a generated name. *)
Lemma generateElementName_shape (text : string) (type : ElementType) :
  generateElementName text type
  = (if truthy (slug (take 30 text)) then slug (take 30 text)
     else ElementType_to_string type ++ "_element")
  /\ truthy (generateElementName text type) = true
  /\ every isNameChar (generateElementName text type) = true.
Proof.
  unfold generateElementName. fold (slug (take 30 text)).
  split; [reflexivity|].
  destruct (truthy (slug (take 30 text))) eqn:E.
  - split; [exact E | apply slug_every].
  - destruct type; split; reflexivity.
Qed.

Lemma mapWithIndex_In {A B : Type} (f : nat -> A -> B) (l : list A) (b : B) :
  forall i, In b (mapWithIndex f i l) -> exists j a, In a l /\ b = f j a.
Proof.
  induction l as [|a l IH]; intros i; simpl; [tauto|].
  intros [<- | H].
  - exists i, a. auto.
  - destruct (IH _ H) as (j & a' & Ha & ->). exists j, a'. auto.
Qed.

Lemma visit_describes (doc : Document) (acc : list nat * list RawElement)
  (node : nat * HTMLElement) :
  In (snd node) doc ->
  Forall (fun r => exists el, In el doc /\ describes el r) (snd acc) ->
  Forall (fun r => exists el, In el doc /\ describes el r)
    (snd (visit acc node)).
Proof.
  destruct acc as [processed elements], node as [ident el]. simpl.
  intros Hin Hacc.
  destruct (existsb (Nat.eqb ident) processed); [exact Hacc|].
  destruct (_ || _); [exact Hacc|].
  destruct (_ || _); [exact Hacc|].
  simpl. apply Forall_app. split; [exact Hacc|].
  constructor; [|constructor].
  exists el. split; [exact Hin|].
  repeat split; simpl. now destruct (truthy (trim (textContent el))) eqn:E;
    [|destruct (trim (textContent el)); [|discriminate]].
Qed.

Lemma fold_visit_describes (doc : Document) (nodes : list (nat * HTMLElement)) :
  (forall node, In node nodes -> In (snd node) doc) ->
  forall acc,
    Forall (fun r => exists el, In el doc /\ describes el r) (snd acc) ->
    Forall (fun r => exists el, In el doc /\ describes el r)
      (snd (fold_left visit nodes acc)).
Proof.
  induction nodes as [|node nodes IH]; intros Hnodes acc Hacc; simpl; auto.
  apply IH.
  - intros n Hn. apply Hnodes. now right.
  - apply visit_describes; auto. apply Hnodes. now left.
Qed.

Lemma querySelectorAll_In (doc : Document) (s : InteractiveSelector)
  (node : nat * HTMLElement) :
  In node (querySelectorAll doc s) -> In (snd node) doc.
Proof.
  unfold querySelectorAll, indexed. intros H.
  apply filter_In in H. destruct H as [H _]. destruct node as [i el].
  now apply in_combine_r in H.
Qed.

Lemma extractRaw_describes (doc : Document) :
  Forall (fun r => exists el, In el doc /\ describes el r) (extractRaw doc).
Proof.
  unfold extractRaw.
  assert (H : forall sels acc,
    Forall (fun r => exists el, In el doc /\ describes el r) (snd acc) ->
    Forall (fun r => exists el, In el doc /\ describes el r)
      (snd (fold_left
              (fun acc s => fold_left visit (querySelectorAll doc s) acc)
              sels acc))).
  { induction sels as [|s sels IH]; intros acc Hacc; simpl; auto.
    apply IH. apply fold_visit_describes; auto.
    intros node. apply querySelectorAll_In. }
  apply H. constructor.
Qed.

(** C8, on the input that refutes it as stated: a text input without
    visible text and with a placeholder is not named after the placeholder;
    its name is the fallback built from its type. *)
Lemma extracted_name_ignores_placeholder :
  map ElementMapping.name (extractFrom [emailInput] 1700) = ["input_element"]
  /\ specifiedName emailInput = "email"
  /\ "input_element" <> specifiedName emailInput.
Proof. repeat split. discriminate. Qed.

(** C8 (amended): the name of an extracted element is derived from its
    trimmed visible text alone: the first 30 characters of the text,
    lower-cased, every character outside [a-z0-9] replaced by an
    underscore, runs of underscores collapsed and the underscores at the
    ends removed; when nothing is left the name is [<type>_element]. The
    name is never empty and consists of [a-z], [0-9] and [_]. (The cut to
    30 characters is made on the text, before the other steps; the
    theorem states no bound on the length of the name.) *)
Theorem extracted_name_from_text (doc : Document) (now : Z)
  (d : ElementMapping.t) :
  In d (extractFrom doc now) ->
  exists el,
    In el doc
    /\ ElementMapping.text d = Some (trim (textContent el))
    /\ ElementMapping.type d = detectType el
    /\ ElementMapping.name d
       = (if truthy (slug (take 30 (trim (textContent el))))
          then slug (take 30 (trim (textContent el)))
          else ElementType_to_string (detectType el) ++ "_element")
    /\ truthy (ElementMapping.name d) = true
    /\ every isNameChar (ElementMapping.name d) = true.
Proof.
  intros Hd. unfold extractFrom in Hd.
  apply mapWithIndex_In in Hd. destruct Hd as (j & r & Hr & ->).
  pose proof (extractRaw_describes doc) as Hall.
  rewrite Forall_forall in Hall.
  destruct (Hall r Hr) as (el & Hel & Hsel & Htype & Htext & Hattrs).
  exists el. split; [exact Hel|]. cbn [toElementMapping ElementMapping.text
    ElementMapping.type ElementMapping.name].
  rewrite Htext, Htype.
  destruct (generateElementName_shape (trim (textContent el)) (detectType el))
    as (Hshape & Hne & Hchars).
  repeat split; assumption.
Qed.

Lemma extracted_name_from_text_witness :
  exists el,
    In el [emailInput]
    /\ ElementMapping.text (toElementMapping 1700 0
         {| rawSelector := "input"; rawType := TInput;
            rawText := EmptyString;
            rawAttributes := [("type", "text"); ("placeholder", "Email")] |})
       = Some (trim (textContent el))
    /\ TInput = detectType el
    /\ "input_element"
       = (if truthy (slug (take 30 (trim (textContent el))))
          then slug (take 30 (trim (textContent el)))
          else ElementType_to_string (detectType el) ++ "_element")
    /\ truthy "input_element" = true
    /\ every isNameChar "input_element" = true.
Proof.
  apply (extracted_name_from_text [emailInput] 1700).
  simpl. left. reflexivity.
Defined.

(** ** Stability re-check *)

Import Builder.

Lemma requireSession_found (b : Builder.t) (sessionId : string)
  (s : Session.t) :
  JsMap.get (sessions b) sessionId = Some s ->
  requireSession sessionId b = (Ok s, b).
Proof.
  intros H. unfold requireSession, bind, getSession, gets, ret. now rewrite H.
Qed.

Lemma requireSession_missing (b : Builder.t) (sessionId : string) :
  JsMap.get (sessions b) sessionId = None ->
  requireSession sessionId b = (Throw "Session not found", b).
Proof.
  intros H. unfold requireSession, bind, getSession, gets, throw.
  now rewrite H.
Qed.

Lemma firstResolving_Some (env : Env) (alternatives : list string)
  (alt : string) :
  firstResolving env alternatives = Some alt ->
  In alt alternatives /\ exists el, locate env alt = Found el.
Proof.
  induction alternatives as [|a rest IH]; simpl; [discriminate|].
  destruct (locate env a) as [el| |] eqn:E.
  - intros [= <-]. split; [now left | eauto].
  - intros H. destruct (IH H) as [Hin Hfound]. split; [now right | exact Hfound].
  - discriminate.
Qed.

Lemma firstResolving_None (env : Env) (alternatives : list string) :
  (forall alt el, In alt alternatives -> locate env alt <> Found el) ->
  firstResolving env alternatives = None.
Proof.
  induction alternatives as [|a rest IH]; simpl; auto.
  intros H. destruct (locate env a) as [el| |] eqn:E.
  - exfalso. apply (H a el); auto.
  - apply IH. intros alt el Hin. apply H. now right.
  - reflexivity.
Qed.

(** What the call computes once the session and the descriptor are found. *)
Lemma verifyElementStability_unfold (b : Builder.t)
  (sessionId elementId : string) (env : Env) (now : Z) (s : Session.t)
  (l : nat) (e : ElementMapping.t) :
  JsMap.get (sessions b) sessionId = Some s ->
  JsMap.get (Session.elementMappings s) elementId = Some l ->
  Store.read (elementObjects b) l = Some e ->
  verifyElementStability sessionId elementId env now b
  = match locate env (ElementMapping.selector e) with
    | Found _ => (Ok true, b)
    | Crashed => (Ok false, b)
    | Missing =>
        match firstResolving env (ElementMapping.alternativeSelectors e) with
        | Some alt =>
            (Ok true,
             set_elementObjects
               (Store.write (elementObjects b) l
                  (ElementMapping.set_lastVerified now
                     (ElementMapping.set_selector alt e))) b)
        | None => (Ok false, b)
        end
    end.
Proof.
  intros Hs Hl He. unfold verifyElementStability.
  unfold bind at 1. rewrite (requireSession_found _ _ _ Hs).
  unfold bind at 1, gets at 1. rewrite Hl, He.
  destruct (locate env (ElementMapping.selector e)); try reflexivity.
  destruct (firstResolving env (ElementMapping.alternativeSelectors e));
    try reflexivity.
  unfold bind, updateElement, modify, ret, modifyObject. cbn.
  rewrite He. cbn.
  rewrite read_write_same by (eapply read_Some_lt; eauto).
  f_equal. unfold set_elementObjects. cbn. f_equal.
  clear. generalize (elementObjects b). intros objs. revert l.
  induction objs as [|x objs IH]; intros [|l]; simpl; auto.
  now rewrite IH.
Qed.

(** C2: when the primary selector no longer resolves and the first
    alternative does, the call returns [true] and the descriptor's primary
    selector becomes that alternative; when neither the primary selector
    nor any alternative resolves, the call returns [false] and nothing is
    mutated. *)
Theorem verifyElementStability_fallback (b : Builder.t)
  (sessionId elementId : string) (env : Env) (now : Z) (s : Session.t)
  (l : nat) (e : ElementMapping.t) :
  JsMap.get (sessions b) sessionId = Some s ->
  JsMap.get (Session.elementMappings s) elementId = Some l ->
  Store.read (elementObjects b) l = Some e ->
  (forall alt rest el,
      locate env (ElementMapping.selector e) = Missing ->
      ElementMapping.alternativeSelectors e = alt :: rest ->
      locate env alt = Found el ->
      exists b' e',
        verifyElementStability sessionId elementId env now b = (Ok true, b')
        /\ Store.read (elementObjects b') l = Some e'
        /\ ElementMapping.selector e' = alt)
  /\ ((forall el, locate env (ElementMapping.selector e) <> Found el) ->
      (forall alt el,
          In alt (ElementMapping.alternativeSelectors e) ->
          locate env alt <> Found el) ->
      verifyElementStability sessionId elementId env now b = (Ok false, b)).
Proof.
  intros Hs Hl He.
  rewrite (verifyElementStability_unfold _ _ _ env now _ _ _ Hs Hl He).
  split.
  - intros alt rest el Hprimary Halts Halt.
    rewrite Hprimary, Halts. cbn [firstResolving]. rewrite Halt.
    eexists. eexists. split; [reflexivity|]. cbn.
    rewrite read_write_same by (eapply read_Some_lt; eauto).
    split; reflexivity.
  - intros Hprimary Halts.
    destruct (locate env (ElementMapping.selector e)) as [el| |] eqn:E.
    + exfalso. now apply (Hprimary el).
    + now rewrite firstResolving_None.
    + reflexivity.
Qed.

Lemma verifyElementStability_fallback_witness :
  (exists b' e',
      verifyElementStability "s1" "element-1700-0"
        (envOf [] onlyTextResolves) 1800 authoringBuilder = (Ok true, b')
      /\ Store.read (elementObjects b') 0 = Some e'
      /\ ElementMapping.selector e' = textSelector "Log in")
  /\ verifyElementStability "s1" "element-1700-0"
       (envOf [] nothingResolves) 1800 authoringBuilder
     = (Ok false, authoringBuilder).
Proof.
  split.
  - apply (proj1 (verifyElementStability_fallback authoringBuilder
                    "s1" "element-1700-0" (envOf [] onlyTextResolves) 1800
                    authoringSession 0 loginButton
                    eq_refl eq_refl eq_refl)
             (textSelector "Log in") [".btn-login"]
             (element "BUTTON" [("class", "btn-login")] "Log in"));
      reflexivity.
  - apply (proj2 (verifyElementStability_fallback authoringBuilder
                    "s1" "element-1700-0" (envOf [] nothingResolves) 1800
                    authoringSession 0 loginButton
                    eq_refl eq_refl eq_refl)).
    + intros el. discriminate.
    + intros alt el _. discriminate.
Defined.

(** C10: a promotion writes the descriptor's [selector] and [lastVerified]
    and nothing else. The list of alternatives is the same, so the promoted
    selector is still in it and the old primary selector has not been added
    to it; every other field of the descriptor, every other descriptor and
    the rest of the engine state are as before. *)
Theorem verifyElementStability_promotion_frame (b : Builder.t)
  (sessionId elementId : string) (env : Env) (now : Z) (s : Session.t)
  (l : nat) (e : ElementMapping.t) (alt : string) :
  JsMap.get (sessions b) sessionId = Some s ->
  JsMap.get (Session.elementMappings s) elementId = Some l ->
  Store.read (elementObjects b) l = Some e ->
  locate env (ElementMapping.selector e) = Missing ->
  firstResolving env (ElementMapping.alternativeSelectors e) = Some alt ->
  exists b' e',
    verifyElementStability sessionId elementId env now b = (Ok true, b')
    /\ Store.read (elementObjects b') l = Some e'
    /\ ElementMapping.selector e' = alt
    /\ ElementMapping.lastVerified e' = now
    /\ ElementMapping.alternativeSelectors e'
       = ElementMapping.alternativeSelectors e
    /\ In alt (ElementMapping.alternativeSelectors e')
    /\ ElementMapping.id e' = ElementMapping.id e
    /\ ElementMapping.name e' = ElementMapping.name e
    /\ ElementMapping.type e' = ElementMapping.type e
    /\ ElementMapping.attributes e' = ElementMapping.attributes e
    /\ ElementMapping.text e' = ElementMapping.text e
    /\ ElementMapping.screenshot e' = ElementMapping.screenshot e
    /\ ElementMapping.isStable e' = ElementMapping.isStable e
    /\ (forall l', l' <> l ->
          Store.read (elementObjects b') l' = Store.read (elementObjects b) l')
    /\ sessions b' = sessions b
    /\ pageObjects b' = pageObjects b
    /\ pageObjectRepository b' = pageObjectRepository b
    /\ githubRepoPath b' = githubRepoPath b
    /\ emitted b' = emitted b.
Proof.
  intros Hs Hl He Hprimary Halt.
  rewrite (verifyElementStability_unfold _ _ _ env now _ _ _ Hs Hl He).
  rewrite Hprimary, Halt.
  eexists. eexists. split; [reflexivity|]. cbn.
  rewrite read_write_same by (eapply read_Some_lt; eauto).
  split; [reflexivity|]. cbn.
  repeat (split; [reflexivity|]).
  split; [apply (firstResolving_Some _ _ _ Halt)|].
  repeat (split; [reflexivity|]).
  split; [|repeat split].
  intros l' Hne. apply read_write_other. congruence.
Qed.

Lemma verifyElementStability_promotion_frame_witness :
  exists b' e',
    verifyElementStability "s1" "element-1700-0"
      (envOf [] onlyTextResolves) 1800 authoringBuilder = (Ok true, b')
    /\ Store.read (elementObjects b') 0 = Some e'
    /\ ElementMapping.selector e' = textSelector "Log in"
    /\ ElementMapping.lastVerified e' = 1800%Z
    /\ ElementMapping.alternativeSelectors e'
       = ElementMapping.alternativeSelectors loginButton
    /\ In (textSelector "Log in") (ElementMapping.alternativeSelectors e')
    /\ ElementMapping.id e' = ElementMapping.id loginButton
    /\ ElementMapping.name e' = ElementMapping.name loginButton
    /\ ElementMapping.type e' = ElementMapping.type loginButton
    /\ ElementMapping.attributes e' = ElementMapping.attributes loginButton
    /\ ElementMapping.text e' = ElementMapping.text loginButton
    /\ ElementMapping.screenshot e' = ElementMapping.screenshot loginButton
    /\ ElementMapping.isStable e' = ElementMapping.isStable loginButton
    /\ (forall l', l' <> 0 ->
          Store.read (elementObjects b') l'
          = Store.read (elementObjects authoringBuilder) l')
    /\ sessions b' = sessions authoringBuilder
    /\ pageObjects b' = pageObjects authoringBuilder
    /\ pageObjectRepository b' = pageObjectRepository authoringBuilder
    /\ githubRepoPath b' = githubRepoPath authoringBuilder
    /\ emitted b' = emitted authoringBuilder.
Proof.
  apply (verifyElementStability_promotion_frame authoringBuilder
           "s1" "element-1700-0" (envOf [] onlyTextResolves) 1800
           authoringSession 0 loginButton (textSelector "Log in"));
    reflexivity.
Defined.

(** ** Ending a session *)

Lemma endSession_missing (b : Builder.t) (sessionId : string) (env : Env) :
  JsMap.get (sessions b) sessionId = None ->
  endSession sessionId env b = (Ok tt, b).
Proof.
  intros H. unfold endSession, bind, getSession, gets, ret. now rewrite H.
Qed.

Lemma endSession_Ok_removes (b b' : Builder.t) (sessionId : string)
  (env : Env) :
  endSession sessionId env b = (Ok tt, b') ->
  JsMap.get (sessions b') sessionId = None.
Proof.
  unfold endSession, bind at 1, getSession, gets.
  destruct (JsMap.get (sessions b) sessionId) as [s|] eqn:Hs.
  - unfold bind, await, modify, emit, modify, ret, throw.
    destruct (truthy_opt (Session.traceFile s));
      [destruct (tracingStopOk env)|]; try discriminate;
      (destruct (closeOk env); [|discriminate]);
      intros [= <-]; cbn; apply get_delete_same.
  - unfold ret. now intros [= <-].
Qed.

(** C6, on the input that refutes it as stated: session [s1] is ended, and
    ended again. The second call finds no session and answers 200 with
    [success: true]; it is not an answer of the Not Found class. *)
Lemma deleteSession_twice_reports_success :
  JsMap.get
    (sessions (snd (Routes.deleteSession "s1" (envOf [] nothingResolves)
                      authoringBuilder))) "s1" = None
  /\ fst (Routes.deleteSession "s1" (envOf [] nothingResolves)
            (snd (Routes.deleteSession "s1" (envOf [] nothingResolves)
                    authoringBuilder)))
     = sessionEnded
  /\ Routes.isNotFound
       (fst (Routes.deleteSession "s1" (envOf [] nothingResolves)
               (snd (Routes.deleteSession "s1" (envOf [] nothingResolves)
                       authoringBuilder))))
     = false.
Proof. repeat split. Qed.

(** C6 (amended): once a session has been ended, ending it again is a
    no-op: [endSession] returns without throwing and without touching the
    state, and the route answers 200, [success: true], "Session ended". *)
Theorem deleteSession_again_succeeds (b b1 : Builder.t) (sessionId : string)
  (env1 env2 : Env) (r1 : Routes.Response) :
  Routes.deleteSession sessionId env1 b = (r1, b1) ->
  Routes.success r1 = true ->
  endSession sessionId env2 b1 = (Ok tt, b1)
  /\ Routes.deleteSession sessionId env2 b1 = (sessionEnded, b1).
Proof.
  unfold Routes.deleteSession. intros Hfirst Hok.
  destruct (endSession sessionId env1 b) as [[[]|msg] b'] eqn:E.
  - injection Hfirst as <- <-.
    pose proof (endSession_Ok_removes _ _ _ _ E) as Hgone.
    rewrite (endSession_missing _ _ env2 Hgone). split; reflexivity.
  - injection Hfirst as <- <-. discriminate.
Qed.

Lemma deleteSession_again_succeeds_witness :
  endSession "s1" (envOf [] nothingResolves)
    (snd (Routes.deleteSession "s1" (envOf [] nothingResolves)
            authoringBuilder))
  = (Ok tt,
     snd (Routes.deleteSession "s1" (envOf [] nothingResolves)
            authoringBuilder))
  /\ Routes.deleteSession "s1" (envOf [] nothingResolves)
       (snd (Routes.deleteSession "s1" (envOf [] nothingResolves)
               authoringBuilder))
     = (sessionEnded,
        snd (Routes.deleteSession "s1" (envOf [] nothingResolves)
               authoringBuilder)).
Proof.
  apply (deleteSession_again_succeeds authoringBuilder _ "s1"
           (envOf [] nothingResolves) (envOf [] nothingResolves)
           sessionEnded);
    reflexivity.
Defined.

(** ** Recorder *)

Section RecorderFacts.

Variable B : Builtins.
Variable sid : string.




















Lemma appended_flag (steps : list TestStep.t) (b b' : Builder.t) :
  appended sid steps b b' -> isRecordingOf sid b' = isRecordingOf sid b.
Proof.
  unfold appended, isRecordingOf. intros ->.
  now destruct (recording sid b) as [[armed recorded]|].
Qed.





Lemma records_flag (steps : list TestStep.t) (b b' : Builder.t) :
  records sid steps b b' -> isRecordingOf sid b' = isRecordingOf sid b.
Proof. apply appended_flag. Qed.





End RecorderFacts.

Section RecorderActions.

Variable B : Builtins.
Variable sid : string.






End RecorderActions.

Lemma set_set {V : Type} (m : JsMap.t V) (k : string) (v v' : V) :
  JsMap.set (JsMap.set m k v) k v' = JsMap.set m k v'.
Proof.
  induction m as [|[k0 v0] m IH]; cbn.
  - now rewrite String.eqb_refl.
  - destruct (String.eqb k0 k) eqn:E; cbn; rewrite E; [reflexivity|].
    now rewrite IH.
Qed.

Lemma set_same {V : Type} (m : JsMap.t V) (k : string) (v : V) :
  JsMap.get m k = Some v -> JsMap.set m k v = m.
Proof.
  induction m as [|[k0 v0] m IH]; cbn; [discriminate|].
  destruct (String.eqb k0 k).
  - now intros [= ->].
  - intros H. now rewrite IH.
Qed.

Lemma navigated_nil (sessionId : string) (b : Builder.t) :
  navigated sessionId [] b = b.
Proof.
  unfold navigated, withNavigations.
  destruct (JsMap.get (sessions b) sessionId) as [s|] eqn:Hs; [|reflexivity].
  destruct (Session.isRecording s); [|reflexivity].
  cbn [List.length repeat map]. rewrite !app_nil_r.
  replace (Session.set_recordedSteps (Session.recordedSteps s) s) with s
    by now destruct s.
  rewrite (set_same _ _ _ Hs). now destruct b.
Qed.

(** The state the listener leaves after the events of one driver call. *)
Lemma framesNavigated_state (sessionId : string)
  (events : list (string * Z)) :
  forall b : Builder.t,
    framesNavigated sessionId events b
    = (Ok tt, navigated sessionId events b).
Proof.
  induction events as [|[url now] rest IH]; intros b; cbn [framesNavigated].
  - now rewrite navigated_nil.
  - unfold bind at 1, onFrameNavigated, bind at 1, getSession, gets.
    destruct (JsMap.get (sessions b) sessionId) as [s|] eqn:Hs;
      cbv beta iota.
    + destruct (Session.isRecording s) eqn:Hrec.
      * unfold bind, updateSession, emit, modify. rewrite Hs, IH.
        f_equal. unfold navigated.
        cbn [sessions set_sessions set_emitted emitted].
        rewrite get_set_same, Hs. unfold withNavigations.
        cbn [Session.isRecording Session.set_recordedSteps
               Session.recordedSteps]. rewrite Hrec.
        rewrite set_set. cbn [List.length repeat map].
        rewrite <- !app_assoc. reflexivity.
      * unfold ret. rewrite IH. f_equal. unfold navigated.
        now rewrite Hs, Hrec.
    + unfold ret. rewrite IH. f_equal. unfold navigated. now rewrite Hs.
Qed.

Lemma navigated_session (sessionId : string) (events : list (string * Z))
  (b : Builder.t) (s : Session.t) :
  JsMap.get (sessions b) sessionId = Some s ->
  JsMap.get (sessions (navigated sessionId events b)) sessionId
  = Some (withNavigations events s).
Proof.
  intros Hs. unfold navigated, withNavigations. rewrite Hs.
  destruct (Session.isRecording s); [|exact Hs].
  cbn [sessions set_sessions set_emitted]. apply get_set_same.
Qed.

(** The listener touches the recorded steps and the event log only. *)
Lemma navigated_fields (sessionId : string) (events : list (string * Z))
  (b : Builder.t) :
  pageObjectRepository (navigated sessionId events b)
  = pageObjectRepository b
  /\ pageObjects (navigated sessionId events b) = pageObjects b
  /\ elementObjects (navigated sessionId events b) = elementObjects b
  /\ githubRepoPath (navigated sessionId events b) = githubRepoPath b.
Proof.
  unfold navigated.
  destruct (JsMap.get (sessions b) sessionId) as [s|]; [|repeat split].
  destruct (Session.isRecording s); repeat split.
Qed.

Lemma withNavigations_fields (events : list (string * Z)) (s : Session.t) :
  Session.id (withNavigations events s) = Session.id s
  /\ Session.currentUrl (withNavigations events s) = Session.currentUrl s
  /\ Session.currentPageObject (withNavigations events s)
     = Session.currentPageObject s
  /\ Session.elementMappings (withNavigations events s)
     = Session.elementMappings s
  /\ Session.isRecording (withNavigations events s) = Session.isRecording s
  /\ Session.traceFile (withNavigations events s) = Session.traceFile s.
Proof.
  unfold withNavigations.
  destruct (Session.isRecording s) eqn:E; repeat split; assumption.
Qed.

Lemma visiting_fields (sessionId url : string) (env : Env)
  (b : Builder.t) (s : Session.t) :
  pageObjectRepository (visiting sessionId url env b s)
  = pageObjectRepository b
  /\ pageObjects (visiting sessionId url env b s) = pageObjects b
  /\ elementObjects (visiting sessionId url env b s) = elementObjects b
  /\ githubRepoPath (visiting sessionId url env b s) = githubRepoPath b.
Proof.
  unfold visiting.
  cbn [pageObjectRepository pageObjects elementObjects githubRepoPath
         set_sessions].
  apply navigated_fields.
Qed.


Lemma startRecording_resets (sid : string) (now : Z) (b : Builder.t)
  (s : Session.t) :
  JsMap.get (sessions b) sid = Some s ->
  recording sid (snd (startRecording sid now b)) = Some (true, []).
Proof.
  intros Hs. unfold startRecording. unfold bind at 1.
  rewrite (requireSession_found _ _ _ Hs).
  unfold bind, updateSession, emit, modify, ret. cbn. rewrite Hs. cbn.
  rewrite !get_set_same. cbn. rewrite !get_set_same. cbn.
  unfold recording. cbn. now rewrite !get_set_same.
Qed.



(** The scenario in numbers: of the four actions issued while recording,
    three are carried out; four steps are recorded, a click, a fill, the
    navigation that the last click raised and that click; the actions
    before and after the window return a step and record none. *)
Example recording_scenario :
  let warm := performAll fragmentBuiltins "s1" warmUp authoringBuilder in
  let started := snd (startRecording "s1" 1715 (snd warm)) in
  let run := performAll fragmentBuiltins "s1" scenario started in
  let stopped := snd (stopRecording noCode "s1" loginPage (snd run)) in
  let cool := performAll fragmentBuiltins "s1" coolDown stopped in
  map succeeded (fst warm) = [true]
  /\ map succeeded (fst run) = [true; true; false; true]
  /\ map TestStep.action (recordedStepsOf "s1" stopped)
     = [AClick; AFill; ANavigate; AClick]
  /\ map succeeded (fst cool) = [true]
  /\ map TestStep.action (recordedStepsOf "s1" (snd cool))
     = [AClick; AFill; ANavigate; AClick].
Proof. vm_compute. repeat split. Qed.

(** A navigation event of the browser is a source of steps of its own: the
    [framenavigated] listener appends a [navigate] step while the session
    is recording. It is not an action of the action API. *)
Example onFrameNavigated_appends :
  map TestStep.action
    (recordedStepsOf "s1"
       (snd (onFrameNavigated "s1" "https://shop.example/cart" 1725
               (snd (startRecording "s1" 1715 authoringBuilder)))))
  = [ANavigate].
Proof. reflexivity. Qed.

(** ** Page Object Store: merge-update *)

Lemma write_write {A : Type} (s : Store.t A) (l : nat) (a a' : A) :
  Store.write (Store.write s l a) l a' = Store.write s l a'.
Proof.
  revert l. induction s as [|x s IH]; intros [|l]; simpl; auto.
  now rewrite IH.
Qed.

Lemma modifyObject_read {A : Type} (s : Store.t A) (l : nat) (f : A -> A)
  (a : A) :
  Store.read s l = Some a -> modifyObject s l f = Store.write s l (f a).
Proof. unfold modifyObject. now intros ->. Qed.

Lemma modifyObject_write {A : Type} (s : Store.t A) (l : nat) (f : A -> A)
  (a : A) :
  l < List.length s ->
  modifyObject (Store.write s l a) l f = Store.write s l (f a).
Proof.
  intros H. unfold modifyObject.
  now rewrite read_write_same, write_write.
Qed.

Lemma savePageObjectModel_state (B : Builtins) (l : nat) (env : Env)
  (b : Builder.t) :
  snd (savePageObjectModel B l env b) = b.
Proof.
  unfold savePageObjectModel, bind, gets, await, derefPageObject, bind, gets,
    lift, ret, throw, typeError.
  cbn. destruct (truthy_opt (githubRepoPath b)); [|reflexivity].
  destruct (fsOk env); [|reflexivity]. cbn.
  destruct (Store.read (pageObjects b) l) as [pom|]; [|reflexivity]. cbn.
  now destruct (urlPathname B (PageObjectModel.url pom)).
Qed.

Lemma In_set {V : Type} (m : JsMap.t V) (k k' : string) (v v' : V) :
  In (k', v') (JsMap.set m k v) -> (k', v') = (k, v) \/ In (k', v') m.
Proof.
  induction m as [|[k0 v0] m IH]; simpl.
  - intros [H|[]]. left. congruence.
  - destruct (String.eqb k0 k) eqn:E; simpl.
    + apply String.eqb_eq in E. subst k0. intros [H|H]; auto.
    + intros [H|H]; auto. destruct (IH H); auto.
Qed.

Lemma keys_set {V : Type} (m : JsMap.t V) (k : string) (v : V) :
  JsMap.keys (JsMap.set m k v)
  = match JsMap.get m k with
    | Some _ => JsMap.keys m
    | None => (JsMap.keys m ++ [k])%list
    end.
Proof.
  destruct (JsMap.get m k) as [v0|] eqn:E.
  - eapply keys_set_known; eauto.
  - rewrite (set_new _ _ _ E). unfold JsMap.keys. now rewrite map_app.
Qed.

Lemma NoDup_keys_set {V : Type} (m : JsMap.t V) (k : string) (v : V) :
  NoDup (JsMap.keys m) -> NoDup (JsMap.keys (JsMap.set m k v)).
Proof.
  intros H. rewrite keys_set.
  destruct (JsMap.get m k) as [v0|] eqn:E; [exact H|].
  apply get_None_keys in E.
  apply NoDup_app; [exact H | repeat constructor; auto | ].
  intros x Hx [<-|[]]. contradiction.
Qed.

Lemma wellKeyed_set (objects : Store.t ElementMapping.t) (m : JsMap.t nat)
  (l : nat) (e : ElementMapping.t) :
  wellKeyed objects m -> Store.read objects l = Some e ->
  wellKeyed objects (JsMap.set m (ElementMapping.selector e) l).
Proof.
  intros [Hnd Hent] He. split; [now apply NoDup_keys_set|].
  intros k l' Hin. apply In_set in Hin. destruct Hin as [[= -> ->]|Hin]; eauto.
Qed.

Lemma addExisting_wellKeyed (objects : Store.t ElementMapping.t)
  (elements : list nat) :
  (forall l, In l elements -> exists e, Store.read objects l = Some e) ->
  forall merged,
    wellKeyed objects merged ->
    exists m, addExisting objects elements merged = Ok m
              /\ wellKeyed objects m.
Proof.
  induction elements as [|l rest IH]; intros Hvalid merged Hwk; simpl; eauto.
  destruct (Hvalid l (or_introl eq_refl)) as [e He]. rewrite He.
  apply IH.
  - intros l' Hl'. apply Hvalid. now right.
  - now apply wellKeyed_set.
Qed.

(** Rebuilding the map from its own values gives the map back. *)
Lemma addExisting_values (objects : Store.t ElementMapping.t)
  (m : JsMap.t nat) :
  forall acc,
    NoDup (JsMap.keys (acc ++ m)%list) ->
    (forall k l, In (k, l) m ->
       exists e, Store.read objects l = Some e
                 /\ ElementMapping.selector e = k) ->
    addExisting objects (JsMap.values m) acc = Ok (acc ++ m)%list.
Proof.
  induction m as [|[k l] m IH]; intros acc Hnd Hent; simpl.
  - now rewrite app_nil_r.
  - destruct (Hent k l (or_introl eq_refl)) as (e & He & Hk).
    rewrite He, Hk.
    assert (Hnew : JsMap.get acc k = None).
    { apply get_None_keys. intros Hin.
      unfold JsMap.keys in Hnd. rewrite map_app in Hnd.
      apply NoDup_remove_2 in Hnd. apply Hnd.
      apply in_or_app. now left. }
    rewrite (set_new _ _ _ Hnew).
    replace (acc ++ (k, l) :: m)%list with ((acc ++ [(k, l)]) ++ m)%list
      by now rewrite <- app_assoc.
    apply IH.
    + now rewrite <- app_assoc.
    + intros k' l' Hin. apply Hent. now right.
Qed.

Lemma evolves_refl (objects : Store.t ElementMapping.t) :
  evolves objects objects.
Proof. intros l e He. eauto. Qed.

Lemma evolves_trans (o1 o2 o3 : Store.t ElementMapping.t) :
  evolves o1 o2 -> evolves o2 o3 -> evolves o1 o3.
Proof.
  intros H12 H23 l e He.
  destruct (H12 _ _ He) as (e2 & He2 & Hsel2 & Hst2).
  destruct (H23 _ _ He2) as (e3 & He3 & Hsel3 & Hst3).
  exists e3. repeat split; auto; congruence.
Qed.

Lemma evolves_refresh (objects : Store.t ElementMapping.t) (l : nat)
  (now : Z) :
  evolves objects (modifyObject objects l (refresh now)).
Proof.
  intros l' e' He'. unfold modifyObject.
  destruct (Store.read objects l) as [e|] eqn:He; [|eauto].
  destruct (Nat.eq_dec l l') as [<-|Hne].
  - rewrite read_write_same by (eapply read_Some_lt; eauto).
    eexists. split; [reflexivity|]. split; [|reflexivity].
    cbn. congruence.
  - rewrite read_write_other by exact Hne. eauto.
Qed.

Lemma evolves_alloc (objects : Store.t ElementMapping.t)
  (e : ElementMapping.t) :
  evolves objects (objects ++ [e])%list.
Proof.
  intros l e' He'.
  rewrite read_alloc_old by (eapply read_Some_lt; eauto). eauto.
Qed.

Lemma wellKeyed_evolves (o o' : Store.t ElementMapping.t) (m : JsMap.t nat) :
  evolves o o' -> wellKeyed o m -> wellKeyed o' m.
Proof.
  intros Hev [Hnd Hent]. split; [exact Hnd|].
  intros k l Hin. destruct (Hent _ _ Hin) as (e & He & Hk).
  destruct (Hev _ _ He) as (e' & He' & Hsel & _).
  exists e'. split; [exact He' | congruence].
Qed.

Lemma knownStable_evolves (o o' : Store.t ElementMapping.t)
  (m : JsMap.t nat) (ks : list string) :
  evolves o o' -> knownStable o m ks -> knownStable o' m ks.
Proof.
  intros Hev Hks k Hk. destruct (Hks _ Hk) as (l & e & Hget & He & Hst).
  destruct (Hev _ _ He) as (e' & He' & _ & Hst').
  exists l, e'. auto.
Qed.

(** The first pass over the fresh elements: the map stays well keyed, and
    every selector met so far is a key that leads to a stable descriptor. *)
Lemma mergeCurrent_first (now : Z) (current : list ElementMapping.t) :
  Forall (fun e => ElementMapping.isStable e = true) current ->
  forall objects merged ks objects' merged',
    wellKeyed objects merged ->
    knownStable objects merged ks ->
    mergeCurrent now current objects merged = (objects', merged') ->
    wellKeyed objects' merged'
    /\ knownStable objects' merged'
         (ks ++ map ElementMapping.selector current)%list.
Proof.
  induction 1 as [|el rest Hel Hrest IH];
    intros objects merged ks objects' merged' Hwk Hks; simpl.
  - intros [= <- <-]. now rewrite app_nil_r.
  - replace (ks ++ ElementMapping.selector el
               :: map ElementMapping.selector rest)%list
      with ((ks ++ [ElementMapping.selector el])
              ++ map ElementMapping.selector rest)%list
      by now rewrite <- app_assoc.
    destruct (JsMap.get merged (ElementMapping.selector el)) as [l|] eqn:Hget.
    + apply IH.
      * eapply wellKeyed_evolves; [apply evolves_refresh | exact Hwk].
      * intros k Hk. apply in_app_or in Hk. destruct Hk as [Hk|[<-|[]]].
        -- eapply knownStable_evolves; eauto. apply evolves_refresh.
        -- destruct Hwk as [_ Hent].
           destruct (Hent _ _ (get_In _ _ _ Hget)) as (e & He & _).
           exists l. eexists. split; [exact Hget|].
           rewrite (modifyObject_read _ _ _ _ He).
           rewrite read_write_same by (eapply read_Some_lt; eauto).
           split; reflexivity.
    + unfold Store.alloc. apply IH.
      * destruct Hwk as [Hnd Hent]. split; [now apply NoDup_keys_set|].
        intros k l Hin. apply In_set in Hin.
        destruct Hin as [[= -> ->]|Hin].
        -- exists el. split; [apply read_alloc_new | reflexivity].
        -- destruct (Hent _ _ Hin) as (e & He & Hk). exists e.
           split; [|exact Hk].
           rewrite read_alloc_old by (eapply read_Some_lt; eauto).
           exact He.
      * intros k Hk. apply in_app_or in Hk. destruct Hk as [Hk|[<-|[]]].
        -- destruct (Hks _ Hk) as (l & e & Hl & He & Hst).
           exists l, e. split; [|split; [|exact Hst]].
           ++ rewrite get_set_other; [exact Hl|].
              intros Heq. rewrite Heq in Hget. congruence.
           ++ rewrite read_alloc_old by (eapply read_Some_lt; eauto).
              exact He.
        -- exists (List.length objects), el.
           split; [apply get_set_same|].
           split; [apply read_alloc_new | exact Hel].
Qed.

Lemma untimed_refresh (now : Z) (e : ElementMapping.t) :
  ElementMapping.isStable e = true -> untimed (refresh now e) = untimed e.
Proof.
  destruct e. unfold untimed, refresh. cbn. now intros ->.
Qed.

(** A pass over fresh elements whose selectors are all known and stable:
    the map is the same afterwards, no descriptor is added, and every
    descriptor has the content it had. *)
Lemma mergeCurrent_known (now : Z) (merged : JsMap.t nat)
  (current : list ElementMapping.t) :
  forall objects,
    wellKeyed objects merged ->
    knownStable objects merged (map ElementMapping.selector current) ->
    exists objects',
      mergeCurrent now current objects merged = (objects', merged)
      /\ evolves objects objects'
      /\ forall l, option_map untimed (Store.read objects' l)
                   = option_map untimed (Store.read objects l).
Proof.
  induction current as [|el rest IH]; intros objects Hwk Hks; simpl.
  - exists objects. split; [reflexivity|]. split; [apply evolves_refl|].
    reflexivity.
  - destruct (Hks (ElementMapping.selector el) (or_introl eq_refl))
      as (l & e & Hget & He & Hst).
    rewrite Hget.
    destruct (IH (modifyObject objects l (refresh now))) as
      (objects' & Hmerge & Hev & Hsame).
    + eapply wellKeyed_evolves; [apply evolves_refresh | exact Hwk].
    + eapply knownStable_evolves; [apply evolves_refresh|].
      intros k Hk. apply Hks. now right.
    + exists objects'. split; [exact Hmerge|]. split.
      * eapply evolves_trans; [apply evolves_refresh | exact Hev].
      * intros l'. rewrite Hsame.
        rewrite (modifyObject_read _ _ _ _ He).
        destruct (Nat.eq_dec l l') as [<-|Hne].
        -- rewrite read_write_same by (eapply read_Some_lt; eauto).
           rewrite He. cbn. now rewrite untimed_refresh.
        -- now rewrite read_write_other.
Qed.

Lemma extractFrom_stable (doc : Document) (now : Z) :
  Forall (fun e => ElementMapping.isStable e = true) (extractFrom doc now).
Proof. apply mapWithIndex_Forall. reflexivity. Qed.

Lemma mapWithIndex_selector (now now' : Z) (raw : list RawElement) :
  forall i,
    map ElementMapping.selector (mapWithIndex (toElementMapping now) i raw)
    = map ElementMapping.selector (mapWithIndex (toElementMapping now') i raw).
Proof.
  induction raw as [|r raw IH]; intros i; simpl; [reflexivity|].
  now rewrite IH.
Qed.

(** What one merge-update does to the state, once its inputs are read. *)
Lemma updatePageObjectModel_state (B : Builtins) (b : Builder.t)
  (existing : nat) (env : Env) (now : Z) (doc : Document)
  (pom : PageObjectModel.t) (merged merged' : JsMap.t nat)
  (objects' : Store.t ElementMapping.t) :
  document env = Some doc ->
  Store.read (pageObjects b) existing = Some pom ->
  addExisting (elementObjects b) (PageObjectModel.elements pom) JsMap.empty
  = Ok merged ->
  mergeCurrent now (extractFrom doc now) (elementObjects b) merged
  = (objects', merged') ->
  snd (updatePageObjectModel B existing env now b)
  = set_pageObjects
      (Store.write (pageObjects b) existing
         (PageObjectModel.incr_version
            (PageObjectModel.set_lastUpdated now
               (PageObjectModel.set_elements (JsMap.values merged') pom))))
      (set_elementObjects objects' b).
Proof.
  intros Hdoc Hpom Hadd Hmerge.
  unfold updatePageObjectModel, extractAllElements. rewrite Hdoc.
  unfold bind at 1, lift at 1.
  unfold bind at 1, derefPageObject, bind at 1, gets at 1. rewrite Hpom.
  unfold ret at 1. unfold bind at 1, gets at 1.
  unfold bind at 1, lift at 1. rewrite Hadd, Hmerge.
  unfold bind at 1, modify at 1.
  unfold bind at 1, updatePageObject at 1, modify at 1.
  unfold bind at 1, updatePageObject at 1, modify at 1.
  unfold bind at 1, updatePageObject at 1, modify at 1.
  unfold bind at 1.
  match goal with
  | |- snd (let (_, _) := savePageObjectModel B ?l ?e ?st in _) = _ =>
      pose proof (savePageObjectModel_state B l e st) as Hsave;
      destruct (savePageObjectModel B l e st) as [[[]|message] b'];
      cbn [snd] in Hsave |- *; subst b'
  end.
  all: cbn; unfold set_pageObjects, set_elementObjects; cbn; f_equal;
    rewrite (modifyObject_read _ _ _ _ Hpom);
    rewrite !modifyObject_write by (eapply read_Some_lt; eauto);
    reflexivity.
Qed.

(** C3, on the input that refutes it as stated: a model whose version is
    [2^53], as the repository files can hold it. A merge-update leaves the
    version as it is: [version++] is an addition of numbers, and
    [2^53 + 1] is not a number. *)
Lemma updatePageObjectModel_version_saturates :
  let once :=
    snd (updatePageObjectModel fragmentBuiltins 0
           (envOf laterVisit nothingResolves) 1800 importedBuilder) in
  Store.read (pageObjects importedBuilder) 0 = Some importedPom
  /\ PageObjectModel.version importedPom = 9007199254740992%Z
  /\ option_map PageObjectModel.version (Store.read (pageObjects once) 0)
     = Some 9007199254740992%Z
  /\ option_map PageObjectModel.version (Store.read (pageObjects once) 0)
     <> Some (PageObjectModel.version importedPom + 1)%Z.
Proof. vm_compute. repeat split. discriminate. Qed.

(** C3 (amended): a merge-update applied a second time with the same fresh
    elements (the same document, extracted again) leaves [elements] as the
    first application made it: the same descriptors in the same order, none
    added, none removed, each with the content it had (only the time of
    last verification is stamped again); and each of the two calls
    increments [version], by exactly one when the version it finds is a
    safe integer. *)
Theorem updatePageObjectModel_twice (B : Builtins) (b : Builder.t)
  (existing : nat) (env1 env2 : Env) (t1 t2 : Z) (doc : Document)
  (pom : PageObjectModel.t) :
  Store.read (pageObjects b) existing = Some pom ->
  (forall l, In l (PageObjectModel.elements pom) ->
     exists e, Store.read (elementObjects b) l = Some e) ->
  document env1 = Some doc ->
  document env2 = Some doc ->
  let once := snd (updatePageObjectModel B existing env1 t1 b) in
  let twice := snd (updatePageObjectModel B existing env2 t2 once) in
  exists pom1 pom2,
    Store.read (pageObjects once) existing = Some pom1
    /\ Store.read (pageObjects twice) existing = Some pom2
    /\ PageObjectModel.elements pom2 = PageObjectModel.elements pom1
    /\ elementsContent twice pom2 = elementsContent once pom1
    /\ PageObjectModel.version pom1 = increment (PageObjectModel.version pom)
    /\ PageObjectModel.version pom2 = increment (PageObjectModel.version pom1)
    /\ (isSafeInteger (PageObjectModel.version pom) = true ->
        PageObjectModel.version pom1 = (PageObjectModel.version pom + 1)%Z)
    /\ (isSafeInteger (PageObjectModel.version pom1) = true ->
        PageObjectModel.version pom2 = (PageObjectModel.version pom1 + 1)%Z).
Proof.
  intros Hpom Hvalid Hdoc1 Hdoc2 once twice.
  assert (Hlt : existing < List.length (pageObjects b))
    by (eapply read_Some_lt; eauto).
  (* first call *)
  destruct (addExisting_wellKeyed (elementObjects b)
              (PageObjectModel.elements pom) Hvalid JsMap.empty)
    as (m0 & Hadd0 & Hwk0).
  { split; [constructor | intros k l []]. }
  destruct (mergeCurrent t1 (extractFrom doc t1) (elementObjects b) m0)
    as [objects1 m1] eqn:Hmerge1.
  destruct (mergeCurrent_first t1 _ (extractFrom_stable doc t1)
              _ _ [] _ _ Hwk0 (fun k (H : In k []) => match H with end)
              Hmerge1) as [Hwk1 Hks1].
  cbn [app] in Hks1.
  pose proof (updatePageObjectModel_state B b existing env1 t1 doc pom
                m0 m1 objects1 Hdoc1 Hpom Hadd0 Hmerge1) as Honce.
  fold once in Honce.
  set (pom1 := PageObjectModel.incr_version
                 (PageObjectModel.set_lastUpdated t1
                    (PageObjectModel.set_elements (JsMap.values m1) pom)))
    in Honce.
  assert (Hpom1 : Store.read (pageObjects once) existing = Some pom1).
  { rewrite Honce. cbn. now apply read_write_same. }
  assert (Hobjs1 : elementObjects once = objects1) by now rewrite Honce.
  (* second call *)
  assert (Hadd1 : addExisting (elementObjects once)
                    (PageObjectModel.elements pom1) JsMap.empty = Ok m1).
  { rewrite Hobjs1. destruct Hwk1 as [Hnd1 Hent1].
    apply (addExisting_values objects1 m1 []); assumption. }
  destruct (mergeCurrent_known t2 m1 (extractFrom doc t2) objects1 Hwk1)
    as (objects2 & Hmerge2 & _ & Hsame).
  { unfold extractFrom in *.
    now rewrite (mapWithIndex_selector t2 t1). }
  rewrite <- Hobjs1 in Hmerge2.
  pose proof (updatePageObjectModel_state B once existing env2 t2 doc pom1
                m1 m1 objects2 Hdoc2 Hpom1 Hadd1 Hmerge2) as Htwice.
  fold twice in Htwice.
  set (pom2 := PageObjectModel.incr_version
                 (PageObjectModel.set_lastUpdated t2
                    (PageObjectModel.set_elements (JsMap.values m1) pom1)))
    in Htwice.
  exists pom1, pom2. split; [exact Hpom1|]. split.
  { rewrite Htwice. cbn. apply read_write_same.
    rewrite Honce. cbn. now rewrite write_length. }
  split; [reflexivity|]. split.
  { unfold elementsContent. cbn [pom2 pom1 PageObjectModel.elements
      PageObjectModel.incr_version PageObjectModel.set_lastUpdated
      PageObjectModel.set_elements].
    apply map_ext. intros l.
    replace (elementObjects twice) with objects2 by now rewrite Htwice.
    rewrite Hobjs1. apply Hsame. }
  split; [reflexivity|]. split; [reflexivity|].
  split; intros Hsafe; apply increment_safe; exact Hsafe.
Qed.

Lemma updatePageObjectModel_twice_witness :
  let once :=
    snd (updatePageObjectModel fragmentBuiltins 0
           (envOf laterVisit nothingResolves) 1800 storeBuilder) in
  let twice :=
    snd (updatePageObjectModel fragmentBuiltins 0
           (envOf laterVisit nothingResolves) 1900 once) in
  exists pom1 pom2,
    Store.read (pageObjects once) 0 = Some pom1
    /\ Store.read (pageObjects twice) 0 = Some pom2
    /\ PageObjectModel.elements pom2 = PageObjectModel.elements pom1
    /\ elementsContent twice pom2 = elementsContent once pom1
    /\ PageObjectModel.version pom1
       = increment (PageObjectModel.version loginPom)
    /\ PageObjectModel.version pom2 = increment (PageObjectModel.version pom1)
    /\ (isSafeInteger (PageObjectModel.version loginPom) = true ->
        PageObjectModel.version pom1
        = (PageObjectModel.version loginPom + 1)%Z)
    /\ (isSafeInteger (PageObjectModel.version pom1) = true ->
        PageObjectModel.version pom2 = (PageObjectModel.version pom1 + 1)%Z).
Proof.
  apply (updatePageObjectModel_twice fragmentBuiltins storeBuilder 0
           (envOf laterVisit nothingResolves)
           (envOf laterVisit nothingResolves) 1800 1900 laterVisit loginPom).
  - reflexivity.
  - intros l [<-|[<-|[]]]; eexists; reflexivity.
  - reflexivity.
  - reflexivity.
Defined.

(** The merge in numbers: the model of two elements takes in the new e-mail
    input on the first update and nothing on the second; the version goes
    from 1 to 2 to 3. *)
Example merge_scenario :
  let once :=
    snd (updatePageObjectModel fragmentBuiltins 0
           (envOf laterVisit nothingResolves) 1800 storeBuilder) in
  let twice :=
    snd (updatePageObjectModel fragmentBuiltins 0
           (envOf laterVisit nothingResolves) 1900 once) in
  option_map PageObjectModel.elements (Store.read (pageObjects once) 0)
  = Some [0; 1; 2]
  /\ option_map PageObjectModel.elements (Store.read (pageObjects twice) 0)
     = Some [0; 1; 2]
  /\ map ElementMapping.selector (elementObjects twice)
     = ["#login"; nameSelector "password"; "input"]
  /\ map ElementMapping.isStable (elementObjects once) = [true; true; true]
  /\ map ElementMapping.lastVerified (elementObjects once)
     = [1800; 1800; 1800]%Z
  /\ map ElementMapping.lastVerified (elementObjects twice)
     = [1900; 1900; 1900]%Z
  /\ option_map PageObjectModel.version (Store.read (pageObjects twice) 0)
     = Some 3%Z.
Proof. vm_compute. repeat split. Qed.

(** The merge keys the descriptors by selector. A model that holds two
    descriptors with one selector keeps a single entry for them after an
    update, the later descriptor at the place of the earlier one; from then
    on the updates leave the list alone. *)
Example merge_shared_selector :
  let once :=
    snd (updatePageObjectModel fragmentBuiltins 0
           (envOf [] nothingResolves) 1800 twoButtonsBuilder) in
  let twice :=
    snd (updatePageObjectModel fragmentBuiltins 0
           (envOf [] nothingResolves) 1900 once) in
  option_map PageObjectModel.elements (Store.read (pageObjects once) 0)
  = Some [1]
  /\ option_map PageObjectModel.elements (Store.read (pageObjects twice) 0)
     = Some [1].
Proof. vm_compute. repeat split. Qed.

(** ** Page Object Store: find by URL *)

Lemma faithful_fragmentBuiltins : faithful fragmentBuiltins.
Proof.
  split.
  - intros pattern s r H. cbn. now rewrite H.
  - intros url p H. cbn. now rewrite H.
Qed.

Lemma generateUrlPattern_faithful (B : Builtins) (url p : string) :
  faithful B -> Url.pathname url = Some p ->
  generateUrlPattern B url = Ok (replaceNumericSegments false p).
Proof.
  intros [_ Hurl] Hp. unfold generateUrlPattern. now rewrite (Hurl _ _ Hp).
Qed.

(** The lookup on plain paths: after a first visit of [/items/42] the store
    finds the model for the same URL and for [/items/99]; the pattern
    stored is [/items/\d+]. *)
Example findPageObjectByUrl_items :
  let b := afterFirstVisit fragmentBuiltins item42 in
  option_map PageObjectModel.urlPattern (Store.read (pageObjects b) 0)
  = Some (Some "/items/\d+")
  /\ fst (findPageObjectByUrl fragmentBuiltins item42 b) = Ok (Some 0)
  /\ fst (findPageObjectByUrl fragmentBuiltins item99 b) = Ok (Some 0).
Proof. vm_compute. repeat split. Qed.

(** C4, at the input on which the code fails: the only model of the store
    was derived from [/tags/rock+roll/42]. Its pattern is the path with the
    numeric segment replaced and the plus sign left as it is,
    [/tags/rock+roll/\d+], in which [k+] stands for one or more [k]; the
    lookup of [/tags/rock+roll/99] therefore finds nothing. *)
Theorem findPageObjectByUrl_unescaped_plus (B : Builtins) (b : Builder.t)
  (pom : PageObjectModel.t) (pattern : string) :
  faithful B ->
  pageObjectRepository b = [(PageObjectModel.id pom, 0)] ->
  pageObjects b = [pom] ->
  PageObjectModel.url pom = rockAndRoll42 ->
  generateUrlPattern B rockAndRoll42 = Ok pattern ->
  PageObjectModel.urlPattern pom = Some pattern ->
  pattern = "/tags/rock+roll/\d+"
  /\ findPageObjectByUrl B rockAndRoll99 b = (Ok None, b).
Proof.
  intros HB Hrepo Hstore Hurl Hgen Hpat.
  rewrite (generateUrlPattern_faithful B rockAndRoll42 "/tags/rock+roll/42" HB)
    in Hgen by reflexivity.
  injection Hgen as <-. split; [reflexivity|].
  unfold findPageObjectByUrl. rewrite Hrepo, Hstore. cbn.
  rewrite Hurl, Hpat. cbn.
  destruct HB as [Hre _].
  rewrite (Hre _ rockAndRoll99 (Ok false)) by reflexivity.
  reflexivity.
Qed.

Lemma findPageObjectByUrl_unescaped_plus_witness :
  "/tags/rock+roll/\d+" = "/tags/rock+roll/\d+"
  /\ findPageObjectByUrl fragmentBuiltins rockAndRoll99
       (afterFirstVisit fragmentBuiltins rockAndRoll42)
     = (Ok None, afterFirstVisit fragmentBuiltins rockAndRoll42).
Proof.
  apply (findPageObjectByUrl_unescaped_plus fragmentBuiltins
           (afterFirstVisit fragmentBuiltins rockAndRoll42)
           {| PageObjectModel.id := "pom-1700";
              PageObjectModel.name := "42Page";
              PageObjectModel.url := rockAndRoll42;
              PageObjectModel.urlPattern := Some "/tags/rock+roll/\d+";
              PageObjectModel.elements := [0];
              PageObjectModel.lastUpdated := 1700%Z;
              PageObjectModel.version := 1%Z;
              PageObjectModel.screenshots :=
                ("screenshots/screenshot-1700.png",
                 "screenshots/screenshot-1700.png") |}
           "/tags/rock+roll/\d+").
  - apply faithful_fragmentBuiltins.
  - reflexivity.
  - reflexivity.
  - reflexivity.
  - reflexivity.
  - reflexivity.
Defined.

(** *** The pattern of a plain path matches the paths of its family *)

Lemma isPlainPathChar_syntax (c : ascii) :
  isPlainPathChar c = true ->
  Ascii.eqb c "\"%char = false
  /\ RegExp.isQuantifierChar c = false
  /\ RegExp.isOtherSyntaxChar c = false
  /\ RegExp.accepts (atomOf c) c = true.
Proof.
  destruct c as [[] [] [] [] [] [] [] []]; vm_compute;
    intros H; try discriminate H; repeat split.
Qed.

Lemma parseFrom_literal (c : ascii) (rest : string)
  (pending : option RegExp.atom) (quantified : bool) :
  isPlainPathChar c = true ->
  RegExp.parseFrom (String c rest) pending quantified
  = consParsed (flush pending)
      (RegExp.parseFrom rest (Some (atomOf c)) false).
Proof.
  intros H. destruct (isPlainPathChar_syntax c H) as (H1 & H2 & H3 & _).
  cbn [RegExp.parseFrom]. rewrite H1, H2, H3. unfold atomOf.
  destruct pending, (RegExp.parseFrom rest _ false); reflexivity.
Qed.

Lemma parseFrom_numeric (rest : string) (pending : option RegExp.atom)
  (quantified : bool) :
  RegExp.parseFrom ("/\d+" ++ rest) pending quantified
  = consParsed
      (flush pending
       ++ [(RegExp.Lit "/"%char, RegExp.One); (RegExp.Digit, RegExp.Plus)])%list
      (RegExp.parseFrom rest None true).
Proof.
  cbn. destruct pending, (RegExp.parseFrom rest None true); reflexivity.
Qed.

Lemma parseFrom_pattern (p : string) :
  every isPlainPathChar p = true ->
  forall skipping pending quantified,
    RegExp.parseFrom (replaceNumericSegments skipping p) pending quantified
    = RegExp.Compiled (flush pending ++ pathAtoms skipping p)%list.
Proof.
  induction p as [|c p IH]; intros Hplain skipping pending quantified.
  - cbn. destruct pending; reflexivity.
  - cbn [every] in Hplain. apply andb_true_iff in Hplain.
    destruct Hplain as [Hc Hp].
    cbn [replaceNumericSegments pathAtoms].
    destruct (skipping && isDigit c); [now apply IH|].
    destruct (Ascii.eqb c "/"%char && _) eqn:Hslash.
    + rewrite parseFrom_numeric, (IH Hp). cbn [consParsed].
      now rewrite <- app_assoc.
    + rewrite (parseFrom_literal _ _ _ _ Hc), (IH Hp). cbn [consParsed flush].
      now destruct pending.
Qed.

Lemma matchStar_here (a : RegExp.atom) (k : string -> bool) (s : string) :
  k s = true -> RegExp.matchStar a k s = true.
Proof. destruct s; cbn; now intros ->. Qed.

Lemma matchStar_step (a : RegExp.atom) (k : string -> bool) (c : ascii)
  (s : string) :
  RegExp.accepts a c = true -> RegExp.matchStar a k s = true ->
  RegExp.matchStar a k (String c s) = true.
Proof. cbn [RegExp.matchStar]. intros -> ->. apply orb_true_r. Qed.

(** The compiled pattern of a plain path matches that path, whatever
    follows it; in the skipping state, after the digits already consumed
    by [\d+]. *)
Lemma pathAtoms_match (suffix : string) :
  forall n p,
    String.length p <= n ->
    every isPlainPathChar p = true ->
    RegExp.matchHere (pathAtoms false p) (p ++ suffix) = true
    /\ RegExp.matchStar RegExp.Digit (RegExp.matchHere (pathAtoms true p))
         (p ++ suffix) = true.
Proof.
  induction n as [|n IH]; intros p Hlen Hplain.
  - destruct p; [|simpl in Hlen; lia]. split; [reflexivity|].
    now apply matchStar_here.
  - destruct p as [|c p]; [split; [reflexivity | now apply matchStar_here]|].
    cbn [every] in Hplain. apply andb_true_iff in Hplain.
    destruct Hplain as [Hc Hp]. simpl in Hlen.
    destruct (IH p ltac:(lia) Hp) as [IHhere IHstar].
    destruct (isPlainPathChar_syntax c Hc) as (_ & _ & _ & Hacc).
    assert (Hhere :
      RegExp.matchHere (pathAtoms false (String c p))
        (String c p ++ suffix) = true).
    { cbn [pathAtoms andb].
      destruct (Ascii.eqb c "/"%char && _) eqn:Hslash.
      - apply andb_true_iff in Hslash. destruct Hslash as [Hc' Hd].
        apply Ascii.eqb_eq in Hc'. subst c.
        destruct p as [|d p]; [discriminate|].
        cbn [every] in Hp. apply andb_true_iff in Hp.
        destruct Hp as [_ Hp]. simpl in Hlen.
        destruct (IH p ltac:(lia) Hp) as [_ IHstar'].
        cbn [pathAtoms andb]. rewrite Hd.
        cbn [RegExp.matchHere append RegExp.accepts].
        rewrite Ascii.eqb_refl, Hd. exact IHstar'.
      - cbn [RegExp.matchHere append]. now rewrite Hacc. }
    split; [exact Hhere|].
    destruct (isDigit c) eqn:Hd.
    + cbn [pathAtoms andb]. rewrite Hd. cbn [append].
      apply matchStar_step; [exact Hd | exact IHstar].
    + apply matchStar_here.
      replace (pathAtoms true (String c p)) with (pathAtoms false (String c p))
        by (cbn [pathAtoms andb]; now rewrite Hd).
      exact Hhere.
Qed.

Lemma search_app (r : RegExp.t) (prefix s : string) :
  RegExp.matchHere r s = true -> RegExp.search r (prefix ++ s) = true.
Proof.
  intros H. induction prefix as [|c prefix IH]; cbn [append].
  - destruct s; cbn [RegExp.search]; now rewrite H.
  - cbn [RegExp.search]. rewrite IH. apply orb_true_r.
Qed.

(** The pattern of a plain path, tested on a string in which a path of the
    same pattern occurs. *)
Lemma test_pattern (p p' prefix suffix : string) :
  every isPlainPathChar p' = true ->
  replaceNumericSegments false p' = replaceNumericSegments false p ->
  RegExp.test (replaceNumericSegments false p) (prefix ++ p' ++ suffix)
  = Some (Ok true).
Proof.
  intros Hplain <-. unfold RegExp.test, RegExp.compile.
  rewrite (parseFrom_pattern _ Hplain). cbn [flush app].
  rewrite search_app; [reflexivity|].
  now apply (pathAtoms_match suffix (String.length p')).
Qed.

Lemma append_assoc3 (a b c : string) : (a ++ b) ++ c = a ++ (b ++ c).
Proof. induction a as [|x a IH]; cbn [append]; congruence. Qed.

Lemma stripPrefix_Some (prefix s rest : string) :
  Url.stripPrefix prefix s = Some rest -> s = prefix ++ rest.
Proof.
  revert s. induction prefix as [|a prefix IH]; intros s; cbn.
  - now intros [= ->].
  - destruct s as [|c s]; [discriminate|].
    destruct (Ascii.eqb a c) eqn:E; [|discriminate].
    apply Ascii.eqb_eq in E. subst c. intros H. now rewrite (IH _ H).
Qed.

Lemma takeWhile_dropWhile (f : ascii -> bool) (s : string) :
  Url.takeWhile f s ++ Url.dropWhile f s = s.
Proof.
  induction s as [|c s IH]; cbn; [reflexivity|].
  destruct (f c); cbn; congruence.
Qed.

(** The path name of a modelled URL is not empty and occurs in the URL. *)
Lemma pathname_occurs (url p : string) :
  Url.pathname url = Some p ->
  truthy p = true /\ exists prefix suffix, url = prefix ++ p ++ suffix.
Proof.
  unfold Url.pathname.
  set (notPathStart := fun c => negb (Ascii.eqb c "/"%char || Url.isPathEnd c)).
  set (inPath := fun c => negb (Url.isPathEnd c)).
  assert (Hrest : forall scheme rest,
    url = scheme ++ "/" ++ rest ->
    (if Url.validAuthority (Url.takeWhile notPathStart rest)
        && every Url.isPathChar
             (Url.takeWhile inPath (Url.dropWhile notPathStart rest))
        && negb (existsb Url.isDotSegment
                   (Url.split "/"%char
                      (Url.takeWhile inPath (Url.dropWhile notPathStart rest))
                      EmptyString))
     then Some (if truthy (Url.takeWhile inPath
                             (Url.dropWhile notPathStart rest))
                then Url.takeWhile inPath (Url.dropWhile notPathStart rest)
                else "/")
     else None) = Some p ->
    truthy p = true /\ exists prefix suffix, url = prefix ++ p ++ suffix).
  { intros scheme rest Hurl.
    destruct (_ && _); [|discriminate].
    destruct (truthy (Url.takeWhile inPath (Url.dropWhile notPathStart rest)))
      eqn:Hpath; intros [= <-].
    - split; [exact Hpath|].
      exists (scheme ++ "/" ++ Url.takeWhile notPathStart rest),
        (Url.dropWhile inPath (Url.dropWhile notPathStart rest)).
      rewrite Hurl, !append_assoc3. do 2 f_equal.
      now rewrite takeWhile_dropWhile, takeWhile_dropWhile.
    - split; [reflexivity|]. exists scheme, rest. exact Hurl. }
  destruct (Url.stripPrefix "https://" url) as [rest|] eqn:Hs.
  - apply stripPrefix_Some in Hs. apply (Hrest "https:/" rest).
    rewrite Hs. reflexivity.
  - destruct (Url.stripPrefix "http://" url) as [rest|] eqn:Hs';
      [|discriminate].
    apply stripPrefix_Some in Hs'. apply (Hrest "http:/" rest).
    rewrite Hs'. reflexivity.
Qed.

Lemma replaceNumericSegments_truthy (p : string) :
  truthy p = true -> truthy (replaceNumericSegments false p) = true.
Proof.
  destruct p as [|c p]; [discriminate|]. intros _.
  cbn [replaceNumericSegments andb]. now destruct (_ && _).
Qed.

(** The lookup on paths without regular-expression syntax: a store whose
    only model was derived from [url] answers that model for [url] itself
    and for every modelled URL whose path is plain and has the same
    pattern, that is, differs from the path of [url] in its numeric
    segments only. *)
Theorem findPageObjectByUrl_plain_family (B : Builtins) (b : Builder.t)
  (pom : PageObjectModel.t) (url url' p p' pattern : string) :
  faithful B ->
  pageObjectRepository b = [(PageObjectModel.id pom, 0)] ->
  pageObjects b = [pom] ->
  PageObjectModel.url pom = url ->
  generateUrlPattern B url = Ok pattern ->
  PageObjectModel.urlPattern pom = Some pattern ->
  Url.pathname url = Some p ->
  Url.pathname url' = Some p' ->
  every isPlainPathChar p' = true ->
  replaceNumericSegments false p' = replaceNumericSegments false p ->
  findPageObjectByUrl B url b = (Ok (Some 0), b)
  /\ findPageObjectByUrl B url' b = (Ok (Some 0), b).
Proof.
  intros HB Hrepo Hstore Hurl Hgen Hpat Hp Hp' Hplain Hsame.
  rewrite (generateUrlPattern_faithful B url p HB Hp) in Hgen.
  injection Hgen as <-.
  unfold findPageObjectByUrl. rewrite Hrepo, Hstore. cbn.
  rewrite Hurl, Hpat, String.eqb_refl. split; [reflexivity|].
  destruct (String.eqb url url'); [reflexivity|].
  destruct (pathname_occurs _ _ Hp) as [Htruthy _].
  destruct (pathname_occurs _ _ Hp') as [_ (prefix & suffix & ->)].
  cbn [truthy_opt interpolate].
  rewrite (replaceNumericSegments_truthy _ Htruthy).
  destruct HB as [Hre _].
  rewrite (Hre _ _ (Ok true)); [reflexivity|].
  now apply test_pattern.
Qed.

Lemma findPageObjectByUrl_plain_family_witness :
  findPageObjectByUrl fragmentBuiltins item42
    (afterFirstVisit fragmentBuiltins item42)
  = (Ok (Some 0), afterFirstVisit fragmentBuiltins item42)
  /\ findPageObjectByUrl fragmentBuiltins item99
       (afterFirstVisit fragmentBuiltins item42)
     = (Ok (Some 0), afterFirstVisit fragmentBuiltins item42).
Proof.
  apply (findPageObjectByUrl_plain_family fragmentBuiltins
           (afterFirstVisit fragmentBuiltins item42)
           {| PageObjectModel.id := "pom-1700";
              PageObjectModel.name := "42Page";
              PageObjectModel.url := item42;
              PageObjectModel.urlPattern := Some "/items/\d+";
              PageObjectModel.elements := [0];
              PageObjectModel.lastUpdated := 1700%Z;
              PageObjectModel.version := 1%Z;
              PageObjectModel.screenshots :=
                ("screenshots/screenshot-1700.png",
                 "screenshots/screenshot-1700.png") |}
           item42 item99 "/items/42" "/items/99" "/items/\d+");
    try reflexivity.
  apply faithful_fragmentBuiltins.
Defined.

(** * Further properties of the engine *)

(** ** Extraction: every visible interactive element, once *)

Lemma mapWithIndex_length {A C : Type} (f : nat -> A -> C) (l : list A) :
  forall i, List.length (mapWithIndex f i l) = List.length l.
Proof. induction l as [|a l IH]; intros i; simpl; auto. Qed.

Lemma existsb_eqb_In (i : nat) (l : list nat) :
  existsb (Nat.eqb i) l = true <-> In i l.
Proof.
  rewrite existsb_exists. split.
  - intros (x & Hx & E). apply Nat.eqb_eq in E. now subst.
  - intros H. exists i. split; [exact H | apply Nat.eqb_refl].
Qed.

Lemma indexed_fst (doc : Document) (k : nat) :
  map fst (combine (seq k (List.length doc)) doc) = seq k (List.length doc).
Proof.
  revert k. induction doc as [|el doc IH]; intros k; simpl; [reflexivity|].
  now rewrite IH.
Qed.

Lemma indexed_snd (doc : Document) (k : nat) :
  map snd (combine (seq k (List.length doc)) doc) = doc.
Proof.
  revert k. induction doc as [|el doc IH]; intros k; simpl; [reflexivity|].
  now rewrite IH.
Qed.

Lemma indexed_NoDup (doc : Document) : NoDup (map fst (indexed doc)).
Proof. unfold indexed. rewrite indexed_fst. apply seq_NoDup. Qed.

Lemma NoDup_fst_functional {A : Type} (L : list (nat * A)) (i : nat)
  (a a' : A) :
  NoDup (map fst L) -> In (i, a) L -> In (i, a') L -> a = a'.
Proof.
  induction L as [|[j x] L IH]; simpl; [tauto|].
  intros Hnd. inversion Hnd as [|? ? Hnotin Hnd']; subst.
  intros [H|H] [H'|H'].
  - congruence.
  - injection H as -> ->. exfalso. apply Hnotin.
    apply (in_map fst) in H'. exact H'.
  - injection H' as -> ->. exfalso. apply Hnotin.
    apply (in_map fst) in H. exact H.
  - auto.
Qed.

(** The trace of the scan: the nodes met for the first time, in order. *)
Lemma visit_trace (L V : list (nat * HTMLElement))
  (acc : list nat * list RawElement) (node : nat * HTMLElement) :
  In node L ->
  fst acc = map fst V ->
  map rawSnapshot (snd acc)
  = map (fun n => snapshot (snd n)) (filter (fun n => isVisible (snd n)) V) ->
  NoDup (map fst V) ->
  incl V L ->
  exists V',
    fst (visit acc node) = map fst V'
    /\ map rawSnapshot (snd (visit acc node))
       = map (fun n => snapshot (snd n))
           (filter (fun n => isVisible (snd n)) V')
    /\ NoDup (map fst V')
    /\ incl V' L
    /\ (forall i, In i (map fst V') <-> In i (map fst V) \/ i = fst node).
Proof.
  destruct acc as [processed elements], node as [ident el].
  cbn [fst snd]. intros Hin Hfst Hsnd Hnd Hincl. unfold visit.
  destruct (existsb (Nat.eqb ident) processed) eqn:Hseen.
  - exists V. cbn [fst snd]. repeat split; auto.
    intros [H| ->]; [exact H|].
    rewrite <- Hfst. now apply existsb_eqb_In.
  - assert (Hnew : ~ In ident (map fst V)).
    { rewrite <- Hfst. intros H. apply existsb_eqb_In in H. congruence. }
    exists (V ++ [(ident, el)])%list.
    assert (Hvis :
      ((rectWidth el =? 0)%Z || (rectHeight el =? 0)%Z = false
       /\ String.eqb (styleDisplay el) "none"
          || String.eqb (styleVisibility el) "hidden" = false
       /\ isVisible el = true)
      \/ (isVisible el = false
          /\ ((rectWidth el =? 0)%Z || (rectHeight el =? 0)%Z = true
              \/ ((rectWidth el =? 0)%Z || (rectHeight el =? 0)%Z = false
                  /\ String.eqb (styleDisplay el) "none"
                     || String.eqb (styleVisibility el) "hidden" = true)))).
    { unfold isVisible.
      destruct ((rectWidth el =? 0)%Z || (rectHeight el =? 0)%Z);
        destruct (String.eqb (styleDisplay el) "none"
                  || String.eqb (styleVisibility el) "hidden");
        cbn; tauto. }
    assert (Hcommon :
      NoDup (map fst (V ++ [(ident, el)])%list)
      /\ incl (V ++ [(ident, el)])%list L
      /\ (forall i, In i (map fst (V ++ [(ident, el)])%list)
                    <-> In i (map fst V) \/ i = ident)).
    { rewrite map_app. cbn [map fst]. split; [|split].
      - apply NoDup_app; [exact Hnd | repeat constructor; auto |].
        intros x Hx [<-|[]]. contradiction.
      - intros n Hn. apply in_app_or in Hn.
        destruct Hn as [Hn|[<-|[]]]; auto.
      - intros i. rewrite in_app_iff. cbn. intuition. }
    destruct Hcommon as (Hnd' & Hincl' & Hmem').
    assert (Hfst' : (processed ++ [ident])%list
                    = map fst (V ++ [(ident, el)])%list).
    { now rewrite Hfst, map_app. }
    destruct Hvis as [(Hz & Hs & Hv) | (Hv & [Hz | (Hz & Hs)])].
    + rewrite Hz, Hs. cbn [fst snd].
      split; [exact Hfst'|].
      split; [|split; [exact Hnd'|split; [exact Hincl'|exact Hmem']]].
      rewrite filter_app, !map_app, Hsnd.
      cbn [filter snd map]. rewrite Hv. cbn [map snd].
      f_equal. unfold rawSnapshot, snapshot. cbn.
      now destruct (trim (textContent el)).
    + rewrite Hz. cbn [fst snd].
      split; [exact Hfst'|].
      split; [|split; [exact Hnd'|split; [exact Hincl'|exact Hmem']]].
      rewrite filter_app, map_app, Hsnd.
      cbn [filter snd map]. rewrite Hv. cbn [map].
      now rewrite app_nil_r.
    + rewrite Hz, Hs. cbn [fst snd].
      split; [exact Hfst'|].
      split; [|split; [exact Hnd'|split; [exact Hincl'|exact Hmem']]].
      rewrite filter_app, map_app, Hsnd.
      cbn [filter snd map]. rewrite Hv. cbn [map].
      now rewrite app_nil_r.
Qed.

Lemma fold_visit_trace (L nodes : list (nat * HTMLElement)) :
  (forall n, In n nodes -> In n L) ->
  forall acc V,
    traced L V acc ->
    exists V',
      traced L V' (fold_left visit nodes acc)
      /\ (forall i, In i (map fst V')
                    <-> In i (map fst V) \/ In i (map fst nodes)).
Proof.
  induction nodes as [|node nodes IH]; intros Hnodes acc V Htr; simpl.
  - exists V. split; [exact Htr|]. tauto.
  - destruct Htr as (H1 & H2 & H3 & H4).
    destruct (visit_trace L V acc node (Hnodes _ (or_introl eq_refl))
                H1 H2 H3 H4) as (V1 & G1 & G2 & G3 & G4 & Hmem1).
    destruct (IH (fun n Hn => Hnodes n (or_intror Hn)) (visit acc node) V1)
      as (V' & Htr' & Hmem').
    { repeat split; assumption. }
    exists V'. split; [exact Htr'|].
    intros i. rewrite Hmem', Hmem1. intuition.
Qed.

Lemma scan_trace (doc : Document) (sels : list InteractiveSelector) :
  forall acc V,
    traced (indexed doc) V acc ->
    exists V',
      traced (indexed doc) V'
        (fold_left (fun acc s => fold_left visit (querySelectorAll doc s) acc)
           sels acc)
      /\ (forall i, In i (map fst V')
                    <-> In i (map fst V)
                        \/ exists s, In s sels
                             /\ In i (map fst (querySelectorAll doc s))).
Proof.
  induction sels as [|s sels IH]; intros acc V Htr; simpl.
  - exists V. split; [exact Htr|]. intros i. split; [tauto|].
    intros [H|(s & [] & _)]. exact H.
  - destruct (fold_visit_trace (indexed doc) (querySelectorAll doc s)
                (fun n Hn => proj1 (proj1 (filter_In _ _ _) Hn)) acc V Htr)
      as (V1 & Htr1 & Hmem1).
    destruct (IH _ V1 Htr1) as (V' & Htr' & Hmem').
    exists V'. split; [exact Htr'|].
    intros i. rewrite Hmem', Hmem1. split.
    + intros [[H|H]|(s' & Hs' & H)]; eauto.
    + intros [H|(s' & [<-|Hs'] & H)]; eauto.
Qed.

Lemma snapshotOf_extractFrom (now : Z) (raw : list RawElement) :
  forall i,
    map snapshotOf (mapWithIndex (toElementMapping now) i raw)
    = map rawSnapshot raw.
Proof.
  induction raw as [|r raw IH]; intros i; simpl; [reflexivity|].
  now rewrite IH.
Qed.

(** X1: the extraction returns one descriptor for each element of the
    document that one of the seven selectors matches and that is visible,
    and no other: an element that several selectors match is taken once,
    an element without rendered area or hidden by its inline style is left
    out. Each descriptor records the selector, type, trimmed text and
    attributes of its element. *)
Theorem extractFrom_each_visible_interactive_once (doc : Document) (now : Z) :
  Permutation
    (map snapshotOf (extractFrom doc now))
    (map snapshot (filter (fun el => isInteractive el && isVisible el) doc)).
Proof.
  unfold extractFrom. rewrite snapshotOf_extractFrom. unfold extractRaw.
  destruct (scan_trace doc selectors ([], []) [])
    as (V & (H1 & H2 & H3 & H4) & Hmem).
  { repeat split; try constructor. intros n []. }
  rewrite H2.
  set (L := indexed doc) in *.
  assert (HL : NoDup (map fst L)) by apply indexed_NoDup.
  assert (Hint : forall n, In n L ->
            (In (fst n) (map fst V) <-> isInteractive (snd n) = true)).
  { intros [i el] Hn. cbn [fst snd]. rewrite Hmem. unfold isInteractive.
    rewrite existsb_exists. split.
    - intros [[]|(s & Hs & Hi)]. exists s. split; [exact Hs|].
      apply in_map_iff in Hi. destruct Hi as ([j el'] & Hj & Hin').
      cbn in Hj. subst j. unfold querySelectorAll in Hin'.
      apply filter_In in Hin'. destruct Hin' as [Hin' Hm]. cbn in Hm.
      now rewrite (NoDup_fst_functional L i el el' HL Hn Hin').
    - intros (s & Hs & Hm). right. exists s. split; [exact Hs|].
      apply in_map_iff. exists (i, el). split; [reflexivity|].
      unfold querySelectorAll. apply filter_In. split; assumption. }
  assert (Hperm :
    Permutation (filter (fun n => isVisible (snd n)) V)
      (filter (fun n => isInteractive (snd n) && isVisible (snd n)) L)).
  { apply NoDup_Permutation.
    - apply NoDup_filter. eapply NoDup_map_inv; eauto.
    - apply NoDup_filter. eapply NoDup_map_inv; eauto.
    - intros n. rewrite !filter_In, andb_true_iff. split.
      + intros [HV Hv]. pose proof (H4 n HV) as HnL.
        repeat split; auto. apply (Hint n HnL). now apply in_map.
      + intros [HnL [Hi Hv]]. split; [|exact Hv].
        apply (Hint n HnL) in Hi. apply in_map_iff in Hi.
        destruct Hi as (n' & Hfst & Hn').
        destruct n as [i el], n' as [i' el']. cbn in Hfst. subst i'.
        now rewrite (NoDup_fst_functional L i el el' HL HnL (H4 _ Hn')). }
  apply (Permutation_map (fun n => snapshot (snd n))) in Hperm.
  eapply Permutation_trans; [exact Hperm|].
  replace (map (fun n => snapshot (snd n))
             (filter (fun n => isInteractive (snd n) && isVisible (snd n)) L))
    with (map snapshot
            (filter (fun el => isInteractive el && isVisible el) doc));
    [apply Permutation_refl|].
  rewrite <- (indexed_snd doc 0) at 1. fold (indexed doc). fold L.
  generalize L. clear. intros L.
  induction L as [|[i el] L IH]; cbn [map filter snd]; [reflexivity|].
  destruct (isInteractive el && isVisible el); cbn [map snd];
    now rewrite IH.
Qed.

(** ** Extraction: identifiers *)

Lemma ofZ_inj (a b : Z) : ofZ a = ofZ b -> a = b.
Proof.
  unfold ofZ. intros H.
  assert (Hnonnil : forall z, Z.to_int z <> Decimal.Pos Decimal.Nil
                              /\ Z.to_int z <> Decimal.Neg Decimal.Nil).
  { intros [|p|p]; cbn; split; try discriminate;
      intros [= E]; now apply (Unsigned.to_uint_nonnil p). }
  apply DecimalZ.to_int_inj.
  assert (E : Some (Z.to_int a) = Some (Z.to_int b)).
  { rewrite <- (NilZero.isi (Z.to_int a)) by apply Hnonnil.
    rewrite <- (NilZero.isi (Z.to_int b)) by apply Hnonnil.
    now rewrite H. }
  now injection E.
Qed.

Lemma ofNat_inj (i j : nat) : ofNat i = ofNat j -> i = j.
Proof. unfold ofNat. intros H. apply ofZ_inj in H. lia. Qed.

Lemma append_inj_l (a x y : string) : a ++ x = a ++ y -> x = y.
Proof. induction a as [|c a IH]; cbn; [auto|]. intros [= H]. auto. Qed.

Lemma extractFrom_ids (now : Z) (raw : list RawElement) :
  forall i,
    map ElementMapping.id (mapWithIndex (toElementMapping now) i raw)
    = map (fun j => "element-" ++ ofZ now ++ "-" ++ ofNat j)
        (seq i (List.length raw)).
Proof.
  induction raw as [|r raw IH]; intros i; simpl; [reflexivity|].
  now rewrite IH.
Qed.

Lemma NoDup_map_injective {A C : Type} (f : A -> C) (l : list A) :
  (forall x y, f x = f y -> x = y) -> NoDup l -> NoDup (map f l).
Proof.
  intros Hinj. induction 1 as [|x l Hx Hl IH]; simpl; constructor; auto.
  intros Hin. apply in_map_iff in Hin. destruct Hin as (y & E & Hy).
  apply Hinj in E. now subst.
Qed.

(** X2: the descriptors of one extraction have pairwise distinct ids. *)
Theorem extractFrom_ids_distinct (doc : Document) (now : Z) :
  NoDup (map ElementMapping.id (extractFrom doc now)).
Proof.
  unfold extractFrom. rewrite extractFrom_ids.
  apply NoDup_map_injective; [|apply seq_NoDup].
  intros i j H. do 3 apply append_inj_l in H. now apply ofNat_inj.
Qed.

(** ** Extraction and mapping classify alike *)

(** X3: the classifier of the element mapper agrees with the classifier of
    the extraction on every element that the extraction does not class as
    [other]. *)
Theorem detectElementType_refines_detectType (el : HTMLElement) :
  detectType el <> TOther ->
  detectElementType (toLowerCase (tagName el))
    (or_default (getAttribute el "type") EmptyString)
  = detectType el.
Proof.
  unfold detectType, detectElementType.
  destruct (String.eqb (toLowerCase (tagName el)) "button"); [reflexivity|].
  destruct (String.eqb (toLowerCase (tagName el)) "a"); [reflexivity|].
  destruct (String.eqb (toLowerCase (tagName el)) "input") eqn:Hinput.
  - apply String.eqb_eq in Hinput. rewrite Hinput. cbn [andb String.eqb].
    replace (String.eqb "input" "select") with false by reflexivity.
    replace (String.eqb "input" "textarea") with false by reflexivity.
    destruct (getAttribute el "type") as [v|]; cbn [or_default].
    + destruct (String.eqb v "text") eqn:E1.
      { apply String.eqb_eq in E1. subst v. reflexivity. }
      destruct (String.eqb v "email") eqn:E2.
      { apply String.eqb_eq in E2. subst v. reflexivity. }
      destruct (String.eqb v "password") eqn:E3.
      { apply String.eqb_eq in E3. subst v. reflexivity. }
      cbn [orb].
      destruct (String.eqb v "checkbox") eqn:E4.
      { apply String.eqb_eq in E4. subst v. reflexivity. }
      destruct (String.eqb v "radio") eqn:E5.
      { apply String.eqb_eq in E5. subst v. reflexivity. }
      intros H. now exfalso.
    + intros H. now exfalso.
  - cbn [andb].
    destruct (String.eqb (toLowerCase (tagName el)) "select"); [reflexivity|].
    destruct (String.eqb (toLowerCase (tagName el)) "textarea");
      [reflexivity|].
    intros H. now exfalso.
Qed.

Lemma detectElementType_refines_detectType_witness :
  detectElementType (toLowerCase (tagName rememberCheckbox))
    (or_default (getAttribute rememberCheckbox "type") EmptyString)
  = detectType rememberCheckbox.
Proof.
  apply (detectElementType_refines_detectType rememberCheckbox).
  discriminate.
Defined.

(** ** Generated names: underscores, and a second derivation *)

Lemma collapseUnderscores_head (s : string) :
  startsWithUnderscore (collapseUnderscores s) = startsWithUnderscore s.
Proof.
  induction s as [|c s IH]; [reflexivity|].
  cbn [collapseUnderscores].
  destruct (Ascii.eqb c "_"%char) eqn:E; [|cbn; now rewrite E].
  destruct s as [|c' s']; [cbn; now rewrite E|].
  destruct (Ascii.eqb c' "_"%char) eqn:E'.
  - rewrite IH. cbn. now rewrite E, E'.
  - cbn. now rewrite E.
Qed.

Lemma collapseUnderscores_single (s : string) :
  hasDoubleUnderscore (collapseUnderscores s) = false.
Proof.
  induction s as [|c s IH]; [reflexivity|].
  cbn [collapseUnderscores].
  destruct (Ascii.eqb c "_"%char) eqn:E.
  - destruct s as [|c' s']; [cbn; now rewrite E|].
    destruct (Ascii.eqb c' "_"%char) eqn:E'; [exact IH|].
    cbn [hasDoubleUnderscore]. rewrite IH, collapseUnderscores_head.
    cbn. now rewrite E'; destruct (Ascii.eqb c "_"%char).
  - cbn [hasDoubleUnderscore]. rewrite IH, E. reflexivity.
Qed.

Lemma hasDoubleUnderscore_tail (c : ascii) (s : string) :
  hasDoubleUnderscore (String c s) = false -> hasDoubleUnderscore s = false.
Proof. cbn. intros H. now apply orb_false_iff in H. Qed.

Lemma dropLeadingUnderscore_single (s : string) :
  hasDoubleUnderscore s = false ->
  hasDoubleUnderscore (dropLeadingUnderscore s) = false
  /\ startsWithUnderscore (dropLeadingUnderscore s) = false.
Proof.
  destruct s as [|c s]; [auto|]. cbn [dropLeadingUnderscore].
  intros H. destruct (Ascii.eqb c "_"%char) eqn:E.
  - cbn in H. rewrite E in H. apply orb_false_iff in H. tauto.
  - split; [exact H|]. cbn. exact E.
Qed.

Lemma dropTrailingUnderscore_head (s : string) :
  startsWithUnderscore (dropTrailingUnderscore s) = true ->
  startsWithUnderscore s = true.
Proof.
  destruct s as [|c [|c' s']]; [auto| |auto].
  cbn [dropTrailingUnderscore].
  destruct (Ascii.eqb c "_"%char) eqn:E; cbn [startsWithUnderscore];
    congruence.
Qed.

Lemma dropTrailingUnderscore_double (s : string) :
  hasDoubleUnderscore s = false ->
  hasDoubleUnderscore (dropTrailingUnderscore s) = false.
Proof.
  induction s as [|c s IH]; [auto|]. intros Hd.
  pose proof (hasDoubleUnderscore_tail _ _ Hd) as Hd'.
  destruct s as [|c' s'].
  - cbn [dropTrailingUnderscore].
    destruct (Ascii.eqb c "_"%char); [reflexivity | exact Hd].
  - change (dropTrailingUnderscore (String c (String c' s')))
      with (String c (dropTrailingUnderscore (String c' s'))).
    cbn [hasDoubleUnderscore]. rewrite (IH Hd'), orb_false_r.
    cbn [hasDoubleUnderscore] in Hd. apply orb_false_iff in Hd.
    destruct Hd as [Hpair _].
    destruct (Ascii.eqb c "_"%char); [|reflexivity]. cbn [andb] in *.
    destruct (startsWithUnderscore
                (dropTrailingUnderscore (String c' s'))) eqn:E; [|reflexivity].
    apply dropTrailingUnderscore_head in E. congruence.
Qed.

Lemma dropTrailingUnderscore_end (s : string) :
  hasDoubleUnderscore s = false ->
  endsWithUnderscore (dropTrailingUnderscore s) = false.
Proof.
  induction s as [|c s IH]; [auto|]. intros Hd.
  pose proof (hasDoubleUnderscore_tail _ _ Hd) as Hd'.
  specialize (IH Hd').
  destruct s as [|c' s'].
  - cbn [dropTrailingUnderscore].
    destruct (Ascii.eqb c "_"%char) eqn:E; [reflexivity|].
    cbn [endsWithUnderscore]. exact E.
  - change (dropTrailingUnderscore (String c (String c' s')))
      with (String c (dropTrailingUnderscore (String c' s'))).
    remember (dropTrailingUnderscore (String c' s')) as X eqn:EX.
    destruct X as [|x X].
    + destruct s' as [|c'' s'']; [|discriminate EX].
      cbn in EX. destruct (Ascii.eqb c' "_"%char) eqn:E'; [|discriminate EX].
      cbn in Hd. rewrite E' in Hd. cbn.
      destruct (Ascii.eqb c "_"%char); [discriminate Hd | reflexivity].
    + exact IH.
Qed.

Lemma slug_underscores (s : string) :
  startsWithUnderscore (slug s) = false
  /\ endsWithUnderscore (slug s) = false
  /\ hasDoubleUnderscore (slug s) = false.
Proof.
  unfold slug, stripEdgeUnderscores.
  set (u := collapseUnderscores (replaceNonAlnum (toLowerCase s))).
  pose proof (collapseUnderscores_single (replaceNonAlnum (toLowerCase s)))
    as Hu.
  fold u in Hu.
  destruct (dropLeadingUnderscore_single u Hu) as [Hd Hs].
  split; [|split].
  - destruct (startsWithUnderscore
                (dropTrailingUnderscore (dropLeadingUnderscore u))) eqn:E;
      [|reflexivity].
    apply dropTrailingUnderscore_head in E. congruence.
  - now apply dropTrailingUnderscore_end.
  - now apply dropTrailingUnderscore_double.
Qed.

(** X4: a generated name never starts or ends with an underscore and never
    contains two underscores in a row. *)
Theorem generateElementName_underscores (text : string) (type : ElementType) :
  startsWithUnderscore (generateElementName text type) = false
  /\ endsWithUnderscore (generateElementName text type) = false
  /\ hasDoubleUnderscore (generateElementName text type) = false.
Proof.
  unfold generateElementName. fold (slug (take 30 text)).
  destruct (truthy (slug (take 30 text))).
  - apply slug_underscores.
  - destruct type; repeat split.
Qed.

Lemma take_all (n : nat) (s : string) : String.length s <= n -> take n s = s.
Proof.
  revert s. induction n as [|n IH]; intros [|c s]; simpl; auto; try lia.
  intros H. f_equal. apply IH. lia.
Qed.

Lemma lowerChar_nameChar (c : ascii) : isNameChar c = true -> lowerChar c = c.
Proof.
  destruct c as [[] [] [] [] [] [] [] []]; vm_compute; intros H;
    try discriminate H; reflexivity.
Qed.

Lemma toLowerCase_name (s : string) :
  every isNameChar s = true -> toLowerCase s = s.
Proof.
  induction s as [|c s IH]; [auto|]. cbn [every toLowerCase]. intros H.
  apply andb_true_iff in H. destruct H as [Hc Hs].
  now rewrite (lowerChar_nameChar c Hc), IH.
Qed.

Lemma replaceNonAlnum_name (s : string) :
  every isNameChar s = true -> replaceNonAlnum s = s.
Proof.
  induction s as [|c s IH]; [auto|]. cbn [every replaceNonAlnum]. intros H.
  apply andb_true_iff in H. destruct H as [Hc Hs]. rewrite (IH Hs).
  unfold isNameChar in Hc. destruct (isLowerAlnum c); [reflexivity|].
  cbn in Hc. apply Ascii.eqb_eq in Hc. now subst.
Qed.

Lemma collapseUnderscores_fixed (s : string) :
  hasDoubleUnderscore s = false -> collapseUnderscores s = s.
Proof.
  induction s as [|c s IH]; [auto|]. intros Hd.
  pose proof (hasDoubleUnderscore_tail _ _ Hd) as Hd'.
  cbn [collapseUnderscores]. rewrite (IH Hd').
  destruct (Ascii.eqb c "_"%char) eqn:E; [|reflexivity].
  destruct s as [|c' s']; [reflexivity|].
  cbn in Hd. rewrite E in Hd. cbn in Hd.
  destruct (Ascii.eqb c' "_"%char); [discriminate Hd | reflexivity].
Qed.

Lemma dropTrailingUnderscore_fixed (s : string) :
  endsWithUnderscore s = false -> dropTrailingUnderscore s = s.
Proof.
  induction s as [|c s IH]; [auto|]. destruct s as [|c' s'].
  - cbn. now intros ->.
  - intros H.
    change (dropTrailingUnderscore (String c (String c' s')))
      with (String c (dropTrailingUnderscore (String c' s'))).
    f_equal. apply IH. exact H.
Qed.

(** X5: a name of the shape the generator produces (non-empty, made of
    [a-z], [0-9] and [_], no underscore at either end, no two underscores
    in a row) that has at most 30 characters is a fixed point of the
    generator: given as the text, it is returned as the name, whatever the
    element type. *)
Theorem generateElementName_fixed_point (n : string) (type : ElementType) :
  truthy n = true ->
  String.length n <= 30 ->
  every isNameChar n = true ->
  startsWithUnderscore n = false ->
  endsWithUnderscore n = false ->
  hasDoubleUnderscore n = false ->
  generateElementName n type = n.
Proof.
  intros Hne Hlen Hchars Hs He Hd.
  unfold generateElementName.
  rewrite (take_all 30 n Hlen), (toLowerCase_name n Hchars),
    (replaceNonAlnum_name n Hchars), (collapseUnderscores_fixed n Hd).
  unfold stripEdgeUnderscores.
  assert (Hlead : dropLeadingUnderscore n = n).
  { destruct n as [|c n']; [reflexivity|]. cbn in Hs |- *. now rewrite Hs. }
  rewrite Hlead, (dropTrailingUnderscore_fixed n He), Hne. reflexivity.
Qed.

Lemma generateElementName_fixed_point_witness :
  generateElementName "log_in" TLink = "log_in".
Proof.
  apply (generateElementName_fixed_point "log_in" TLink);
    first [reflexivity | simpl; lia].
Defined.

(** ** URL patterns: the pages of one family share their pattern *)

Lemma replaceNumericSegments_slash (skipping : bool) (s : string) :
  replaceNumericSegments skipping (String "/" s)
  = replaceNumericSegments false (String "/" s).
Proof. destruct skipping; reflexivity. Qed.

Lemma replaceNumericSegments_app (a s : string) :
  forall skipping,
    replaceNumericSegments skipping (a ++ String "/" s)
    = replaceNumericSegments skipping a
      ++ replaceNumericSegments false (String "/" s).
Proof.
  remember (replaceNumericSegments false (String "/" s)) as rest eqn:Hrest.
  induction a as [|c a IH]; intros skipping.
  - cbn [append]. now rewrite replaceNumericSegments_slash, Hrest.
  - cbn [append replaceNumericSegments].
    destruct (skipping && isDigit c); [apply IH|].
    assert (Hnext :
      match a ++ String "/" s with
      | String d _ => isDigit d
      | EmptyString => false
      end
      = match a with
        | String d _ => isDigit d
        | EmptyString => false
        end).
    { destruct a; reflexivity. }
    rewrite Hnext.
    destruct (Ascii.eqb c "/"%char && _).
    + rewrite IH. reflexivity.
    + rewrite IH. reflexivity.
Qed.

Lemma replaceNumericSegments_digits (ds b : string) :
  every isDigit ds = true ->
  replaceNumericSegments true (ds ++ b) = replaceNumericSegments true b.
Proof.
  induction ds as [|d ds IH]; [reflexivity|]. cbn [every]. intros H.
  apply andb_true_iff in H. destruct H as [Hd Hds].
  cbn [append replaceNumericSegments]. rewrite Hd. cbn [andb]. now apply IH.
Qed.

Lemma replaceNumericSegments_segment (a ds b : string) :
  truthy ds = true -> every isDigit ds = true ->
  replaceNumericSegments false (a ++ "/" ++ ds ++ b)
  = replaceNumericSegments false a ++ "/\d+"
    ++ replaceNumericSegments true b.
Proof.
  intros Hne Hds. change ("/" ++ ds ++ b) with (String "/" (ds ++ b)).
  rewrite replaceNumericSegments_app. f_equal.
  destruct ds as [|d ds]; [discriminate|].
  cbn [every] in Hds. apply andb_true_iff in Hds. destruct Hds as [Hd Hds].
  cbn [append replaceNumericSegments andb]. rewrite Ascii.eqb_refl, Hd.
  cbn [andb]. now rewrite (replaceNumericSegments_digits ds b Hds).
Qed.

(** X6: two URLs whose paths differ in one numeric segment only have the
    same URL pattern. *)
Theorem generateUrlPattern_numeric_segment (B : Builtins)
  (url url' a ds ds' b : string) :
  faithful B ->
  Url.pathname url = Some (a ++ "/" ++ ds ++ b) ->
  Url.pathname url' = Some (a ++ "/" ++ ds' ++ b) ->
  truthy ds = true -> every isDigit ds = true ->
  truthy ds' = true -> every isDigit ds' = true ->
  generateUrlPattern B url = generateUrlPattern B url'
  /\ generateUrlPattern B url
     = Ok (replaceNumericSegments false a ++ "/\d+"
           ++ replaceNumericSegments true b).
Proof.
  intros HB Hp Hp' Hne Hds Hne' Hds'.
  rewrite (generateUrlPattern_faithful B url _ HB Hp).
  rewrite (generateUrlPattern_faithful B url' _ HB Hp').
  rewrite (replaceNumericSegments_segment a ds b Hne Hds).
  rewrite (replaceNumericSegments_segment a ds' b Hne' Hds').
  split; reflexivity.
Qed.

Lemma generateUrlPattern_numeric_segment_witness :
  generateUrlPattern fragmentBuiltins item42
  = generateUrlPattern fragmentBuiltins item99
  /\ generateUrlPattern fragmentBuiltins item42
     = Ok (replaceNumericSegments false "/items" ++ "/\d+"
           ++ replaceNumericSegments true EmptyString).
Proof.
  apply (generateUrlPattern_numeric_segment fragmentBuiltins item42 item99
           "/items" "42" "99" EmptyString);
    try reflexivity.
  apply faithful_fragmentBuiltins.
Defined.

(** ** Computations that read the state, and relations they respect *)

Lemma readOnly_ret {A : Type} (a : A) : readOnly (ret a).
Proof. intros b. reflexivity. Qed.

Lemma readOnly_throw {A : Type} (message : string) :
  readOnly (@throw A message).
Proof. intros b. reflexivity. Qed.

Lemma readOnly_lift {A : Type} (r : result A) : readOnly (lift r).
Proof. intros b. reflexivity. Qed.

Lemma readOnly_gets {A : Type} (f : Builder.t -> A) : readOnly (gets f).
Proof. intros b. reflexivity. Qed.

Lemma readOnly_await (resolves : bool) (message : string) :
  readOnly (await resolves message).
Proof. intros b. now destruct resolves. Qed.

Lemma readOnly_bind {A C : Type} (m : M A) (k : A -> M C) :
  readOnly m -> (forall a, readOnly (k a)) -> readOnly (bind m k).
Proof.
  intros Hm Hk b. unfold bind. specialize (Hm b).
  destruct (m b) as [[a|message] b1]; cbn in Hm; subst b1.
  - apply Hk.
  - reflexivity.
Qed.

Ltac readOnly_tac :=
  repeat match goal with
         | |- readOnly (bind _ _) => apply readOnly_bind; [|intros ?]
         | |- readOnly (ret _) => apply readOnly_ret
         | |- readOnly (throw _) => apply readOnly_throw
         | |- readOnly (lift _) => apply readOnly_lift
         | |- readOnly (gets _) => apply readOnly_gets
         | |- readOnly (await _ _) => apply readOnly_await
         | |- readOnly (match ?x with _ => _ end) => destruct x
         end.

Lemma readOnly_getSession (sessionId : string) :
  readOnly (getSession sessionId).
Proof. unfold getSession. readOnly_tac. Qed.

Lemma readOnly_requireSession (sessionId : string) :
  readOnly (requireSession sessionId).
Proof. unfold requireSession, getSession. readOnly_tac. Qed.

Lemma readOnly_derefPageObject (l : nat) : readOnly (derefPageObject l).
Proof. unfold derefPageObject. readOnly_tac. Qed.

Lemma readOnly_captureScreenshot (env : Env) (now : Z) :
  readOnly (captureScreenshot env now).
Proof. unfold captureScreenshot. readOnly_tac. Qed.

Lemma readOnly_savePageObjectModel (B : Builtins) (l : nat) (env : Env) :
  readOnly (savePageObjectModel B l env).
Proof. unfold savePageObjectModel, derefPageObject. readOnly_tac. Qed.

Lemma readOnly_findElementIdBySelector (sessionId selector : string) :
  readOnly (findElementIdBySelector sessionId selector).
Proof.
  unfold findElementIdBySelector, requireSession, getSession. readOnly_tac.
Qed.

Lemma readOnly_findPageObjectByUrl (B : Builtins) (url : string) :
  readOnly (findPageObjectByUrl B url).
Proof. intros b. reflexivity. Qed.

Section Respects.

Variable R : Builder.t -> Builder.t -> Prop.
Hypothesis R_refl : forall b, R b b.
Hypothesis R_trans : forall b1 b2 b3, R b1 b2 -> R b2 b3 -> R b1 b3.

Lemma respects_readOnly {A : Type} (m : M A) : readOnly m -> respects R m.
Proof. intros Hm b. rewrite Hm. apply R_refl. Qed.

Lemma respects_bind {A C : Type} (m : M A) (k : A -> M C) :
  respects R m -> (forall a, respects R (k a)) -> respects R (bind m k).
Proof.
  intros Hm Hk b. unfold bind. specialize (Hm b).
  destruct (m b) as [[a|message] b1]; cbn in Hm.
  - apply R_trans with b1; [exact Hm | apply Hk].
  - exact Hm.
Qed.

(** The continuation of a synchronous computation runs on its result. *)
Lemma respects_bind_lift {A C : Type} (r : result A) (k : A -> M C) :
  (forall a, r = Ok a -> respects R (k a)) -> respects R (bind (lift r) k).
Proof.
  intros Hk b. unfold bind, lift. destruct r as [a|message].
  - now apply Hk.
  - apply R_refl.
Qed.

Lemma respects_modify (f : Builder.t -> Builder.t) :
  (forall b, R b (f b)) -> respects R (modify f).
Proof. intros Hf b. apply Hf. Qed.

(** The events raised during a driver call: the listener, once for each. *)
Lemma respects_framesNavigated (sessionId : string)
  (events : list (string * Z)) :
  (forall url time, respects R (onFrameNavigated sessionId url time)) ->
  respects R (framesNavigated sessionId events).
Proof.
  intros Hlistener.
  induction events as [|[url time] rest IH]; cbn [framesNavigated].
  - apply respects_readOnly, readOnly_ret.
  - apply respects_bind; [apply Hlistener | intros _; exact IH].
Qed.

End Respects.

(** The shape of a computation is followed down to its primitive steps;
    [leaf] closes the steps that write. *)
Ltac respects_step refl trans leaf :=
  match goal with
  | |- respects _ (bind (lift _) _) =>
      apply (respects_bind_lift _ refl); intros ? ?
  | |- respects _ (framesNavigated _ _) =>
      apply (respects_framesNavigated _ refl trans); intros ? ?;
      unfold onFrameNavigated, emit
  | |- respects _ (bind _ _) =>
      apply (respects_bind _ trans); [|intros ?]
  | |- respects _ (match ?x with _ => _ end) => destruct x eqn:?
  | |- respects _ _ =>
      first [ apply (respects_readOnly _ refl);
              first [ apply readOnly_getSession
                    | apply readOnly_requireSession
                    | apply readOnly_derefPageObject
                    | apply readOnly_captureScreenshot
                    | apply readOnly_savePageObjectModel
                    | apply readOnly_findElementIdBySelector
                    | apply readOnly_findPageObjectByUrl
                    | solve [readOnly_tac] ]
            | leaf ]
  end.

Ltac respects_tac refl trans leaf := repeat (respects_step refl trans leaf).

(** ** Sessions are opened by [startSession] and closed by [endSession] only *)

Lemma sameSessions_refl (b : Builder.t) : sameSessions b b.
Proof. reflexivity. Qed.

Lemma sameSessions_trans (b1 b2 b3 : Builder.t) :
  sameSessions b1 b2 -> sameSessions b2 b3 -> sameSessions b1 b3.
Proof. unfold sameSessions. intros H12 H23. now rewrite H23. Qed.

Lemma sameSessions_modify (f : Builder.t -> Builder.t) :
  (forall b, sessions (f b) = sessions b) -> respects sameSessions (modify f).
Proof.
  intros Hf. apply respects_modify. intros b.
  unfold sameSessions, getActiveSessions. now rewrite Hf.
Qed.

Lemma sameSessions_updateSession (sessionId : string)
  (f : Session.t -> Session.t) :
  respects sameSessions (updateSession sessionId f).
Proof.
  apply respects_modify. intros b. unfold sameSessions, getActiveSessions.
  destruct (JsMap.get (sessions b) sessionId) as [s|] eqn:Hs; [|reflexivity].
  cbn. now apply keys_set_known with s.
Qed.

Lemma sameSessions_newElement (e : ElementMapping.t) :
  respects sameSessions (newElement e).
Proof. intros b. reflexivity. Qed.

Lemma sameSessions_newPageObject (p : PageObjectModel.t) :
  respects sameSessions (newPageObject p).
Proof. intros b. reflexivity. Qed.

Lemma sameSessions_newElements (elements : list ElementMapping.t) :
  respects sameSessions (newElements elements).
Proof.
  induction elements as [|e rest IH]; cbn [newElements].
  - apply respects_readOnly; [exact sameSessions_refl | apply readOnly_ret].
  - respects_tac sameSessions_refl sameSessions_trans
      ltac:(first [apply sameSessions_newElement | exact IH]).
Qed.

Ltac sameSessions_leaf :=
  first [ apply sameSessions_updateSession
        | apply sameSessions_newElement
        | apply sameSessions_newPageObject
        | apply sameSessions_newElements
        | apply sameSessions_modify; intros ?; reflexivity ].

Ltac sameSessions_tac leaf :=
  respects_tac sameSessions_refl sameSessions_trans
    ltac:(first [sameSessions_leaf | leaf]).

Lemma sameSessions_mapNewElement (B : Builtins)
  (sessionId selector name : string) (env : Env) (now : Z) :
  respects sameSessions (mapNewElement B sessionId selector name env now).
Proof.
  unfold mapNewElement, updatePageObject, emit. sameSessions_tac fail.
Qed.

Lemma sameSessions_recordAction (B : Builtins) (sessionId selector : string)
  (elementName : option string) (action : Action) (value : option string)
  (env : Env) (now : Z) :
  respects sameSessions
    (recordAction B sessionId selector elementName action value env now).
Proof.
  unfold recordAction, emit.
  sameSessions_tac ltac:(apply sameSessions_mapNewElement).
Qed.

Lemma sameSessions_createPageObjectModel (B : Builtins) (url : string)
  (env : Env) (now : Z) :
  respects sameSessions (createPageObjectModel B url env now).
Proof. unfold createPageObjectModel. sameSessions_tac fail. Qed.

Lemma sameSessions_updatePageObjectModel (B : Builtins) (existing : nat)
  (env : Env) (now : Z) :
  respects sameSessions (updatePageObjectModel B existing env now).
Proof.
  unfold updatePageObjectModel, updatePageObject. sameSessions_tac fail.
Qed.

Lemma sameSessions_navigateAndAnalyze (B : Builtins) (sessionId url : string)
  (env : Env) (now : Z) :
  respects sameSessions (navigateAndAnalyze B sessionId url env now).
Proof.
  unfold navigateAndAnalyze, emit.
  sameSessions_tac
    ltac:(first [ apply sameSessions_createPageObjectModel
                | apply sameSessions_updatePageObjectModel ]).
Qed.

(** X7: no request other than [startSession] and [endSession] changes the
    list of active sessions, whether it returns or throws. *)
Theorem serve_keeps_active_sessions (B : Builtins)
  (generateTestCode : Session.t -> option PageObjectModel.t -> string)
  (request : Request) (env : Env) (now : Z) (b : Builder.t) :
  opensOrCloses request = false ->
  getActiveSessions (serve B generateTestCode request env now b)
  = getActiveSessions b.
Proof.
  intros Hrequest.
  enough (H : sameSessions b (serve B generateTestCode request env now b))
    by exact H.
  destruct request; try discriminate; cbn [serve].
  - apply sameSessions_navigateAndAnalyze.
  - revert b. change (respects sameSessions (startRecording sessionId now)).
    unfold startRecording, emit. sameSessions_tac fail.
  - revert b.
    change (respects sameSessions
              (stopRecording generateTestCode sessionId env)).
    unfold stopRecording, emit. sameSessions_tac fail.
  - revert b.
    change (respects sameSessions
              (clickElement B sessionId selector elementName env now)).
    unfold clickElement.
    sameSessions_tac ltac:(apply sameSessions_recordAction).
  - revert b.
    change (respects sameSessions
              (fillElement B sessionId selector value elementName env now)).
    unfold fillElement.
    sameSessions_tac ltac:(apply sameSessions_recordAction).
  - apply sameSessions_mapNewElement.
  - revert b.
    change (respects sameSessions
              (verifyElementStability sessionId elementId env now)).
    unfold verifyElementStability, updateElement. sameSessions_tac fail.
  - revert b.
    change (respects sameSessions (onFrameNavigated sessionId url now)).
    unfold onFrameNavigated, emit. sameSessions_tac fail.
  - revert b.
    change (respects sameSessions
              (sendToBackend B sessionId message env now)).
    unfold sendToBackend, emit.
    sameSessions_tac ltac:(apply sameSessions_mapNewElement).
Qed.

Lemma serve_keeps_active_sessions_witness :
  getActiveSessions
    (serve fragmentBuiltins noCode
       (ClickElement "s1" "#email" (Some "email")) loginPage 1730
       authoringBuilder)
  = getActiveSessions authoringBuilder.
Proof.
  apply (serve_keeps_active_sessions fragmentBuiltins noCode
           (ClickElement "s1" "#email" (Some "email")) loginPage 1730
           authoringBuilder).
  reflexivity.
Defined.

(** ** Descriptors stay marked stable, with at most three alternatives *)

Lemma keepsStableBounded_refl (b : Builder.t) : keepsStableBounded b b.
Proof. intros H. exact H. Qed.

Lemma keepsStableBounded_trans (b1 b2 b3 : Builder.t) :
  keepsStableBounded b1 b2 -> keepsStableBounded b2 b3 ->
  keepsStableBounded b1 b3.
Proof. intros H12 H23 H. apply H23, H12, H. Qed.

Lemma generateAlternativeSelectors_length (env : Env) (selector : string)
  (alternatives : list string) :
  generateAlternativeSelectors env selector = Ok alternatives ->
  List.length alternatives <= 3.
Proof.
  unfold generateAlternativeSelectors.
  destruct (querySelector env selector) as [el| |]; try discriminate.
  - cbv zeta.
    destruct (uniqueClassSelectors env (classList el)); [|discriminate].
    match goal with
    | |- Ok (firstn 3 ?l) = Ok _ -> _ => generalize l
    end.
    intros l H.
    assert (Hl : alternatives = firstn 3 l) by congruence.
    rewrite Hl. apply firstn_le_length.
  - intros [= <-]. cbn. lia.
Qed.

Lemma extractAllElements_stableBounded (env : Env) (now : Z)
  (elements : list ElementMapping.t) :
  extractAllElements env now = Ok elements ->
  Forall stableBounded elements.
Proof.
  unfold extractAllElements. destruct (document env) as [doc|]; [|discriminate].
  intros [= <-]. unfold extractFrom. apply mapWithIndex_Forall.
  intros i a. split; cbn; [reflexivity | lia].
Qed.

Lemma Forall_write {A : Type} (P : A -> Prop) (s : Store.t A) (a : A) :
  forall l, Forall P s -> P a -> Forall P (Store.write s l a).
Proof.
  induction s as [|x s IH]; intros l Hs Ha; [constructor|].
  inversion Hs; subst. destruct l; cbn; constructor; auto.
Qed.

Lemma Forall_read {A : Type} (P : A -> Prop) (s : Store.t A) (l : nat)
  (a : A) :
  Forall P s -> Store.read s l = Some a -> P a.
Proof.
  intros Hs Hl. rewrite Forall_forall in Hs. apply Hs.
  now apply nth_error_In with l.
Qed.

Lemma Forall_modifyObject {A : Type} (P : A -> Prop) (s : Store.t A)
  (l : nat) (f : A -> A) :
  (forall a, P a -> P (f a)) -> Forall P s -> Forall P (modifyObject s l f).
Proof.
  intros Hf Hs. unfold modifyObject.
  destruct (Store.read s l) as [a|] eqn:Hl; [|exact Hs].
  apply Forall_write; [exact Hs|]. apply Hf. eapply Forall_read; eauto.
Qed.

Lemma keepsStableBounded_modify (f : Builder.t -> Builder.t) :
  (forall b, elementObjects (f b) = elementObjects b) ->
  respects keepsStableBounded (modify f).
Proof.
  intros Hf. apply respects_modify. intros b H.
  unfold allStableBounded. now rewrite Hf.
Qed.

Lemma keepsStableBounded_updateSession (sessionId : string)
  (f : Session.t -> Session.t) :
  respects keepsStableBounded (updateSession sessionId f).
Proof.
  apply keepsStableBounded_modify. intros b.
  now destruct (JsMap.get (sessions b) sessionId).
Qed.

Lemma keepsStableBounded_updateElement (l : nat)
  (f : ElementMapping.t -> ElementMapping.t) :
  (forall e, stableBounded e -> stableBounded (f e)) ->
  respects keepsStableBounded (updateElement l f).
Proof.
  intros Hf. apply respects_modify. intros b H.
  unfold allStableBounded. cbn. now apply Forall_modifyObject.
Qed.

Lemma keepsStableBounded_newElement (e : ElementMapping.t) :
  stableBounded e -> respects keepsStableBounded (newElement e).
Proof.
  intros He b H. unfold allStableBounded. cbn.
  apply Forall_app. split; [exact H | now constructor].
Qed.

Lemma keepsStableBounded_newPageObject (p : PageObjectModel.t) :
  respects keepsStableBounded (newPageObject p).
Proof. intros b H. exact H. Qed.

Lemma keepsStableBounded_newElements (elements : list ElementMapping.t) :
  Forall stableBounded elements ->
  respects keepsStableBounded (newElements elements).
Proof.
  induction 1 as [|e rest He Hrest IH]; cbn [newElements].
  - apply respects_readOnly;
      [exact keepsStableBounded_refl | apply readOnly_ret].
  - respects_tac keepsStableBounded_refl keepsStableBounded_trans
      ltac:(first [now apply keepsStableBounded_newElement | exact IH]).
Qed.

Lemma mergeCurrent_stableBounded (now : Z) (current : list ElementMapping.t) :
  Forall stableBounded current ->
  forall objects merged,
    Forall stableBounded objects ->
    Forall stableBounded (fst (mergeCurrent now current objects merged)).
Proof.
  induction 1 as [|el rest Hel Hrest IH]; intros objects merged Hobjects;
    cbn [mergeCurrent]; [exact Hobjects|].
  destruct (JsMap.get merged (ElementMapping.selector el)) as [l|].
  - apply IH. apply Forall_modifyObject; [|exact Hobjects].
    intros e [_ Hlen]. split; [reflexivity | exact Hlen].
  - cbn. apply IH. apply Forall_app. split; [exact Hobjects | now constructor].
Qed.

Ltac keepsStableBounded_leaf :=
  first [ apply keepsStableBounded_updateSession
        | apply keepsStableBounded_newPageObject
        | apply keepsStableBounded_modify; intros ?; reflexivity ].

Ltac keepsStableBounded_tac leaf :=
  respects_tac keepsStableBounded_refl keepsStableBounded_trans
    ltac:(first [keepsStableBounded_leaf | leaf]).

Lemma keepsStableBounded_mapNewElement (B : Builtins)
  (sessionId selector name : string) (env : Env) (now : Z) :
  respects keepsStableBounded
    (mapNewElement B sessionId selector name env now).
Proof.
  unfold mapNewElement, updatePageObject, emit.
  keepsStableBounded_tac
    ltac:(apply keepsStableBounded_newElement; split;
          [ reflexivity
          | eapply generateAlternativeSelectors_length; eassumption ]).
Qed.

Lemma keepsStableBounded_recordAction (B : Builtins)
  (sessionId selector : string) (elementName : option string)
  (action : Action) (value : option string) (env : Env) (now : Z) :
  respects keepsStableBounded
    (recordAction B sessionId selector elementName action value env now).
Proof.
  unfold recordAction, emit.
  keepsStableBounded_tac ltac:(apply keepsStableBounded_mapNewElement).
Qed.

Lemma keepsStableBounded_createPageObjectModel (B : Builtins) (url : string)
  (env : Env) (now : Z) :
  respects keepsStableBounded (createPageObjectModel B url env now).
Proof.
  unfold createPageObjectModel.
  keepsStableBounded_tac
    ltac:(apply keepsStableBounded_newElements;
          eapply extractAllElements_stableBounded; eassumption).
Qed.

Lemma keepsStableBounded_updatePageObjectModel (B : Builtins) (existing : nat)
  (env : Env) (now : Z) :
  respects keepsStableBounded (updatePageObjectModel B existing env now).
Proof.
  unfold updatePageObjectModel.
  apply (respects_bind_lift _ keepsStableBounded_refl).
  intros current Hcurrent.
  apply (respects_bind _ keepsStableBounded_trans);
    [apply (respects_readOnly _ keepsStableBounded_refl),
       readOnly_derefPageObject|].
  intros pom b. unfold bind at 1, gets at 1.
  unfold bind at 1, lift at 1.
  destruct (addExisting _ _ _) as [merged|message];
    [|apply keepsStableBounded_refl].
  pose proof (mergeCurrent_stableBounded now current
                (extractAllElements_stableBounded _ _ _ Hcurrent)
                (elementObjects b) merged) as Hmerge.
  destruct (mergeCurrent now current (elementObjects b) merged)
    as [objects' merged'].
  cbn [fst] in Hmerge.
  revert b Hmerge.
  enough (H : forall b0 : Builder.t,
             (Forall stableBounded (elementObjects b0) ->
              Forall stableBounded objects') ->
             keepsStableBounded b0
               (snd ((modify (set_elementObjects objects') ;;
                      updatePageObject existing
                        (PageObjectModel.set_elements (JsMap.values merged')) ;;
                      updatePageObject existing
                        (PageObjectModel.set_lastUpdated now) ;;
                      updatePageObject existing PageObjectModel.incr_version ;;
                      savePageObjectModel B existing env ;;
                      ret existing)%builder b0))) by exact H.
  intros b Hmerge. unfold bind at 1, modify at 1.
  apply keepsStableBounded_trans with (set_elementObjects objects' b).
  - exact Hmerge.
  - revert objects' Hmerge. intros objects' _.
    generalize (set_elementObjects objects' b). clear b.
    change (respects keepsStableBounded
              (updatePageObject existing
                 (PageObjectModel.set_elements (JsMap.values merged')) ;;
               updatePageObject existing
                 (PageObjectModel.set_lastUpdated now) ;;
               updatePageObject existing PageObjectModel.incr_version ;;
               savePageObjectModel B existing env ;;
               ret existing)%builder).
    unfold updatePageObject. keepsStableBounded_tac fail.
Qed.

Lemma keepsStableBounded_navigateAndAnalyze (B : Builtins)
  (sessionId url : string) (env : Env) (now : Z) :
  respects keepsStableBounded (navigateAndAnalyze B sessionId url env now).
Proof.
  unfold navigateAndAnalyze, emit.
  keepsStableBounded_tac
    ltac:(first [ apply keepsStableBounded_createPageObjectModel
                | apply keepsStableBounded_updatePageObjectModel ]).
Qed.

Lemma keepsStableBounded_selector (alt : string) (e : ElementMapping.t) :
  stableBounded e -> stableBounded (ElementMapping.set_selector alt e).
Proof. intros H. exact H. Qed.

Lemma keepsStableBounded_lastVerified (now : Z) (e : ElementMapping.t) :
  stableBounded e -> stableBounded (ElementMapping.set_lastVerified now e).
Proof. intros H. exact H. Qed.

Lemma serve_stableBounded (B : Builtins)
  (generateTestCode : Session.t -> option PageObjectModel.t -> string)
  (request : Request) (env : Env) (now : Z) (b : Builder.t) :
  keepsStableBounded b (serve B generateTestCode request env now b).
Proof.
  destruct request; cbn [serve].
  - revert b. change (respects keepsStableBounded
                        (startSession sessionId launches)).
    unfold startSession. keepsStableBounded_tac fail.
  - apply keepsStableBounded_navigateAndAnalyze.
  - revert b.
    change (respects keepsStableBounded (startRecording sessionId now)).
    unfold startRecording, emit. keepsStableBounded_tac fail.
  - revert b.
    change (respects keepsStableBounded
              (stopRecording generateTestCode sessionId env)).
    unfold stopRecording, emit. keepsStableBounded_tac fail.
  - revert b.
    change (respects keepsStableBounded
              (clickElement B sessionId selector elementName env now)).
    unfold clickElement.
    keepsStableBounded_tac ltac:(apply keepsStableBounded_recordAction).
  - revert b.
    change (respects keepsStableBounded
              (fillElement B sessionId selector value elementName env now)).
    unfold fillElement.
    keepsStableBounded_tac ltac:(apply keepsStableBounded_recordAction).
  - apply keepsStableBounded_mapNewElement.
  - revert b.
    change (respects keepsStableBounded
              (verifyElementStability sessionId elementId env now)).
    unfold verifyElementStability.
    keepsStableBounded_tac
      ltac:(apply keepsStableBounded_updateElement;
            first [ apply keepsStableBounded_selector
                  | apply keepsStableBounded_lastVerified ]).
  - revert b.
    change (respects keepsStableBounded (endSession sessionId env)).
    unfold endSession, emit. keepsStableBounded_tac fail.
  - revert b.
    change (respects keepsStableBounded (onFrameNavigated sessionId url now)).
    unfold onFrameNavigated, emit. keepsStableBounded_tac fail.
  - revert b.
    change (respects keepsStableBounded
              (sendToBackend B sessionId message env now)).
    unfold sendToBackend, emit.
    keepsStableBounded_tac ltac:(apply keepsStableBounded_mapNewElement).
Qed.

(** X8: whatever requests the engine serves, and whether they return or
    throw, no descriptor is ever marked unstable and none gets more than
    three alternative selectors: if every stored descriptor is marked
    stable with at most three alternatives, so is every descriptor
    afterwards. *)
Theorem serveAll_descriptors_stable_bounded (B : Builtins)
  (generateTestCode : Session.t -> option PageObjectModel.t -> string)
  (requests : list (Request * Env * Z)) :
  forall b : Builder.t,
    Forall stableBounded (elementObjects b) ->
    Forall stableBounded
      (elementObjects (serveAll B generateTestCode requests b)).
Proof.
  induction requests as [|[[request env] now] rest IH]; intros b Hb;
    cbn [serveAll]; [exact Hb|].
  apply IH. now apply serve_stableBounded.
Qed.

Lemma serveAll_descriptors_stable_bounded_witness :
  Forall stableBounded
    (elementObjects
       (serveAll fragmentBuiltins noCode
          [(StartSession "s1" true, loginPage, 1690%Z);
           (NavigateAndAnalyze "s1" item42, loginPage, 1700%Z);
           (ClickElement "s1" "#email" (Some "email"), loginPage, 1730%Z);
           (VerifyElementStability "s1" "element-1730", loginPage, 1740%Z)]
          (Builder.create None))).
Proof.
  apply (serveAll_descriptors_stable_bounded fragmentBuiltins noCode
           [(StartSession "s1" true, loginPage, 1690%Z);
            (NavigateAndAnalyze "s1" item42, loginPage, 1700%Z);
            (ClickElement "s1" "#email" (Some "email"), loginPage, 1730%Z);
            (VerifyElementStability "s1" "element-1730", loginPage, 1740%Z)]
           (Builder.create None)).
  constructor.
Defined.

(** ** Stability re-check: what a verdict means *)

(** X10: when [verifyElementStability] answers [true], the primary selector
    the descriptor holds afterwards resolves on the page; when it answers
    [false], nothing was changed. *)
Theorem verifyElementStability_verdict (sessionId elementId : string)
  (env : Env) (now : Z) (b b' : Builder.t) (verdict : bool) :
  verifyElementStability sessionId elementId env now b = (Ok verdict, b') ->
  (verdict = true ->
   exists s l e' el,
     JsMap.get (sessions b) sessionId = Some s
     /\ JsMap.get (Session.elementMappings s) elementId = Some l
     /\ Store.read (elementObjects b') l = Some e'
     /\ locate env (ElementMapping.selector e') = Found el)
  /\ (verdict = false -> b' = b).
Proof.
  intros H.
  destruct (JsMap.get (sessions b) sessionId) as [s|] eqn:Hs.
  2: { unfold verifyElementStability in H. unfold bind at 1 in H.
       rewrite (requireSession_missing _ _ Hs) in H. discriminate. }
  destruct (JsMap.get (Session.elementMappings s) elementId) as [l|] eqn:Hl.
  2: { unfold verifyElementStability in H. unfold bind at 1 in H.
       rewrite (requireSession_found _ _ _ Hs) in H.
       unfold bind, gets in H. rewrite Hl in H. cbn in H.
       injection H as <- <-. split; [discriminate | reflexivity]. }
  destruct (Store.read (elementObjects b) l) as [e|] eqn:He.
  2: { unfold verifyElementStability in H. unfold bind at 1 in H.
       rewrite (requireSession_found _ _ _ Hs) in H.
       unfold bind, gets in H. rewrite Hl, He in H. cbn in H.
       injection H as <- <-. split; [discriminate | reflexivity]. }
  rewrite (verifyElementStability_unfold _ _ _ _ _ _ _ _ Hs Hl He) in H.
  destruct (locate env (ElementMapping.selector e)) as [el| |] eqn:Hprimary.
  - injection H as <- <-. split; [|discriminate]. intros _.
    exists s, l, e, el. auto.
  - destruct (firstResolving env (ElementMapping.alternativeSelectors e))
      as [alt|] eqn:Halt.
    + injection H as <- <-. split; [|discriminate]. intros _.
      destruct (firstResolving_Some _ _ _ Halt) as [_ [el Hel]].
      exists s, l, (ElementMapping.set_lastVerified now
                      (ElementMapping.set_selector alt e)), el.
      repeat split; auto. cbn.
      apply read_write_same. eapply read_Some_lt; eauto.
    + injection H as <- <-. split; [discriminate | reflexivity].
  - injection H as <- <-. split; [discriminate | reflexivity].
Qed.

Lemma verifyElementStability_verdict_witness :
  (true = true ->
   exists s l e' el,
     JsMap.get (sessions authoringBuilder) "s1" = Some s
     /\ JsMap.get (Session.elementMappings s) "element-1700-0" = Some l
     /\ Store.read
          (elementObjects
             (snd (verifyElementStability "s1" "element-1700-0"
                     (envOf [] onlyTextResolves) 1800 authoringBuilder))) l
        = Some e'
     /\ locate (envOf [] onlyTextResolves) (ElementMapping.selector e')
        = Found el)
  /\ (true = false ->
      snd (verifyElementStability "s1" "element-1700-0"
             (envOf [] onlyTextResolves) 1800 authoringBuilder)
      = authoringBuilder).
Proof.
  apply (verifyElementStability_verdict "s1" "element-1700-0"
           (envOf [] onlyTextResolves) 1800 authoringBuilder
           (snd (verifyElementStability "s1" "element-1700-0"
                   (envOf [] onlyTextResolves) 1800 authoringBuilder))
           true).
  reflexivity.
Defined.

(** ** A session's life: start, failed end, end *)

Lemma delete_set_new {V : Type} (m : JsMap.t V) (k : string) (v : V) :
  JsMap.get m k = None -> JsMap.delete (JsMap.set m k v) k = m.
Proof.
  induction m as [|[k' v'] m IH]; cbn.
  - intros _. now rewrite String.eqb_refl.
  - destruct (String.eqb k' k) eqn:E; [discriminate|].
    intros H. cbn. rewrite E. now rewrite IH.
Qed.

(** X11: a session started under an id that is not in use is registered
    last, with no steps, no mappings and recording off; ending it (when
    the browser closes) restores the session map exactly as it was before
    the start, and leaves the stores alone. *)
Theorem startSession_endSession_round_trip (sessionId : string) (env : Env)
  (b : Builder.t) :
  JsMap.get (sessions b) sessionId = None ->
  closeOk env = true ->
  exists started ended,
    startSession sessionId true b = (Ok (freshSession sessionId), started)
    /\ JsMap.get (sessions started) sessionId = Some (freshSession sessionId)
    /\ getActiveSessions started = (getActiveSessions b ++ [sessionId])%list
    /\ endSession sessionId env started = (Ok tt, ended)
    /\ sessions ended = sessions b
    /\ pageObjectRepository ended = pageObjectRepository b
    /\ pageObjects ended = pageObjects b
    /\ elementObjects ended = elementObjects b.
Proof.
  intros Hnew Hclose.
  exists (set_sessions
            (JsMap.set (sessions b) sessionId (freshSession sessionId)) b).
  exists (set_emitted (emitted b ++ [("sessionEnded", sessionId)])
            (set_sessions (sessions b) b)).
  split; [reflexivity|].
  assert (Hget : JsMap.get
            (sessions
               (set_sessions
                  (JsMap.set (sessions b) sessionId (freshSession sessionId))
                  b)) sessionId = Some (freshSession sessionId)).
  { unfold set_sessions. cbn [sessions]. apply get_set_same. }
  split; [exact Hget|].
  split.
  { unfold getActiveSessions, set_sessions. cbn [sessions].
    now rewrite keys_set, Hnew. }
  split; [|repeat split; reflexivity].
  unfold endSession, bind, getSession, gets. rewrite Hget.
  unfold freshSession at 1. cbn [Session.traceFile truthy_opt].
  unfold ret, await. rewrite Hclose. unfold ret, modify, emit, modify.
  unfold set_sessions, set_emitted. cbn [sessions pageObjectRepository
    pageObjects elementObjects githubRepoPath emitted].
  now rewrite delete_set_new by exact Hnew.
Qed.

Lemma startSession_endSession_round_trip_witness :
  exists started ended,
    startSession "s2" true authoringBuilder = (Ok (freshSession "s2"), started)
    /\ JsMap.get (sessions started) "s2" = Some (freshSession "s2")
    /\ getActiveSessions started
       = (getActiveSessions authoringBuilder ++ ["s2"])%list
    /\ endSession "s2" loginPage started = (Ok tt, ended)
    /\ sessions ended = sessions authoringBuilder
    /\ pageObjectRepository ended = pageObjectRepository authoringBuilder
    /\ pageObjects ended = pageObjects authoringBuilder
    /\ elementObjects ended = elementObjects authoringBuilder.
Proof.
  apply (startSession_endSession_round_trip "s2" loginPage authoringBuilder);
    reflexivity.
Defined.

(** X12: when the session route for DELETE fails (the trace cannot be
    stopped or the browser does not close), the engine is left exactly as
    it was, with the session still registered; a retry that meets a
    browser that closes answers 200 and removes the session. *)
Theorem deleteSession_failure_retry (sessionId : string) (env env' : Env)
  (b b' : Builder.t) (r : Routes.Response) :
  Routes.deleteSession sessionId env b = (r, b') ->
  Routes.success r = false ->
  tracingStopOk env' = true -> closeOk env' = true ->
  b' = b
  /\ Routes.status r = 500
  /\ JsMap.has (sessions b) sessionId = true
  /\ exists b'',
       Routes.deleteSession sessionId env' b = (sessionEnded, b'')
       /\ JsMap.has (sessions b'') sessionId = false.
Proof.
  intros H Hfail Htrace Hclose. unfold Routes.deleteSession in *.
  destruct (JsMap.get (sessions b) sessionId) as [s|] eqn:Hs.
  2: { rewrite (endSession_missing _ _ _ Hs) in H. injection H as <- <-.
       discriminate. }
  assert (Hend : forall e, endSession sessionId e b
            = if (if truthy_opt (Session.traceFile s)
                  then tracingStopOk e else true) && closeOk e
              then (Ok tt,
                    set_emitted (emitted b ++ [("sessionEnded", sessionId)])
                      (set_sessions (JsMap.delete (sessions b) sessionId) b))
              else (Throw (if (if truthy_opt (Session.traceFile s)
                               then tracingStopOk e else true)
                           then "close: rejected"
                           else "tracing.stop: rejected"), b)).
  { intros e. unfold endSession, bind, getSession, gets. rewrite Hs.
    unfold await, ret, throw, modify, emit, modify.
    destruct (truthy_opt (Session.traceFile s));
      [destruct (tracingStopOk e)|]; destruct (closeOk e); reflexivity. }
  rewrite Hend in H. rewrite Hend, Htrace, Hclose.
  replace ((if truthy_opt (Session.traceFile s) then true else true) && true)
    with true by now destruct (truthy_opt (Session.traceFile s)).
  destruct ((if truthy_opt (Session.traceFile s)
             then tracingStopOk env else true) && closeOk env).
  - injection H as <- <-. discriminate.
  - injection H as <- <-. repeat split.
    + unfold JsMap.has. now rewrite Hs.
    + eexists. split; [reflexivity|]. cbn. unfold JsMap.has.
      now rewrite get_delete_same.
Qed.

Lemma deleteSession_failure_retry_witness :
  snd (Routes.deleteSession "s1" brokenBrowser authoringBuilder)
  = authoringBuilder
  /\ Routes.status
       (fst (Routes.deleteSession "s1" brokenBrowser authoringBuilder)) = 500
  /\ JsMap.has (sessions authoringBuilder) "s1" = true
  /\ exists b'',
       Routes.deleteSession "s1" loginPage authoringBuilder
       = (sessionEnded, b'')
       /\ JsMap.has (sessions b'') "s1" = false.
Proof.
  apply (deleteSession_failure_retry "s1" brokenBrowser loginPage
           authoringBuilder);
    reflexivity.
Defined.

(** ** Reading a successful run backwards *)

Lemma bind_Ok {A C : Type} (m : M A) (k : A -> M C) (b b' : Builder.t)
  (c : C) :
  bind m k b = (Ok c, b') ->
  exists a b1, m b = (Ok a, b1) /\ k a b1 = (Ok c, b').
Proof.
  unfold bind. destruct (m b) as [[a|message] b1]; [|discriminate].
  intros H. now exists a, b1.
Qed.

Lemma requireSession_Ok (sessionId : string) (b b' : Builder.t)
  (s : Session.t) :
  requireSession sessionId b = (Ok s, b') ->
  b' = b /\ JsMap.get (sessions b) sessionId = Some s.
Proof.
  unfold requireSession, bind, getSession, gets.
  destruct (JsMap.get (sessions b) sessionId) as [s0|]; [|discriminate].
  intros [= <- <-]. auto.
Qed.

Lemma await_Ok (resolves : bool) (message : string) (b b' : Builder.t)
  (u : unit) :
  await resolves message b = (Ok u, b') -> resolves = true /\ b' = b.
Proof. destruct resolves; [|discriminate]. intros [= <-]. auto. Qed.

Lemma lift_Ok {A : Type} (r : result A) (b b' : Builder.t) (a : A) :
  lift r b = (Ok a, b') -> r = Ok a /\ b' = b.
Proof. unfold lift. intros [= -> <-]. auto. Qed.

Lemma readOnly_Ok {A : Type} (m : M A) (b b' : Builder.t) (r : result A) :
  readOnly m -> m b = (r, b') -> b' = b.
Proof. intros Hm H. specialize (Hm b). rewrite H in Hm. exact Hm. Qed.

Lemma derefPageObject_Ok (l : nat) (b b' : Builder.t)
  (p : PageObjectModel.t) :
  derefPageObject l b = (Ok p, b') ->
  b' = b /\ Store.read (pageObjects b) l = Some p.
Proof.
  unfold derefPageObject, bind, gets.
  destruct (Store.read (pageObjects b) l) as [p0|]; [|discriminate].
  intros [= <- <-]. auto.
Qed.

Lemma updateSession_found (sessionId : string) (f : Session.t -> Session.t)
  (b : Builder.t) (s : Session.t) :
  JsMap.get (sessions b) sessionId = Some s ->
  updateSession sessionId f b
  = (Ok tt, set_sessions (JsMap.set (sessions b) sessionId (f s)) b).
Proof. intros Hs. unfold updateSession, modify. now rewrite Hs. Qed.

(** The fields of the state other than the sessions. *)
Lemma set_sessions_fields (m : JsMap.t Session.t) (b : Builder.t) :
  sessions (set_sessions m b) = m
  /\ pageObjectRepository (set_sessions m b) = pageObjectRepository b
  /\ pageObjects (set_sessions m b) = pageObjects b
  /\ elementObjects (set_sessions m b) = elementObjects b
  /\ githubRepoPath (set_sessions m b) = githubRepoPath b
  /\ emitted (set_sessions m b) = emitted b.
Proof. repeat split. Qed.

Lemma newElements_state (elements : list ElementMapping.t) :
  forall b : Builder.t,
    newElements elements b
    = (Ok (seq (List.length (elementObjects b)) (List.length elements)),
       set_elementObjects (elementObjects b ++ elements)%list b).
Proof.
  induction elements as [|e rest IH]; intros b; cbn [newElements].
  - unfold ret. cbn. rewrite app_nil_r. now destruct b.
  - unfold bind at 1. unfold newElement, Store.alloc.
    unfold bind at 1. rewrite IH. unfold ret.
    unfold set_elementObjects. cbn.
    rewrite length_app, Nat.add_1_r, <- app_assoc. reflexivity.
Qed.

(** The model a first visit creates. *)
Lemma createPageObjectModel_Ok (B : Builtins) (url : string) (env : Env)
  (now : Z) (b b' : Builder.t) (l : nat) :
  createPageObjectModel B url env now b = (Ok l, b') ->
  exists elements name pattern,
    extractAllElements env now = Ok elements
    /\ generatePageName B (title env) url = Ok name
    /\ generateUrlPattern B url = Ok pattern
    /\ l = List.length (pageObjects b)
    /\ b' = set_pageObjects
              (pageObjects b ++
               [firstModel now name url pattern
                  (seq (List.length (elementObjects b))
                     (List.length elements))])%list
              (set_elementObjects (elementObjects b ++ elements)%list b).
Proof.
  unfold createPageObjectModel. intros H.
  apply bind_Ok in H. destruct H as (elements & b1 & H1 & H).
  apply lift_Ok in H1. destruct H1 as [Helements ->].
  apply bind_Ok in H. destruct H as (name & b1 & H1 & H).
  apply lift_Ok in H1. destruct H1 as [Hname ->].
  apply bind_Ok in H. destruct H as (pattern & b1 & H1 & H).
  apply lift_Ok in H1. destruct H1 as [Hpattern ->].
  apply bind_Ok in H. destruct H as (full & b1 & H1 & H).
  unfold captureScreenshot in H1.
  apply bind_Ok in H1. destruct H1 as ([] & b2 & H2 & H1).
  apply await_Ok in H2. destruct H2 as [Hshot ->].
  unfold ret in H1. injection H1 as <- <-.
  apply bind_Ok in H. destruct H as (thumbnail & b1 & H1 & H).
  unfold captureScreenshot in H1.
  apply bind_Ok in H1. destruct H1 as ([] & b2 & H2 & H1).
  apply await_Ok in H2. destruct H2 as [_ ->].
  unfold ret in H1. injection H1 as <- <-.
  apply bind_Ok in H. destruct H as (locations & b1 & H1 & H).
  rewrite newElements_state in H1. injection H1 as <- <-.
  unfold newPageObject, Store.alloc in H. injection H as <- <-.
  exists elements, name, pattern. repeat split; auto.
Qed.

Lemma updatePageObject_state (l : nat)
  (f : PageObjectModel.t -> PageObjectModel.t) (b : Builder.t) :
  updatePageObject l f b
  = (Ok tt, set_pageObjects (modifyObject (pageObjects b) l f) b).
Proof. reflexivity. Qed.

(** The state a merge-update leaves when it returns. *)
Lemma updatePageObjectModel_Ok (B : Builtins) (existing : nat) (env : Env)
  (now : Z) (b b' : Builder.t) (l : nat) :
  updatePageObjectModel B existing env now b = (Ok l, b') ->
  l = existing
  /\ exists current pom merged objects' merged',
       extractAllElements env now = Ok current
       /\ Store.read (pageObjects b) existing = Some pom
       /\ addExisting (elementObjects b) (PageObjectModel.elements pom)
            JsMap.empty = Ok merged
       /\ mergeCurrent now current (elementObjects b) merged
          = (objects', merged')
       /\ b' = set_pageObjects
                 (Store.write (pageObjects b) existing
                    (PageObjectModel.incr_version
                       (PageObjectModel.set_lastUpdated now
                          (PageObjectModel.set_elements
                             (JsMap.values merged') pom))))
                 (set_elementObjects objects' b).
Proof.
  unfold updatePageObjectModel. intros H.
  apply bind_Ok in H. destruct H as (current & b1 & H1 & H).
  apply lift_Ok in H1. destruct H1 as [Hcurrent ->].
  apply bind_Ok in H. destruct H as (pom & b1 & H1 & H).
  apply derefPageObject_Ok in H1. destruct H1 as [-> Hpom].
  apply bind_Ok in H. destruct H as (objects & b1 & H1 & H).
  unfold gets in H1. injection H1 as <- <-.
  apply bind_Ok in H. destruct H as (merged & b1 & H1 & H).
  apply lift_Ok in H1. destruct H1 as [Hmerged ->].
  destruct (mergeCurrent now current (elementObjects b) merged)
    as [objects' merged'] eqn:Hmerge.
  apply bind_Ok in H. destruct H as ([] & b1 & H1 & H).
  unfold modify in H1. injection H1 as <-.
  apply bind_Ok in H. destruct H as ([] & b1 & H1 & H).
  rewrite updatePageObject_state in H1. injection H1 as <-.
  apply bind_Ok in H. destruct H as ([] & b1 & H1 & H).
  rewrite updatePageObject_state in H1. injection H1 as <-.
  apply bind_Ok in H. destruct H as ([] & b1 & H1 & H).
  rewrite updatePageObject_state in H1. injection H1 as <-.
  apply bind_Ok in H. destruct H as ([] & b1 & H1 & H).
  apply (readOnly_Ok _ _ _ _ (readOnly_savePageObjectModel B existing env))
    in H1.
  subst b1. unfold ret in H. injection H as <- <-.
  split; [reflexivity|].
  exists current, pom, merged, objects', merged'.
  repeat (split; [assumption|]).
  unfold set_pageObjects, set_elementObjects. cbn. f_equal.
  rewrite (modifyObject_read _ _ _ _ Hpom).
  rewrite !modifyObject_write by (eapply read_Some_lt; eauto).
  reflexivity.
Qed.

(** ** Page object models: what stays of a model, and of the repository *)

Lemma laterModel_refl (p : PageObjectModel.t) : laterModel p p.
Proof. unfold laterModel. repeat split; reflexivity. Qed.

Lemma laterModel_trans (p1 p2 p3 : PageObjectModel.t) :
  laterModel p1 p2 -> laterModel p2 p3 -> laterModel p1 p3.
Proof.
  unfold laterModel.
  intros (Hi & Hn & Hu & Hp & Hs) (Hi' & Hn' & Hu' & Hp' & Hs').
  repeat split; congruence.
Qed.

Lemma has_set_kept {V : Type} (m : JsMap.t V) (k k' : string) (v : V) :
  JsMap.has m k' = true -> JsMap.has (JsMap.set m k v) k' = true.
Proof.
  unfold JsMap.has. destruct (String.eqb k k') eqn:E.
  - apply String.eqb_eq in E. subst k'. now rewrite get_set_same.
  - apply String.eqb_neq in E. now rewrite get_set_other.
Qed.

Section LaterStore.

Variable ids : list string.

Lemma laterStore_refl (b : Builder.t) : laterStore ids b b.
Proof.
  split; [|auto]. intros l p Hp. exists p. split; [exact Hp|].
  apply laterModel_refl.
Qed.

Lemma laterStore_trans (b1 b2 b3 : Builder.t) :
  laterStore ids b1 b2 -> laterStore ids b2 b3 -> laterStore ids b1 b3.
Proof.
  intros [H12 K12] [H23 K23]. split.
  - intros l p Hp. destruct (H12 _ _ Hp) as (p2 & Hp2 & L12).
    destruct (H23 _ _ Hp2) as (p3 & Hp3 & L23).
    exists p3. split; [exact Hp3|]. now apply laterModel_trans with p2.
  - intros k l Hk. destruct (K12 _ _ Hk) as [Hk2|[Hin Hhas]].
    + now apply K23.
    + right. split; [exact Hin|]. unfold JsMap.has in Hhas |- *.
      destruct (JsMap.get (pageObjectRepository b2) k) as [l2|] eqn:Hl2;
        [|discriminate].
      destruct (K23 _ _ Hl2) as [->|[_ Hhas3]]; [reflexivity | exact Hhas3].
Qed.

Lemma laterStore_same (b b' : Builder.t) :
  pageObjects b' = pageObjects b ->
  pageObjectRepository b' = pageObjectRepository b ->
  laterStore ids b b'.
Proof.
  intros Hobjects Hrepo. unfold laterStore. rewrite Hobjects, Hrepo.
  apply (laterStore_refl b).
Qed.

Lemma laterStore_modify (f : Builder.t -> Builder.t) :
  (forall b, pageObjects (f b) = pageObjects b) ->
  (forall b, pageObjectRepository (f b) = pageObjectRepository b) ->
  respects (laterStore ids) (modify f).
Proof.
  intros Hobjects Hrepo. apply respects_modify. intros b.
  now apply laterStore_same.
Qed.

Lemma laterStore_updateSession (sessionId : string)
  (f : Session.t -> Session.t) :
  respects (laterStore ids) (updateSession sessionId f).
Proof.
  apply laterStore_modify; intros b;
    now destruct (JsMap.get (sessions b) sessionId).
Qed.

Lemma laterStore_newElement (e : ElementMapping.t) :
  respects (laterStore ids) (newElement e).
Proof. intros b. now apply laterStore_same. Qed.

Lemma laterStore_newElements (elements : list ElementMapping.t) :
  respects (laterStore ids) (newElements elements).
Proof.
  induction elements as [|e rest IH]; cbn [newElements].
  - apply respects_readOnly; [exact laterStore_refl | apply readOnly_ret].
  - respects_tac laterStore_refl laterStore_trans
      ltac:(first [apply laterStore_newElement | exact IH]).
Qed.

Lemma laterStore_newPageObject (p : PageObjectModel.t) :
  respects (laterStore ids) (newPageObject p).
Proof.
  intros b. split; [|auto]. intros l p0 Hp0. exists p0. cbn.
  split; [|apply laterModel_refl].
  rewrite read_alloc_old by (eapply read_Some_lt; eauto). exact Hp0.
Qed.

Lemma laterStore_updatePageObject (l : nat)
  (f : PageObjectModel.t -> PageObjectModel.t) :
  (forall p, laterModel p (f p)) ->
  respects (laterStore ids) (updatePageObject l f).
Proof.
  intros Hf. apply respects_modify. intros b. split; [|auto].
  intros l0 p Hp. cbn. unfold modifyObject.
  destruct (Store.read (pageObjects b) l) as [q|] eqn:Hq.
  - destruct (Nat.eq_dec l l0) as [<-|Hne].
    + rewrite read_write_same by (eapply read_Some_lt; eauto).
      exists (f q). split; [reflexivity|].
      assert (q = p) by congruence. subst q. apply Hf.
    + rewrite read_write_other by exact Hne.
      exists p. split; [exact Hp | apply laterModel_refl].
  - exists p. split; [exact Hp | apply laterModel_refl].
Qed.

(** [pageObjectRepository.set(key, pom)]: the key [key] is bound anew, the
    other keys lead where they led. *)
Lemma laterStore_register (key : string) (l : nat) (b : Builder.t) :
  In key ids ->
  laterStore ids b
    (set_pageObjectRepository (JsMap.set (pageObjectRepository b) key l) b).
Proof.
  intros Hkey. split.
  - intros l0 p Hp. exists p. split; [exact Hp | apply laterModel_refl].
  - intros k l0 Hk. cbn [pageObjectRepository set_pageObjectRepository].
    destruct (String.eqb key k) eqn:E.
    + apply String.eqb_eq in E. subst k. right. split; [exact Hkey|].
      unfold JsMap.has. now rewrite get_set_same.
    + apply String.eqb_neq in E. left. now rewrite get_set_other.
Qed.

End LaterStore.

Lemma laterStore_weaken (ids ids' : list string) (b b' : Builder.t) :
  incl ids ids' -> laterStore ids b b' -> laterStore ids' b b'.
Proof.
  intros Hincl [Hobjects Hkeys]. split; [exact Hobjects|].
  intros k l Hk. destruct (Hkeys _ _ Hk) as [H|[Hin Hhas]]; [now left|].
  right. split; [now apply Hincl | exact Hhas].
Qed.

Lemma laterModel_set_elements (elements : list nat) (p : PageObjectModel.t) :
  laterModel p (PageObjectModel.set_elements elements p).
Proof. unfold laterModel. cbn. repeat split. Qed.

Lemma laterModel_set_lastUpdated (now : Z) (p : PageObjectModel.t) :
  laterModel p (PageObjectModel.set_lastUpdated now p).
Proof. unfold laterModel. cbn. repeat split. Qed.

Lemma laterModel_incr_version (p : PageObjectModel.t) :
  laterModel p (PageObjectModel.incr_version p).
Proof. unfold laterModel. cbn. repeat split. Qed.

Ltac laterStore_leaf :=
  first [ apply laterStore_updateSession
        | apply laterStore_newElement
        | apply laterStore_newElements
        | apply laterStore_newPageObject
        | apply laterStore_updatePageObject; intros ?;
          first [ apply laterModel_set_elements
                | apply laterModel_set_lastUpdated
                | apply laterModel_incr_version ]
        | apply laterStore_modify; intros ?; reflexivity ].

Ltac laterStore_step ids leaf :=
  respects_step (laterStore_refl ids) (laterStore_trans ids)
    ltac:(first [laterStore_leaf | leaf]).

Ltac laterStore_tac ids leaf := repeat (laterStore_step ids leaf).

Lemma laterStore_mapNewElement (B : Builtins) (ids : list string)
  (sessionId selector name : string) (env : Env) (now : Z) :
  respects (laterStore ids) (mapNewElement B sessionId selector name env now).
Proof. unfold mapNewElement, emit. laterStore_tac ids fail. Qed.

Lemma laterStore_recordAction (B : Builtins) (ids : list string)
  (sessionId selector : string)
  (elementName : option string) (action : Action) (value : option string)
  (env : Env) (now : Z) :
  respects (laterStore ids)
    (recordAction B sessionId selector elementName action value env now).
Proof.
  unfold recordAction, emit.
  laterStore_tac ids ltac:(apply laterStore_mapNewElement).
Qed.

Lemma laterStore_createPageObjectModel (B : Builtins) (ids : list string)
  (url : string) (env : Env) (now : Z) :
  respects (laterStore ids) (createPageObjectModel B url env now).
Proof. unfold createPageObjectModel. laterStore_tac ids fail. Qed.

(** A first visit: the model is created and registered under its id. *)
Lemma laterStore_created (B : Builtins) (url : string) (env : Env) (now : Z) :
  respects (laterStore [createdId now])
    (l <- createPageObjectModel B url env now ;;
     created <- derefPageObject l ;;
     modify (fun b =>
       set_pageObjectRepository
         (JsMap.set (pageObjectRepository b)
            (PageObjectModel.id created) l) b) ;;
     ret l)%builder.
Proof.
  intros b. unfold bind at 1.
  pose proof (laterStore_createPageObjectModel B [createdId now] url env now b)
    as Hcreated.
  destruct (createPageObjectModel B url env now b) as [[l|message] b1]
    eqn:Hcreate; cbn [snd] in Hcreated; [|exact Hcreated].
  apply createPageObjectModel_Ok in Hcreate.
  destruct Hcreate as (elements & name & pattern & _ & _ & _ & Hl & Hb1).
  assert (Hread : Store.read (pageObjects b1) l
                  = Some (firstModel now name url pattern
                            (seq (List.length (elementObjects b))
                               (List.length elements)))).
  { subst l b1. cbn [pageObjects set_pageObjects]. apply read_alloc_new. }
  unfold bind, derefPageObject, bind, gets. rewrite Hread.
  unfold ret, modify. cbn [snd].
  apply laterStore_trans with b1; [exact Hcreated|].
  apply laterStore_register. now left.
Qed.

Lemma laterStore_navigateAndAnalyze (B : Builtins) (sessionId url : string)
  (env : Env) (now : Z) :
  respects (laterStore [createdId now])
    (navigateAndAnalyze B sessionId url env now).
Proof.
  unfold navigateAndAnalyze, updatePageObjectModel, emit.
  repeat first [ apply laterStore_created
               | laterStore_step [createdId now] fail ].
Qed.

Lemma serve_laterStore (B : Builtins)
  (generateTestCode : Session.t -> option PageObjectModel.t -> string)
  (request : Request) (env : Env) (now : Z) (b : Builder.t) :
  laterStore (createdIds [(request, env, now)]) b
    (serve B generateTestCode request env now b).
Proof.
  destruct request; cbn [serve createdIds flat_map app].
  - revert b.
    change (respects (laterStore []) (startSession sessionId launches)).
    unfold startSession. laterStore_tac (@nil string) fail.
  - apply laterStore_navigateAndAnalyze.
  - revert b. change (respects (laterStore []) (startRecording sessionId now)).
    unfold startRecording, emit. laterStore_tac (@nil string) fail.
  - revert b.
    change (respects (laterStore [])
              (stopRecording generateTestCode sessionId env)).
    unfold stopRecording, emit. laterStore_tac (@nil string) fail.
  - revert b.
    change (respects (laterStore [])
              (clickElement B sessionId selector elementName env now)).
    unfold clickElement.
    laterStore_tac (@nil string) ltac:(apply laterStore_recordAction).
  - revert b.
    change (respects (laterStore [])
              (fillElement B sessionId selector value elementName env now)).
    unfold fillElement.
    laterStore_tac (@nil string) ltac:(apply laterStore_recordAction).
  - apply laterStore_mapNewElement.
  - revert b.
    change (respects (laterStore [])
              (verifyElementStability sessionId elementId env now)).
    unfold verifyElementStability, updateElement.
    laterStore_tac (@nil string) fail.
  - revert b. change (respects (laterStore []) (endSession sessionId env)).
    unfold endSession, emit. laterStore_tac (@nil string) fail.
  - revert b.
    change (respects (laterStore []) (onFrameNavigated sessionId url now)).
    unfold onFrameNavigated, emit. laterStore_tac (@nil string) fail.
  - revert b.
    change (respects (laterStore [])
              (sendToBackend B sessionId message env now)).
    unfold sendToBackend, emit.
    laterStore_tac (@nil string) ltac:(apply laterStore_mapNewElement).
Qed.

Lemma serveAll_laterStore (B : Builtins)
  (generateTestCode : Session.t -> option PageObjectModel.t -> string)
  (requests : list (Request * Env * Z)) :
  forall b : Builder.t,
    laterStore (createdIds requests) b
      (serveAll B generateTestCode requests b).
Proof.
  induction requests as [|[[request env] now] rest IH]; intros b;
    cbn [serveAll]; [apply laterStore_refl|].
  pose proof (serve_laterStore B generateTestCode request env now b) as Hone.
  unfold createdIds in Hone |- *. cbn [flat_map] in Hone |- *.
  rewrite app_nil_r in Hone. fold (createdIds rest).
  apply laterStore_trans with (serve B generateTestCode request env now b).
  - eapply laterStore_weaken; [|exact Hone]. apply incl_appl, incl_refl.
  - eapply laterStore_weaken; [|apply IH]. apply incl_appr, incl_refl.
Qed.

(** X9: whatever requests the engine serves, and whether they return or
    throw, a model that the repository holds keeps its id, name, URL, URL
    pattern and screenshots, its key stays a key of the repository, and
    the key keeps leading to this model unless a later visit creates a
    model with the same id (an id is [pom-] followed by the time of the
    visit), which then takes its place in the repository. *)
Theorem serveAll_keeps_page_objects (B : Builtins)
  (generateTestCode : Session.t -> option PageObjectModel.t -> string)
  (requests : list (Request * Env * Z)) (b : Builder.t)
  (k : string) (l : nat) (p : PageObjectModel.t) :
  JsMap.get (pageObjectRepository b) k = Some l ->
  Store.read (pageObjects b) l = Some p ->
  let b' := serveAll B generateTestCode requests b in
  JsMap.has (pageObjectRepository b') k = true
  /\ (JsMap.get (pageObjectRepository b') k = Some l
      \/ exists sessionId url env now,
           In (NavigateAndAnalyze sessionId url, env, now) requests
           /\ k = "pom-" ++ ofZ now)
  /\ (exists p',
        Store.read (pageObjects b') l = Some p'
        /\ PageObjectModel.id p' = PageObjectModel.id p
        /\ PageObjectModel.name p' = PageObjectModel.name p
        /\ PageObjectModel.url p' = PageObjectModel.url p
        /\ PageObjectModel.urlPattern p' = PageObjectModel.urlPattern p
        /\ PageObjectModel.screenshots p' = PageObjectModel.screenshots p).
Proof.
  intros Hk Hp b'.
  destruct (serveAll_laterStore B generateTestCode requests b)
    as [Hobjects Hkeys].
  fold b' in Hobjects, Hkeys.
  split; [|split].
  - destruct (Hkeys _ _ Hk) as [Hkept|[_ Hhas]]; [|exact Hhas].
    unfold JsMap.has. now rewrite Hkept.
  - destruct (Hkeys _ _ Hk) as [Hkept|[Hin _]]; [now left|]. right.
    unfold createdIds in Hin. apply in_flat_map in Hin.
    destruct Hin as ([[request env] now] & Hrequest & Hin).
    destruct request; try contradiction.
    destruct Hin as [<-|[]]. now exists sessionId, url, env, now.
  - destruct (Hobjects _ _ Hp) as (p' & Hp' & Hlater). exists p'.
    split; [exact Hp' | exact Hlater].
Qed.

Lemma serveAll_keeps_page_objects_witness :
  let b' :=
    serveAll fragmentBuiltins noCode
      [(StartSession "s1" true, loginPage, 1790%Z);
       (NavigateAndAnalyze "s1" "https://shop.example/login",
        envOf laterVisit nothingResolves, 1800%Z)]
      storeBuilder in
  JsMap.has (pageObjectRepository b') "pom-1700" = true
  /\ (JsMap.get (pageObjectRepository b') "pom-1700" = Some 0
      \/ exists sessionId url env now,
           In (NavigateAndAnalyze sessionId url, env, now)
             [(StartSession "s1" true, loginPage, 1790%Z);
              (NavigateAndAnalyze "s1" "https://shop.example/login",
               envOf laterVisit nothingResolves, 1800%Z)]
           /\ "pom-1700" = "pom-" ++ ofZ now)
  /\ (exists p',
        Store.read (pageObjects b') 0 = Some p'
        /\ PageObjectModel.id p' = PageObjectModel.id loginPom
        /\ PageObjectModel.name p' = PageObjectModel.name loginPom
        /\ PageObjectModel.url p' = PageObjectModel.url loginPom
        /\ PageObjectModel.urlPattern p' = PageObjectModel.urlPattern loginPom
        /\ PageObjectModel.screenshots p'
           = PageObjectModel.screenshots loginPom).
Proof.
  apply (serveAll_keeps_page_objects fragmentBuiltins noCode
           [(StartSession "s1" true, loginPage, 1790%Z);
            (NavigateAndAnalyze "s1" "https://shop.example/login",
             envOf laterVisit nothingResolves, 1800%Z)]
           storeBuilder "pom-1700" 0 loginPom);
    reflexivity.
Defined.

(** Two models created in the same millisecond get the same id: the
    second takes the place of the first in the repository, which then
    holds one model, the second. *)
Example same_millisecond_replaces :
  let b := serveAll fragmentBuiltins noCode sameMillisecond
             (Builder.create None) in
  map PageObjectModel.url (pageObjects b)
  = ["https://shop.example/cart"; "https://shop.example/login"]
  /\ map PageObjectModel.id (pageObjects b) = ["pom-1700"; "pom-1700"]
  /\ pageObjectRepository b = [("pom-1700", 1)]
  /\ getAllPageObjects b = [1].
Proof. vm_compute. repeat split. Qed.

(** The steps of a visit that returns: the session [s] found, the state
    [b2] after the store was brought up to date, the model [current] the
    session now points to and the mappings taken from it. *)
Lemma navigateAndAnalyze_Ok (B : Builtins) (sessionId url : string)
  (env : Env) (now : Z) (b b' : Builder.t) (l : nat) :
  navigateAndAnalyze B sessionId url env now b = (Ok l, b') ->
  exists s b2 found current mappings,
    JsMap.get (sessions b) sessionId = Some s
    /\ goto env url = true
    /\ overlayOk env = true
    /\ findPageObjectIn B (pageObjects b)
         (JsMap.values (pageObjectRepository b)) url = Ok found
    /\ match found with
       | Some l0 =>
           updatePageObjectModel B l0 env now
             (visiting sessionId url env b s)
           = (Ok l, b2)
       | None =>
           exists b1 created,
             createPageObjectModel B url env now
               (visiting sessionId url env b s)
             = (Ok l, b1)
             /\ Store.read (pageObjects b1) l = Some created
             /\ b2 = set_pageObjectRepository
                       (JsMap.set (pageObjectRepository b1)
                          (PageObjectModel.id created) l) b1
       end
    /\ sessions b2 = sessions (visiting sessionId url env b s)
    /\ Store.read (pageObjects b2) l = Some current
    /\ mappingsOf (elementObjects b2) (PageObjectModel.elements current)
         JsMap.empty = Ok mappings
    /\ JsMap.get (sessions b') sessionId
       = Some (Session.set_elementMappings mappings
                 (Session.set_elementMappings JsMap.empty
                    (Session.set_currentPageObject (Some l)
                       (Session.set_currentUrl url
                          (withNavigations (gotoNavigations env url)
                             s)))))
    /\ pageObjects b' = pageObjects b2
    /\ elementObjects b' = elementObjects b2
    /\ pageObjectRepository b' = pageObjectRepository b2.
Proof.
  unfold navigateAndAnalyze. intros H.
  apply bind_Ok in H. destruct H as (s & b1 & H1 & H).
  apply requireSession_Ok in H1. destruct H1 as [-> Hs].
  apply bind_Ok in H. destruct H as ([] & b1 & H1 & H).
  rewrite framesNavigated_state in H1. injection H1 as <-.
  pose proof (navigated_session sessionId (gotoNavigations env url) b s Hs)
    as Hs1.
  destruct (navigated_fields sessionId (gotoNavigations env url) b)
    as (Hrepo1 & Hpages1 & _ & _).
  apply bind_Ok in H. destruct H as ([] & b1 & H1 & H).
  apply await_Ok in H1. destruct H1 as [Hgoto ->].
  apply bind_Ok in H. destruct H as ([] & b1 & H1 & H).
  rewrite (updateSession_found _ _ _ _ Hs1) in H1. injection H1 as <-.
  fold (visiting sessionId url env b s) in H.
  set (s1 := withNavigations (gotoNavigations env url) s) in *.
  assert (Hvisiting : sessions (visiting sessionId url env b s)
                      = JsMap.set
                          (sessions
                             (navigated sessionId (gotoNavigations env url) b))
                          sessionId (Session.set_currentUrl url s1))
    by reflexivity.
  apply bind_Ok in H. destruct H as ([] & b1 & H1 & H).
  apply await_Ok in H1. destruct H1 as [Hoverlay ->].
  apply bind_Ok in H. destruct H as (found & b1 & H1 & H).
  unfold findPageObjectByUrl in H1. injection H1 as Hfound <-.
  unfold visiting in Hfound.
  cbn [pageObjects pageObjectRepository set_sessions] in Hfound.
  rewrite Hrepo1, Hpages1 in Hfound.
  apply bind_Ok in H. destruct H as (l0 & b2 & H1 & H).
  assert (Hstep :
    match found with
    | Some l1 =>
        updatePageObjectModel B l1 env now
          (visiting sessionId url env b s)
        = (Ok l0, b2)
    | None =>
        exists b1 created,
          createPageObjectModel B url env now
            (visiting sessionId url env b s)
          = (Ok l0, b1)
          /\ Store.read (pageObjects b1) l0 = Some created
          /\ b2 = set_pageObjectRepository
                    (JsMap.set (pageObjectRepository b1)
                       (PageObjectModel.id created) l0) b1
    end
    /\ sessions b2 = sessions (visiting sessionId url env b s)).
  { destruct found as [l1|].
    - split; [exact H1|].
      apply updatePageObjectModel_Ok in H1.
      destruct H1 as (_ & current & pom & merged & objects' & merged'
                        & _ & _ & _ & _ & ->).
      reflexivity.
    - apply bind_Ok in H1. destruct H1 as (l1 & b1 & Hcreate & H1).
      apply bind_Ok in H1. destruct H1 as (created & b3 & H3 & H1).
      apply derefPageObject_Ok in H3. destruct H3 as [-> Hcreated].
      apply bind_Ok in H1. destruct H1 as ([] & b3 & H3 & H1).
      unfold modify in H3. injection H3 as <-.
      unfold ret in H1. injection H1 as <- <-.
      split.
      + exists b1, created. auto.
      + apply createPageObjectModel_Ok in Hcreate.
        destruct Hcreate as (elements & name & pattern & _ & _ & _ & _ & ->).
        reflexivity. }
  destruct Hstep as [Hstep Hsessions].
  assert (Hs2 : JsMap.get (sessions b2) sessionId
                = Some (Session.set_currentUrl url s1)).
  { rewrite Hsessions, Hvisiting. apply get_set_same. }
  apply bind_Ok in H. destruct H as ([] & b3 & H3 & H).
  rewrite (updateSession_found _ _ _ _ Hs2) in H3. injection H3 as <-.
  apply bind_Ok in H. destruct H as ([] & b3 & H3 & H).
  rewrite (updateSession_found _ _ _
             (Session.set_currentPageObject (Some l0)
                (Session.set_currentUrl url s1))) in H3
    by (cbn [sessions set_sessions]; apply get_set_same).
  injection H3 as <-.
  apply bind_Ok in H. destruct H as (current & b3 & H3 & H).
  apply derefPageObject_Ok in H3. destruct H3 as [-> Hcurrent].
  apply bind_Ok in H. destruct H as (objects & b3 & H3 & H).
  unfold gets in H3. injection H3 as <- <-.
  apply bind_Ok in H. destruct H as (mappings & b3 & H3 & H).
  apply lift_Ok in H3. destruct H3 as [Hmappings ->].
  apply bind_Ok in H. destruct H as ([] & b3 & H3 & H).
  rewrite (updateSession_found _ _ _
             (Session.set_elementMappings JsMap.empty
                (Session.set_currentPageObject (Some l0)
                   (Session.set_currentUrl url s1)))) in H3
    by (cbn [sessions set_sessions]; apply get_set_same).
  injection H3 as <-.
  apply bind_Ok in H. destruct H as ([] & b3 & H3 & H).
  unfold emit, modify in H3. injection H3 as <-.
  unfold ret in H. injection H as <- <-.
  exists s, b2, found, current, mappings.
  repeat (split; [assumption|]).
  split; [|repeat split].
  cbn [sessions set_sessions set_emitted]. apply get_set_same.
Qed.

(** ** A visit: the session and the store afterwards *)

Lemma mappingsOf_Ok (objects : Store.t ElementMapping.t)
  (elements : list nat) :
  forall acc m,
    mappingsOf objects elements acc = Ok m ->
    (forall id l, JsMap.get m id = Some l ->
       JsMap.get acc id = Some l
       \/ (In l elements
           /\ exists e, Store.read objects l = Some e
                        /\ ElementMapping.id e = id))
    /\ (forall l, In l elements ->
          exists e, Store.read objects l = Some e
                    /\ JsMap.has m (ElementMapping.id e) = true)
    /\ (forall id, JsMap.has acc id = true -> JsMap.has m id = true).
Proof.
  induction elements as [|l0 rest IH]; intros acc m; cbn [mappingsOf].
  - intros [= <-]. repeat split; auto. intros l [].
  - destruct (Store.read objects l0) as [el|] eqn:Hel; [|discriminate].
    intros H. destruct (IH _ _ H) as (Hget & Hin & Hhas).
    split; [|split].
    + intros id l Hm. destruct (Hget _ _ Hm) as [Hacc|(Hl & e & He & Hid)].
      * destruct (String.eqb (ElementMapping.id el) id) eqn:E.
        -- apply String.eqb_eq in E. subst id.
           rewrite get_set_same in Hacc. injection Hacc as <-.
           right. split; [now left|]. now exists el.
        -- apply String.eqb_neq in E.
           rewrite get_set_other in Hacc by exact E. now left.
      * right. split; [now right|]. now exists e.
    + intros l [<-|Hl].
      * exists el. split; [exact Hel|]. apply Hhas.
        unfold JsMap.has. now rewrite get_set_same.
      * now apply Hin.
    + intros id Hid. apply Hhas. now apply has_set_kept.
Qed.

(** X13: when [navigateAndAnalyze] returns a model, the session's current
    URL is the visited one, its current page object is the returned
    model, and its element mappings are the elements of that model, keyed
    by their ids. The visit leaves the recording flag alone; if the
    session is recording, its recorded steps have grown by one [navigate]
    step for each frame navigation that [page.goto] raised, and by
    nothing else. *)
Theorem navigateAndAnalyze_session (B : Builtins) (sessionId url : string)
  (env : Env) (now : Z) (b b' : Builder.t) (l : nat) :
  navigateAndAnalyze B sessionId url env now b = (Ok l, b') ->
  exists s s' pom,
    JsMap.get (sessions b) sessionId = Some s
    /\ JsMap.get (sessions b') sessionId = Some s'
    /\ Session.currentUrl s' = url
    /\ Session.currentPageObject s' = Some l
    /\ Store.read (pageObjects b') l = Some pom
    /\ (forall id l',
          JsMap.get (Session.elementMappings s') id = Some l' ->
          In l' (PageObjectModel.elements pom)
          /\ exists e, Store.read (elementObjects b') l' = Some e
                       /\ ElementMapping.id e = id)
    /\ (forall l', In l' (PageObjectModel.elements pom) ->
          exists e, Store.read (elementObjects b') l' = Some e
                    /\ JsMap.has (Session.elementMappings s')
                         (ElementMapping.id e) = true)
    /\ Session.recordedSteps s'
       = (Session.recordedSteps s
          ++ (if Session.isRecording s
              then map navigateStep (gotoNavigations env url)
              else []))%list
    /\ Session.isRecording s' = Session.isRecording s.
Proof.
  intros H. apply navigateAndAnalyze_Ok in H.
  destruct H as (s & b2 & found & current & mappings & Hs & _ & _ & _ & _
                   & _ & Hcurrent & Hmappings & Hs' & Hobjects & Helements
                   & _).
  eexists s, _, current. split; [exact Hs|]. split; [exact Hs'|].
  split; [reflexivity|]. split; [reflexivity|].
  rewrite Hobjects, Helements. split; [exact Hcurrent|].
  destruct (mappingsOf_Ok _ _ _ _ Hmappings) as (Hget & Hin & _).
  split; [|split; [|split]].
  - intros id l' Hl'. cbn in Hl'.
    destruct (Hget _ _ Hl') as [Hempty|Hfound]; [discriminate | exact Hfound].
  - intros l' Hl'. cbn. now apply Hin.
  - cbn [Session.recordedSteps Session.set_elementMappings
           Session.set_currentPageObject Session.set_currentUrl].
    unfold withNavigations. destruct (Session.isRecording s); [reflexivity|].
    now rewrite app_nil_r.
  - cbn [Session.isRecording Session.set_elementMappings
           Session.set_currentPageObject Session.set_currentUrl].
    apply withNavigations_fields.
Qed.

Lemma navigateAndAnalyze_session_witness :
  exists s s' pom,
    JsMap.get
      (sessions (snd (startSession "s1" true (Builder.create None)))) "s1"
    = Some s
    /\ JsMap.get (sessions (afterFirstVisit fragmentBuiltins item42)) "s1"
       = Some s'
    /\ Session.currentUrl s' = item42
    /\ Session.currentPageObject s' = Some 0
    /\ Store.read (pageObjects (afterFirstVisit fragmentBuiltins item42)) 0
       = Some pom
    /\ (forall id l',
          JsMap.get (Session.elementMappings s') id = Some l' ->
          In l' (PageObjectModel.elements pom)
          /\ exists e,
               Store.read
                 (elementObjects (afterFirstVisit fragmentBuiltins item42)) l'
               = Some e
               /\ ElementMapping.id e = id)
    /\ (forall l', In l' (PageObjectModel.elements pom) ->
          exists e,
            Store.read
              (elementObjects (afterFirstVisit fragmentBuiltins item42)) l'
            = Some e
            /\ JsMap.has (Session.elementMappings s') (ElementMapping.id e)
               = true)
    /\ Session.recordedSteps s'
       = (Session.recordedSteps s
          ++ (if Session.isRecording s
              then map navigateStep
                     (gotoNavigations (envOf [goButton] nothingResolves)
                        item42)
              else []))%list
    /\ Session.isRecording s' = Session.isRecording s.
Proof.
  apply (navigateAndAnalyze_session fragmentBuiltins "s1" item42
           (envOf [goButton] nothingResolves) 1700
           (snd (startSession "s1" true (Builder.create None)))
           (afterFirstVisit fragmentBuiltins item42) 0).
  reflexivity.
Defined.

Lemma findPageObjectIn_ext (B : Builtins)
  (objects objects' : Store.t PageObjectModel.t) (url : string) :
  (forall l, option_map lookupKey (Store.read objects' l)
             = option_map lookupKey (Store.read objects l)) ->
  forall values,
    findPageObjectIn B objects' values url
    = findPageObjectIn B objects values url.
Proof.
  intros Hext values. induction values as [|l rest IH]; [reflexivity|].
  cbn [findPageObjectIn]. specialize (Hext l).
  destruct (Store.read objects l) as [p|],
           (Store.read objects' l) as [p'|]; try discriminate;
    [|reflexivity].
  cbn in Hext. injection Hext as Hurl Hpattern.
  rewrite Hurl, Hpattern, IH. reflexivity.
Qed.

Lemma findPageObjectIn_In (B : Builtins)
  (objects : Store.t PageObjectModel.t) (url : string) (l : nat) :
  forall values,
    findPageObjectIn B objects values url = Ok (Some l) -> In l values.
Proof.
  induction values as [|l0 rest IH]; cbn [findPageObjectIn]; [discriminate|].
  destruct (Store.read objects l0) as [p|]; [|discriminate].
  destruct (String.eqb (PageObjectModel.url p) url).
  { intros [= <-]. now left. }
  destruct (truthy_opt (PageObjectModel.urlPattern p)).
  - destruct (regexpTest B _ url) as [[|]|]; try discriminate.
    + intros [= <-]. now left.
    + intros H. right. now apply IH.
  - intros H. right. now apply IH.
Qed.

Lemma In_values_set {V : Type} (m : JsMap.t V) (k : string) (v : V) :
  In v (JsMap.values (JsMap.set m k v)).
Proof.
  induction m as [|[k' v'] m IH]; cbn; [now left|].
  destruct (String.eqb k' k); cbn; auto.
Qed.

(** A model created for [url] is what the lookup of [url] finds, when no
    model was found before. *)
Lemma findPageObjectIn_created (B : Builtins)
  (objects : Store.t PageObjectModel.t) (url key : string)
  (created : PageObjectModel.t) :
  PageObjectModel.url created = url ->
  forall repository : JsMap.t nat,
    findPageObjectIn B objects (JsMap.values repository) url = Ok None ->
    findPageObjectIn B (objects ++ [created])%list
      (JsMap.values (JsMap.set repository key (List.length objects))) url
    = Ok (Some (List.length objects)).
Proof.
  intros Hurl. induction repository as [|[k' v'] m IH].
  - intros _. cbn. unfold Store.read. rewrite nth_error_app2 by lia.
    rewrite Nat.sub_diag. cbn. now rewrite Hurl, String.eqb_refl.
  - cbn [JsMap.values map snd findPageObjectIn JsMap.set].
    destruct (Store.read objects v') as [p|] eqn:Hp; [|discriminate].
    intros H. destruct (String.eqb k' key).
    + cbn [JsMap.values map snd findPageObjectIn].
      unfold Store.read. rewrite nth_error_app2 by lia.
      rewrite Nat.sub_diag. cbn. now rewrite Hurl, String.eqb_refl.
    + cbn [JsMap.values map snd findPageObjectIn].
      rewrite read_alloc_old by (eapply read_Some_lt; eauto). rewrite Hp.
      destruct (String.eqb (PageObjectModel.url p) url); [discriminate|].
      destruct (truthy_opt (PageObjectModel.urlPattern p)).
      * destruct (regexpTest B _ url) as [[|]|]; try discriminate.
        now apply IH.
      * now apply IH.
Qed.

(** X14: the model [navigateAndAnalyze] returns is in the repository and
    is the model a lookup of the visited URL finds from then on. If the
    store held it before, the visit incremented its version (by exactly
    one if the version was a safe integer) and kept its URL and id;
    otherwise it is new, with version 1, the visited URL and the id
    [pom-<now>]. *)
Theorem navigateAndAnalyze_store (B : Builtins) (sessionId url : string)
  (env : Env) (now : Z) (b b' : Builder.t) (l : nat) :
  navigateAndAnalyze B sessionId url env now b = (Ok l, b') ->
  exists pom,
    Store.read (pageObjects b') l = Some pom
    /\ In l (getAllPageObjects b')
    /\ findPageObjectByUrl B url b' = (Ok (Some l), b')
    /\ match Store.read (pageObjects b) l with
       | Some old =>
           PageObjectModel.version pom
           = increment (PageObjectModel.version old)
           /\ (isSafeInteger (PageObjectModel.version old) = true ->
               PageObjectModel.version pom
               = (PageObjectModel.version old + 1)%Z)
           /\ PageObjectModel.url pom = PageObjectModel.url old
           /\ PageObjectModel.id pom = PageObjectModel.id old
       | None =>
           PageObjectModel.version pom = 1%Z
           /\ PageObjectModel.url pom = url
           /\ PageObjectModel.id pom = "pom-" ++ ofZ now
       end.
Proof.
  intros H. apply navigateAndAnalyze_Ok in H.
  destruct H as (s & b2 & found & current & mappings & Hs & _ & _ & Hfound
                   & Hstep & _ & Hcurrent & _ & _ & Hobjects & _ & Hrepo).
  exists current. rewrite Hobjects. split; [exact Hcurrent|].
  unfold getAllPageObjects, findPageObjectByUrl. rewrite Hrepo, Hobjects.
  destruct (visiting_fields sessionId url env b s)
    as (Hrepo0 & Hpages0 & Helements0 & _).
  destruct found as [l0|].
  - apply updatePageObjectModel_Ok in Hstep.
    destruct Hstep as (-> & elements & pom & merged & objects' & merged'
                         & _ & Hpom & _ & _ & ->).
    cbn [pageObjects pageObjectRepository set_pageObjects set_sessions
           set_elementObjects] in *.
    rewrite ?Hrepo0, ?Hpages0, ?Helements0 in *.
    rewrite read_write_same in Hcurrent by (eapply read_Some_lt; eauto).
    injection Hcurrent as <-.
    split; [eapply findPageObjectIn_In; eauto|].
    split.
    + f_equal. rewrite <- Hfound. apply findPageObjectIn_ext.
      intros l. destruct (Nat.eq_dec l0 l) as [<-|Hne].
      * rewrite read_write_same by (eapply read_Some_lt; eauto).
        now rewrite Hpom.
      * now rewrite read_write_other.
    + rewrite Hpom. split; [reflexivity|]. split; [|split; reflexivity].
      apply increment_safe.
  - destruct Hstep as (b1 & created & Hcreate & Hcreated & ->).
    apply createPageObjectModel_Ok in Hcreate.
    destruct Hcreate as (elements & name & pattern & _ & _ & _ & -> & ->).
    cbn [pageObjects pageObjectRepository set_pageObjects set_sessions
           set_elementObjects set_pageObjectRepository] in *.
    rewrite ?Hrepo0, ?Hpages0, ?Helements0 in *.
    rewrite read_alloc_new in Hcreated. injection Hcreated as <-.
    rewrite read_alloc_new in Hcurrent. injection Hcurrent as <-.
    split; [apply In_values_set|].
    split.
    + f_equal. now apply findPageObjectIn_created.
    + assert (Hnone : Store.read (pageObjects b)
                        (List.length (pageObjects b)) = None).
      { apply nth_error_None. lia. }
      rewrite Hnone. repeat split.
Qed.

Lemma navigateAndAnalyze_store_witness :
  exists pom,
    Store.read (pageObjects (afterFirstVisit fragmentBuiltins item42)) 0
    = Some pom
    /\ In 0 (getAllPageObjects (afterFirstVisit fragmentBuiltins item42))
    /\ findPageObjectByUrl fragmentBuiltins item42
         (afterFirstVisit fragmentBuiltins item42)
       = (Ok (Some 0), afterFirstVisit fragmentBuiltins item42)
    /\ match
         Store.read
           (pageObjects (snd (startSession "s1" true (Builder.create None))))
           0
       with
       | Some old =>
           PageObjectModel.version pom
           = increment (PageObjectModel.version old)
           /\ (isSafeInteger (PageObjectModel.version old) = true ->
               PageObjectModel.version pom
               = (PageObjectModel.version old + 1)%Z)
           /\ PageObjectModel.url pom = PageObjectModel.url old
           /\ PageObjectModel.id pom = PageObjectModel.id old
       | None =>
           PageObjectModel.version pom = 1%Z
           /\ PageObjectModel.url pom = item42
           /\ PageObjectModel.id pom = "pom-" ++ ofZ 1700
       end.
Proof.
  apply (navigateAndAnalyze_store fragmentBuiltins "s1" item42
           (envOf [goButton] nothingResolves) 1700
           (snd (startSession "s1" true (Builder.create None)))
           (afterFirstVisit fragmentBuiltins item42) 0).
  reflexivity.
Defined.

(** ** Mapping an element *)

Lemma modifyObject_modifyObject {A : Type} (s : Store.t A) (l : nat)
  (f g : A -> A) :
  modifyObject (modifyObject s l f) l g = modifyObject s l (fun a => g (f a)).
Proof.
  unfold modifyObject at 2 3.
  destruct (Store.read s l) as [a|] eqn:Ha.
  - apply modifyObject_write. eapply read_Some_lt; eauto.
  - unfold modifyObject. now rewrite Ha.
Qed.

(** The state [mapNewElement] leaves when it gets as far as building the
    descriptor: the descriptor is in the store, in the session's mappings
    and in the current page object, whether or not the model can then be
    saved. *)
Lemma mapNewElement_found (B : Builtins) (sessionId selector name : string)
  (env : Env) (now : Z) (b : Builder.t) (s : Session.t) (el : HTMLElement)
  (alternatives : list string) :
  JsMap.get (sessions b) sessionId = Some s ->
  locate env selector = Found el ->
  generateAlternativeSelectors env selector = Ok alternatives ->
  let mapping := mappedElement selector name el alternatives now in
  let l := List.length (elementObjects b) in
  let mapped :=
    set_pageObjects
      (match Session.currentPageObject s with
       | Some p => modifyObject (pageObjects b) p (withElement l now)
       | None => pageObjects b
       end)
      (set_sessions
         (JsMap.set (sessions b) sessionId
            (Session.set_elementMappings
               (JsMap.set (Session.elementMappings s)
                  (ElementMapping.id mapping) l) s))
         (set_elementObjects (elementObjects b ++ [mapping])%list b)) in
  mapNewElement B sessionId selector name env now b
  = match Session.currentPageObject s with
    | Some p =>
        match savePageObjectModel B p env mapped with
        | (Ok _, _) =>
            (Ok mapping,
             set_emitted (emitted b ++ [("elementMapped", sessionId)])%list
               mapped)
        | (Throw message, _) => (Throw message, mapped)
        end
    | None =>
        (Ok mapping,
         set_emitted (emitted b ++ [("elementMapped", sessionId)])%list
           mapped)
    end.
Proof.
  intros Hs Hel Halt mapping l mapped.
  unfold mapNewElement. unfold bind at 1.
  rewrite (requireSession_found _ _ _ Hs). rewrite Hel.
  unfold bind at 1, lift at 1. rewrite Halt.
  fold (mappedElement selector name el alternatives now). fold mapping.
  unfold bind at 1, newElement at 1, Store.alloc. fold l.
  unfold bind at 1.
  rewrite (updateSession_found _ _ _ s) by exact Hs.
  unfold bind at 1.
  rewrite (requireSession_found _ _
             (Session.set_elementMappings
                (JsMap.set (Session.elementMappings s)
                   (ElementMapping.id mapping) l) s))
    by (cbn [sessions set_sessions]; apply get_set_same).
  cbn [Session.currentPageObject Session.set_elementMappings].
  destruct (Session.currentPageObject s) as [p|] eqn:Hp.
  - unfold bind at 1. unfold bind at 1. unfold bind at 1.
    rewrite updatePageObject_state.
    unfold bind at 1. rewrite updatePageObject_state.
    unfold bind at 1. rewrite updatePageObject_state.
    match goal with
    | |- context [savePageObjectModel B p env ?st] =>
        replace st with mapped
    end.
    2: { unfold mapped, set_pageObjects, set_sessions, set_elementObjects.
         cbn [sessions pageObjectRepository pageObjects elementObjects
                githubRepoPath emitted].
         unfold withElement. rewrite !modifyObject_modifyObject.
         reflexivity. }
    pose proof (readOnly_savePageObjectModel B p env mapped) as Hsave.
    destruct (savePageObjectModel B p env mapped) as [[[]|message] b1];
      cbn [snd] in Hsave; subst b1; reflexivity.
  - reflexivity.
Qed.

Lemma mapNewElement_Ok (B : Builtins) (sessionId selector name : string)
  (env : Env) (now : Z) (b b' : Builder.t) (mapping : ElementMapping.t) :
  mapNewElement B sessionId selector name env now b = (Ok mapping, b') ->
  exists s el alternatives,
    JsMap.get (sessions b) sessionId = Some s
    /\ locate env selector = Found el
    /\ generateAlternativeSelectors env selector = Ok alternatives
    /\ mapping = mappedElement selector name el alternatives now
    /\ sessions b'
       = JsMap.set (sessions b) sessionId
           (Session.set_elementMappings
              (JsMap.set (Session.elementMappings s)
                 ("element-" ++ ofZ now)
                 (List.length (elementObjects b))) s)
    /\ elementObjects b'
       = (elementObjects b
          ++ [mappedElement selector name el alternatives now])%list
    /\ pageObjects b'
       = match Session.currentPageObject s with
         | Some p =>
             modifyObject (pageObjects b) p
               (withElement (List.length (elementObjects b)) now)
         | None => pageObjects b
         end.
Proof.
  intros H.
  assert (Hfound : exists s el alternatives,
             JsMap.get (sessions b) sessionId = Some s
             /\ locate env selector = Found el
             /\ generateAlternativeSelectors env selector = Ok alternatives).
  { destruct (JsMap.get (sessions b) sessionId) as [s|] eqn:Hs.
    2: { unfold mapNewElement in H. unfold bind at 1 in H.
         rewrite (requireSession_missing _ _ Hs) in H. discriminate. }
    unfold mapNewElement in H. unfold bind at 1 in H.
    rewrite (requireSession_found _ _ _ Hs) in H.
    destruct (locate env selector) as [el| |] eqn:Hel; try discriminate.
    unfold bind at 1, lift at 1 in H.
    destruct (generateAlternativeSelectors env selector) as [alternatives|]
      eqn:Halt; [|discriminate].
    now exists s, el, alternatives. }
  destruct Hfound as (s & el & alternatives & Hs & Hel & Halt).
  exists s, el, alternatives. repeat (split; [assumption|]).
  rewrite (mapNewElement_found B _ _ name _ now _ _ _ _ Hs Hel Halt) in H.
  cbv zeta in H.
  destruct (Session.currentPageObject s) as [p|].
  - destruct (savePageObjectModel B p env _) as [[[]|message] b1];
      [|discriminate].
    injection H as <- <-. repeat split.
  - injection H as <- <-. repeat split.
Qed.

(** X15: when [mapNewElement] returns a descriptor, it carries the given
    name and selector, it is marked stable, it sits at a new location of
    the store under its id in the session's mappings, and the session's
    current page object, if any, has it as its last element, with the
    version incremented (by exactly one if the version was a safe
    integer). *)
Theorem mapNewElement_registers (B : Builtins)
  (sessionId selector name : string) (env : Env) (now : Z)
  (b b' : Builder.t) (mapping : ElementMapping.t) :
  mapNewElement B sessionId selector name env now b = (Ok mapping, b') ->
  exists s s' el,
    JsMap.get (sessions b) sessionId = Some s
    /\ locate env selector = Found el
    /\ ElementMapping.name mapping = name
    /\ ElementMapping.selector mapping = selector
    /\ ElementMapping.type mapping
       = detectElementType (toLowerCase (tagName el))
           (or_default (getAttribute el "type") EmptyString)
    /\ ElementMapping.isStable mapping = true
    /\ JsMap.get (sessions b') sessionId = Some s'
    /\ JsMap.get (Session.elementMappings s') (ElementMapping.id mapping)
       = Some (List.length (elementObjects b))
    /\ Store.read (elementObjects b') (List.length (elementObjects b))
       = Some mapping
    /\ (forall l e, Store.read (elementObjects b) l = Some e ->
          Store.read (elementObjects b') l = Some e)
    /\ (forall p pom,
          Session.currentPageObject s = Some p ->
          Store.read (pageObjects b) p = Some pom ->
          exists pom',
            Store.read (pageObjects b') p = Some pom'
            /\ PageObjectModel.elements pom'
               = (PageObjectModel.elements pom
                  ++ [List.length (elementObjects b)])%list
            /\ PageObjectModel.version pom'
               = increment (PageObjectModel.version pom)
            /\ (isSafeInteger (PageObjectModel.version pom) = true ->
                PageObjectModel.version pom'
                = (PageObjectModel.version pom + 1)%Z)).
Proof.
  intros H.
  destruct (mapNewElement_Ok _ _ _ _ _ _ _ _ _ H)
    as (s & el & alternatives & Hs & Hel & Halt & -> & Hsessions & Hobjects
          & Hpages).
  eexists s, _, el.
  repeat (split; [first [assumption | reflexivity]|]).
  split; [rewrite Hsessions; apply get_set_same|].
  split; [cbn; apply get_set_same|].
  rewrite Hobjects. split; [apply read_alloc_new|].
  split.
  - intros l e He. rewrite read_alloc_old by (eapply read_Some_lt; eauto).
    exact He.
  - intros p pom Hp Hpom. rewrite Hpages, Hp.
    rewrite (modifyObject_read _ _ _ _ Hpom).
    rewrite read_write_same by (eapply read_Some_lt; eauto).
    eexists. split; [reflexivity|]. split; [reflexivity|].
    split; [reflexivity | apply increment_safe].
Qed.

Lemma mapNewElement_registers_witness :
  exists s s' el,
    JsMap.get (sessions authoringBuilder) "s1" = Some s
    /\ locate loginPage "#email" = Found el
    /\ ElementMapping.name
         (mappedElement "#email" "email" emailInput [] 1730) = "email"
    /\ ElementMapping.selector
         (mappedElement "#email" "email" emailInput [] 1730) = "#email"
    /\ ElementMapping.type
         (mappedElement "#email" "email" emailInput [] 1730)
       = detectElementType (toLowerCase (tagName el))
           (or_default (getAttribute el "type") EmptyString)
    /\ ElementMapping.isStable
         (mappedElement "#email" "email" emailInput [] 1730) = true
    /\ JsMap.get
         (sessions
            (snd (mapNewElement fragmentBuiltins "s1" "#email" "email"
                    loginPage 1730 authoringBuilder))) "s1" = Some s'
    /\ JsMap.get (Session.elementMappings s')
         (ElementMapping.id
            (mappedElement "#email" "email" emailInput [] 1730))
       = Some (List.length (elementObjects authoringBuilder))
    /\ Store.read
         (elementObjects
            (snd (mapNewElement fragmentBuiltins "s1" "#email" "email"
                    loginPage 1730 authoringBuilder)))
         (List.length (elementObjects authoringBuilder))
       = Some (mappedElement "#email" "email" emailInput [] 1730)
    /\ (forall l e,
          Store.read (elementObjects authoringBuilder) l = Some e ->
          Store.read
            (elementObjects
               (snd (mapNewElement fragmentBuiltins "s1" "#email" "email"
                       loginPage 1730 authoringBuilder))) l = Some e)
    /\ (forall p pom,
          Session.currentPageObject s = Some p ->
          Store.read (pageObjects authoringBuilder) p = Some pom ->
          exists pom',
            Store.read
              (pageObjects
                 (snd (mapNewElement fragmentBuiltins "s1" "#email" "email"
                         loginPage 1730 authoringBuilder))) p = Some pom'
            /\ PageObjectModel.elements pom'
               = (PageObjectModel.elements pom
                  ++ [List.length (elementObjects authoringBuilder)])%list
            /\ PageObjectModel.version pom'
               = increment (PageObjectModel.version pom)
            /\ (isSafeInteger (PageObjectModel.version pom) = true ->
                PageObjectModel.version pom'
                = (PageObjectModel.version pom + 1)%Z)).
Proof.
  apply (mapNewElement_registers fragmentBuiltins "s1" "#email" "email"
           loginPage 1730 authoringBuilder
           (snd (mapNewElement fragmentBuiltins "s1" "#email" "email"
                   loginPage 1730 authoringBuilder))
           (mappedElement "#email" "email" emailInput [] 1730)).
  reflexivity.
Defined.

(** X16: when the model cannot be saved, [mapNewElement] throws, but the
    mapping it made stays: the descriptor is in the store and in the
    session's mappings, and the current page object has it as its last
    element, with the version incremented (by exactly one if the version
    was a safe integer). *)
Theorem mapNewElement_failed_save_keeps_mapping (B : Builtins)
  (sessionId selector name : string) (env : Env) (now : Z) (b : Builder.t)
  (s : Session.t) (el : HTMLElement) (alternatives : list string) (p : nat)
  (pom : PageObjectModel.t) :
  JsMap.get (sessions b) sessionId = Some s ->
  locate env selector = Found el ->
  generateAlternativeSelectors env selector = Ok alternatives ->
  Session.currentPageObject s = Some p ->
  Store.read (pageObjects b) p = Some pom ->
  truthy_opt (githubRepoPath b) = true ->
  fsOk env = false ->
  exists b' s' pom',
    mapNewElement B sessionId selector name env now b
    = (Throw "fs: rejected", b')
    /\ JsMap.get (sessions b') sessionId = Some s'
    /\ JsMap.get (Session.elementMappings s') ("element-" ++ ofZ now)
       = Some (List.length (elementObjects b))
    /\ Store.read (elementObjects b') (List.length (elementObjects b))
       = Some (mappedElement selector name el alternatives now)
    /\ Store.read (pageObjects b') p = Some pom'
    /\ PageObjectModel.elements pom'
       = (PageObjectModel.elements pom
          ++ [List.length (elementObjects b)])%list
    /\ PageObjectModel.version pom' = increment (PageObjectModel.version pom)
    /\ (isSafeInteger (PageObjectModel.version pom) = true ->
        PageObjectModel.version pom' = (PageObjectModel.version pom + 1)%Z).
Proof.
  intros Hs Hel Halt Hp Hpom Hpath Hfs.
  rewrite (mapNewElement_found B _ _ name _ now _ _ _ _ Hs Hel Halt).
  cbv zeta. rewrite Hp.
  unfold savePageObjectModel at 1. unfold bind at 1, gets at 1.
  cbn [githubRepoPath set_pageObjects set_sessions set_elementObjects].
  rewrite Hpath. unfold bind at 1, await. rewrite Hfs. unfold throw.
  do 3 eexists. split; [reflexivity|].
  cbn [sessions set_pageObjects set_sessions set_elementObjects
         elementObjects pageObjects].
  split; [apply get_set_same|].
  split; [cbn; apply get_set_same|].
  split; [apply read_alloc_new|].
  rewrite (modifyObject_read _ _ _ _ Hpom).
  rewrite read_write_same by (eapply read_Some_lt; eauto).
  split; [reflexivity|]. split; [reflexivity|].
  split; [reflexivity | apply increment_safe].
Qed.

Lemma mapNewElement_failed_save_keeps_mapping_witness :
  exists b' s' pom',
    mapNewElement fragmentBuiltins "s1" "#email" "email" readOnlyDisk 1730
      savingBuilder
    = (Throw "fs: rejected", b')
    /\ JsMap.get (sessions b') "s1" = Some s'
    /\ JsMap.get (Session.elementMappings s') ("element-" ++ ofZ 1730)
       = Some (List.length (elementObjects savingBuilder))
    /\ Store.read (elementObjects b')
         (List.length (elementObjects savingBuilder))
       = Some (mappedElement "#email" "email" emailInput [] 1730)
    /\ Store.read (pageObjects b') 0 = Some pom'
    /\ PageObjectModel.elements pom'
       = (PageObjectModel.elements loginPom
          ++ [List.length (elementObjects savingBuilder)])%list
    /\ PageObjectModel.version pom'
       = increment (PageObjectModel.version loginPom)
    /\ (isSafeInteger (PageObjectModel.version loginPom) = true ->
        PageObjectModel.version pom'
        = (PageObjectModel.version loginPom + 1)%Z).
Proof.
  eapply (mapNewElement_failed_save_keeps_mapping fragmentBuiltins
            "s1" "#email" "email" readOnlyDisk 1730 savingBuilder);
    reflexivity.
Defined.

(** ** An action and the mapping of its selector *)

Lemma findElementIdBySelector_unfold (sessionId selector : string)
  (b : Builder.t) :
  findElementIdBySelector sessionId selector b
  = (match JsMap.get (sessions b) sessionId with
     | Some s =>
         findElementIdIn (elementObjects b) (Session.elementMappings s)
           selector
     | None => Throw "Session not found"
     end, b).
Proof.
  unfold findElementIdBySelector, bind, requireSession, bind, getSession,
    gets, lift.
  now destruct (JsMap.get (sessions b) sessionId).
Qed.

Lemma findElementIdIn_key (objects : Store.t ElementMapping.t)
  (selector id : string) :
  forall entries : JsMap.t nat,
    findElementIdIn objects entries selector = Ok (Some id) ->
    JsMap.has entries id = true.
Proof.
  induction entries as [|[k l] rest IH]; cbn [findElementIdIn];
    [discriminate|].
  destruct (Store.read objects l) as [e|]; [|discriminate].
  unfold JsMap.has. cbn [JsMap.get].
  destruct (_ || _).
  - intros [= <-]. now rewrite String.eqb_refl.
  - intros H. destruct (String.eqb k id); [reflexivity|]. now apply IH.
Qed.

(** A descriptor mapped for [selector] is what the lookup of [selector]
    finds, when nothing was found before. *)
Lemma findElementIdIn_mapped (objects : Store.t ElementMapping.t)
  (selector id : string) (mapping : ElementMapping.t) :
  ElementMapping.selector mapping = selector ->
  forall entries : JsMap.t nat,
    findElementIdIn objects entries selector = Ok None ->
    findElementIdIn (objects ++ [mapping])%list
      (JsMap.set entries id (List.length objects)) selector
    = Ok (Some id).
Proof.
  intros Hselector. induction entries as [|[k l] rest IH].
  - intros _. cbn. rewrite read_alloc_new.
    now rewrite Hselector, String.eqb_refl.
  - cbn [findElementIdIn JsMap.set].
    destruct (Store.read objects l) as [e|] eqn:He; [|discriminate].
    destruct (String.eqb (ElementMapping.selector e) selector
              || existsb (String.eqb selector)
                   (ElementMapping.alternativeSelectors e)) eqn:Hmatch;
      [discriminate|].
    intros H. destruct (String.eqb k id) eqn:E.
    + apply String.eqb_eq in E. subst k. cbn [findElementIdIn].
      rewrite read_alloc_new. now rewrite Hselector, String.eqb_refl.
    + cbn [findElementIdIn].
      rewrite read_alloc_old by (eapply read_Some_lt; eauto).
      rewrite He, Hmatch. now apply IH.
Qed.

Section SameMappings.

Variable sid : string.

Lemma sameMappings_refl (b : Builder.t) : sameMappings sid b b.
Proof. split; reflexivity. Qed.

Lemma sameMappings_trans (b1 b2 b3 : Builder.t) :
  sameMappings sid b1 b2 -> sameMappings sid b2 b3 -> sameMappings sid b1 b3.
Proof. intros [H1 K1] [H2 K2]. split; congruence. Qed.

Lemma sameMappings_updateSession (sessionId : string)
  (f : Session.t -> Session.t) :
  (forall s, Session.elementMappings (f s) = Session.elementMappings s) ->
  respects (sameMappings sid) (updateSession sessionId f).
Proof.
  intros Hf. apply respects_modify. intros b.
  destruct (JsMap.get (sessions b) sessionId) as [s|] eqn:Hs;
    [|apply sameMappings_refl].
  split; [reflexivity|]. cbn [sessions set_sessions].
  destruct (String.eqb sessionId sid) eqn:E.
  - apply String.eqb_eq in E. subst sessionId.
    rewrite get_set_same, Hs. cbn. now rewrite Hf.
  - apply String.eqb_neq in E. now rewrite get_set_other.
Qed.

Lemma sameMappings_emit (name sessionId : string) :
  respects (sameMappings sid) (emit name sessionId).
Proof. intros b. split; reflexivity. Qed.

Lemma sameMappings_lookup (selector : string) (b b' : Builder.t) :
  sameMappings sid b b' ->
  fst (findElementIdBySelector sid selector b')
  = fst (findElementIdBySelector sid selector b).
Proof.
  intros [Hobjects Hmappings]. rewrite !findElementIdBySelector_unfold.
  cbn [fst]. rewrite Hobjects.
  destruct (JsMap.get (sessions b) sid) as [s|],
           (JsMap.get (sessions b') sid) as [s'|]; try discriminate;
    [|reflexivity].
  cbn in Hmappings. injection Hmappings as ->. reflexivity.
Qed.

End SameMappings.

Lemma recordAction_lookup (B : Builtins) (sessionId selector : string)
  (elementName : option string) (action : Action) (value : option string)
  (env : Env) (now : Z) (b b' : Builder.t) (step : TestStep.t) :
  (forall s, JsMap.get (sessions b) sessionId = Some s ->
     JsMap.has (Session.elementMappings s) EmptyString = false) ->
  recordAction B sessionId selector elementName action value env now b
  = (Ok step, b') ->
  findElementIdBySelector sessionId selector b'
  = (Ok (TestStep.elementId step), b').
Proof.
  intros Hids H. unfold recordAction in H.
  apply bind_Ok in H. destruct H as (found & b0 & Hfound & H).
  pose proof (readOnly_Ok _ _ _ _
                (readOnly_findElementIdBySelector sessionId selector) Hfound).
  subst b0.
  apply bind_Ok in H. destruct H as (elementId & b1 & Hid & H).
  assert (Hb1 : fst (findElementIdBySelector sessionId selector b1)
                = Ok elementId).
  { rewrite findElementIdBySelector_unfold in Hfound.
    destruct (JsMap.get (sessions b) sessionId) as [s|] eqn:Hs;
      [|discriminate].
    injection Hfound as Hfound.
    destruct (negb (truthy_opt found) && truthy_opt elementName) eqn:Hmap.
    - apply bind_Ok in Hid. destruct Hid as (element & b2 & Hmapped & Hid).
      unfold ret in Hid. injection Hid as <- <-.
      destruct (mapNewElement_Ok _ _ _ _ _ _ _ _ _ Hmapped)
        as (s0 & el & alternatives & Hs0 & _ & _ & -> & Hsessions & Hobjects
              & _).
      assert (s0 = s) by congruence. subst s0.
      assert (Hnone : found = None).
      { destruct found as [id|]; [|reflexivity].
        pose proof (findElementIdIn_key _ _ _ _ Hfound) as Hkey.
        destruct id as [|c id]; [|discriminate].
        rewrite (Hids s eq_refl) in Hkey. discriminate. }
      subst found.
      rewrite findElementIdBySelector_unfold. cbn [fst].
      rewrite Hsessions, get_set_same, Hobjects.
      cbn [Session.elementMappings Session.set_elementMappings].
      now apply findElementIdIn_mapped.
    - unfold ret in Hid. injection Hid as <- <-.
      rewrite findElementIdBySelector_unfold, Hs. exact Hfound. }
  assert (Hframe : sameMappings sessionId b1 b'
                   /\ TestStep.elementId step = elementId).
  { apply bind_Ok in H. destruct H as (shot & b2 & Hshot & H).
    pose proof (readOnly_Ok _ _ _ _ (readOnly_captureScreenshot env now)
                  Hshot). subst b2.
    apply bind_Ok in H. destruct H as (session & b2 & Hsession & H).
    apply requireSession_Ok in Hsession. destruct Hsession as [-> Hsession].
    apply bind_Ok in H. destruct H as ([] & b2 & Hrecord & H).
    apply bind_Ok in H. destruct H as ([] & b3 & Hemit & H).
    unfold ret in H. injection H as <- <-. split; [|reflexivity].
    apply sameMappings_trans with b2.
    - destruct (Session.isRecording session).
      + pose proof (sameMappings_updateSession sessionId sessionId
                      (fun s0 =>
                         Session.set_recordedSteps
                           (Session.recordedSteps s0 ++
                            [{| TestStep.id := "step-" ++ ofZ now;
                                TestStep.action := action;
                                TestStep.elementId := elementId;
                                TestStep.elementName := elementName;
                                TestStep.selector := Some selector;
                                TestStep.value := value;
                                TestStep.assertion := None;
                                TestStep.screenshot := Some shot;
                                TestStep.timestamp := now |}])%list s0)
                      (fun _ => eq_refl) b1) as Hkeep.
        now rewrite Hrecord in Hkeep.
      + unfold ret in Hrecord. injection Hrecord as <-.
        apply sameMappings_refl.
    - pose proof (sameMappings_emit sessionId "stepRecorded" sessionId b2)
        as Hkeep.
      now rewrite Hemit in Hkeep. }
  destruct Hframe as [Hframe ->].
  pose proof (sameMappings_lookup sessionId selector _ _ Hframe) as Hsame.
  rewrite Hb1 in Hsame.
  pose proof (readOnly_findElementIdBySelector sessionId selector b') as Hro.
  destruct (findElementIdBySelector sessionId selector b') as [r b2].
  cbn in Hsame, Hro. now subst.
Qed.

(** X17: the step a click or a fill returns names the element under which
    the selector is mapped in the session from then on: a lookup of the
    selector after the action answers the step's [elementId] (an element
    mapped before or by this action, or none when the selector was not
    mapped and no name was given). Element ids are not empty. *)
Theorem perform_elementId_is_lookup (B : Builtins) (sessionId : string)
  (command : Command) (env : Env) (now : Z) (b b' : Builder.t)
  (step : TestStep.t) :
  (forall s, JsMap.get (sessions b) sessionId = Some s ->
     JsMap.has (Session.elementMappings s) EmptyString = false) ->
  perform B sessionId (command, env, now) b = (Ok step, b') ->
  findElementIdBySelector sessionId (selectorOf command) b'
  = (Ok (TestStep.elementId step), b').
Proof.
  intros Hids H. unfold perform in H.
  destruct command as [selector elementName|selector value elementName];
    cbn [selectorOf].
  - unfold clickElement in H.
    apply bind_Ok in H. destruct H as (s & b1 & Hs & H).
    apply requireSession_Ok in Hs. destruct Hs as [-> Hs].
    apply bind_Ok in H. destruct H as ([] & b1 & Hnav & H).
    rewrite framesNavigated_state in Hnav. injection Hnav as <-.
    apply bind_Ok in H. destruct H as ([] & b1 & Hclick & H).
    apply await_Ok in Hclick. destruct Hclick as [_ ->].
    apply recordAction_lookup in H; [exact H|].
    intros s1 Hs1. rewrite (navigated_session _ _ _ _ Hs) in Hs1.
    injection Hs1 as <-.
    destruct (withNavigations_fields (clickNavigations env selector) s)
      as (_ & _ & _ & -> & _).
    now apply Hids.
  - unfold fillElement in H.
    apply bind_Ok in H. destruct H as (s & b1 & Hs & H).
    apply requireSession_Ok in Hs. destruct Hs as [-> Hs].
    apply bind_Ok in H. destruct H as ([] & b1 & Hnav & H).
    rewrite framesNavigated_state in Hnav. injection Hnav as <-.
    apply bind_Ok in H. destruct H as ([] & b1 & Hfill & H).
    apply await_Ok in Hfill. destruct Hfill as [_ ->].
    apply recordAction_lookup in H; [exact H|].
    intros s1 Hs1. rewrite (navigated_session _ _ _ _ Hs) in Hs1.
    injection Hs1 as <-.
    destruct (withNavigations_fields (fillNavigations env selector value) s) as (_ & _ & _ & -> & _).
    now apply Hids.
Qed.

Lemma perform_elementId_is_lookup_witness :
  findElementIdBySelector "s1" (selectorOf (Fill "#email" "ann" (Some "email")))
    (snd (perform fragmentBuiltins "s1"
            (Fill "#email" "ann" (Some "email"), loginPage, 1730%Z)
            authoringBuilder))
  = (Ok (Some "element-1730"),
     snd (perform fragmentBuiltins "s1"
            (Fill "#email" "ann" (Some "email"), loginPage, 1730%Z)
            authoringBuilder)).
Proof.
  apply (perform_elementId_is_lookup fragmentBuiltins "s1"
           (Fill "#email" "ann" (Some "email")) loginPage 1730
           authoringBuilder
           (snd (perform fragmentBuiltins "s1"
                   (Fill "#email" "ann" (Some "email"), loginPage, 1730%Z)
                   authoringBuilder))
           {| TestStep.id := "step-1730";
              TestStep.action := AFill;
              TestStep.elementId := Some "element-1730";
              TestStep.elementName := Some "email";
              TestStep.selector := Some "#email";
              TestStep.value := Some "ann";
              TestStep.assertion := None;
              TestStep.screenshot := Some "screenshots/screenshot-1730.png";
              TestStep.timestamp := 1730%Z |}).
  - intros s [= <-]. reflexivity.
  - reflexivity.
Defined.

(** ** Merge-update: the selectors of the updated model *)

Lemma selectorsOf_wellKeyed (objects : Store.t ElementMapping.t) :
  forall m : JsMap.t nat,
    (forall k l, In (k, l) m ->
       exists e, Store.read objects l = Some e
                 /\ ElementMapping.selector e = k) ->
    selectorsOf objects (JsMap.values m) = JsMap.keys m.
Proof.
  induction m as [|[k l] m IH]; intros Hm; [reflexivity|].
  destruct (Hm k l (or_introl eq_refl)) as (e & He & Hk).
  unfold selectorsOf, JsMap.values, JsMap.keys.
  cbn [map flat_map snd fst]. rewrite He, Hk. cbn [app]. f_equal.
  apply IH. intros k' l' Hin. apply Hm. now right.
Qed.

Lemma In_keys_set {V : Type} (m : JsMap.t V) (k k' : string) (v : V) :
  In k' (JsMap.keys (JsMap.set m k v)) <-> In k' (JsMap.keys m) \/ k' = k.
Proof.
  rewrite keys_set. destruct (JsMap.get m k) as [v0|] eqn:Hk.
  - split; [auto|]. intros [H| ->]; [exact H|].
    apply get_In in Hk. unfold JsMap.keys.
    change k with (fst (k, v0)). now apply in_map.
  - rewrite in_app_iff. cbn. intuition.
Qed.

Lemma addExisting_keys (objects : Store.t ElementMapping.t)
  (elements : list nat) :
  forall acc m,
    addExisting objects elements acc = Ok m ->
    wellKeyed objects acc ->
    wellKeyed objects m
    /\ forall k, In k (JsMap.keys m)
                 <-> In k (JsMap.keys acc)
                     \/ In k (selectorsOf objects elements).
Proof.
  induction elements as [|l rest IH]; intros acc m; cbn [addExisting].
  - intros [= <-] Hacc. split; [exact Hacc|]. cbn. intuition.
  - destruct (Store.read objects l) as [e|] eqn:He; [|discriminate].
    intros H Hacc.
    destruct (IH _ _ H (wellKeyed_set _ _ _ _ Hacc He)) as [Hm Hkeys].
    split; [exact Hm|]. intros k. rewrite Hkeys, In_keys_set.
    cbn [selectorsOf flat_map]. rewrite He. cbn [app In].
    fold (selectorsOf objects rest). intuition.
Qed.

Lemma mergeCurrent_keys (now : Z) (current : list ElementMapping.t) :
  forall objects merged,
    forall k,
      In k (JsMap.keys (snd (mergeCurrent now current objects merged)))
      <-> In k (JsMap.keys merged)
          \/ In k (map ElementMapping.selector current).
Proof.
  induction current as [|el rest IH]; intros objects merged k;
    cbn [mergeCurrent].
  - cbn. intuition.
  - destruct (JsMap.get merged (ElementMapping.selector el)) as [l|] eqn:Hget.
    + rewrite IH. cbn [map In]. split; [intuition|].
      intros [H|[<-|H]]; auto. left.
      apply get_In in Hget. unfold JsMap.keys.
      change (ElementMapping.selector el)
        with (fst (ElementMapping.selector el, l)).
      now apply in_map.
    + cbn. rewrite IH, In_keys_set. cbn [map In]. intuition.
Qed.

(** X18: after a merge-update that returns, the elements of the model have
    pairwise distinct selectors, and their selectors are exactly the
    selectors the model's elements had before together with the selectors
    extracted from the page now: none is lost, none is invented. *)
Theorem updatePageObjectModel_selectors (B : Builtins) (existing : nat)
  (env : Env) (now : Z) (b b' : Builder.t) (l : nat)
  (pom : PageObjectModel.t) (doc : Document) :
  updatePageObjectModel B existing env now b = (Ok l, b') ->
  Store.read (pageObjects b) existing = Some pom ->
  document env = Some doc ->
  exists pom',
    Store.read (pageObjects b') existing = Some pom'
    /\ NoDup (selectorsOf (elementObjects b') (PageObjectModel.elements pom'))
    /\ forall k,
         In k (selectorsOf (elementObjects b') (PageObjectModel.elements pom'))
         <-> In k (selectorsOf (elementObjects b)
                     (PageObjectModel.elements pom))
             \/ In k (map ElementMapping.selector (extractFrom doc now)).
Proof.
  intros H Hpom Hdoc. apply updatePageObjectModel_Ok in H.
  destruct H as (_ & current & pom0 & merged & objects' & merged' & Hcurrent
                   & Hpom0 & Hadd & Hmerge & ->).
  assert (pom0 = pom) by congruence. subst pom0.
  unfold extractAllElements in Hcurrent. rewrite Hdoc in Hcurrent.
  injection Hcurrent as <-.
  assert (Hempty : wellKeyed (elementObjects b) JsMap.empty).
  { split; [constructor|]. intros k l0 []. }
  destruct (addExisting_keys _ _ _ _ Hadd Hempty) as [Hmerged Hkeys].
  assert (Hknown : knownStable (elementObjects b) merged []).
  { intros k []. }
  destruct (mergeCurrent_first now _ (extractFrom_stable doc now)
              _ _ _ _ _ Hmerged Hknown Hmerge) as [[Hnodup Hentries] _].
  eexists. cbn [pageObjects set_pageObjects set_elementObjects elementObjects].
  split; [apply read_write_same; eapply read_Some_lt; eauto|].
  cbn [PageObjectModel.elements PageObjectModel.incr_version
         PageObjectModel.set_lastUpdated PageObjectModel.set_elements].
  rewrite (selectorsOf_wellKeyed _ _ Hentries).
  split; [exact Hnodup|]. intros k.
  pose proof (mergeCurrent_keys now (extractFrom doc now) (elementObjects b)
                merged k) as Hk.
  rewrite Hmerge in Hk. cbn [snd] in Hk. rewrite Hk, Hkeys. cbn. intuition.
Qed.

Lemma updatePageObjectModel_selectors_witness :
  exists pom',
    Store.read
      (pageObjects
         (snd (updatePageObjectModel fragmentBuiltins 0
                 (envOf laterVisit nothingResolves) 1800 storeBuilder))) 0
    = Some pom'
    /\ NoDup
         (selectorsOf
            (elementObjects
               (snd (updatePageObjectModel fragmentBuiltins 0
                       (envOf laterVisit nothingResolves) 1800 storeBuilder)))
            (PageObjectModel.elements pom'))
    /\ forall k,
         In k
           (selectorsOf
              (elementObjects
                 (snd (updatePageObjectModel fragmentBuiltins 0
                         (envOf laterVisit nothingResolves) 1800
                         storeBuilder)))
              (PageObjectModel.elements pom'))
         <-> In k (selectorsOf (elementObjects storeBuilder)
                     (PageObjectModel.elements loginPom))
             \/ In k (map ElementMapping.selector
                        (extractFrom laterVisit 1800)).
Proof.
  apply (updatePageObjectModel_selectors fragmentBuiltins 0
           (envOf laterVisit nothingResolves) 1800 storeBuilder
           (snd (updatePageObjectModel fragmentBuiltins 0
                   (envOf laterVisit nothingResolves) 1800 storeBuilder))
           0 loginPom laterVisit);
    reflexivity.
Defined.

(** ** The session routes: status codes and the engine state *)

Lemma requireSession_bind_missing {C : Type} (sessionId : string)
  (k : Session.t -> M C) (b : Builder.t) :
  JsMap.get (sessions b) sessionId = None ->
  bind (requireSession sessionId) k b = (Throw "Session not found", b).
Proof.
  intros Hs. unfold bind. now rewrite (requireSession_missing _ _ Hs).
Qed.

(** X19: whatever the request, a route answers 400 exactly when a required
    field is missing or empty; an answer 400 or 404 leaves the engine as it
    was; 404 is only answered for a session that does not exist; and the
    [success] flag is set exactly on status 200. *)
Theorem route_client_errors (B : Builtins)
  (generateTestCode : Session.t -> option PageObjectModel.t -> string)
  (sessionId : string) (call : SessionRoutes.Call) (env : Env) (now : Z)
  (b : Builder.t) :
  let r := fst (SessionRoutes.route B generateTestCode sessionId call env now b) in
  let b' := snd (SessionRoutes.route B generateTestCode sessionId call env now b) in
  (Routes.status r = 400 <-> wellFormed call = false)
  /\ (Routes.status r = 400 \/ Routes.status r = 404 -> b' = b)
  /\ (Routes.status r = 404 -> JsMap.get (sessions b) sessionId = None)
  /\ Routes.success r = (Routes.status r =? 200).
Proof.
  assert (Hanswer : forall (A : Type) (outcome : result A * Builder.t)
            (done : A -> option string) (failed : string),
            let r := fst (SessionRoutes.answer outcome done failed) in
            let b' := snd (SessionRoutes.answer outcome done failed) in
            (Routes.status r = 400 <-> true = false)
            /\ (Routes.status r = 400 \/ Routes.status r = 404 -> b' = b)
            /\ (Routes.status r = 404 ->
                JsMap.get (sessions b) sessionId = None)
            /\ Routes.success r = (Routes.status r =? 200)).
  { intros A [[a|message] b1] done failed; cbn;
      (split; [split; discriminate|]);
      (split; [intros [H|H]; discriminate|]);
      (split; [discriminate | reflexivity]). }
  destruct call; cbn [SessionRoutes.route wellFormed].
  - unfold SessionRoutes.navigate.
    destruct url as [u|]; cbn [truthy_opt].
    2: { cbn. repeat split; auto; discriminate. }
    destruct (truthy u).
    2: { cbn. repeat split; auto; discriminate. }
    destruct (navigateAndAnalyze B sessionId u env now b) as [[l|message] b1].
    + destruct (JsMap.get (sessions b1) sessionId);
        [destruct (screenshotOk env)|]; cbn;
        (split; [split; discriminate|]);
        (split; [intros [H|H]; discriminate|]);
        (split; [discriminate | reflexivity]).
    + cbn. (split; [split; discriminate|]).
      (split; [intros [H|H]; discriminate|]).
      split; [discriminate | reflexivity].
  - apply Hanswer.
  - apply Hanswer.
  - unfold SessionRoutes.click.
    destruct selector as [sel|]; cbn [truthy_opt].
    2: { cbn. repeat split; auto; discriminate. }
    destruct (truthy sel); [apply Hanswer|].
    cbn. repeat split; auto; discriminate.
  - unfold SessionRoutes.fill.
    destruct selector as [sel|]; cbn [truthy_opt andb].
    2: { destruct value; cbn; repeat split; auto; discriminate. }
    destruct value as [v|].
    2: { rewrite andb_false_r. cbn. repeat split; auto; discriminate. }
    rewrite andb_true_r.
    destruct (truthy sel); [apply Hanswer|].
    cbn. repeat split; auto; discriminate.
  - unfold SessionRoutes.mapElement.
    destruct selector as [sel|]; cbn [truthy_opt andb].
    2: { destruct name; cbn; repeat split; auto; discriminate. }
    destruct name as [n|].
    2: { rewrite andb_false_r. cbn. repeat split; auto; discriminate. }
    cbn [truthy_opt]. destruct (truthy sel && truthy n).
    2: { cbn. repeat split; auto; discriminate. }
    destruct (JsMap.get (sessions b) sessionId) as [s|] eqn:Hs.
    + destruct (mapNewElement B sessionId sel n env now b)
        as [[a|message] b1]; cbn;
        (split; [split; discriminate|]);
        (split; [intros [H|H]; discriminate|]);
        (split; [discriminate | reflexivity]).
    + cbn. (split; [split; discriminate|]). repeat split; auto.
  - apply Hanswer.
  - unfold SessionRoutes.sessionDetails.
    destruct (JsMap.get (sessions b) sessionId) as [s|] eqn:Hs; cbn.
    + (split; [split; discriminate|]).
      (split; [reflexivity|]). split; [discriminate | reflexivity].
    + (split; [split; discriminate|]). repeat split; auto.
  - unfold Routes.deleteSession.
    destruct (endSession sessionId env b) as [[[]|message] b1]; cbn;
      (split; [split; discriminate|]);
      (split; [intros [H|H]; discriminate|]);
      (split; [discriminate | reflexivity]).
Qed.

(** X20: how each route reports a session that does not exist, for a
    request that carries its required fields: status 404 from the mapping
    and the details routes, status 500 with the route's own failure
    message from navigate, record, click, fill and verify, and status 200
    from delete; the engine is left as it was in every case. *)
Theorem route_without_session (B : Builtins)
  (generateTestCode : Session.t -> option PageObjectModel.t -> string)
  (sessionId : string) (call : SessionRoutes.Call) (env : Env) (now : Z)
  (b : Builder.t) :
  JsMap.get (sessions b) sessionId = None ->
  wellFormed call = true ->
  SessionRoutes.route B generateTestCode sessionId call env now b
  = (withoutSession call, b).
Proof.
  intros Hs Hcall.
  destruct call; cbn [SessionRoutes.route withoutSession wellFormed] in *.
  - unfold SessionRoutes.navigate. destruct url as [u|]; [|discriminate].
    cbn [truthy_opt] in Hcall. rewrite Hcall.
    unfold navigateAndAnalyze.
    now rewrite (requireSession_bind_missing _ _ _ Hs).
  - unfold SessionRoutes.recordStart, startRecording.
    now rewrite (requireSession_bind_missing _ _ _ Hs).
  - unfold SessionRoutes.recordStop, stopRecording.
    now rewrite (requireSession_bind_missing _ _ _ Hs).
  - unfold SessionRoutes.click. destruct selector as [sel|]; [|discriminate].
    cbn [truthy_opt] in Hcall. rewrite Hcall.
    unfold clickElement.
    now rewrite (requireSession_bind_missing _ _ _ Hs).
  - unfold SessionRoutes.fill. destruct selector as [sel|]; [|discriminate].
    destruct value as [v|]; [|now rewrite andb_false_r in Hcall].
    cbn [truthy_opt] in Hcall. rewrite andb_true_r in Hcall. rewrite Hcall.
    unfold fillElement.
    now rewrite (requireSession_bind_missing _ _ _ Hs).
  - unfold SessionRoutes.mapElement.
    destruct selector as [sel|]; [|discriminate].
    destruct name as [n|]; [|now rewrite andb_false_r in Hcall].
    cbn [truthy_opt] in Hcall. now rewrite Hcall, Hs.
  - unfold SessionRoutes.verify, verifyElementStability.
    now rewrite (requireSession_bind_missing _ _ _ Hs).
  - unfold SessionRoutes.sessionDetails. now rewrite Hs.
  - unfold Routes.deleteSession. now rewrite (endSession_missing _ _ _ Hs).
Qed.

Lemma route_without_session_witness :
  SessionRoutes.route fragmentBuiltins noCode "s9"
    (SessionRoutes.Click (Some "#login") None) loginPage 1730
    authoringBuilder
  = (SessionRoutes.failure 500 "Failed to click element", authoringBuilder).
Proof.
  apply (route_without_session fragmentBuiltins noCode "s9"
           (SessionRoutes.Click (Some "#login") None) loginPage 1730
           authoringBuilder);
    reflexivity.
Defined.

Lemma route_client_errors_witness :
  let r :=
    fst (SessionRoutes.route fragmentBuiltins noCode "s1"
           (SessionRoutes.MapElement (Some "#email") (Some EmptyString))
           loginPage 1730 authoringBuilder) in
  let b' :=
    snd (SessionRoutes.route fragmentBuiltins noCode "s1"
           (SessionRoutes.MapElement (Some "#email") (Some EmptyString))
           loginPage 1730 authoringBuilder) in
  (Routes.status r = 400
   <-> wellFormed
         (SessionRoutes.MapElement (Some "#email") (Some EmptyString))
       = false)
  /\ (Routes.status r = 400 \/ Routes.status r = 404 ->
      b' = authoringBuilder)
  /\ (Routes.status r = 404 ->
      JsMap.get (sessions authoringBuilder) "s1" = None)
  /\ Routes.success r = (Routes.status r =? 200).
Proof.
  apply (route_client_errors fragmentBuiltins noCode "s1"
           (SessionRoutes.MapElement (Some "#email") (Some EmptyString))
           loginPage 1730 authoringBuilder).
Defined.

(** X21: lookups that find nothing. Mapping a selector that matches no
    element answers 500 "Failed to map element" and changes nothing;
    verifying an element id the session does not know answers 200 with
    "Element selector needs update", as for an element whose selectors no
    longer resolve, and changes nothing. *)
Theorem route_nothing_found (B : Builtins) (sessionId : string)
  (selector name elementId : string) (env : Env) (now : Z) (b : Builder.t)
  (s : Session.t) :
  JsMap.get (sessions b) sessionId = Some s ->
  truthy selector = true -> truthy name = true ->
  locate env selector = Missing ->
  JsMap.get (Session.elementMappings s) elementId = None ->
  SessionRoutes.mapElement B sessionId (Some selector) (Some name) env now b
  = (SessionRoutes.failure 500 "Failed to map element", b)
  /\ SessionRoutes.verify sessionId elementId env now b
     = (SessionRoutes.ok (Some "Element selector needs update"), b).
Proof.
  intros Hs Hselector Hname Hmissing Hunknown. split.
  - unfold SessionRoutes.mapElement. rewrite Hselector, Hname, Hs.
    cbn [andb]. unfold mapNewElement. unfold bind at 1.
    rewrite (requireSession_found _ _ _ Hs), Hmissing. reflexivity.
  - unfold SessionRoutes.verify, verifyElementStability.
    unfold bind at 1. rewrite (requireSession_found _ _ _ Hs).
    unfold bind at 1, gets at 1. rewrite Hunknown. reflexivity.
Qed.

Lemma route_nothing_found_witness :
  SessionRoutes.mapElement fragmentBuiltins "s1" (Some "#gone")
    (Some "gone") loginPage 1730 authoringBuilder
  = (SessionRoutes.failure 500 "Failed to map element", authoringBuilder)
  /\ SessionRoutes.verify "s1" "element-0" loginPage 1730 authoringBuilder
     = (SessionRoutes.ok (Some "Element selector needs update"),
        authoringBuilder).
Proof.
  apply (route_nothing_found fragmentBuiltins "s1" "#gone" "gone"
           "element-0" loginPage 1730 authoringBuilder authoringSession);
    reflexivity.
Defined.

(** ** Code Synthesizer: names *)

Import Synthesizer.

Lemma append_empty_r (s : string) : s ++ EmptyString = s.
Proof. induction s as [|c s IH]; cbn [append]; congruence. Qed.

Lemma every_append (f : ascii -> bool) (a b : string) :
  every f (a ++ b) = every f a && every f b.
Proof.
  induction a as [|c a IH]; cbn [append every]; [reflexivity|].
  now rewrite IH, andb_assoc.
Qed.

Lemma concat_cons (x : string) (xs : list string) :
  String.concat EmptyString (x :: xs) = x ++ String.concat EmptyString xs.
Proof.
  destruct xs as [|y ys]; cbn [String.concat].
  - now rewrite append_empty_r.
  - reflexivity.
Qed.

Lemma upperChar_alnum (c : ascii) :
  isLowerAlnum c = true -> isAlnum (upperChar c) = true.
Proof.
  destruct c as [[] [] [] [] [] [] [] []]; vm_compute; intros H;
    try discriminate H; reflexivity.
Qed.

Lemma isLowerAlnum_alnum (c : ascii) :
  isLowerAlnum c = true -> isAlnum c = true.
Proof.
  destruct c as [[] [] [] [] [] [] [] []]; vm_compute; intros H;
    try discriminate H; reflexivity.
Qed.

Lemma every_weaken (f g : ascii -> bool) (s : string) :
  (forall c, f c = true -> g c = true) ->
  every f s = true -> every g s = true.
Proof.
  intros Hfg. induction s as [|c s IH]; [auto|]. cbn [every]. intros H.
  apply andb_true_iff in H. destruct H as [Hc Hs].
  now rewrite (Hfg _ Hc), IH.
Qed.

Lemma capitalize_alnum (word : string) :
  every isLowerAlnum word = true -> every isAlnum (capitalize word) = true.
Proof.
  destruct word as [|c rest]; [auto|]. cbn [capitalize every]. intros H.
  apply andb_true_iff in H. destruct H as [Hc Hrest].
  rewrite (upperChar_alnum _ Hc). cbn [andb].
  now apply every_weaken with isLowerAlnum; [apply isLowerAlnum_alnum|].
Qed.

Lemma split_words_alnum (s : string) :
  forall current,
    every isNameChar s = true ->
    every isLowerAlnum current = true ->
    every isAlnum
      (String.concat EmptyString
         (map capitalize (Url.split "_"%char s current))) = true.
Proof.
  induction s as [|c s IH]; intros current Hs Hcurrent; cbn [Url.split].
  - cbn [map String.concat]. now apply capitalize_alnum.
  - cbn [every] in Hs. apply andb_true_iff in Hs. destruct Hs as [Hc Hs].
    destruct (Ascii.eqb c "_"%char) eqn:E.
    + cbn [map]. rewrite concat_cons, every_append.
      rewrite (capitalize_alnum _ Hcurrent). cbn [andb].
      now apply IH.
    + apply IH; [exact Hs|]. rewrite every_append, Hcurrent. cbn.
      unfold isNameChar in Hc. rewrite E, orb_false_r in Hc. now rewrite Hc.
Qed.

Lemma split_head (sep : ascii) (s : string) :
  forall current,
    exists word words, Url.split sep s current = (current ++ word) :: words.
Proof.
  induction s as [|c s IH]; intros current; cbn [Url.split].
  - exists EmptyString, []. now rewrite append_empty_r.
  - destruct (Ascii.eqb c sep).
    + exists EmptyString. eexists. now rewrite append_empty_r.
    + destruct (IH (current ++ String c EmptyString)) as (word & words & ->).
      exists (String c word), words. now rewrite append_assoc3.
Qed.

Lemma toPascalCase_truthy (name : string) :
  truthy name = true -> startsWithUnderscore name = false ->
  truthy (toPascalCase name) = true.
Proof.
  destruct name as [|c name]; [discriminate|]. intros _ Hc.
  cbn [startsWithUnderscore] in Hc. unfold toPascalCase. cbn [Url.split].
  rewrite Hc.
  destruct (split_head "_"%char name (EmptyString ++ String c EmptyString))
    as (word & words & ->).
  cbn [map]. rewrite concat_cons. reflexivity.
Qed.

(** X22: the method names the synthesizer derives from a generated element
    name are made of letters and digits only, and are not empty:
    [toPascalCase] of a name produced by [generateElementName] has no
    underscore or other punctuation left. *)
Theorem toPascalCase_generated_name (text : string) (type : ElementType) :
  every isAlnum (toPascalCase (generateElementName text type)) = true
  /\ truthy (toPascalCase (generateElementName text type)) = true.
Proof.
  destruct (generateElementName_shape text type) as (_ & Htruthy & Hchars).
  split.
  - unfold toPascalCase. now apply split_words_alnum.
  - apply toPascalCase_truthy; [exact Htruthy|].
    unfold generateElementName. fold (slug (take 30 text)).
    destruct (truthy (slug (take 30 text))).
    + apply slug_underscores.
    + now destruct type.
Qed.

Lemma length_append (a b : string) :
  String.length (a ++ b) = String.length a + String.length b.
Proof. induction a as [|c a IH]; cbn [append String.length]; lia. Qed.

Lemma replaceSuffix_app (suffix replacement base : string) :
  replaceSuffix suffix replacement (base ++ suffix) = base ++ replacement.
Proof.
  induction base as [|c base IH]; cbn [append].
  - destruct suffix; cbn [replaceSuffix]; now rewrite String.eqb_refl.
  - cbn [replaceSuffix].
    assert (Hne : String.eqb (String c (base ++ suffix)) suffix = false).
    { apply String.eqb_neq. intros Heq.
      apply (f_equal String.length) in Heq. cbn in Heq.
      rewrite length_append in Heq. lia. }
    now rewrite Hne, IH.
Qed.

Lemma hyphenate_pair (c d : ascii) (s : string) :
  hyphenate (String c (String d s))
  = if Url.isLowerLetter c && isUpperLetter d
    then String c (String "-" (String d (hyphenate s)))
    else String c (hyphenate (String d s)).
Proof. reflexivity. Qed.

Lemma hyphenate_Page (s : string) :
  (exists y, hyphenate (s ++ "Page") = y ++ "Page")
  /\ forall c, exists y, hyphenate (String c s ++ "Page") = y ++ "Page".
Proof.
  induction s as [|d s [IH0 IH1]].
  - split; [now exists EmptyString|]. intros c.
    destruct (Url.isLowerLetter c) eqn:Hc.
    + exists (String c (String "-" EmptyString)).
      cbn [append]. rewrite hyphenate_pair, Hc. reflexivity.
    + exists (String c EmptyString). cbn [append].
      rewrite hyphenate_pair, Hc. reflexivity.
  - split; [apply IH1|]. intros c.
    change (String c (String d s) ++ "Page")
      with (String c (String d (s ++ "Page"))).
    rewrite hyphenate_pair.
    destruct (Url.isLowerLetter c && isUpperLetter d).
    + destruct IH0 as [y Hy]. exists (String c (String "-" (String d y))).
      now rewrite Hy.
    + destruct (IH1 d) as [y Hy]. exists (String c y).
      change (String d (s ++ "Page")) with (String d s ++ "Page").
      now rewrite Hy.
Qed.

Lemma toLowerCase_append (a b : string) :
  toLowerCase (a ++ b) = toLowerCase a ++ toLowerCase b.
Proof. induction a as [|c a IH]; cbn [append toLowerCase]; congruence. Qed.

Lemma lowerChar_notUpper (c : ascii) : notUpperLetter (lowerChar c) = true.
Proof. destruct c as [[] [] [] [] [] [] [] []]; reflexivity. Qed.

Lemma toLowerCase_notUpper (s : string) :
  every notUpperLetter (toLowerCase s) = true.
Proof.
  induction s as [|c s IH]; [reflexivity|]. cbn [toLowerCase every].
  now rewrite lowerChar_notUpper, IH.
Qed.

Lemma generatePageName_Ok (B : Builtins) (title url name : string) :
  generatePageName B title url = Ok name ->
  exists c rest, name = String (upperChar c) (rest ++ "Page").
Proof.
  unfold generatePageName.
  destruct (urlPathname B url) as [urlPath|]; [|discriminate].
  cbv zeta.
  set (segments := filter truthy (Url.split "/"%char urlPath EmptyString)).
  assert (Hlast : truthy match rev segments with
                         | last :: _ => last
                         | [] => "home"
                         end = true).
  { destruct (rev segments) as [|last others] eqn:Hrev; [reflexivity|].
    assert (Hin : In last segments).
    { apply in_rev. rewrite Hrev. now left. }
    unfold segments in Hin. apply filter_In in Hin. apply Hin. }
  destruct (match rev segments with
            | last :: _ => last
            | [] => "home"
            end) as [|c rest]; [discriminate|].
  intros [= <-]. now exists c, rest.
Qed.

(** X23: for every page name [generatePageName] produces, the variable the
    generated test uses ([toCamelCase]) is the last path segment with its
    first letter in lower case, the [Page] suffix removed; and the file
    name ([toFileName]) has no capital letter and ends in [.page]. *)
Theorem generatePageName_derived_names (B : Builtins)
  (title url name : string) :
  generatePageName B title url = Ok name ->
  exists c rest,
    name = String (upperChar c) (rest ++ "Page")
    /\ toCamelCase name = String (lowerChar (upperChar c)) rest
    /\ endsWith ".page" (toFileName name)
    /\ every notUpperLetter (toFileName name) = true.
Proof.
  intros H. destruct (generatePageName_Ok _ _ _ _ H) as (c & rest & ->).
  exists c, rest. split; [reflexivity|]. split.
  { cbn [toCamelCase]. rewrite (replaceSuffix_app "Page" EmptyString rest).
    now rewrite append_empty_r. }
  unfold toFileName.
  destruct (proj2 (hyphenate_Page rest) (upperChar c)) as [y Hy].
  change (String (upperChar c) (rest ++ "Page"))
    with (String (upperChar c) rest ++ "Page").
  rewrite Hy, toLowerCase_append.
  change (toLowerCase "Page") with "page".
  rewrite replaceSuffix_app. split.
  - now exists (toLowerCase y).
  - rewrite every_append, toLowerCase_notUpper. reflexivity.
Qed.

Lemma generatePageName_derived_names_witness :
  exists c rest,
    "LoginPage" = String (upperChar c) (rest ++ "Page")
    /\ toCamelCase "LoginPage" = String (lowerChar (upperChar c)) rest
    /\ endsWith ".page" (toFileName "LoginPage")
    /\ every notUpperLetter (toFileName "LoginPage") = true.
Proof.
  apply (generatePageName_derived_names fragmentBuiltins "Log in"
           "https://shop.example/login" "LoginPage").
  reflexivity.
Defined.

(** ** Code Synthesizer: the test and the class *)

Lemma occurs_refl (s : string) : occurs s s.
Proof. exists EmptyString, EmptyString. cbn. now rewrite append_empty_r. Qed.

Lemma occurs_append_l (needle text more : string) :
  occurs needle text -> occurs needle (text ++ more).
Proof.
  intros (before & after & ->). exists before, (after ++ more).
  now rewrite !append_assoc3.
Qed.

Lemma occurs_append_r (needle text more : string) :
  occurs needle text -> occurs needle (more ++ text).
Proof.
  intros (before & after & ->). exists (more ++ before), after.
  now rewrite !append_assoc3.
Qed.

Lemma occurs_prefix (needle rest : string) : occurs needle (needle ++ rest).
Proof. apply occurs_append_l, occurs_refl. Qed.

(** What a [forEach] that appends to [code] leaves of the code so far and
    of each piece it appends. *)
Lemma fold_append_keeps {A : Type} (f : A -> string) (needle : string)
  (l : list A) :
  forall code,
    occurs needle code ->
    occurs needle (fold_left (fun code a => code ++ f a) l code).
Proof.
  induction l as [|a l IH]; intros code H; cbn [fold_left]; [exact H|].
  apply IH. now apply occurs_append_l.
Qed.

Lemma fold_append_In {A : Type} (f : A -> string) (a : A) (l : list A) :
  In a l ->
  forall code, occurs (f a) (fold_left (fun code a => code ++ f a) l code).
Proof.
  induction l as [|x l IH]; intros Hin code; [destruct Hin|].
  cbn [fold_left]. destruct Hin as [->|Hin].
  - apply fold_append_keeps. apply occurs_append_r, occurs_refl.
  - now apply IH.
Qed.

(** X24: the code [stopRecording] returns is the synthesizer's test for the
    session as it stands: every step recorded so far occurs in it as a
    line of its own, in a test that is closed, and the recorded steps stay
    in the session. *)
Theorem stopRecording_code (sessionId : string) (env : Env)
  (b b' : Builder.t) (code : string) :
  stopRecording generateTestCode sessionId env b = (Ok code, b') ->
  exists s pom,
    JsMap.get (sessions b) sessionId = Some s
    /\ pom = match Session.currentPageObject s with
             | Some l => Store.read (pageObjects b) l
             | None => None
             end
    /\ (forall step, In step (Session.recordedSteps s) ->
          occurs (generateStepCode step pom ++ nl) code)
    /\ endsWith ("});" ++ nl) code
    /\ recordedStepsOf sessionId b' = Session.recordedSteps s
    /\ isRecordingOf sessionId b' = false.
Proof.
  unfold stopRecording. intros H.
  apply bind_Ok in H. destruct H as (s & b1 & Hs & H).
  apply requireSession_Ok in Hs. destruct Hs as [-> Hs].
  apply bind_Ok in H. destruct H as ([] & b1 & H1 & H).
  rewrite (updateSession_found _ _ _ _ Hs) in H1. injection H1 as <-.
  apply bind_Ok in H. destruct H as ([] & b1 & H1 & H).
  assert (b1 = set_sessions
                 (JsMap.set (sessions b) sessionId
                    (Session.set_isRecording false s)) b).
  { destruct (truthy_opt (Session.traceFile s)).
    - apply await_Ok in H1. now destruct H1.
    - unfold ret in H1. now injection H1 as <-. }
  subst b1. clear H1.
  apply bind_Ok in H. destruct H as (s1 & b1 & Hs1 & H).
  apply requireSession_Ok in Hs1. destruct Hs1 as [-> Hs1].
  cbn [sessions set_sessions] in Hs1. rewrite get_set_same in Hs1.
  injection Hs1 as <-.
  apply bind_Ok in H. destruct H as (pom & b1 & Hpom & H).
  unfold gets in Hpom. injection Hpom as <- <-.
  apply bind_Ok in H. destruct H as ([] & b1 & Hemit & H).
  unfold emit, modify in Hemit. injection Hemit as <-.
  unfold ret in H. injection H as <- <-.
  cbn [Session.currentPageObject Session.set_isRecording pageObjects
         set_sessions].
  exists s. eexists. split; [exact Hs|]. split; [reflexivity|].
  split; [|split; [|split]].
  - intros step Hstep. unfold generateTestCode.
    cbn [Session.recordedSteps Session.set_isRecording].
    apply occurs_append_l.
    apply (fold_append_In (fun step0 => generateStepCode step0 _ ++ nl)
             step _ Hstep).
  - unfold generateTestCode. eexists. reflexivity.
  - unfold recordedStepsOf. cbn [sessions set_emitted set_sessions].
    now rewrite get_set_same.
  - unfold isRecordingOf, recording. cbn [sessions set_emitted set_sessions].
    now rewrite get_set_same.
Qed.

Lemma stopRecording_code_witness :
  exists s pom,
    JsMap.get (sessions recordedBuilder) "s1" = Some s
    /\ pom = match Session.currentPageObject s with
             | Some l => Store.read (pageObjects recordedBuilder) l
             | None => None
             end
    /\ (forall step, In step (Session.recordedSteps s) ->
          occurs (generateStepCode step pom ++ nl) emailTest)
    /\ endsWith ("});" ++ nl) emailTest
    /\ recordedStepsOf "s1"
         (snd (stopRecording generateTestCode "s1" loginPage recordedBuilder))
       = Session.recordedSteps s
    /\ isRecordingOf "s1"
         (snd (stopRecording generateTestCode "s1" loginPage recordedBuilder))
       = false.
Proof.
  apply (stopRecording_code "s1" loginPage recordedBuilder
           (snd (stopRecording generateTestCode "s1" loginPage
                   recordedBuilder))
           emailTest).
  reflexivity.
Defined.

Lemma occurs_trans (a b c : string) : occurs a b -> occurs b c -> occurs a c.
Proof.
  intros (before & after & ->) (before' & after' & ->).
  exists (before' ++ before), (after ++ after').
  now rewrite !append_assoc3.
Qed.

Lemma actionMethods_In_class (B : Builtins) (pom : PageObjectModel.t)
  (elements : list ElementMapping.t) (classCode : string)
  (e : ElementMapping.t) :
  generatePageObjectClass B pom elements = Ok classCode ->
  In e elements -> occurs (actionMethods e) classCode.
Proof.
  unfold generatePageObjectClass. cbv zeta.
  destruct (urlPathname B (PageObjectModel.url pom)) as [pathname|];
    [|discriminate].
  intros H Hin. injection H as <-.
  do 5 apply occurs_append_l.
  now apply (fold_append_In actionMethods).
Qed.

(** X25: the generated test and the generated class agree on method names.
    For a step recorded on a mapped element under that element's name, a
    click on a button or a link is written as a call of [click<Name>] and
    a fill of an input as a call of [fill<Name>], and the class generated
    for a model that holds the element declares that method. *)
Theorem generated_test_calls_declared_method (B : Builtins)
  (pom : PageObjectModel.t) (elements : list ElementMapping.t)
  (classCode : string) (e : ElementMapping.t) (step : TestStep.t) :
  generatePageObjectClass B pom elements = Ok classCode ->
  In e elements ->
  TestStep.elementName step = Some (ElementMapping.name e) ->
  truthy (ElementMapping.name e) = true ->
  truthy_opt (TestStep.elementId step) = true ->
  (TestStep.action step = AClick ->
   ElementMapping.type e = TButton \/ ElementMapping.type e = TLink ->
   generateStepCode step (Some pom)
   = "  await " ++ toCamelCase (PageObjectModel.name pom) ++ ".click"
     ++ toPascalCase (ElementMapping.name e) ++ "();"
   /\ occurs
        ("  async click" ++ toPascalCase (ElementMapping.name e)
         ++ "(): Promise<void> {") classCode)
  /\ (TestStep.action step = AFill ->
      ElementMapping.type e = TInput ->
      generateStepCode step (Some pom)
      = "  await " ++ toCamelCase (PageObjectModel.name pom) ++ ".fill"
        ++ toPascalCase (ElementMapping.name e) ++ "('"
        ++ interpolateOptional (TestStep.value step) ++ "');"
      /\ occurs
           ("  async fill" ++ toPascalCase (ElementMapping.name e)
            ++ "(value: string): Promise<void> {") classCode).
Proof.
  intros Hclass Hin Hname Htruthy Hid.
  pose proof (actionMethods_In_class _ _ _ _ _ Hclass Hin) as Hmethods.
  assert (Hdefault : or_default (TestStep.elementName step) "element"
                     = ElementMapping.name e).
  { rewrite Hname. cbn [or_default]. now rewrite Htruthy. }
  split.
  - intros Haction Htype. split.
    + unfold generateStepCode. rewrite Haction, Hid, Hdefault. reflexivity.
    + apply occurs_trans with (actionMethods e); [|exact Hmethods].
      unfold actionMethods.
      assert (Hbutton :
        String.eqb (ElementType_to_string (ElementMapping.type e)) "button"
        || String.eqb (ElementType_to_string (ElementMapping.type e)) "link"
        = true).
      { destruct Htype as [-> | ->]; reflexivity. }
      rewrite Hbutton. apply occurs_append_l.
      exists EmptyString. eexists. cbn [append].
      rewrite !append_assoc3. reflexivity.
  - intros Haction Htype. split.
    + unfold generateStepCode. rewrite Haction, Hid, Hdefault. reflexivity.
    + apply occurs_trans with (actionMethods e); [|exact Hmethods].
      unfold actionMethods.
      assert (Hbutton :
        String.eqb (ElementType_to_string (ElementMapping.type e)) "button"
        || String.eqb (ElementType_to_string (ElementMapping.type e)) "link"
        = false) by (rewrite Htype; reflexivity).
      assert (Hinput :
        String.eqb (ElementType_to_string (ElementMapping.type e)) "input"
        = true) by (rewrite Htype; reflexivity).
      rewrite Hbutton, Hinput.
      apply occurs_append_r, occurs_append_l.
      exists EmptyString. eexists. cbn [append].
      rewrite !append_assoc3. reflexivity.
Qed.

Lemma generated_test_calls_declared_method_witness :
  (TestStep.action clickLoginStep = AClick ->
   ElementMapping.type loginButton = TButton
   \/ ElementMapping.type loginButton = TLink ->
   generateStepCode clickLoginStep (Some loginPom)
   = "  await " ++ toCamelCase (PageObjectModel.name loginPom) ++ ".click"
     ++ toPascalCase (ElementMapping.name loginButton) ++ "();"
   /\ occurs
        ("  async click" ++ toPascalCase (ElementMapping.name loginButton)
         ++ "(): Promise<void> {") loginClass)
  /\ (TestStep.action clickLoginStep = AFill ->
      ElementMapping.type loginButton = TInput ->
      generateStepCode clickLoginStep (Some loginPom)
      = "  await " ++ toCamelCase (PageObjectModel.name loginPom) ++ ".fill"
        ++ toPascalCase (ElementMapping.name loginButton) ++ "('"
        ++ interpolateOptional (TestStep.value clickLoginStep) ++ "');"
      /\ occurs
           ("  async fill" ++ toPascalCase (ElementMapping.name loginButton)
            ++ "(value: string): Promise<void> {") loginClass).
Proof.
  apply (generated_test_calls_declared_method fragmentBuiltins loginPom
           [loginButton; passwordField] loginClass loginButton
           clickLoginStep);
    first [reflexivity | now left].
Defined.

(** ** Page Object Store: what the lookup by URL answers *)

(** A model matches a URL: the URLs are equal, or the model's pattern, as
    a regular expression, tests true on the URL. *)
Lemma findPageObjectIn_sound (B : Builtins)
  (objects : Store.t PageObjectModel.t) (url : string) :
  forall values,
    match findPageObjectIn B objects values url with
    | Ok (Some l) =>
        In l values
        /\ exists pom,
             Store.read objects l = Some pom
             /\ (PageObjectModel.url pom = url
                 \/ (truthy_opt (PageObjectModel.urlPattern pom) = true
                     /\ regexpTest B
                          (interpolate (PageObjectModel.urlPattern pom)) url
                        = Ok true))
    | Ok None =>
        forall l, In l values ->
          exists pom,
            Store.read objects l = Some pom
            /\ PageObjectModel.url pom <> url
            /\ (truthy_opt (PageObjectModel.urlPattern pom) = true ->
                regexpTest B
                  (interpolate (PageObjectModel.urlPattern pom)) url
                = Ok false)
    | Throw _ => True
    end.
Proof.
  induction values as [|l0 rest IH]; cbn [findPageObjectIn].
  - intros l [].
  - destruct (Store.read objects l0) as [pom|] eqn:Hpom; [|exact I].
    destruct (String.eqb (PageObjectModel.url pom) url) eqn:Hurl.
    { apply String.eqb_eq in Hurl. split; [now left|]. exists pom. auto. }
    apply String.eqb_neq in Hurl.
    destruct (truthy_opt (PageObjectModel.urlPattern pom)) eqn:Hpattern.
    + destruct (regexpTest B _ url) as [[|]|] eqn:Htest; [| |exact I].
      * split; [now left|]. exists pom. auto.
      * destruct (findPageObjectIn B objects rest url) as [[l|]|];
          [| |exact I].
        -- destruct IH as [Hin Hex]. split; [now right | exact Hex].
        -- intros l [<-|Hin]; [|now apply IH]. exists pom. auto.
    + destruct (findPageObjectIn B objects rest url) as [[l|]|]; [| |exact I].
      * destruct IH as [Hin Hex]. split; [now right | exact Hex].
      * intros l [<-|Hin]; [|now apply IH]. exists pom.
        split; [exact Hpom|]. split; [exact Hurl|]. intros H. congruence.
Qed.

(** X26: [findPageObjectByUrl] never changes the engine. A model it
    returns is in the repository and matches the URL: its URL is the
    given one, or its pattern tests true on it. When it returns none,
    every model of the repository has another URL and a pattern (if any)
    that tests false. *)
Theorem findPageObjectByUrl_answer (B : Builtins) (url : string)
  (b b' : Builder.t) (found : option nat) :
  findPageObjectByUrl B url b = (Ok found, b') ->
  b' = b
  /\ match found with
     | Some l =>
         In l (getAllPageObjects b)
         /\ exists pom,
              Store.read (pageObjects b) l = Some pom
              /\ (PageObjectModel.url pom = url
                  \/ (truthy_opt (PageObjectModel.urlPattern pom) = true
                      /\ regexpTest B
                           (interpolate (PageObjectModel.urlPattern pom)) url
                         = Ok true))
     | None =>
         forall l, In l (getAllPageObjects b) ->
           exists pom,
             Store.read (pageObjects b) l = Some pom
             /\ PageObjectModel.url pom <> url
             /\ (truthy_opt (PageObjectModel.urlPattern pom) = true ->
                 regexpTest B
                   (interpolate (PageObjectModel.urlPattern pom)) url
                 = Ok false)
     end.
Proof.
  unfold findPageObjectByUrl. intros H. injection H as H <-.
  split; [reflexivity|].
  pose proof (findPageObjectIn_sound B (pageObjects b) url
                (JsMap.values (pageObjectRepository b))) as Hsound.
  rewrite H in Hsound. exact Hsound.
Qed.

Lemma findPageObjectByUrl_answer_witness :
  afterFirstVisit fragmentBuiltins item42
  = afterFirstVisit fragmentBuiltins item42
  /\ In 0 (getAllPageObjects (afterFirstVisit fragmentBuiltins item42))
  /\ exists pom,
       Store.read (pageObjects (afterFirstVisit fragmentBuiltins item42)) 0
       = Some pom
       /\ (PageObjectModel.url pom = item99
           \/ (truthy_opt (PageObjectModel.urlPattern pom) = true
               /\ regexpTest fragmentBuiltins
                    (interpolate (PageObjectModel.urlPattern pom)) item99
                  = Ok true)).
Proof.
  apply (findPageObjectByUrl_answer fragmentBuiltins item99
           (afterFirstVisit fragmentBuiltins item42)
           (afterFirstVisit fragmentBuiltins item42) (Some 0)).
  reflexivity.
Defined.

(** ** A visit that fails early *)

(** X28: a visit whose navigation is rejected leaves the engine as it was,
    but for what the listener made of the frame navigations raised before
    the rejection. A visit whose overlay cannot be injected has, besides,
    already set the session's current URL: the session then names the new
    URL while its current page object and its element mappings are still
    those of the page before; the stores are untouched. In both cases the
    listener has recorded, if the session is recording, one [navigate]
    step and emitted one [stepRecorded] event per frame navigation; if
    the session is not recording or no frame navigated, it did nothing. *)
Theorem navigateAndAnalyze_rejected (B : Builtins) (sessionId url : string)
  (env : Env) (now : Z) (b : Builder.t) (s : Session.t) :
  JsMap.get (sessions b) sessionId = Some s ->
  (goto env url = false ->
   navigateAndAnalyze B sessionId url env now b
   = (Throw "page.goto: rejected",
      navigated sessionId (gotoNavigations env url) b))
  /\ (goto env url = true -> overlayOk env = false ->
      exists b' s',
        navigateAndAnalyze B sessionId url env now b
        = (Throw "Failed to inject overlay", b')
        /\ JsMap.get (sessions b') sessionId = Some s'
        /\ Session.currentUrl s' = url
        /\ Session.currentPageObject s' = Session.currentPageObject s
        /\ Session.elementMappings s' = Session.elementMappings s
        /\ Session.isRecording s' = Session.isRecording s
        /\ Session.recordedSteps s'
           = (Session.recordedSteps s
              ++ (if Session.isRecording s
                  then map navigateStep (gotoNavigations env url)
                  else []))%list
        /\ getActiveSessions b' = getActiveSessions b
        /\ pageObjectRepository b' = pageObjectRepository b
        /\ pageObjects b' = pageObjects b
        /\ elementObjects b' = elementObjects b
        /\ emitted b'
           = (emitted b
              ++ (if Session.isRecording s
                  then repeat ("stepRecorded", sessionId)
                         (List.length (gotoNavigations env url))
                  else []))%list)
  /\ (Session.isRecording s = false \/ gotoNavigations env url = [] ->
      navigated sessionId (gotoNavigations env url) b = b).
Proof.
  intros Hs.
  pose proof (navigated_session sessionId (gotoNavigations env url) b s Hs)
    as Hs1.
  destruct (navigated_fields sessionId (gotoNavigations env url) b)
    as (Hrepo & Hpages & Helements & _).
  split; [|split].
  - intros Hgoto. unfold navigateAndAnalyze. unfold bind at 1.
    rewrite (requireSession_found _ _ _ Hs).
    unfold bind at 1. rewrite framesNavigated_state.
    unfold bind at 1, await. now rewrite Hgoto.
  - intros Hgoto Hoverlay. unfold navigateAndAnalyze. unfold bind at 1.
    rewrite (requireSession_found _ _ _ Hs).
    unfold bind at 1. rewrite framesNavigated_state.
    unfold bind at 1, await at 1. rewrite Hgoto. unfold ret at 1.
    unfold bind at 1. rewrite (updateSession_found _ _ _ _ Hs1).
    unfold bind at 1, await at 1. rewrite Hoverlay. unfold throw.
    eexists. eexists. split; [reflexivity|].
    cbn [sessions set_sessions pageObjectRepository pageObjects
           elementObjects emitted].
    split; [apply get_set_same|].
    cbn [Session.currentUrl Session.currentPageObject Session.elementMappings
           Session.isRecording Session.recordedSteps Session.set_currentUrl].
    destruct (withNavigations_fields (gotoNavigations env url) s)
      as (_ & _ & Hpage & Hmappings & Hflag & _).
    repeat (split; [first [reflexivity | assumption]|]).
    split.
    { unfold withNavigations.
      destruct (Session.isRecording s); [reflexivity|]. now rewrite app_nil_r. }
    split.
    { unfold getActiveSessions. cbn [sessions set_sessions].
      rewrite (keys_set_known _ _ _ _ Hs1).
      unfold navigated. rewrite Hs.
      destruct (Session.isRecording s); [|reflexivity].
      cbn [sessions set_sessions set_emitted].
      now apply keys_set_known with s. }
    repeat (split; [assumption|]).
    unfold navigated. rewrite Hs.
    destruct (Session.isRecording s); [reflexivity|]. now rewrite app_nil_r.
  - intros [Hidle|Hnone].
    + unfold navigated. now rewrite Hs, Hidle.
    + rewrite Hnone. apply navigated_nil.
Qed.

Lemma navigateAndAnalyze_rejected_witness :
  (goto noOverlay item42 = false ->
   navigateAndAnalyze fragmentBuiltins "s1" item42 noOverlay 1800
     savingBuilder
   = (Throw "page.goto: rejected",
      navigated "s1" (gotoNavigations noOverlay item42) savingBuilder))
  /\ (goto noOverlay item42 = true -> overlayOk noOverlay = false ->
      exists b' s',
        navigateAndAnalyze fragmentBuiltins "s1" item42 noOverlay 1800
          savingBuilder
        = (Throw "Failed to inject overlay", b')
        /\ JsMap.get (sessions b') "s1" = Some s'
        /\ Session.currentUrl s' = item42
        /\ Session.currentPageObject s' = Some 0
        /\ Session.elementMappings s'
           = [("element-1700-0", 0); ("element-1700-1", 1)]
        /\ Session.isRecording s' = true
        /\ Session.recordedSteps s'
           = ([]
              ++ (if true
                  then map navigateStep (gotoNavigations noOverlay item42)
                  else []))%list
        /\ getActiveSessions b' = getActiveSessions savingBuilder
        /\ pageObjectRepository b' = pageObjectRepository savingBuilder
        /\ pageObjects b' = pageObjects savingBuilder
        /\ elementObjects b' = elementObjects savingBuilder
        /\ emitted b'
           = (emitted savingBuilder
              ++ (if true
                  then repeat ("stepRecorded", "s1")
                         (List.length (gotoNavigations noOverlay item42))
                  else []))%list)
  /\ (true = false \/ gotoNavigations noOverlay item42 = [] ->
      navigated "s1" (gotoNavigations noOverlay item42) savingBuilder
      = savingBuilder).
Proof.
  apply (navigateAndAnalyze_rejected fragmentBuiltins "s1" item42
           noOverlay 1800 savingBuilder recordingSession).
  reflexivity.
Defined.

(** The visit of the witness in numbers: the session is recording, the
    navigation raises one event, the overlay cannot be injected; the
    session has one [navigate] step and the new URL, and one event was
    emitted. *)
Example navigateAndAnalyze_without_overlay :
  let outcome :=
    navigateAndAnalyze fragmentBuiltins "s1" item42 noOverlay 1800
      savingBuilder in
  fst outcome = Throw "Failed to inject overlay"
  /\ map TestStep.action (recordedStepsOf "s1" (snd outcome)) = [ANavigate]
  /\ map TestStep.value (recordedStepsOf "s1" (snd outcome)) = [Some item42]
  /\ option_map Session.currentUrl (JsMap.get (sessions (snd outcome)) "s1")
     = Some item42
  /\ emitted (snd outcome) = [("stepRecorded", "s1")].
Proof. vm_compute. repeat split. Qed.

(** ** The overlay's messages *)

(** X29: the overlay's recording messages only flip the flag: the steps
    recorded earlier are kept, where [startRecording] clears them, and no
    event is emitted. Its action message appends one step, without an
    element, when the session is recording and is ignored otherwise. *)
Theorem sendToBackend_recorder (B : Builtins) (sessionId : string)
  (env : Env) (now : Z) (b : Builder.t) (s : Session.t) :
  JsMap.get (sessions b) sessionId = Some s ->
  let started :=
    snd (sendToBackend B sessionId TaRecordingStarted env now b) in
  let stopped :=
    snd (sendToBackend B sessionId TaRecordingStopped env now b) in
  isRecordingOf sessionId started = true
  /\ recordedStepsOf sessionId started = Session.recordedSteps s
  /\ emitted started = emitted b
  /\ isRecordingOf sessionId stopped = false
  /\ recordedStepsOf sessionId stopped = Session.recordedSteps s
  /\ emitted stopped = emitted b
  /\ recordedStepsOf sessionId (snd (startRecording sessionId now b)) = []
  /\ forall action selector,
       recordedStepsOf sessionId
         (snd (sendToBackend B sessionId (TaActionRecorded action selector)
                 env now b))
       = if Session.isRecording s
         then (Session.recordedSteps s
               ++ [overlayStep action selector now])%list
         else Session.recordedSteps s.
Proof.
  intros Hs started stopped.
  assert (Hflag : forall flag,
            updateSession sessionId (Session.set_isRecording flag) b
            = (Ok tt,
               set_sessions
                 (JsMap.set (sessions b) sessionId
                    (Session.set_isRecording flag s)) b)).
  { intros flag. now apply updateSession_found. }
  assert (Hstarted : started
            = set_sessions
                (JsMap.set (sessions b) sessionId
                   (Session.set_isRecording true s)) b).
  { unfold started, sendToBackend, bind, getSession, gets. rewrite Hs.
    now rewrite Hflag. }
  assert (Hstopped : stopped
            = set_sessions
                (JsMap.set (sessions b) sessionId
                   (Session.set_isRecording false s)) b).
  { unfold stopped, sendToBackend, bind, getSession, gets. rewrite Hs.
    now rewrite Hflag. }
  rewrite Hstarted, Hstopped.
  unfold isRecordingOf, recording, recordedStepsOf.
  cbn [sessions set_sessions emitted]. rewrite !get_set_same.
  repeat (split; [reflexivity|]).
  split.
  - pose proof (startRecording_resets sessionId now b s Hs) as Hreset.
    unfold recording in Hreset.
    destruct (JsMap.get (sessions (snd (startRecording sessionId now b)))
                sessionId) as [s'|]; [|discriminate].
    now injection Hreset as _ ->.
  - intros action selector.
    unfold sendToBackend, bind, getSession, gets. rewrite Hs.
    destruct (Session.isRecording s).
    + rewrite (updateSession_found _ _ _ _ Hs).
      unfold emit, modify. cbn [snd sessions set_sessions set_emitted].
      now rewrite get_set_same.
    + cbn [snd ret]. now rewrite Hs.
Qed.

Lemma sendToBackend_recorder_witness :
  let started :=
    snd (sendToBackend fragmentBuiltins "s1" TaRecordingStarted loginPage
           1750 recordedBuilder) in
  let stopped :=
    snd (sendToBackend fragmentBuiltins "s1" TaRecordingStopped loginPage
           1750 recordedBuilder) in
  isRecordingOf "s1" started = true
  /\ recordedStepsOf "s1" started = [fillEmailStep]
  /\ emitted started = emitted recordedBuilder
  /\ isRecordingOf "s1" stopped = false
  /\ recordedStepsOf "s1" stopped = [fillEmailStep]
  /\ emitted stopped = emitted recordedBuilder
  /\ recordedStepsOf "s1" (snd (startRecording "s1" 1750 recordedBuilder)) = []
  /\ forall action selector,
       recordedStepsOf "s1"
         (snd (sendToBackend fragmentBuiltins "s1"
                 (TaActionRecorded action selector) loginPage 1750
                 recordedBuilder))
       = if true
         then ([fillEmailStep] ++ [overlayStep action selector 1750])%list
         else [fillEmailStep].
Proof.
  apply (sendToBackend_recorder fragmentBuiltins "s1" loginPage 1750
           recordedBuilder
           {| Session.id := "s1";
              Session.currentUrl := "https://shop.example/login";
              Session.currentPageObject := Some 0;
              Session.recordedSteps := [fillEmailStep];
              Session.elementMappings :=
                [("element-1700-0", 0); ("element-1700-1", 1);
                 ("element-1730", 2)];
              Session.isRecording := true;
              Session.traceFile := None |}).
  reflexivity.
Defined.

(** ** The step an action returns *)




(** A click that takes the page elsewhere, while the session records: the
    listener's [navigate] step comes first, the click's step second. *)
Example perform_navigating_click :
  let outcome :=
    perform fragmentBuiltins "s1"
      (Click "#register" None, loginPage, 1740%Z) savingBuilder in
  succeeded (fst outcome) = true
  /\ map TestStep.action (recordedStepsOf "s1" (snd outcome))
     = [ANavigate; AClick]
  /\ map TestStep.value (recordedStepsOf "s1" (snd outcome))
     = [Some "https://shop.example/register"; None]
  /\ emitted (snd outcome) = [("stepRecorded", "s1"); ("stepRecorded", "s1")].
Proof. vm_compute. repeat split. Qed.

(** * The recording window *)

(** ** An action that nothing obstructs returns a step *)


Section Ready.

Variable sid : string.


















End Ready.

(** ** The window *)



